(* ===== verification/_CoqProject ===== *)
-Q . S2P
Prelude.v
CStrings.v
RingWindow.v
RingConcepts.v
SocketOps.v
PacketMmap.v
BpfFilter.v
TestConfig.v
App.v
Sim.v
Recorder.v
Hist.v
Apps.v
Dispatch.v
NapiConfig.v
AFXDP.v
AFXDPSetup.v
I210.v
I210Setup.v
Verbs.v
Resources.v
VerbsSetup.v
Files.v
PciHelpers.v
EfVi.v
EfViStamps.v
EfViTx.v
EfViPlus.v
EfViRx.v
EfViSetup.v
DPDKEal.v
DPDK.v
DPDKSetup.v
NicTuner.v
Bench.v
Runtime.v
Objects.v
Main.v
