(* ===== verification/Prelude.v ===== *)
(** * ABTRDA3 verification library

    ABTRDA3 (src/) measures network latency in user space: applications that send,
    reflect, receive and record numbered frames, generic over a transport, and transports
    over packet sockets, AF_XDP, a user-space driver of the Intel I210, RDMA verbs, EF_VI
    and DPDK.  This library models the C++ code as programs of a state monad over an explicit
    outside world and proves what the parts promise.

    ** Parts and files

    - [Prelude]: fixed-width integers, power-of-two masks, byte strings with loads and
      stores (a store outside its object has no result), the monad [M] whose runs end in a
      value, an exception, [abort], undefined behaviour or for want of fuel, loops,
      memory-mapped registers, automation.  [CStrings]: what the program uses of sscanf,
      strtol and printf.  [RingWindow]: windows of a circular array.
    - [RingConcepts] (backends/common/RingConcepts.hpp): the concepts TxRing and RxRing as
      type classes, and the contracts [TxContract] and [RxContract]: frames leave in order,
      each once, from a lent buffer that starts with the template; frames arrive in order,
      each once, and stay readable until released.  Every transport is an instance, every
      application is proved against the contracts alone.
    - [SocketOps], [PacketMmap] (backends/PacketMmap): the socket's lifecycle and the two
      TPACKET_V2 rings.  [BpfFilter] (backends/bpf, AF_XDP/af_xdp_kern.c): the eBPF programs.
    - [AFXDP], [AFXDPSetup] (backends/AF_XDP/AFXDP.hpp): the UMEM rings, and set-up with its
      bind ladder.  [NapiConfig] (backends/common/NapiConfig.hpp): netlink, ethtool, sysfs.
    - [I210], [I210Setup] (backends/IGBCustomPMD): descriptor rings, and the register
      sequences of bring-up.
    - [Verbs], [VerbsSetup] (backends/Verbs/Verbs.hpp): posting with signalled reaping, the
      receive and completion queues polled in memory, and [init] and [shutdown] over
      libibverbs with the dependencies of its objects ([Resources]: handles with the order
      in which they may be destroyed).
    - [EfVi] (backends/EtherFabricVirtualInterface): state, events and every operation of the
      ef_vi transport; [EfViTx], [EfViRx]: its two contracts; [EfViPlus]: the hand-rolled
      commit of the X2522Plus; [EfViStamps]: hardware time stamps; [EfViSetup]: [init] and
      [shutdown], and that [init] computes the layout the contracts assume.
    - [DPDKEal], [DPDK], [DPDKSetup] (backends/DPDK): the process-wide environment and its
      device lists, the bursts with the buffer that is used again, and the port's lifecycle.
    - [Files], [PciHelpers], [NicTuner] (backends/common): the file interface; the registers
      of the PCI helpers; what the tuner writes where.
    - [TestConfig], [App], [Sim], [Recorder], [Hist], [Apps] (app/): configuration and MAC
      parsing, the threads' shared state and pacing, a simulated world for the witnesses,
      the one-way recorder, the histogram thread, client, server, generator and sink.
      [Bench]: the recorder's three threads put together, over any transport that says what
      reaches the wire ([TxWire]).
    - [Dispatch] (app/TransportDispatch.hpp, TransportTraits.hpp): the traits of each
      transport, which is built, in which mode, and the order of preflight, construction, init,
      run and shutdown.  [Objects]: the classes' static assertions, and that every object
      the traits build is in the domain of the theorems on its rings.
    - [Runtime] (app/RuntimeSetup.hpp, backends/common/Profiling.hpp): cores, policies and
      watchdog of the threads, cycle statistics.  [Main] (src/test/main.cpp): the command line,
      and the program from there to its exit code.

    ** How state and concurrency are modelled

    An object's members are a record with the members' names; a method is a definition with
    its name in the monad over the object and the part of the world it touches.  A kernel or
    NIC that works at the same time is an arbitrary function [env], run before each access,
    whose effect is any number of steps of an inductive relation ([kstep], [tx_kstep],
    [nstep], ...) that states what that side may do; where the program goes through a library
    (libxdp, ibverbs, HdrHistogram, the system calls) the library's operations are a type class and
    its documented behaviour a second class of laws, with a simulated instance on which
    the witnesses run.  Threads see each other's writes through such functions, too.

    ** What the theorems show

    - Transports: first in, first out, each frame once and intact, for every schedule of the
      other side; the retry and reaping loops end; a full I210 transmit ring, an exhausted
      AF_XDP pool, a receive ring of at most 32 I210 descriptors and a verbs frame above the
      inline limit are shown to go wrong.
    - The recorder as a whole ([Bench.bench_accounts]): from the transmit thread over the
      wire to the counters and the histogram, each frame of the stream is received, lost or
      missing at the end, each sample recorded, dropped or counted as an overflow.
    - Applications: the recorder's receive thread refines a specification frame by frame, its
      gate equals the ideal gate on unbounded numbers, counters balance; the histogram loses no
      sample before the sentinel; client, server, generator and sink account for every frame.
    - Lifecycles: whatever call fails, set-up and shutdown leave no resource behind (and where
      the packet socket's constructor does, and DPDK's shutdown keeps its pool); the order of
      register accesses of the I210; DPDK's environment starts once; the PCI helpers stay
      inside the BAR; the tuner splits the interrupts and closes what it opens; the recorder's
      threads run on cores of their own; a run of [main] ends and closes what the tuners
      opened, and the second tuner of a --single run undoes what the first did.
    - Parsers and formats: the command line, MAC addresses, netlink messages, packet headers.

    ** Fuel and bounds

    Loops of the program that wait for another party take their number of polls as fuel and
    answer [NoFuel] when it runs out; theorems either hold for every fuel and say what a
    run that ended has done, or give the fuel that is enough.  Loops bounded in the source keep the
    source's bound.  Integers are kept at their width: [u8] to [u64] wrap where the code's
    types do, [sint] reads two's complement.

    ** Not modelled

    Messages (but the banners), sleeps without effect and prefetches; floating point (bounds derived from the clock
    rate are arguments); the code of submodules and libraries (PCIe back end, DMA buffers,
    libxdp, libbpf, HdrHistogram, fmt).  Memory ordering: the models are sequentially consistent, as the
    code's fences intend.
    Of DPDK's [init] what it only prints (burst modes, statistics), and the move assignment
    of an object to itself.  HistThread's printed report and Profiling's, and the calibration
    of the time stamp counter, are floating point.  Of compile-time alternatives the one the
    source selects is modelled: payload polling in EF_VI, profiling off.  The constants of I210Registers.hpp
    that no code uses are left out, like build files, scripts and patches. *)

From Stdlib Require Export ZArith Lia Bool String.
From stdpp Require Export base tactics option list relations gmap strings numbers.
Open Scope Z_scope.
Close Scope nat_scope.

Declare Scope abt_scope.
Delimit Scope abt_scope with abt.

(** ** Machine integers: values of a w-bit unsigned type are integers in
    [0, 2^w); arithmetic wraps with [wrap w]. *)

Definition wrap (w x : Z) : Z := x mod 2 ^ w.

Abbreviation u8 := (wrap 8).
Abbreviation u16 := (wrap 16).
Abbreviation u32 := (wrap 32).
Abbreviation u64 := (wrap 64).

(** The two's-complement reading of a w-bit word ([static_cast<intN_t>]). *)
Definition sint (w x : Z) : Z :=
  let y := wrap w x in if decide (y < 2 ^ (w - 1)) then y else y - 2 ^ w.

Definition in_u (w x : Z) : Prop := 0 <= x < 2 ^ w.

#[export] Instance in_u_dec w x : Decision (in_u w x).
Proof. unfold in_u. apply _. Defined.

Lemma wrap_range w x : 0 <= w -> in_u w (wrap w x).
Proof. intros. apply Z.mod_pos_bound, Z.pow_pos_nonneg; lia. Qed.

Lemma wrap_small w x : in_u w x -> wrap w x = x.
Proof. apply Z.mod_small. Qed.

Lemma wrap_wrap w x : wrap w (wrap w x) = wrap w x.
Proof. apply Zmod_mod. Qed.

Lemma wrap_add_l w x y : wrap w (wrap w x + y) = wrap w (x + y).
Proof. apply Zplus_mod_idemp_l. Qed.

Lemma wrap_add_r w x y : wrap w (x + wrap w y) = wrap w (x + y).
Proof. apply Zplus_mod_idemp_r. Qed.

Lemma wrap_sub_l w x y : wrap w (wrap w x - y) = wrap w (x - y).
Proof. apply Zminus_mod_idemp_l. Qed.

Lemma wrap_sub_r w x y : wrap w (x - wrap w y) = wrap w (x - y).
Proof. apply Zminus_mod_idemp_r. Qed.

(** A wrapped value is determined by its range and its congruence class. *)
Lemma wrap_unique w x y k : 0 <= w -> in_u w y -> x = y + k * 2 ^ w -> wrap w x = y.
Proof.
  intros Hw Hy ->. unfold wrap. rewrite Z_mod_plus_full. by apply Z.mod_small.
Qed.

Lemma sint_range w x : 0 < w -> - 2 ^ (w - 1) <= sint w x < 2 ^ (w - 1).
Proof.
  intros Hw. unfold sint. pose proof (wrap_range w x ltac:(lia)) as [? ?].
  assert (2 ^ w = 2 * 2 ^ (w - 1)) as He.
  { rewrite <- Z.pow_succ_r by lia. f_equal; lia. }
  case_decide; lia.
Qed.

(** Signed reinterpretation recovers any integer of the signed range. *)
Lemma sint_small w x :
  0 < w -> - 2 ^ (w - 1) <= x < 2 ^ (w - 1) -> sint w x = x.
Proof.
  intros Hw Hx. unfold sint.
  assert (2 ^ w = 2 * 2 ^ (w - 1)) as He.
  { rewrite <- Z.pow_succ_r by lia. f_equal; lia. }
  destruct (decide (0 <= x)).
  - rewrite (wrap_small w x) by (unfold in_u; lia). case_decide; lia.
  - rewrite (wrap_unique w x (x + 2 ^ w) (-1)) by (unfold in_u; lia).
    case_decide; lia.
Qed.

Lemma sint_wrap w x : sint w (wrap w x) = sint w x.
Proof. unfold sint. by rewrite wrap_wrap. Qed.

Lemma wrap_sint w x : wrap w (sint w x) = wrap w x.
Proof.
  unfold sint. case_decide.
  - apply wrap_wrap.
  - unfold wrap at 1. replace (wrap w x - 2 ^ w) with (wrap w x + (-1) * 2 ^ w) by lia.
    rewrite Z_mod_plus_full. apply wrap_wrap.
Qed.

Lemma lor_range w x y : 0 <= w -> in_u w x -> in_u w y -> in_u w (Z.lor x y).
Proof.
  intros Hw [Hx Hx'] [Hy Hy']. assert (0 <= Z.lor x y) by (by apply Z.lor_nonneg). split; [done|].
  apply Z.bounded_iff_bits_nonneg; [done|done|]. intros l Hl. rewrite Z.lor_spec.
  by rewrite (proj1 (Z.bounded_iff_bits_nonneg w x Hw Hx) Hx' l Hl), (proj1 (Z.bounded_iff_bits_nonneg w y Hw Hy) Hy' l Hl).
Qed.

(** ** Powers of two and ring masks: [x & (n - 1)]. *)

Definition is_pow2 (n : Z) : Prop := exists k, 0 <= k /\ n = 2 ^ k.

Lemma is_pow2_pos n : is_pow2 n -> 0 < n.
Proof. intros [k [? ->]]. apply Z.pow_pos_nonneg; lia. Qed.

Lemma land_mask n x : is_pow2 n -> Z.land x (n - 1) = x mod n.
Proof.
  intros [k [? ->]]. rewrite <- Z.land_ones by lia. f_equal. rewrite Z.ones_equiv. lia.
Qed.

Lemma land_mask_range n x : is_pow2 n -> 0 <= Z.land x (n - 1) < n.
Proof.
  intros Hn. rewrite land_mask by done. apply Z.mod_pos_bound. by apply is_pow2_pos.
Qed.

(** The C++ test [(n & (n - 1)) == 0] on a positive [n] recognises powers of two. *)
Definition pow2_test (n : Z) : bool := Z.land n (n - 1) =? 0.

Lemma pow2_test_sound n : 0 < n -> pow2_test n = true -> is_pow2 n.
Proof.
  intros Hn Ht. unfold pow2_test in Ht. apply Z.eqb_eq in Ht.
  exists (Z.log2 n). split; [apply Z.log2_nonneg|].
  pose proof (Z.log2_spec n Hn) as [Hlo Hhi].
  destruct (decide (n = 2 ^ Z.log2 n)) as [|Hne]; [done|exfalso].
  assert (Hb1 : Z.testbit n (Z.log2 n) = true) by (apply Z.bit_log2; lia).
  assert (Hb2 : Z.testbit (n - 1) (Z.log2 n) = true).
  { assert (Z.log2 (n - 1) = Z.log2 n) as <-.
    { apply Z.log2_unique; [apply Z.log2_nonneg|]. lia. }
    apply Z.bit_log2. pose proof (Z.pow_pos_nonneg 2 (Z.log2 n) ltac:(lia) (Z.log2_nonneg n)). lia. }
  assert (Z.testbit (Z.land n (n - 1)) (Z.log2 n) = true) as Hc.
  { rewrite Z.land_spec, Hb1, Hb2. done. }
  rewrite Ht, Z.bits_0 in Hc. done.
Qed.

Lemma is_pow2_divide_2pow n w : is_pow2 n -> n <= 2 ^ w -> 0 <= w -> (n | 2 ^ w).
Proof.
  intros [k [Hk ->]] Hle Hw.
  assert (k <= w) by (apply (Z.pow_le_mono_r_iff 2); lia).
  exists (2 ^ (w - k)). rewrite <- Z.pow_add_r by lia. f_equal; lia.
Qed.

(** A counter that wraps at [2^w] still indexes a power-of-two ring correctly. *)
Lemma mask_wrap n w x :
  is_pow2 n -> n <= 2 ^ w -> 0 <= w -> Z.land (wrap w x) (n - 1) = x mod n.
Proof.
  intros Hn Hle Hw. rewrite land_mask by done. unfold wrap.
  apply Z.mod_mod_divide. by apply is_pow2_divide_2pow.
Qed.

(** Two distinct offsets less than [n] apart fall into distinct ring slots. *)
Lemma mod_window_inj n x y :
  0 < n -> x mod n = y mod n -> - n < x - y < n -> x = y.
Proof.
  intros Hn Hm Hd.
  pose proof (Z.div_mod x n ltac:(lia)). pose proof (Z.div_mod y n ltac:(lia)).
  rewrite Hm in *. assert (x / n - y / n = 0) as Hq; [|nia].
  assert (x - y = n * (x / n - y / n)) by lia. nia.
Qed.

(** ** Bytes and buffers: a byte is an integer in [0, 256), a buffer is a list
    of bytes, integers are stored little-endian (the x86 host order). *)

Abbreviation bytes := (list Z).

Fixpoint le_encode (n : nat) (x : Z) : bytes :=
  match n with
  | O => []
  | S n => u8 x :: le_encode n (x / 256)
  end.

Fixpoint le_decode (bs : bytes) : Z :=
  match bs with
  | [] => 0
  | b :: bs => b + 256 * le_decode bs
  end.

Lemma length_le_encode n x : length (le_encode n x) = n.
Proof. revert x; induction n; intros; simpl; [done|]. by rewrite IHn. Qed.

Lemma le_decode_encode n x : le_decode (le_encode n x) = x mod 2 ^ (8 * Z.of_nat n).
Proof.
  revert x; induction n as [|n IH]; intros x; cbn [le_encode le_decode].
  - change (8 * Z.of_nat 0) with 0. by rewrite Z.mod_1_r.
  - rewrite IH. replace (8 * Z.of_nat (S n)) with (8 + 8 * Z.of_nat n) by lia.
    rewrite Z.pow_add_r by lia. change (2 ^ 8) with 256.
    pose proof (Z.pow_pos_nonneg 2 (8 * Z.of_nat n) ltac:(lia) ltac:(lia)).
    rewrite Z.rem_mul_r by lia.
    unfold wrap. change (2 ^ 8) with 256. lia.
Qed.

Definition is_bytes (bs : bytes) : Prop := Forall (in_u 8) bs.

#[export] Instance is_bytes_dec bs : Decision (is_bytes bs).
Proof. unfold is_bytes. apply _. Defined.

Lemma le_encode_is_bytes n x : is_bytes (le_encode n x).
Proof.
  revert x; induction n; intros; constructor; [|apply IHn]. by apply wrap_range.
Qed.

Lemma le_encode_decode bs : is_bytes bs -> le_encode (length bs) (le_decode bs) = bs.
Proof.
  induction 1 as [|b bs Hb _ IH]; [done|]. cbn [length le_encode le_decode].
  unfold in_u in Hb. change (2 ^ 8) with 256 in Hb.
  assert ((b + 256 * le_decode bs) / 256 = le_decode bs) as ->.
  { rewrite (Z.mul_comm 256), Z.div_add, Z.div_small by lia. lia. }
  rewrite IH. f_equal. unfold wrap. change (2 ^ 8) with 256.
  rewrite (Z.mul_comm 256), Z_mod_plus_full. by apply Z.mod_small.
Qed.

Lemma le_decode_range bs : is_bytes bs -> 0 <= le_decode bs < 2 ^ (8 * Z.of_nat (length bs)).
Proof.
  intros Hbs. rewrite <- (le_encode_decode bs Hbs) at 1 2.
  rewrite le_decode_encode. apply Z.mod_pos_bound, Z.pow_pos_nonneg; lia.
Qed.

Lemma le_decode_inj bs1 bs2 :
  is_bytes bs1 -> is_bytes bs2 -> length bs1 = length bs2 ->
  le_decode bs1 = le_decode bs2 -> bs1 = bs2.
Proof.
  intros H1 H2 Hl He. rewrite <- (le_encode_decode bs1 H1), <- (le_encode_decode bs2 H2).
  by rewrite Hl, He.
Qed.

Lemma le_encode_mod n x : le_encode n (x mod 2 ^ (8 * Z.of_nat n)) = le_encode n x.
Proof.
  rewrite <- le_decode_encode. rewrite <- (length_le_encode n x) at 1.
  apply le_encode_decode, le_encode_is_bytes.
Qed.

(** [htons]/[htonl] on a little-endian host: reverse the bytes of the word. *)
Definition bswap (n : nat) (x : Z) : Z := le_decode (rev (le_encode n x)).
Definition htons (x : Z) : Z := bswap 2 x.
Definition htonl (x : Z) : Z := bswap 4 x.
Definition ntohl (x : Z) : Z := bswap 4 x.

Lemma is_bytes_rev bs : is_bytes bs -> is_bytes (rev bs).
Proof. apply Forall_rev. Qed.

Lemma le_encode_bswap n x : le_encode n (bswap n x) = rev (le_encode n x).
Proof.
  unfold bswap. rewrite <- (length_le_encode n x) at 1. rewrite <- length_rev at 1.
  apply le_encode_decode, is_bytes_rev, le_encode_is_bytes.
Qed.

Lemma bswap_involutive n x : 0 <= x < 2 ^ (8 * Z.of_nat n) -> bswap n (bswap n x) = x.
Proof.
  intros Hx. unfold bswap at 1. rewrite le_encode_bswap, rev_involutive, le_decode_encode.
  by apply Z.mod_small.
Qed.

(** Loads and stores at a byte offset ([memcpy]). A store that would run past the
    end of the object is undefined behaviour in the program: it has no result. *)
Definition slice (off len : nat) (b : bytes) : bytes := take len (drop off b).

Definition load (off len : nat) (b : bytes) : option bytes :=
  if decide (off + len <= length b)%nat then Some (slice off len b) else None.

Definition store (off : nat) (src b : bytes) : option bytes :=
  if decide (off + length src <= length b)%nat
  then Some (list_inserts off src b) else None.

Lemma length_store off src b b' : store off src b = Some b' -> length b' = length b.
Proof. unfold store. case_decide; intros; simplify_eq. apply length_inserts. Qed.

Lemma store_Some off src b :
  (off + length src <= length b)%nat -> store off src b = Some (list_inserts off src b).
Proof. intros. unfold store. by rewrite decide_True. Qed.

Lemma length_slice off len b : (off + len <= length b)%nat -> length (slice off len b) = len.
Proof. intros. unfold slice. rewrite length_take, length_drop. lia. Qed.

Lemma inserts_split off src (b : bytes) :
  (off + length src <= length b)%nat ->
  list_inserts off src b = take off b ++ src ++ drop (off + length src) b.
Proof.
  intros Hl. apply list_eq. intros i.
  destruct (decide (i < off)%nat).
  { rewrite list_lookup_inserts_lt by lia.
    rewrite lookup_app_l by (rewrite length_take; lia). by rewrite lookup_take_lt by lia. }
  rewrite lookup_app_r by (rewrite length_take; lia).
  rewrite length_take, Nat.min_l by lia.
  destruct (decide (i < off + length src)%nat).
  { rewrite list_lookup_inserts by lia. by rewrite lookup_app_l by lia. }
  rewrite list_lookup_inserts_ge by lia. rewrite lookup_app_r by lia.
  rewrite lookup_drop. f_equal. lia.
Qed.

(** Reading back exactly what was stored, and what a store leaves alone. *)
Lemma slice_inserts_eq off src b :
  (off + length src <= length b)%nat -> slice off (length src) (list_inserts off src b) = src.
Proof.
  intros. rewrite inserts_split by done. unfold slice.
  rewrite drop_app_length' by (rewrite length_take; lia). by rewrite take_app_length.
Qed.

Lemma slice_inserts_before off src b o l :
  (off + length src <= length b)%nat -> (o + l <= off)%nat ->
  slice o l (list_inserts off src b) = slice o l b.
Proof.
  intros. unfold slice. apply list_eq. intros i.
  destruct (decide (i < l)%nat).
  - rewrite !lookup_take_lt, !lookup_drop by done. by rewrite list_lookup_inserts_lt by lia.
  - by rewrite !lookup_take_ge by lia.
Qed.

Lemma slice_inserts_after off src b o l :
  (off + length src <= length b)%nat -> (off + length src <= o)%nat ->
  slice o l (list_inserts off src b) = slice o l b.
Proof.
  intros. unfold slice. apply list_eq. intros i.
  destruct (decide (i < l)%nat).
  - rewrite !lookup_take_lt, !lookup_drop by done. by rewrite list_lookup_inserts_ge by lia.
  - by rewrite !lookup_take_ge by lia.
Qed.

Lemma slice_slice b n k l (m : bytes) : (k + l <= n)%nat -> slice k l (slice b n m) = slice (b + k) l m.
Proof. intros Hk. unfold slice. rewrite skipn_firstn_comm, take_take, drop_drop, Nat.min_l by lia. done. Qed.

(** A part of what was stored. *)
Lemma slice_inserts_part off src b k l :
  (off + length src <= length b)%nat -> (k + l <= length src)%nat -> slice (off + k) l (list_inserts off src b) = slice k l src.
Proof. intros Hl Hk. rewrite <- (slice_slice off (length src)) by done. by rewrite slice_inserts_eq. Qed.

Lemma is_bytes_inserts off src b : is_bytes src -> is_bytes b -> is_bytes (list_inserts off src b).
Proof. intros. by apply Forall_inserts. Qed.

Lemma is_bytes_slice off len b : is_bytes b -> is_bytes (slice off len b).
Proof. intros. by apply Forall_take, Forall_drop. Qed.

(** A prefix no longer than [n] is a prefix of the first [n] elements. *)
Lemma prefix_take_le {A} (h l : list A) n :
  h `prefix_of` l -> (length h <= n)%nat -> h `prefix_of` take n l.
Proof. intros [k ->] Hn. rewrite take_app_ge by done. by apply prefix_app_r. Qed.

(** Storing into the first [n] bytes only. *)
Lemma inserts_take off src n (b : bytes) :
  (off + length src <= n)%nat -> (n <= length b)%nat ->
  list_inserts off src (take n b) = take n (list_inserts off src b).
Proof.
  intros Ho Hn. apply list_eq. intros i. destruct (decide (i < n)%nat).
  2: { rewrite lookup_take_ge by lia. apply lookup_ge_None_2. rewrite length_inserts, length_take. lia. }
  rewrite lookup_take_lt by done. destruct (decide (i < off)%nat).
  { rewrite !list_lookup_inserts_lt by lia. by rewrite lookup_take_lt. }
  destruct (decide (i < off + length src)%nat).
  { rewrite !list_lookup_inserts by (rewrite ?length_take; lia). done. }
  rewrite !list_lookup_inserts_ge by lia. by rewrite lookup_take_lt.
Qed.

(** A store into a prefix of a buffer is the same store into the buffer. *)
Lemma store_prefix off src b b' l :
  store off src b = Some b' -> b `prefix_of` l ->
  exists l', store off src l = Some l' /\ b' `prefix_of` l' /\ length l' = length l.
Proof.
  unfold store. intros Hs [k ->]. case_decide as Hb; simplify_eq.
  rewrite decide_True by (rewrite length_app; lia). eexists. split; [done|].
  split; [|by rewrite length_inserts].
  rewrite !inserts_split by (rewrite ?length_app; lia).
  rewrite take_app_le, drop_app_le by lia. exists k. by rewrite !app_assoc.
Qed.

(** A store behind a prefix keeps it. *)
Lemma store_keeps_prefix h off src b b' :
  h `prefix_of` b -> (length h <= off)%nat -> store off src b = Some b' -> h `prefix_of` b'.
Proof.
  intros [k ->] Ho Hs. unfold store in Hs. case_decide; [|done]. simplify_eq.
  rewrite inserts_split by done. rewrite take_app_ge by lia. rewrite <- app_assoc. by apply prefix_app_r.
Qed.

(** A filter that keeps everything, or nothing. *)
Lemma filter_all {A} (P : A -> Prop) `{forall x, Decision (P x)} (l : list A) : (forall x, x ∈ l -> P x) -> filter P l = l.
Proof.
  induction l as [|x l IH]; [done|]. intros Hl. rewrite filter_cons_True by (apply Hl; by left). f_equal. apply IH. intros y Hy. apply Hl. by right.
Qed.

Lemma filter_none {A} (P : A -> Prop) `{forall x, Decision (P x)} (l : list A) : (forall x, x ∈ l -> ~ P x) -> filter P l = [].
Proof.
  induction l as [|x l IH]; [done|]. intros Hl. rewrite filter_cons_False by (apply Hl; by left). apply IH. intros y Hy. apply Hl. by right.
Qed.

(** ** Effectful code: a state monad over the outside world [W] whose runs end
    normally, with a C++ exception, in [std::abort], in undefined behaviour or
    without an answer (a loop that used up the polls it was given). *)

Inductive outcome (A : Type) : Type :=
  | Done (a : A)
  | Throw (msg : string)
  | Abort
  | Undef
  | NoFuel.
Arguments Done {A} a.
Arguments Throw {A} msg.
Arguments Abort {A}.
Arguments Undef {A}.
Arguments NoFuel {A}.

Definition M (W A : Type) : Type := W -> outcome A * W.

Section Monad.
Context {W : Type}.

Definition raise {A} (o : outcome A) : M W A := fun w => (o, w).
Definition get : M W W := fun w => (Done w, w).
Definition put (w : W) : M W unit := fun _ => (Done tt, w).
Definition modify (f : W -> W) : M W unit := fun w => (Done tt, f w).
Definition gets {A} (f : W -> A) : M W A := fun w => (Done (f w), w).
(** An operation of the outside world that always answers. *)
Definition lift {A} (f : W -> A * W) : M W A :=
  fun w => let '(a, w') := f w in (Done a, w').

Definition recast {A B} (o : outcome A) : outcome B :=
  match o with
  | Done _ => Undef
  | Throw m => Throw m
  | Abort => Abort
  | Undef => Undef
  | NoFuel => NoFuel
  end.

#[export] Instance M_ret : MRet (M W) := fun A a w => (Done a, w).
#[export] Instance M_bind : MBind (M W) := fun A B f m w =>
  match m w with
  | (Done a, w') => f a w'
  | (o, w') => (recast o, w')
  end.

Lemma run_bind {A B} (m : M W A) (f : A -> M W B) w a w' :
  m w = (Done a, w') -> (m ≫= f) w = f a w'.
Proof. unfold mbind, M_bind. by intros ->. Qed.

Lemma run_modify {B} (f : W -> W) (k : unit -> M W B) w : (modify f ≫= k) w = k tt (f w).
Proof. done. Qed.

Lemma run_gets {A B} (f : W -> A) (k : A -> M W B) w : (gets f ≫= k) w = k (f w) w.
Proof. done. Qed.

Lemma run_get {B} (k : W -> M W B) w : (get ≫= k) w = k w w.
Proof. done. Qed.

Lemma bind_ret_l {A B} (a : A) (f : A -> M W B) w : (mret a ≫= f) w = f a w.
Proof. done. Qed.

Lemma bind_assoc {A B C} (m : M W A) (f : A -> M W B) (g : B -> M W C) w :
  ((m ≫= f) ≫= g) w = (m ≫= fun a => f a ≫= g) w.
Proof. unfold mbind, M_bind. by destruct (m w) as [[] ?]. Qed.

Lemma run_bind_in {A B C} (m : M W A) (f : A -> M W B) (g : B -> M W C) w b w' :
  (m ≫= f) w = (Done b, w') -> (m ≫= fun a => f a ≫= g) w = g b w'.
Proof. intros E. rewrite <- bind_assoc. by apply run_bind. Qed.

(** [for (i = first; i < first + n; i++) if (body i) break;] *)
Fixpoint poll {A} (n : nat) (i : Z) (body : Z -> M W (option A)) : M W (option A) :=
  match n with
  | O => mret None
  | S n => r ← body i; match r with Some a => mret (Some a) | None => poll n (i + 1) body end
  end.

(** [for (i = first; i < first + n; i++) body i;] *)
Fixpoint for_loop (n : nat) (i : Z) (body : Z -> M W unit) : M W unit :=
  match n with
  | O => mret tt
  | S n => _ ← body i; for_loop n (i + 1) body
  end.

(** [for (x : xs) body x;] *)
Fixpoint for_each {A} (xs : list A) (body : A -> M W unit) : M W unit :=
  match xs with
  | [] => mret tt
  | x :: xs => _ ← body x; for_each xs body
  end.

(** A bounded poll stops at the first answer and asks at most [n] times. *)
Lemma poll_first {A} n i (body : Z -> M W (option A)) w a w' :
  body i w = (Done (Some a), w') -> poll (S n) i body w = (Done (Some a), w').
Proof. intros H. cbn [poll]. by rewrite (run_bind _ _ _ _ _ H). Qed.

Lemma poll_next {A} n i (body : Z -> M W (option A)) w w' :
  body i w = (Done None, w') -> poll (S n) i body w = poll n (i + 1) body w'.
Proof. intros H. cbn [poll]. by rewrite (run_bind _ _ _ _ _ H). Qed.
End Monad.

(** ** Total triples: from a world that satisfies [P] the program answers, normally, and
    [Q] holds of the answer and the world it leaves. *)
Definition triple {W A} (P : W -> Prop) (m : M W A) (Q : A -> W -> Prop) : Prop :=
  forall w, P w -> exists a w', m w = (Done a, w') /\ Q a w'.

Section Triple.
Context {W : Type}.
Implicit Types (P : W -> Prop).

Lemma triple_ret {A} P (a : A) (Q : A -> W -> Prop) : (forall w, P w -> Q a w) -> triple P (mret a) Q.
Proof. intros H w Hw. exists a, w. split; [done|]. by apply H. Qed.

Lemma triple_bind {A B} P (m : M W A) (R : A -> W -> Prop) (f : A -> M W B) (Q : B -> W -> Prop) :
  triple P m R -> (forall a, triple (R a) (f a) Q) -> triple P (m ≫= f) Q.
Proof. intros Hm Hf w Hw. destruct (Hm w Hw) as (a & w' & E & Ha). rewrite (run_bind _ _ _ _ _ E). by apply Hf. Qed.

Lemma triple_gets {A B} P (g : W -> A) (f : A -> M W B) (Q : B -> W -> Prop) :
  (forall w0, P w0 -> triple (fun w => w = w0) (f (g w0)) Q) -> triple P (gets g ≫= f) Q.
Proof. intros H w Hw. rewrite run_gets. by apply (H w Hw). Qed.

Lemma triple_conseq {A} P P' (m : M W A) (Q Q' : A -> W -> Prop) :
  (forall w, P w -> P' w) -> (forall a w, Q' a w -> Q a w) -> triple P' m Q' -> triple P m Q.
Proof. intros HP HQ Hm w Hw. destruct (Hm w (HP w Hw)) as (a & w' & E & Ha). eauto 6. Qed.

Lemma triple_if {A} P (b : bool) (m n : M W A) Q : (b = true -> triple P m Q) -> (b = false -> triple P n Q) -> triple P (if b then m else n) Q.
Proof. destruct b; auto. Qed.

(** A loop whose body takes the invariant of one element to that of the next. *)
Lemma triple_for_each {A} (xs : list A) (body : A -> M W unit) (I : list A -> W -> Prop) :
  (forall x ys, triple (I (x :: ys)) (body x) (fun _ => I ys)) -> triple (I xs) (for_each xs body) (fun _ => I []).
Proof.
  intros Hb. induction xs as [|x xs IH]; [by apply triple_ret|]. cbn [for_each]. eapply triple_bind; [apply Hb|]. by intros [].
Qed.

Lemma triple_for_loop n i (body : Z -> M W unit) (I : Z -> W -> Prop) :
  (forall j, i <= j < i + Z.of_nat n -> triple (I j) (body j) (fun _ => I (j + 1))) ->
  triple (I i) (for_loop n i body) (fun _ => I (i + Z.of_nat n)).
Proof.
  revert i; induction n as [|n IH]; intros i Hb; cbn [for_loop].
  { apply triple_ret. intros w. by rewrite Z.add_0_r. }
  eapply triple_bind; [apply Hb; lia|]. intros []. replace (i + Z.of_nat (S n)) with (i + 1 + Z.of_nat n) by lia.
  apply IH. intros j Hj. apply Hb. lia.
Qed.
End Triple.

(** Run a program on one part of the world. *)
Definition zoom {W T A} (get_part : W -> T) (set_part : T -> W -> W) (m : M T A) : M W A :=
  fun w => let '(o, t) := m (get_part w) in (o, set_part t w).

(** A memory-mapped register file of the device: reads may have side effects
    (read-to-clear registers), so they return a new device state. *)
Class Mmio (D : Type) := {
  reg_read : Z -> D -> Z * D;
  reg_write : Z -> Z -> D -> D;
}.

(** ** Reachability in a step relation: an invariant of the steps holds in every
    reachable state. *)
Lemma rtc_invariant {S : Type} (R : S -> S -> Prop) (Inv : S -> Prop) :
  (forall s s', Inv s -> R s s' -> Inv s') -> forall s s', rtc R s s' -> Inv s -> Inv s'.
Proof. intros Hp s s' Hr. induction Hr; eauto. Qed.

(** ** Automation *)

Create HintDb abt discriminated.
#[export] Hint Resolve wrap_range is_pow2_pos le_encode_is_bytes land_mask_range : abt.
#[export] Hint Rewrite length_le_encode @length_inserts wrap_wrap : abt.

(** Decide every comparison the goal branches on. *)
Ltac case_all :=
  repeat (case_match || case_decide); simplify_eq/=; try lia; try done.

(** lia with div and mod made linear. *)
Ltac dlia := Z.div_mod_to_equations; lia.
Ltac dnia := Z.div_mod_to_equations; nia.

(** Split a record equality into its fields. *)
Ltac solve_record := by (f_equal; try done; try lia).

(** Prove a decidable closed fact by evaluating its decision procedure. *)
Ltac by_decision := apply (bool_decide_unpack _); vm_compute; exact I.
