(* ===== verification/CStrings.v ===== *)
(** * C library text conversions

    What the program uses of [sscanf], [strtol], [atoi] and [printf]: white space, digits,
    decimal and hexadecimal numbers, and C strings as NUL-terminated bytes. *)

From Stdlib Require Import Ascii.
From S2P Require Import Prelude.

Definition isspace (c : ascii) : bool :=
  let n := Z.of_nat (nat_of_ascii c) in (n =? 32) || ((9 <=? n) && (n <=? 13)).

Fixpoint skip_space (s : string) : string :=
  match s with
  | String c s' => if isspace c then skip_space s' else s
  | EmptyString => s
  end.

Definition hex_digit (c : ascii) : option Z :=
  let n := Z.of_nat (nat_of_ascii c) in
  if (48 <=? n) && (n <=? 57) then Some (n - 48)
  else if (97 <=? n) && (n <=? 102) then Some (n - 87)
  else if (65 <=? n) && (n <=? 70) then Some (n - 55)
  else None.

(** The longest run of hex digits; the value saturates like [strtoul]. *)
Fixpoint hex_digits (acc : Z) (s : string) : Z * string :=
  match s with
  | String c s' =>
      match hex_digit c with
      | Some d => hex_digits (Z.min (16 * acc + d) (2 ^ 64 - 1)) s'
      | None => (acc, s)
      end
  | EmptyString => (acc, s)
  end.

Definition one_or_more_hex (s : string) : option (Z * string) :=
  match s with
  | String c _ => match hex_digit c with Some _ => Some (hex_digits 0 s) | None => None end
  | EmptyString => None
  end.

(** The optional 0x prefix. *)
Definition skip_0x (s : string) : string :=
  match s with
  | String "0" (String "x" s') | String "0" (String "X" s') => s'
  | _ => s
  end%char.

(** ** Decimal numbers *)

Definition digit (c : ascii) : option Z :=
  let n := Z.of_nat (nat_of_ascii c) in if (48 <=? n) && (n <=? 57) then Some (n - 48) else None.

Definition digit_char (d : Z) : ascii := ascii_of_nat (Z.to_nat (48 + d)).

(** The longest run of decimal digits. *)
Fixpoint dec_digits (acc : Z) (s : string) : Z * string :=
  match s with
  | String c s' => match digit c with Some d => dec_digits (10 * acc + d) s' | None => (acc, s) end
  | EmptyString => (acc, s)
  end.

Definition saturate (lo hi x : Z) : Z := Z.max lo (Z.min hi x).

(** [strtol(s, &end, 10)]: no result when no conversion is possible. *)
Definition strtol10 (s : string) : option (Z * string) :=
  let conv (neg : bool) (s : string) :=
    match s with
    | String c _ =>
        match digit c with
        | Some _ => let '(v, r) := dec_digits 0 s in
                    Some (saturate (- 2 ^ 63) (2 ^ 63 - 1) (if neg then - v else v), r)
        | None => None
        end
    | EmptyString => None
    end in
  match skip_space s with
  | String "-"%char s' => conv true s'
  | String "+"%char s' => conv false s'
  | s' => conv false s'
  end%char.

Definition strtol10_value (s : string) : Z := match strtol10 s with Some (v, _) => v | None => 0 end.
Definition atoi (s : string) : Z := sint 32 (strtol10_value s).

(** [printf("%llu")], [printf("%d")] *)
Fixpoint dec_go (n : nat) (x : Z) (acc : string) : string :=
  match n with
  | O => acc
  | S n => let acc := String (digit_char (x mod 10)) acc in if x <? 10 then acc else dec_go n (x / 10) acc
  end.

Definition dec (x : Z) : string :=
  if x <? 0 then String "-" (dec_go (S (Z.to_nat (Z.log2 (- x)))) (- x) "")
  else dec_go (S (Z.to_nat (Z.log2 x))) x "".

(** A C string in memory, with its terminating NUL. *)
Definition str_bytes (s : string) : bytes :=
  (fun c => Z.of_nat (nat_of_ascii c)) <$> list_ascii_of_string s.
Definition c_str (s : string) : bytes := (str_bytes s ++ [0])%list.

Lemma digit_digit_char d : 0 <= d < 10 -> digit (digit_char d) = Some d.
Proof.
  intros Hd. rewrite <- (Z2Nat.id d) by lia. assert (Z.to_nat d < 10)%nat as Hn by lia.
  revert Hn. generalize (Z.to_nat d). intros n Hn. do 10 (destruct n as [|n]; [reflexivity|]). lia.
Qed.

Lemma dec_digits_go n : forall x s, 0 <= x < 2 ^ Z.of_nat (S n) ->
  exists k, 0 <= k /\ forall a, dec_digits a (dec_go (S n) x s) = dec_digits (10 ^ k * a + x) s.
Proof.
  induction n as [|n IH]; intros x s Hx.
  - exists 1. split; [lia|]. intros a. change (2 ^ Z.of_nat 1) with 2 in Hx. cbn [dec_go].
    replace (x <? 10) with true by (symmetry; apply Z.ltb_lt; lia). cbn [dec_digits].
    rewrite Z.mod_small by lia. rewrite digit_digit_char by lia. by rewrite Z.pow_1_r.
  - cbn [dec_go]. destruct (Z.ltb_spec x 10).
    + exists 1. split; [lia|]. intros a. cbn [dec_digits]. rewrite Z.mod_small by lia.
      rewrite digit_digit_char by lia. by rewrite Z.pow_1_r.
    + destruct (IH (x / 10) (String (digit_char (x mod 10)) s)) as (k & Hk & He).
      { rewrite (Nat2Z.inj_succ (S n)), Z.pow_succ_r in Hx by lia. dlia. }
      exists (k + 1). split; [lia|]. intros a. cbn [dec_go] in He. rewrite He. cbn [dec_digits].
      rewrite digit_digit_char by (apply Z.mod_pos_bound; lia). f_equal.
      rewrite Z.pow_add_r, Z.pow_1_r by lia. pose proof (Z.div_mod x 10 ltac:(lia)). lia.
Qed.

Lemma dec_first x : 0 <= x -> exists d s, 0 <= d < 10 /\ dec x = String (digit_char d) s.
Proof.
  intros Hx. unfold dec. rewrite (proj2 (Z.ltb_ge x 0)) by lia.
  assert (forall n x s, 0 <= x -> exists d s', 0 <= d < 10 /\ dec_go (S n) x s = String (digit_char d) s') as Hg.
  { clear x Hx. induction n as [|n IH]; intros x s Hx; cbn [dec_go]; (destruct (x <? 10); [|cbn [dec_go] in *]);
      try (eexists _, _; split; [apply Z.mod_pos_bound; lia|done]). apply IH. by apply Z.div_pos. }
  by apply Hg.
Qed.

Lemma log2_fuel x : 0 <= x -> 0 <= x < 2 ^ Z.of_nat (S (Z.to_nat (Z.log2 x))).
Proof.
  intros Hx. rewrite Nat2Z.inj_succ, Z2Nat.id by apply Z.log2_nonneg. split; [lia|].
  destruct (decide (x = 0)) as [->|]; [done|]. pose proof (Z.log2_spec x ltac:(lia)). lia.
Qed.

Lemma strtol10_digit c t d :
  digit c = Some d ->
  strtol10 (String c t) = (let '(v, r) := dec_digits 0 (String c t) in Some (saturate (- 2 ^ 63) (2 ^ 63 - 1) v, r)).
Proof.
  intros Hd. destruct c as [[] [] [] [] [] [] [] []]; vm_compute in Hd; try discriminate Hd; reflexivity.
Qed.

(** A printed number is read back, whatever non-digit follows it. *)
Lemma dec_go_app n : forall x s t, (dec_go n x s ++ t = dec_go n x (s ++ t))%string.
Proof. induction n as [|n IH]; intros x s t; cbn [dec_go]; [done|]. destruct (x <? 10); [done|]. by rewrite IH. Qed.

Lemma strtol10_dec x rest :
  0 <= x < 2 ^ 63 -> match rest with String c _ => digit c = None | EmptyString => True end ->
  strtol10 (dec x ++ rest) = Some (x, rest).
Proof.
  intros Hx Hr. destruct (dec_first x) as (d & s & Hd & He); [lia|].
  assert (dec_digits 0 (dec x ++ rest) = (x, rest)) as Hdig.
  { unfold dec. rewrite (proj2 (Z.ltb_ge x 0)) by lia. rewrite dec_go_app. cbn [String.append].
    destruct (dec_digits_go (Z.to_nat (Z.log2 x)) x rest) as (k & _ & Hk); [apply log2_fuel; lia|].
    rewrite Hk, Z.mul_0_r, Z.add_0_l. destruct rest as [|c r]; [done|]. cbn [dec_digits]. by rewrite Hr. }
  rewrite He in *. change ((String (digit_char d) s +:+ rest)%string) with (String (digit_char d) (s +:+ rest)%string) in *.
  rewrite (strtol10_digit _ _ d) by (by apply digit_digit_char). rewrite Hdig. do 2 f_equal. unfold saturate. lia.
Qed.
