(* ===== verification/RingWindow.v ===== *)
(** * Windows of a circular array

    Every transport keeps two free-running positions into an array of [n] slots,
    a consumer's [lo] and a producer's [hi] with [lo <= hi <= lo + n].  The slots
    at positions [lo .. hi) modulo [n] are one side's, the rest the other's.  The
    lemmas here say how a window changes when one slot is updated. *)

From S2P Require Import Prelude.

Section Window.
Context {A : Type}.
Implicit Types (l : list A) (P Q : A -> Prop).

(** Position [j] of the free-running counter in an array of [n] slots. *)
Definition pos (n j : Z) : nat := Z.to_nat (j mod n).

(** Every slot of the positions [lo, hi) satisfies [P]. *)
Definition window P (n lo hi : Z) l : Prop :=
  forall j, lo <= j < hi -> exists a, l !! pos n j = Some a /\ P a.

(** The contents of the positions [lo, lo + k), in order. *)
Definition window_list {B} (f : A -> B) (n lo : Z) (k : nat) l : list B :=
  omap (fun i => f <$> l !! pos n (lo + Z.of_nat i)) (List.seq 0 k).

Lemma pos_lt n j l : 0 < n -> n = Z.of_nat (length l) -> (pos n j < length l)%nat.
Proof. intros Hn ->. unfold pos. pose proof (Z.mod_pos_bound j _ Hn). lia. Qed.

Lemma pos_inj n i j : 0 < n -> - n < i - j < n -> pos n i = pos n j -> i = j.
Proof.
  intros Hn Hd He. unfold pos in He.
  pose proof (Z.mod_pos_bound i n Hn). pose proof (Z.mod_pos_bound j n Hn).
  apply (mod_window_inj n); [done|lia|done].
Qed.

Lemma pos_ne n i j : 0 < n -> - n < i - j < n -> i <> j -> pos n i <> pos n j.
Proof. intros ??? He. by eapply pos_inj in He. Qed.

Lemma pos_add_n n j : 0 < n -> pos n (j + n) = pos n j.
Proof. intros. unfold pos. f_equal. rewrite <- (Z.mul_1_l n) at 1. by rewrite Z_mod_plus_full. Qed.

Lemma window_mono P n lo hi lo' hi' l :
  window P n lo hi l -> lo <= lo' -> hi' <= hi -> window P n lo' hi' l.
Proof. intros Hw ?? j Hj. apply Hw. lia. Qed.

Lemma window_impl P Q n lo hi l :
  (forall a, P a -> Q a) -> window P n lo hi l -> window Q n lo hi l.
Proof. intros Hpq Hw j Hj. destruct (Hw j Hj) as (a & ? & ?). eauto. Qed.

Lemma window_empty P n lo hi l : hi <= lo -> window P n lo hi l.
Proof. intros ? j ?. lia. Qed.

Lemma window_join P n lo mid hi l :
  window P n lo mid l -> window P n mid hi l -> window P n lo hi l.
Proof. intros H1 H2 j Hj. destruct (decide (j < mid)); [apply H1|apply H2]; lia. Qed.

(** Updating a slot outside the window leaves the window alone. *)
Lemma window_insert_out P n lo hi j a l :
  0 < n -> (forall i, lo <= i < hi -> i <> j /\ - n < i - j < n) ->
  window P n lo hi l -> window P n lo hi (<[pos n j := a]> l).
Proof.
  intros Hn Ho Hw i Hi. destruct (Hw i Hi) as (b & Hb & HP). exists b. split; [|done].
  destruct (Ho i Hi). rewrite list_lookup_insert_ne; [done|].
  apply not_eq_sym, pos_ne; done.
Qed.

(** Updating a slot to something that satisfies the predicate keeps it. *)
Lemma window_insert_any P n lo hi j a l :
  P a -> window P n lo hi l -> window P n lo hi (<[pos n j := a]> l).
Proof.
  intros HP Hw i Hi. destruct (Hw i Hi) as (b & Hb & HPb).
  destruct (decide (pos n j = pos n i)) as [He|Hne].
  - exists a. rewrite He. split; [|done]. apply list_lookup_insert_eq.
    by apply lookup_lt_Some in Hb.
  - exists b. by rewrite list_lookup_insert_ne.
Qed.

Lemma window_insert_index P n lo hi i a l :
  P a -> window P n lo hi l -> window P n lo hi (<[i := a]> l).
Proof.
  intros HP Hw j Hj. destruct (Hw j Hj) as (b & Hb & HPb).
  destruct (decide (i = pos n j)) as [->|Hne].
  - exists a. split; [|done]. apply list_lookup_insert_eq. by apply lookup_lt_Some in Hb.
  - exists b. by rewrite list_lookup_insert_ne.
Qed.

(** The producer's step: fill the slot at [hi] and advance. *)
Lemma window_push P n lo hi a l :
  0 < n -> n = Z.of_nat (length l) -> lo <= hi < lo + n -> P a ->
  window P n lo hi l -> window P n lo (hi + 1) (<[pos n hi := a]> l).
Proof.
  intros Hn Hl Hh HP Hw. apply (window_join P n lo hi).
  - apply window_insert_out; [done| |done]. intros i Hi; lia.
  - intros j Hj. assert (j = hi) as -> by lia. exists a. split; [|done].
    apply list_lookup_insert_eq. by apply pos_lt.
Qed.

Lemma window_list_S {B} (f : A -> B) n lo k l a :
  l !! pos n (lo + Z.of_nat k) = Some a ->
  window_list f n lo (S k) l = window_list f n lo k l ++ [f a].
Proof.
  intros Ha. unfold window_list. rewrite List.seq_S, omap_app. cbn. by rewrite Ha.
Qed.

Lemma window_list_head {B} (f : A -> B) n lo k l a :
  l !! pos n lo = Some a ->
  window_list f n lo (S k) l = f a :: window_list f n (lo + 1) k l.
Proof.
  intros Ha. unfold window_list. cbn [List.seq omap list_omap].
  rewrite Z.add_0_r, Ha. cbn. f_equal. rewrite <- List.seq_shift.
  induction (List.seq 0 k) as [|x xs IH]; [done|]. cbn.
  replace (lo + Z.of_nat (S x)) with (lo + 1 + Z.of_nat x) by lia.
  destruct (f <$> _); [f_equal|]; apply IH.
Qed.

Lemma window_list_ext {B} (f : A -> B) n lo k l l' :
  (forall j, lo <= j < lo + Z.of_nat k -> f <$> l !! pos n j = f <$> l' !! pos n j) ->
  window_list f n lo k l = window_list f n lo k l'.
Proof.
  intros He. unfold window_list. apply list_omap_ext.
  apply Forall_Forall2_diag, Forall_forall.
  intros i Hi. apply List.in_seq in Hi. apply He. lia.
Qed.

Lemma window_list_insert_out {B} (f : A -> B) n lo k j a l :
  0 < n -> (forall i, lo <= i < lo + Z.of_nat k -> i <> j /\ - n < i - j < n) ->
  window_list f n lo k (<[pos n j := a]> l) = window_list f n lo k l.
Proof.
  intros Hn Ho. apply window_list_ext. intros i Hi. destruct (Ho i Hi).
  rewrite list_lookup_insert_ne; [done|]. apply not_eq_sym, pos_ne; done.
Qed.
End Window.
