(* ===== verification/RingConcepts.v ===== *)
(** * The transport interface (src/backends/common/RingConcepts.hpp)

    The C++20 concepts [TxRing] and [RxRing] become type classes of operations
    over a world [W] (the transport object together with the kernel or NIC it
    talks to); [TxContract] and [RxContract] state what every transport promises
    to the applications that are generic over the concepts. *)

From S2P Require Import Prelude.

(** [concept TxRing]: borrow a buffer of the ring, write it in place, hand it over.
    A borrowed buffer is named by its address; [tx_write] is the [memcpy] an
    application does into it. *)
Class TxRing (W : Type) := {
  tx_acquire : Z -> M W (option Z);
  tx_write : Z -> bytes -> M W unit;
  tx_commit : M W unit;
  tx_send : bytes -> M W bool;
  tx_prefillRing : bytes -> M W unit;
}.

(** [concept RxRing]: peek the oldest frame (an empty span when there is none),
    then give its buffer back. *)
Class RxRing (W : Type) := {
  rx_tryReceive : M W bytes;
  rx_release : M W unit;
}.

(** The transmit contract.  [tx_fresh s]: the ring was just brought up.
    [tx_idle h sent s]: no buffer is borrowed, every buffer starts with the
    template [h], and the frames handed to the kernel so far are [sent].
    [tx_lent h sent p b s]: in addition the application holds the buffer at
    address [p], whose frame now reads [b]. *)
Class TxContract (W : Type) `{TxRing W} := {
  tx_fresh : W -> Prop;
  tx_idle : bytes -> list bytes -> W -> Prop;
  tx_lent : bytes -> list bytes -> Z -> bytes -> W -> Prop;
  tx_room : Z;
  tx_idle_weaken h h' sent s : tx_idle h sent s -> h' `prefix_of` h -> tx_idle h' sent s;
  prefill_idle t s :
    tx_fresh s -> Z.of_nat (length t) <= tx_room ->
    exists s', tx_prefillRing t s = (Done tt, s') /\ tx_idle t [] s';
  acquire_lends h sent n s :
    tx_idle h sent s -> Z.of_nat (length h) <= n <= tx_room ->
    match tx_acquire n s with
    | (Done None, s') => tx_idle h sent s'
    | (Done (Some p), s') =>
        exists b, Z.of_nat (length b) = n /\ h `prefix_of` b /\ tx_lent h sent p b s'
    | _ => False
    end;
  write_lent h sent p b b' off src s :
    tx_lent h sent p b s -> src <> [] -> store off src b = Some b' ->
    exists s', tx_write (p + Z.of_nat off) src s = (Done tt, s') /\ tx_lent h sent p b' s';
  commit_sends h sent p b s :
    tx_lent h sent p b s -> h `prefix_of` b ->
    match tx_commit s with
    | (Done tt, s') => tx_idle h (sent ++ [b]) s'
    | (NoFuel, _) => True
    | _ => False
    end;
}.

(** The receive contract: frames come out once each, in the order in which they
    arrived, and a frame stays readable until it is released. *)
Class RxContract (W : Type) `{RxRing W} := {
  rx_arrived : W -> list bytes;
  rx_idle : list bytes -> W -> Prop;
  rx_held : list bytes -> bytes -> W -> Prop;
  rx_idle_prefix seen s : rx_idle seen s -> seen `prefix_of` rx_arrived s;
  rx_held_prefix seen f s : rx_held seen f s -> (seen ++ [f]) `prefix_of` rx_arrived s;
  rx_held_bytes seen f s : rx_held seen f s -> is_bytes f;
  receive_in_order seen s :
    rx_idle seen s ->
    exists f s', rx_tryReceive s = (Done f, s') /\
      match f with [] => rx_idle seen s' | _ => rx_held seen f s' end;
  release_idle seen f s :
    rx_held seen f s ->
    exists s', rx_release s = (Done tt, s') /\ rx_idle (seen ++ [f]) s';
}.

(** ** Polling a receiver

    Poll [n] times, releasing every frame found, and collect the frames. *)
Fixpoint receive_n {W} `{RxRing W} (n : nat) : M W (list bytes) :=
  match n with
  | O => mret []
  | S n =>
      f ← rx_tryReceive;
      match f with
      | [] => receive_n n
      | _ => rx_release ;; fs ← receive_n n; mret (f :: fs)
      end
  end.

Lemma receive_n_spec {W} `{RxContract W} n seen (w : W) :
  rx_idle seen w ->
  exists fs w', receive_n n w = (Done fs, w') /\ rx_idle (seen ++ fs) w'.
Proof.
  revert seen w; induction n as [|n IH]; intros seen w Hid.
  { exists [], w. by rewrite app_nil_r. }
  cbn [receive_n]. destruct (receive_in_order seen w Hid) as (f & w1 & Hr & Hs).
  rewrite (run_bind _ _ _ _ _ Hr). destruct f as [|b f]; [by apply IH|].
  destruct (release_idle _ _ _ Hs) as (w2 & Hrel & Hid2). rewrite (run_bind _ _ _ _ _ Hrel).
  destruct (IH _ _ Hid2) as (fs & w3 & Hd & Hid3). rewrite (run_bind _ _ _ _ _ Hd).
  exists ((b :: f) :: fs), w3. split; [done|]. by rewrite cons_middle, app_assoc.
Qed.

(** ** Sending through the interface

    A transport whose [send] borrows a buffer, copies the frame into it and commits. *)
Class SendsByCopy (W : Type) `{TxContract W} := {
  send_is_copy f sent (w : W) : tx_idle [] sent w -> Z.of_nat (length f) <= tx_room -> tx_send f w =
    (dst ← tx_acquire (u32 (Z.of_nat (length f)));
     match dst with None => mret false | Some p => tx_write p f ;; tx_commit ;; mret true end) w;
}.

Fixpoint tx_send_all {W} `{TxRing W} (fs : list bytes) : M W (list bool) :=
  match fs with
  | [] => mret []
  | f :: fs => ok ← tx_send f; oks ← tx_send_all fs; mret (ok :: oks)
  end.

(** The frames [send] answered true for. *)
Definition accepted (fs : list bytes) (oks : list bool) : list bytes := omap (fun '(f, ok) => if (ok : bool) then Some f else None) (zip fs oks).

Section Send.
Context {W : Type} `{TxContract W} `{!SendsByCopy W}.
Context (room32 : tx_room < 2 ^ 32) (commit_ends : forall sent p b (w : W), tx_lent [] sent p b w -> fst (tx_commit w) <> NoFuel).

Definition sendable (f : bytes) : Prop := f <> [] /\ Z.of_nat (length f) <= tx_room.

Lemma send_copies f sent (w : W) :
  sendable f -> tx_idle [] sent w ->
  exists ok w', tx_send f w = (Done ok, w') /\ tx_idle [] (if ok : bool then sent ++ [f] else sent) w'.
Proof.
  intros [Hne Hl] Hid. rewrite (send_is_copy f sent w Hid Hl). rewrite wrap_small by (split; lia).
  pose proof (acquire_lends [] sent (Z.of_nat (length f)) w Hid ltac:(cbn; lia)) as Ha.
  destruct (tx_acquire _ w) as [[[p|]| | | |] w1] eqn:Ea; try done; rewrite (run_bind _ _ _ _ _ Ea).
  2: { by exists false, w1. }
  destruct Ha as (b & Hb & _ & Hlent).
  assert (store 0 f b = Some f) as Hst.
  { rewrite store_Some by lia. f_equal. rewrite inserts_split by lia. cbn. rewrite take_0, drop_ge by lia. by rewrite app_nil_r. }
  destruct (write_lent _ _ _ _ _ 0 _ _ Hlent Hne Hst) as (w2 & Ew & Hlent2). rewrite Z.add_0_r in Ew.
  rewrite (run_bind _ _ _ _ _ Ew). pose proof (commit_sends [] sent p f w2 Hlent2 ltac:(apply prefix_nil)) as Hc.
  pose proof (commit_ends sent p f w2 Hlent2) as Hf. destruct (tx_commit w2) as [[[]| | | |] w3] eqn:Ec; try done.
  rewrite (run_bind _ _ _ _ _ Ec). by exists true, w3.
Qed.

(** Any list of frames: the ring holds exactly the accepted ones, in order. *)
Lemma send_all_spec fs sent (w : W) :
  Forall sendable fs -> tx_idle [] sent w ->
  exists oks w', tx_send_all fs w = (Done oks, w') /\ length oks = length fs /\ tx_idle [] (sent ++ accepted fs oks) w'.
Proof.
  intros Hfs. revert sent w; induction Hfs as [|f fs Hf _ IH]; intros sent w Hid.
  { exists [], w. by rewrite app_nil_r. }
  cbn [tx_send_all]. destruct (send_copies f sent w Hf Hid) as (ok & w1 & E1 & Hid1). rewrite (run_bind _ _ _ _ _ E1).
  destruct (IH _ _ Hid1) as (oks & w2 & E2 & Hl & Hid2). rewrite (run_bind _ _ _ _ _ E2).
  exists (ok :: oks), w2. split; [done|]. split; [cbn; by rewrite Hl|].
  destruct ok; unfold accepted in *; cbn; [|done]. by rewrite <- app_assoc in Hid2.
Qed.

(** The same from a fresh ring stamped with a template. *)
Lemma prefill_send_spec t fs (w : W) :
  tx_fresh w -> Z.of_nat (length t) <= tx_room -> Forall sendable fs ->
  exists oks w', (tx_prefillRing t ;; tx_send_all fs) w = (Done oks, w') /\ length oks = length fs /\ tx_idle [] (accepted fs oks) w'.
Proof.
  intros Hw Ht Hfs. destruct (prefill_idle t w Hw Ht) as (w1 & E1 & Hid). rewrite (run_bind _ _ _ _ _ E1).
  apply (send_all_spec fs [] w1 Hfs). eapply tx_idle_weaken; [exact Hid|apply prefix_nil].
Qed.
End Send.
