(* ===== verification/SocketOps.v ===== *)
(** * Packet socket lifecycle (src/backends/PacketMmap/SocketOps.hpp, SocketOps.cpp)

    [SocketOps] opens an AF_PACKET socket, asks the kernel for a TPACKET ring, maps
    it and binds it.  The system calls are the operations of [PacketOS]; which file
    descriptors and mappings are live is observed through [PacketOSLaws]. *)

From S2P Require Import Prelude.

Definition TPACKET_V2 : Z := 1.
Definition TPACKET_V3 : Z := 2.
Definition MAP_FAILED : Z := 2 ^ 64 - 1.
Definition nullptr : Z := 0.
Definition ETH_P_ALL : Z := 3.
Definition SOF_TIMESTAMPING_RX_HARDWARE : Z := 4.
Definition SOF_TIMESTAMPING_RAW_HARDWARE : Z := 64.

Inductive RingDirection := TX | RX.

#[export] Instance RingDirection_eq_dec : EqDecision RingDirection.
Proof. solve_decision. Defined.

(** [struct RingConfig]; [default_RingConfig] holds the member initialisers. *)
Record RingConfig := {
  interface : string;
  direction : RingDirection;
  blockSize : Z;
  blockNumber : Z;
  protocol : Z;
  packetVersion : Z;
  hwTimeStamp : bool;
  qdiscBypass : bool;
}.

Definition default_RingConfig : RingConfig := {|
  interface := ""; direction := TX; blockSize := 4096; blockNumber := 64;
  protocol := ETH_P_ALL; packetVersion := TPACKET_V2; hwTimeStamp := true;
  qdiscBypass := true |}.

(** The ring requests of the two TPACKET versions and the other socket options. *)
Record tpacket_req := {
  tp_block_size : Z;
  tp_frame_size : Z;
  tp_block_nr : Z;
  tp_frame_nr : Z;
}.

Inductive sockopt :=
  | PACKET_VERSION (v : Z)
  | PACKET_RING (dir : RingDirection) (req : tpacket_req)
  | PACKET_RING3 (dir : RingDirection) (req : tpacket_req)
      (tp_retire_blk_tov tp_sizeof_priv tp_feature_req_word : Z)
  | PACKET_QDISC_BYPASS (v : Z)
  | PACKET_TIMESTAMP (v : Z).

Record SocketOps := { m_fd : Z; m_ringAddress : Z; m_ringSize : Z }.

(** The system calls; a negative result of [socket], [setsockopt] and [bind] is an
    error, [mmap] fails with [MAP_FAILED], [if_nametoindex] with 0. *)
Class PacketOS (W : Type) := {
  os_socket : Z -> W -> Z * W;
  os_setsockopt : Z -> sockopt -> W -> Z * W;
  os_mmap : Z -> Z -> W -> Z * W;
  os_munmap : Z -> Z -> W -> W;
  os_if_nametoindex : string -> W -> Z * W;
  os_bind : Z -> Z -> Z -> W -> Z * W;
  os_close : Z -> W -> W;
}.

Section Operations.
Context {W : Type} `{PacketOS W}.

Definition check (ok : bool) (what : string) : M W unit :=
  if ok then mret tt else raise (Throw what).

Definition ring_request (cfg : RingConfig) : tpacket_req := {|
  tp_block_size := blockSize cfg; tp_frame_size := blockSize cfg;
  tp_block_nr := blockNumber cfg; tp_frame_nr := blockNumber cfg |}.

(** Step 3 of the constructor: the ring is requested for V2 and V3 only. *)
Definition request_ring (cfg : RingConfig) (fd version : Z) : M W unit :=
  if decide (version = TPACKET_V2) then
    r ← lift (os_setsockopt fd (PACKET_RING (direction cfg) (ring_request cfg)));
    check (0 <=? r) "PACKET_RX/TX_RING (V2)"
  else if decide (version = TPACKET_V3) then
    let tov := if decide (direction cfg = RX) then 1 else 0 in
    r ← lift (os_setsockopt fd (PACKET_RING3 (direction cfg) (ring_request cfg) tov 0 0));
    check (0 <=? r) "PACKET_RX/TX_RING (V3)"
  else mret tt.

(** [SocketOps::SocketOps(const RingConfig&)] *)
Definition socketOps (cfg : RingConfig) : M W SocketOps :=
  fd ← lift (os_socket (htons (protocol cfg)));
  check (0 <=? fd) "socket(AF_PACKET)" ;;
  let version := packetVersion cfg in
  r ← lift (os_setsockopt fd (PACKET_VERSION version));
  check (0 <=? r) "PACKET_VERSION" ;;
  request_ring cfg fd version ;;
  let ringSize := u64 (blockSize cfg * blockNumber cfg) in
  addr ← lift (os_mmap ringSize fd);
  check (negb (addr =? MAP_FAILED)) "mmap ring" ;;
  ifindex ← lift (os_if_nametoindex (interface cfg));
  check (negb (ifindex =? 0)) "if_nametoindex" ;;
  r ← lift (os_bind fd (htons (protocol cfg)) (sint 32 ifindex));
  check (0 <=? r) "bind" ;;
  (if (qdiscBypass cfg && bool_decide (direction cfg = TX))%bool then
     r ← lift (os_setsockopt fd (PACKET_QDISC_BYPASS 1));
     check (0 <=? r) "PACKET_QDISC_BYPASS"
   else mret tt) ;;
  (if (hwTimeStamp cfg && bool_decide (direction cfg = RX))%bool then
     _ ← lift (os_setsockopt fd (PACKET_TIMESTAMP
            (Z.lor SOF_TIMESTAMPING_RAW_HARDWARE SOF_TIMESTAMPING_RX_HARDWARE)));
     mret tt
   else mret tt) ;;
  mret {| m_fd := fd; m_ringAddress := addr; m_ringSize := ringSize |}.

(** [SocketOps::unmapRing] *)
Definition unmapRing (ptr ringSize : Z) : M W unit :=
  if (negb (ptr =? nullptr) && negb (ptr =? MAP_FAILED))%bool
  then modify (os_munmap ptr ringSize) else mret tt.

Definition close_fd (fd : Z) : M W unit :=
  if 0 <=? fd then modify (os_close fd) else mret tt.

(** [SocketOps::~SocketOps] *)
Definition socketOps_dtor (s : SocketOps) : M W unit :=
  unmapRing (m_ringAddress s) (m_ringSize s) ;; close_fd (m_fd s).

Definition moved_from : SocketOps :=
  {| m_fd := -1; m_ringAddress := nullptr; m_ringSize := 0 |}.

(** The move constructor: the new object and what is left in [other]. *)
Definition socketOps_move (other : SocketOps) : SocketOps * SocketOps := (other, moved_from).

(** Move assignment between two distinct objects: release the target's own
    resources, then take the source's. *)
Definition socketOps_assign (self other : SocketOps) : M W (SocketOps * SocketOps) :=
  unmapRing (m_ringAddress self) (m_ringSize self) ;;
  close_fd (m_fd self) ;;
  mret (other, moved_from).
End Operations.

(** Documented effect of the calls on the process's descriptors and mappings. *)
Class PacketOSLaws (W : Type) `{PacketOS W} := {
  fds : W -> gset Z;
  maps : W -> gset (Z * Z);
  socket_law p w : let '(fd, w') := os_socket p w in
    maps w' = maps w /\
    (if decide (0 <= fd) then fd ∉ fds w /\ fds w' = {[fd]} ∪ fds w else fds w' = fds w);
  setsockopt_law fd o w : let '(_, w') := os_setsockopt fd o w in
    fds w' = fds w /\ maps w' = maps w;
  mmap_law sz fd w : let '(a, w') := os_mmap sz fd w in
    fds w' = fds w /\
    (if decide (a = MAP_FAILED) then maps w' = maps w
     else a <> nullptr /\ (a, sz) ∉ maps w /\ maps w' = {[(a, sz)]} ∪ maps w);
  munmap_law a sz w : fds (os_munmap a sz w) = fds w /\ maps (os_munmap a sz w) = maps w ∖ {[(a, sz)]};
  nametoindex_law s w : let '(_, w') := os_if_nametoindex s w in
    fds w' = fds w /\ maps w' = maps w;
  bind_law fd p i w : let '(_, w') := os_bind fd p i w in fds w' = fds w /\ maps w' = maps w;
  close_law fd w : fds (os_close fd w) = fds w ∖ {[fd]} /\ maps (os_close fd w) = maps w;
}.

(** A simulated kernel for concrete runs: descriptors and mappings are handed out
    in increasing order; [so_fail] names the calls that fail, by number. *)
Record sim_os := { so_fds : gset Z; so_maps : gset (Z * Z); so_calls : Z; so_fail : list Z }.

Definition so_tick (w : sim_os) : bool * sim_os :=
  (bool_decide (so_calls w ∈ so_fail w),
   {| so_fds := so_fds w; so_maps := so_maps w;
      so_calls := so_calls w + 1; so_fail := so_fail w |}).

Definition fresh_fd (w : sim_os) : Z := foldr Z.max 0 (elements (so_fds w)) + 1.
Definition fresh_map (w : sim_os) : Z := foldr Z.max 0 (fst <$> elements (so_maps w)) + 4096.

#[export] Instance sim_PacketOS : PacketOS sim_os := {|
  os_socket p w := let '(f, w) := so_tick w in
    if f then (-1, w) else
      (fresh_fd w, {| so_fds := {[fresh_fd w]} ∪ so_fds w; so_maps := so_maps w;
                      so_calls := so_calls w; so_fail := so_fail w |});
  os_setsockopt fd o w := let '(f, w) := so_tick w in (if f then -1 else 0, w);
  os_mmap sz fd w := let '(f, w) := so_tick w in
    if decide (f = true \/ fresh_map w = MAP_FAILED) then (MAP_FAILED, w) else
      (fresh_map w, {| so_fds := so_fds w; so_maps := {[(fresh_map w, sz)]} ∪ so_maps w;
                       so_calls := so_calls w; so_fail := so_fail w |});
  os_munmap a sz w := {| so_fds := so_fds w; so_maps := so_maps w ∖ {[(a, sz)]};
                         so_calls := so_calls w; so_fail := so_fail w |};
  os_if_nametoindex s w := let '(f, w) := so_tick w in (if f then 0 else 2, w);
  os_bind fd p i w := let '(f, w) := so_tick w in (if f then -1 else 0, w);
  os_close fd w := {| so_fds := so_fds w ∖ {[fd]}; so_maps := so_maps w;
                      so_calls := so_calls w; so_fail := so_fail w |};
|}.

Lemma foldr_max_fresh (l : list Z) x k : 0 < k -> x = foldr Z.max 0 l + k -> x ∉ l.
Proof.
  intros Hk -> Hin.
  assert (forall y, y ∈ l -> y <= foldr Z.max 0 l) as Hle.
  { clear. induction l; intros y Hy; [by apply not_elem_of_nil in Hy|].
    apply elem_of_cons in Hy as [->|Hy]; cbn; [lia|]. specialize (IHl y Hy). lia. }
  apply Hle in Hin. lia.
Qed.

Lemma foldr_max_nonneg (l : list Z) : 0 <= foldr Z.max 0 l.
Proof. induction l; cbn; lia. Qed.

#[export] Program Instance sim_PacketOSLaws : PacketOSLaws sim_os := {|
  fds := so_fds; maps := so_maps |}.
Next Obligation.
  intros p w. cbn -[fresh_fd]. destruct (bool_decide _); cbn -[fresh_fd]; [done|].
  split; [done|]. rewrite decide_True.
  - split; [|done]. rewrite <- elem_of_elements. by apply (foldr_max_fresh _ _ 1).
  - unfold fresh_fd. pose proof (foldr_max_nonneg (elements (so_fds w))). cbn. lia.
Qed.
Next Obligation. done. Qed.
Next Obligation.
  intros sz fd w. cbn -[fresh_map]. case_decide as Hd; cbn -[fresh_map]; [by rewrite decide_True|].
  split; [done|]. rewrite decide_False by tauto.
  split.
  { pose proof (foldr_max_nonneg (fst <$> elements (so_maps w))).
    unfold fresh_map, nullptr. cbn. lia. }
  split; [|done]. rewrite <- elem_of_elements. intros Hin.
  apply (foldr_max_fresh (fst <$> elements (so_maps w)) (fresh_map w) 4096); [lia|done|].
  apply list_elem_of_fmap. by exists (fresh_map w, sz).
Qed.
Next Obligation. done. Qed.
Next Obligation. done. Qed.
Next Obligation. done. Qed.
Next Obligation. done. Qed.

Section Properties.
Context {W : Type} `{PacketOSLaws W}.

(** Run the constructor over arbitrary answers of the kernel, keeping track of
    the resources after each call. *)
Ltac os_step :=
  match goal with
  | |- context [os_socket ?p ?w] =>
      let E := fresh "E" in pose proof (socket_law p w); destruct (os_socket p w) eqn:E
  | |- context [os_setsockopt ?f ?o ?w] => pose proof (setsockopt_law f o w); destruct (os_setsockopt f o w)
  | |- context [os_mmap ?s ?f ?w] => pose proof (mmap_law s f w); destruct (os_mmap s f w)
  | |- context [os_if_nametoindex ?s ?w] => pose proof (nametoindex_law s w); destruct (os_if_nametoindex s w)
  | |- context [os_bind ?f ?p ?i ?w] => pose proof (bind_law f p i w); destruct (os_bind f p i w)
  end; cbn -[u64 htons sint].

Ltac os_branch :=
  match goal with
  | |- context [(?a <=? ?b)] => destruct (Z.leb_spec a b); cbn -[u64 htons sint]
  | |- context [negb (?a =? ?b)] => destruct (Z.eqb_spec a b); cbn -[u64 htons sint]
  | |- context [decide ?P] => destruct (decide P); cbn -[u64 htons sint]
  | |- context [if ?b && bool_decide ?P then _ else _] =>
      destruct (b && bool_decide P); cbn -[u64 htons sint]
  end.

(** What the constructor can leave behind, on every branch. *)
Definition socketOps_post (cfg : RingConfig) (w : W) (r : outcome SocketOps * W) : Prop :=
  match r with
  | (Done s, w') =>
      0 <= m_fd s /\ m_fd s ∉ fds w /\ fds w' = {[m_fd s]} ∪ fds w /\
      m_ringSize s = u64 (blockSize cfg * blockNumber cfg) /\
      m_ringAddress s <> nullptr /\ m_ringAddress s <> MAP_FAILED /\
      (m_ringAddress s, m_ringSize s) ∉ maps w /\
      maps w' = {[(m_ringAddress s, m_ringSize s)]} ∪ maps w
  | (Throw e, w') =>
      (e = "socket(AF_PACKET)"%string /\ fds w' = fds w /\ maps w' = maps w) \/
      (e <> "socket(AF_PACKET)"%string /\
       exists fd, fd ∉ fds w /\ fds w' = {[fd]} ∪ fds w)
  | _ => False
  end.

(** Collect the resource equations of the calls made so far. *)
Ltac chain :=
  repeat match goal with
  | H : fds ?a = _, H' : context [fds ?a] |- _ => first [constr_eq H H'; fail 1 | rewrite H in H']
  | H : maps ?a = _, H' : context [maps ?a] |- _ => first [constr_eq H H'; fail 1 | rewrite H in H']
  | H : fds ?a = _ |- context [fds ?a] => rewrite H
  | H : maps ?a = _ |- context [maps ?a] => rewrite H
  end.

Ltac finish :=
  unfold socketOps_post; cbn -[u64];
  repeat match goal with
  | H : context [decide ?P] |- _ => destruct (decide P); try lia; try tauto
  end; destruct_and?; chain;
  first [ left; by split_and!
        | right; split; [done|]; by eexists
        | by split_and! ].

Lemma socketOps_spec cfg w : socketOps_post cfg w (socketOps cfg w).
Proof.
  unfold socketOps, request_ring, check, lift, raise, mbind, M_bind, mret, M_ret.
  repeat first [os_step | os_branch]; finish.
Qed.

Lemma socketOps_dtor_spec s w :
  0 <= m_fd s -> m_ringAddress s <> nullptr -> m_ringAddress s <> MAP_FAILED ->
  exists w', socketOps_dtor s w = (Done tt, w') /\
    fds w' = fds w ∖ {[m_fd s]} /\ maps w' = maps w ∖ {[(m_ringAddress s, m_ringSize s)]}.
Proof.
  intros Hf Hn Hm. unfold socketOps_dtor, unmapRing, close_fd.
  rewrite (proj2 (Z.eqb_neq _ _) Hn), (proj2 (Z.eqb_neq _ _) Hm), (proj2 (Z.leb_le _ _) Hf).
  cbn. eexists. split; [done|].
  pose proof (munmap_law (m_ringAddress s) (m_ringSize s) w) as [H2 H3].
  pose proof (close_law (m_fd s) (os_munmap (m_ringAddress s) (m_ringSize s) w)) as [H4 H5].
  by rewrite H4, H5, H2, H3.
Qed.

Lemma union_difference_cancel `{Countable A} (x : A) (X : gset A) :
  x ∉ X -> ({[x]} ∪ X) ∖ {[x]} = X.
Proof. set_solver. Qed.

(** The destructor of a moved-from object does nothing. *)
Lemma moved_from_dtor w : socketOps_dtor moved_from w = (Done tt, w).
Proof. done. Qed.

(** Move assignment releases the target's resources and only those. *)
Lemma socketOps_assign_spec self other w :
  0 <= m_fd self -> m_ringAddress self <> nullptr -> m_ringAddress self <> MAP_FAILED ->
  exists w', socketOps_assign self other w = (Done (other, moved_from), w') /\
    fds w' = fds w ∖ {[m_fd self]} /\
    maps w' = maps w ∖ {[(m_ringAddress self, m_ringSize self)]}.
Proof.
  intros Hf Hn Hm. destruct (socketOps_dtor_spec self w) as (w' & Hd & H2 & H3); [done..|].
  exists w'. split; [|done]. unfold socketOps_assign.
  unfold socketOps_dtor in Hd. unfold mbind, M_bind in *.
  destruct (unmapRing _ _ w) as [[] ?]; try done. by rewrite Hd.
Qed.
End Properties.

(** C28: A SocketOps object owns exactly one descriptor and one mapping: when the
    constructor returns, the destructor gives back exactly what it took. *)
Theorem socketOps_balanced {W} `{PacketOSLaws W} cfg w s w1 :
  socketOps cfg w = (Done s, w1) ->
  fds w1 = {[m_fd s]} ∪ fds w /\ m_ringSize s = u64 (blockSize cfg * blockNumber cfg) /\
  exists w2, socketOps_dtor s w1 = (Done tt, w2) /\ (fds w2 = fds w) /\ (maps w2 = maps w).
Proof.
  intros He. pose proof (socketOps_spec cfg w) as Hs. rewrite He in Hs. cbn -[u64] in Hs.
  destruct_and! Hs. split; [done|]. split; [done|].
  destruct (socketOps_dtor_spec s w1) as (w2 & Hd & Hf & Hm); [done..|].
  exists w2. split; [done|]. rewrite Hf, Hm.
  repeat match goal with H : _ w1 = _ |- _ => rewrite H end.
  split; apply union_difference_cancel; done.
Qed.

Definition sim_start (fail : list Z) : sim_os :=
  {| so_fds := {[5]}; so_maps := ∅; so_calls := 0; so_fail := fail |}.

Lemma socketOps_balanced_witness :
  let s := {| m_fd := 6; m_ringAddress := 4096; m_ringSize := 262144 |} in
  exists w1, fds w1 = {[m_fd s]} ∪ fds (sim_start []) /\
  m_ringSize s = u64 (blockSize default_RingConfig * blockNumber default_RingConfig) /\
  exists w2, socketOps_dtor s w1 = (Done tt, w2) /\ (fds w2 = fds (sim_start [])) /\ (maps w2 = maps (sim_start [])).
Proof.
  eexists. apply (socketOps_balanced default_RingConfig (sim_start [])). vm_compute. reflexivity.
Defined.

(** The constructor has no other ending than an object or an exception; when it
    throws after [socket(2)] succeeded, the descriptor it opened stays open although
    no object exists that could close it; a failing [socket(2)] leaks nothing. *)
Theorem socketOps_throw_leaks {W} `{PacketOSLaws W} cfg w e w1 :
  socketOps cfg w = (Throw e, w1) ->
  (e = "socket(AF_PACKET)"%string /\ (fds w1 = fds w) /\ (maps w1 = maps w)) \/
  (e <> "socket(AF_PACKET)"%string /\ exists fd, (fd ∉ fds w) /\ (fds w1 = {[fd]} ∪ fds w)).
Proof. intros He. pose proof (socketOps_spec cfg w) as Hs. by rewrite He in Hs. Qed.

Lemma socketOps_throw_leaks_witness :
  exists w1, (fst (socketOps default_RingConfig (sim_start [1])) = Throw "PACKET_VERSION") /\
  (("PACKET_VERSION" = "socket(AF_PACKET)"%string /\ (fds w1 = fds (sim_start [1])) /\ (maps w1 = maps (sim_start [1]))) \/
   ("PACKET_VERSION" <> "socket(AF_PACKET)"%string /\
    exists fd, (fd ∉ fds (sim_start [1])) /\ (fds w1 = {[fd]} ∪ fds (sim_start [1])))).
Proof.
  eexists. split; [vm_compute; reflexivity|].
  apply (socketOps_throw_leaks default_RingConfig (sim_start [1])). vm_compute. reflexivity.
Defined.
