(* ===== verification/PacketMmap.v ===== *)
(** * Packet-mmap rings (src/backends/PacketMmap/PacketMmapTx.*, PacketMmapRx.* )

    The ring is an array of TPACKET_V2 slots shared with the kernel, one frame per
    block.  [Tx.PacketMmapTx] and [Rx.PacketMmapRx] are the objects with their slot
    pointer; the kernel runs concurrently: before each access it may take any number
    of the steps of [kstep], which state what packet_mmap(7) documents.  Section
    variables [env] and [sys_send] are the kernel's choices. *)

From S2P Require Import Prelude RingWindow RingConcepts SocketOps.

Definition TP_STATUS_KERNEL : Z := 0.
Definition TP_STATUS_USER : Z := 1.
Definition TP_STATUS_AVAILABLE : Z := 0.
Definition TP_STATUS_SEND_REQUEST : Z := 1.
Definition TP_STATUS_SENDING : Z := 2.
Definition EAGAIN : Z := 11.
Definition EBUSY : Z := 16.

(** [TPACKET_ALIGN(sizeof(tpacket2_hdr))] with 16-byte alignment. *)
Definition sizeof_tpacket2_hdr : Z := 32.
Definition TPACKET_ALIGN (x : Z) : Z := Z.land (x + 15) (Z.lnot 15).
Definition kDataOffset : Z := TPACKET_ALIGN sizeof_tpacket2_hdr.

Lemma kDataOffset_eq : kDataOffset = 32.
Proof. reflexivity. Qed.

(** One slot: the header fields the program uses and the bytes that follow the
    header (offset [kDataOffset] of the slot). *)
Record tpacket2_slot := {
  tp_status : Z;
  tp_len : Z;
  tp_snaplen : Z;
  tp_mac : Z;
  sl_bytes : bytes;
}.

Definition set_status (st : Z) (s : tpacket2_slot) : tpacket2_slot :=
  {| tp_status := st; tp_len := tp_len s; tp_snaplen := tp_snaplen s;
     tp_mac := tp_mac s; sl_bytes := sl_bytes s |}.
Definition set_len (len : Z) (s : tpacket2_slot) : tpacket2_slot :=
  {| tp_status := tp_status s; tp_len := len; tp_snaplen := len;
     tp_mac := tp_mac s; sl_bytes := sl_bytes s |}.
Definition set_bytes (b : bytes) (s : tpacket2_slot) : tpacket2_slot :=
  {| tp_status := tp_status s; tp_len := tp_len s; tp_snaplen := tp_snaplen s;
     tp_mac := tp_mac s; sl_bytes := b |}.

(** The slot an address falls into, and the offset inside it. *)
Definition slot_of (base fs p : Z) : nat := Z.to_nat ((p - base) / fs).
Definition slot_off (base fs p : Z) : Z := (p - base) mod fs.

Lemma slot_of_pos base fs n U off :
  0 < n -> 0 <= off < fs ->
  slot_of base fs (base + fs * (U mod n) + off) = pos n U /\
  slot_off base fs (base + fs * (U mod n) + off) = off.
Proof.
  intros Hn Ho. unfold slot_of, slot_off, pos.
  replace (base + fs * (U mod n) + off - base) with (off + (U mod n) * fs) by lia.
  rewrite Z.div_add, Z_mod_plus_full, (Z.div_small off), (Z.mod_small off) by lia.
  by rewrite Z.add_0_l.
Qed.

Lemma slot_of_index base fs (i : nat) off :
  0 <= off < fs ->
  slot_of base fs (base + fs * Z.of_nat i + off) = i /\
  slot_off base fs (base + fs * Z.of_nat i + off) = off.
Proof.
  intros Ho. destruct (slot_of_pos base fs (Z.of_nat i + 1) (Z.of_nat i) off) as [H1 H2]; [lia..|].
  unfold pos in H1. rewrite Z.mod_small in H1, H2 by lia. by rewrite Nat2Z.id in H1.
Qed.

(** Advancing the slot pointer by one frame and wrapping at the ring's end is
    advancing the position modulo the number of slots. *)
Lemma advance_pos base fs n U :
  0 < n -> 0 < fs ->
  (let p := base + fs * (U mod n) + fs in if decide (base + fs * n <= p) then base else p)
  = base + fs * ((U + 1) mod n).
Proof.
  intros Hn Hfs. cbn zeta. pose proof (Z.mod_pos_bound U n Hn) as HU.
  destruct (decide (U mod n = n - 1)) as [He|Hne].
  - assert ((U + 1) mod n = 0) as ->.
    { rewrite <- Zplus_mod_idemp_l, He. replace (n - 1 + 1) with n by lia. apply Z_mod_same_full. }
    rewrite decide_True by nia. lia.
  - assert ((U + 1) mod n = U mod n + 1) as ->.
    { rewrite <- Zplus_mod_idemp_l. apply Z.mod_small. lia. }
    rewrite decide_False by nia. lia.
Qed.

(** ** Transmit *)
Module Tx.

Record PacketMmapTx := {
  m_nextSlot : Z;
  m_ringBase : Z;
  m_ringEnd : Z;
  m_fd : Z;
  m_frameSize : Z;
  m_socketHandler : SocketOps;
}.

Definition set_nextSlot (p : Z) (o : PacketMmapTx) : PacketMmapTx :=
  {| m_nextSlot := p; m_ringBase := m_ringBase o; m_ringEnd := m_ringEnd o;
     m_fd := m_fd o; m_frameSize := m_frameSize o; m_socketHandler := m_socketHandler o |}.

(** [PacketMmapTx::PacketMmapTx(const RingConfig&)]; a wrong version aborts. *)
Definition packetMmapTx {W} `{PacketOS W} (cfg : RingConfig) : M W PacketMmapTx :=
  h ← socketOps cfg;
  if decide (packetVersion cfg <> TPACKET_V2) then raise Abort else
  mret {| m_nextSlot := m_ringAddress h; m_ringBase := m_ringAddress h;
          m_ringEnd := m_ringAddress h + m_ringSize h; m_fd := SocketOps.m_fd h;
          m_frameSize := blockSize cfg; m_socketHandler := h |}.

(** The move constructor and move assignment: the new object and the source. *)
Definition moved_out (other : PacketMmapTx) : PacketMmapTx :=
  {| m_nextSlot := nullptr; m_ringBase := nullptr; m_ringEnd := nullptr; m_fd := -1;
     m_frameSize := 0; m_socketHandler := moved_from |}.
Definition move (other : PacketMmapTx) : PacketMmapTx * PacketMmapTx := (other, moved_out other).
Definition assign {W} `{PacketOS W} (self other : PacketMmapTx) : M W (PacketMmapTx * PacketMmapTx) :=
  '(h, left_) ← socketOps_assign (m_socketHandler self) (m_socketHandler other);
  mret ({| m_nextSlot := m_nextSlot other; m_ringBase := m_ringBase other;
           m_ringEnd := m_ringEnd other; m_fd := m_fd other;
           m_frameSize := m_frameSize other; m_socketHandler := h |},
        {| m_nextSlot := nullptr; m_ringBase := nullptr; m_ringEnd := nullptr; m_fd := -1;
           m_frameSize := 0; m_socketHandler := left_ |}).

(** The transport and the kernel around it: the kernel's own two positions, the
    frames it took off the ring, and whatever else its choices depend on. *)
Record world (E : Type) := mk_world {
  obj : PacketMmapTx;
  slots : list tpacket2_slot;
  k_head : Z;
  k_done : Z;
  taken : list bytes;
  ext : E;
}.
Arguments mk_world {E}.
Arguments obj {E}.
Arguments slots {E}.
Arguments k_head {E}.
Arguments k_done {E}.
Arguments taken {E}.
Arguments ext {E}.

(** The frame in a slot: the first [tp_len] bytes after the header. *)
Definition frame_of (s : tpacket2_slot) : bytes := take (Z.to_nat (tp_len s)) (sl_bytes s).

Section Operations.
Context {E : Type} (env : world E -> world E) (sys_send : world E -> (Z * Z) * world E)
  (fuel : nat).
Abbreviation W := (world E).

Definition set_obj (o : PacketMmapTx) (w : W) : W :=
  mk_world o (slots w) (k_head w) (k_done w) (taken w) (ext w).
Definition set_slots (l : list tpacket2_slot) (w : W) : W :=
  mk_world (obj w) l (k_head w) (k_done w) (taken w) (ext w).
Definition set_slot (i : nat) (s : tpacket2_slot) (w : W) : W := set_slots (<[i := s]> (slots w)) w.

(** [reinterpret_cast<tpacket2_hdr*>(p)]: defined inside the mapping only. *)
Definition hdr_at (p : Z) : M W (nat * tpacket2_slot) :=
  fun w =>
    let i := slot_of (m_ringBase (obj w)) (m_frameSize (obj w)) p in
    match slots w !! i with
    | Some s => (Done (i, s), w)
    | None => (Undef, w)
    end.

(** [acquire] *)
Definition acquire (frameLen : Z) : M W (option Z) :=
  modify env ;;
  o ← gets obj;
  '(i, hdr) ← hdr_at (m_nextSlot o);
  if decide (tp_status hdr <> TP_STATUS_AVAILABLE) then mret None else
  modify (set_slot i (set_len frameLen hdr)) ;;
  mret (Some (m_nextSlot o + kDataOffset)).

(** [memcpy] into the ring at an address inside a slot's data area. *)
Definition write (p : Z) (src : bytes) : M W unit :=
  modify env ;;
  '(i, hdr) ← hdr_at p;
  o ← gets obj;
  let off := slot_off (m_ringBase o) (m_frameSize o) p - kDataOffset in
  if decide (off < 0) then raise Undef else
  match store (Z.to_nat off) src (sl_bytes hdr) with
  | Some b => modify (set_slot i (set_bytes b hdr))
  | None => raise Undef
  end.

(** [while (::send(...) < 0) if (errno != EAGAIN && errno != EBUSY) break;] *)
Fixpoint send_loop (n : nat) : M W unit :=
  match n with
  | O => raise NoFuel
  | S n =>
      '(r, errno) ← lift sys_send;
      if decide (r < 0) then
        if decide (errno <> EAGAIN /\ errno <> EBUSY) then mret tt else send_loop n
      else mret tt
  end.

Definition advance (o : PacketMmapTx) : PacketMmapTx :=
  let p := m_nextSlot o + m_frameSize o in
  set_nextSlot (if decide (m_ringEnd o <= p) then m_ringBase o else p) o.

(** [commit] *)
Definition commit : M W unit :=
  modify env ;;
  o ← gets obj;
  '(i, hdr) ← hdr_at (m_nextSlot o);
  modify (set_slot i (set_status TP_STATUS_SEND_REQUEST hdr)) ;;
  send_loop fuel ;;
  modify (fun w => set_obj (advance (obj w)) w).

(** [send] *)
Definition send (frame : bytes) : M W bool :=
  dst ← acquire (u32 (Z.of_nat (length frame)));
  match dst with
  | None => mret false
  | Some dst => write dst frame ;; commit ;; mret true
  end.

(** [prefillRing]: stamp the template into every AVAILABLE slot. *)
Fixpoint prefill_from (n : nat) (slot : Z) (t : bytes) : M W unit :=
  o ← gets obj;
  if decide (slot < m_ringEnd o) then
    match n with
    | O => raise NoFuel
    | S n =>
        '(i, hdr) ← hdr_at slot;
        (if decide (tp_status hdr = TP_STATUS_AVAILABLE) then write (slot + kDataOffset) t else mret tt) ;;
        prefill_from n (slot + m_frameSize o) t
    end
  else mret tt.

Definition prefillRing (t : bytes) : M W unit :=
  o ← gets obj; n ← gets (fun w => length (slots w)); prefill_from n (m_ringBase o) t.

#[export] Instance PacketMmapTx_TxRing : TxRing W := {|
  tx_acquire := acquire; tx_write := write; tx_commit := commit;
  tx_send := send; tx_prefillRing := prefillRing |}.

(** What the kernel does to a TX ring: it takes the oldest requested frame,
    completes the oldest taken one, or does something unrelated to the ring. *)
Inductive kstep : W -> W -> Prop :=
  | k_pick w s :
      slots w !! pos (Z.of_nat (length (slots w))) (k_head w) = Some s ->
      tp_status s = TP_STATUS_SEND_REQUEST ->
      kstep w (mk_world (obj w)
        (<[pos (Z.of_nat (length (slots w))) (k_head w) := set_status TP_STATUS_SENDING s]> (slots w))
        (k_head w + 1) (k_done w) (taken w ++ [frame_of s]) (ext w))
  | k_complete w s :
      k_done w < k_head w ->
      slots w !! pos (Z.of_nat (length (slots w))) (k_done w) = Some s ->
      kstep w (mk_world (obj w)
        (<[pos (Z.of_nat (length (slots w))) (k_done w) := set_status TP_STATUS_AVAILABLE s]> (slots w))
        (k_head w) (k_done w + 1) (taken w) (ext w))
  | k_other w e : kstep w (mk_world (obj w) (slots w) (k_head w) (k_done w) (taken w) e).
End Operations.

Section Properties.
Context {E : Type} (env : world E -> world E) (sys_send : world E -> (Z * Z) * world E)
  (fuel : nat).
Abbreviation W := (world E).
Context (env_ok : forall w : W, rtc kstep w (env w))
  (send_ok : forall w : W, rtc kstep w (snd (sys_send w)))
  (fs : Z).

Abbreviation nslots w := (Z.of_nat (length (slots w))).

(** The object describes the mapping: whole slots, every slot a full frame. *)
Definition geometry (w : W) : Prop :=
  let o := obj w in
  (kDataOffset < m_frameSize o /\ m_frameSize o = fs) /\ 0 < nslots w /\
  m_ringEnd o = m_ringBase o + m_frameSize o * nslots w /\
  Forall (fun s => Z.of_nat (length (sl_bytes s)) = m_frameSize o - kDataOffset) (slots w).

Definition requested (fs : Z) (s : tpacket2_slot) : Prop :=
  tp_status s = TP_STATUS_SEND_REQUEST /\ 0 <= tp_len s <= fs - kDataOffset.

(** The ring between the two parties: [k_done <= k_head <= U <= k_done + n];
    sending, requested and available slots in that order. *)
Record inv (U : Z) (w : W) : Prop := {
  inv_geo : geometry w;
  inv_next : m_nextSlot (obj w) = m_ringBase (obj w) + m_frameSize (obj w) * (U mod nslots w);
  inv_order : k_done w <= k_head w <= U /\ U <= k_done w + nslots w;
  inv_sending : window (fun s => tp_status s = TP_STATUS_SENDING) (nslots w)
    (k_done w) (k_head w) (slots w);
  inv_requested : window (requested (m_frameSize (obj w))) (nslots w)
    (k_head w) U (slots w);
  inv_available : window (fun s => tp_status s = TP_STATUS_AVAILABLE) (nslots w)
    U (k_done w + nslots w) (slots w);
}.

(** Frames handed over so far: those the kernel took, then those waiting. *)
Definition handed (U : Z) (w : W) : list bytes :=
  taken w ++ window_list frame_of (nslots w) (k_head w) (Z.to_nat (U - k_head w)) (slots w).

#[local] Arguments handed : simpl never.

(** The slots with an index in [x] start with the template. *)
Definition stamped (x : nat -> Prop) (h : bytes) (w : W) : Prop :=
  forall i s, slots w !! i = Some s -> x i -> h `prefix_of` sl_bytes s.

#[local] Arguments stamped : simpl never.

Definition idle (h : bytes) (sent : list bytes) (w : W) : Prop :=
  exists U, inv U w /\ handed U w = sent /\ stamped (fun _ => True) h w.

(** The application holds the slot at [U]. *)
Definition lent (h : bytes) (sent : list bytes) (p : Z) (b : bytes) (w : W) : Prop :=
  exists U s, inv U w /\ handed U w = sent /\
    stamped (fun i => i <> pos (nslots w) U) h w /\
    U < k_done w + nslots w /\
    p = m_nextSlot (obj w) + kDataOffset /\
    slots w !! pos (nslots w) U = Some s /\
    tp_len s = Z.of_nat (length b) /\ b `prefix_of` sl_bytes s.

Lemma geometry_insert w i s s' :
  geometry w -> slots w !! i = Some s -> length (sl_bytes s') = length (sl_bytes s) ->
  geometry (set_slot i s' w).
Proof.
  unfold geometry, set_slot, set_slots. cbn. rewrite length_insert.
  intros (H1 & H2 & H3 & H4) Hs Hl. split; [done|]. split; [done|]. split; [done|].
  apply Forall_insert; [done|]. rewrite Hl. by eapply Forall_lookup_1 in H4.
Qed.

Lemma stamped_insert x h w i s :
  stamped x h w -> (x i -> h `prefix_of` sl_bytes s) -> stamped x h (set_slot i s w).
Proof.
  intros Hst Hp j s' Hj Hx. cbn in Hj. apply list_lookup_insert_Some in Hj.
  destruct Hj as [(-> & -> & _)|[Hne Hj]]; [by apply Hp|]. by eapply Hst.
Qed.

(** A slot at position [j] of the current lap, seen from a window around it. *)
Lemma window_at P n lo hi (l : list tpacket2_slot) s j :
  window P n lo hi l -> lo <= j < hi -> l !! pos n j = Some s -> P s.
Proof. intros Hw Hj Hs. destruct (Hw j Hj) as (s' & Hs' & HP). by simplify_eq. Qed.

(** Where an available and a requested slot can be. *)
Lemma available_room U w s :
  inv U w -> slots w !! pos (nslots w) U = Some s -> tp_status s = TP_STATUS_AVAILABLE ->
  U < k_done w + nslots w.
Proof.
  intros [(_ & Hn & _ & _) _ Ho Hs Hr _] Hl Ha.
  destruct (decide (U < k_done w + nslots w)); [done|exfalso].
  assert (U = k_done w + nslots w) as -> by lia. rewrite pos_add_n in Hl by done.
  destruct (decide (k_done w < k_head w)).
  - pose proof (window_at _ _ _ _ _ s (k_done w) Hs ltac:(lia) Hl) as Hx. cbn in Hx.
    rewrite Hx in Ha. done.
  - assert (k_done w = k_head w) as He by lia. rewrite He in *.
    pose proof (window_at _ _ _ _ _ s (k_head w) Hr ltac:(lia) Hl) as [Hx _].
    rewrite Hx in Ha. done.
Qed.

Lemma available_at_head U w s :
  inv U w -> U < k_done w + nslots w -> slots w !! pos (nslots w) U = Some s ->
  tp_status s = TP_STATUS_AVAILABLE.
Proof. intros Hi HU Hs. by apply (window_at _ _ _ _ _ s U (inv_available _ _ Hi)); [lia|]. Qed.

Lemma requested_pending U w s :
  inv U w -> slots w !! pos (nslots w) (k_head w) = Some s ->
  tp_status s = TP_STATUS_SEND_REQUEST -> k_head w < U.
Proof.
  intros [(_ & Hn & _ & _) _ Ho Hs Hr Ha] Hl Hq.
  destruct (decide (k_head w < U)); [done|exfalso]. assert (U = k_head w) as -> by lia.
  destruct (decide (k_head w < k_done w + nslots w)).
  - pose proof (window_at _ _ _ _ _ s (k_head w) Ha ltac:(lia) Hl) as Hx. cbn in Hx.
    rewrite Hx in Hq. done.
  - replace (k_head w) with (k_done w + nslots w) in Hl by lia. rewrite pos_add_n in Hl by done.
    pose proof (window_at _ _ _ _ _ s (k_done w) Hs ltac:(lia) Hl) as Hx. cbn in Hx.
    rewrite Hx in Hq. done.
Qed.

(** One kernel step keeps the ring invariant, the frames handed over and the
    templates. *)
Lemma kstep_inv x U h sent w w' :
  kstep w w' -> inv U w /\ handed U w = sent /\ stamped x h w ->
  (inv U w' /\ handed U w' = sent /\ stamped x h w') /\
  obj w' = obj w /\ nslots w' = nslots w /\ k_done w <= k_done w' /\
  (forall s, U < k_done w + nslots w -> slots w !! pos (nslots w) U = Some s ->
     slots w' !! pos (nslots w) U = Some s).
Proof.
  intros Hk (Hi & Hh & Hst). pose proof Hi as [Hg Hnx Ho Hs Hr Ha].
  pose proof Hg as (Hg1 & Hn & Hg2 & Hg3).
  destruct Hk as [w s Hl Hq|w s Hlt Hl|w e].
  - pose proof (requested_pending U w s Hi Hl Hq) as Hlt.
    split; [|split; [done|]; split; [cbn; by rewrite length_insert|]; split; [cbn; lia|]].
    2:{ intros s' HU Hs'. cbn. rewrite list_lookup_insert_ne; [done|]. apply pos_ne; lia. }
    split; [|split].
    + constructor; cbn; rewrite ?length_insert; try done; try lia.
      * by apply (geometry_insert w _ s).
      * apply window_push; [lia|done|lia|done|done].
      * apply window_insert_out; [lia|intros; lia|]. eapply window_mono; [exact Hr|lia..].
      * apply window_insert_out; [lia|intros; lia|done].
    + rewrite <- Hh. unfold handed. cbn. rewrite length_insert, <- app_assoc. f_equal.
      rewrite window_list_insert_out by lia.
      replace (Z.to_nat (U - k_head w)) with (S (Z.to_nat (U - (k_head w + 1)))) by lia.
      by rewrite (window_list_head _ _ _ _ _ s).
    + apply (stamped_insert x h w); [done|]. intros Hx. by apply (Hst _ _ Hl Hx).
  - split; [|split; [done|]; split; [cbn; by rewrite length_insert|]; split; [cbn; lia|]].
    2:{ intros s' HU Hs'. cbn. rewrite list_lookup_insert_ne; [done|]. apply pos_ne; lia. }
    split; [|split].
    + constructor; cbn; rewrite ?length_insert; try done; try lia.
      * by apply (geometry_insert w _ s).
      * apply window_insert_out; [lia|intros; lia|]. eapply window_mono; [exact Hs|lia..].
      * apply window_insert_out; [lia|intros; lia|done].
      * apply (window_join _ _ _ (k_done w + nslots w)).
        { apply window_insert_any; done. }
        intros j Hj. assert (j = k_done w + nslots w) as -> by lia.
        rewrite pos_add_n by lia. exists (set_status TP_STATUS_AVAILABLE s). split; [|done].
        apply list_lookup_insert_eq. by eapply lookup_lt_Some.
    + rewrite <- Hh. unfold handed. cbn. rewrite length_insert. f_equal.
      apply window_list_insert_out; lia.
    + apply (stamped_insert x h w); [done|]. intros Hx. by apply (Hst _ _ Hl Hx).
  - split; [done|]. split_and!; cbn; [done..|lia|done].
Qed.

Lemma ksteps_inv x U h sent w w' :
  rtc kstep w w' -> inv U w /\ handed U w = sent /\ stamped x h w ->
  (inv U w' /\ handed U w' = sent /\ stamped x h w') /\
  obj w' = obj w /\ nslots w' = nslots w /\ k_done w <= k_done w' /\
  (forall s, U < k_done w + nslots w -> slots w !! pos (nslots w) U = Some s ->
     slots w' !! pos (nslots w) U = Some s).
Proof.
  intros Hr. induction Hr as [w|w w1 w2 H1 _ IH]; intros Hp.
  { split; [done|]. split_and!; [done..|lia|done]. }
  destruct (kstep_inv _ _ _ _ _ _ H1 Hp) as (Hp1 & Ho1 & Hn1 & Hd1 & Hs1).
  destruct (IH Hp1) as (Hp2 & Ho2 & Hn2 & Hd2 & Hs2).
  split; [done|]. split_and!; [by rewrite Ho2|by rewrite Hn2|lia|].
  intros s HU Hs. rewrite <- Hn1. apply Hs2; rewrite Hn1; [lia|]. by apply Hs1.
Qed.

Lemma ksteps_idle h sent w w' : rtc kstep w w' -> idle h sent w -> idle h sent w'.
Proof. intros Hr (U & Hp). exists U. by eapply ksteps_inv in Hr as (Hp' & _). Qed.

Lemma ksteps_lent h sent p b w w' : rtc kstep w w' -> lent h sent p b w -> lent h sent p b w'.
Proof.
  intros Hr (U & s & Hi & Hh & Hst & HU & Hp & Hl & Hb).
  edestruct ksteps_inv as ((Hi' & Hh' & Hst') & Ho & Hn & Hd & Hs); [exact Hr|by split_and!|].
  exists U, s. rewrite Ho, Hn. split_and!; try done; [lia|by apply Hs|apply Hb..].
Qed.

Lemma env_idle h sent w : idle h sent w -> idle h sent (env w).
Proof. apply ksteps_idle, env_ok. Qed.

Lemma env_lent h sent p b w : lent h sent p b w -> lent h sent p b (env w).
Proof. apply ksteps_lent, env_ok. Qed.

(** The slot under the object's pointer is the one at [U]. *)
Lemma hdr_at_next U w :
  inv U w -> exists s, slots w !! pos (nslots w) U = Some s /\
    hdr_at (m_nextSlot (obj w)) w = (Done (pos (nslots w) U, s), w).
Proof.
  intros [(Hg1 & Hn & _ & _) Hnx _ _ _ _].
  assert (0 <= 0 < m_frameSize (obj w)) as H0 by (rewrite kDataOffset_eq in Hg1; lia).
  destruct (slot_of_pos (m_ringBase (obj w)) (m_frameSize (obj w)) (nslots w) U 0 Hn H0) as [He _].
  destruct (lookup_lt_is_Some_2 (slots w) (pos (nslots w) U)) as [s Hs]; [by apply pos_lt|].
  exists s. split; [done|]. unfold hdr_at. rewrite Hnx.
  rewrite Z.add_0_r in He. by rewrite He, Hs.
Qed.

(** Updating a free slot without touching its status keeps everything. *)
Lemma update_free x U j h sent w s s' :
  inv U w /\ handed U w = sent /\ stamped x h w ->
  slots w !! pos (nslots w) j = Some s -> U <= j < k_done w + nslots w ->
  tp_status s' = TP_STATUS_AVAILABLE -> length (sl_bytes s') = length (sl_bytes s) ->
  (x (pos (nslots w) j) -> h `prefix_of` sl_bytes s') ->
  let w' := set_slot (pos (nslots w) j) s' w in
  inv U w' /\ handed U w' = sent /\ stamped x h w'.
Proof.
  intros (Hi & Hh & Hst) Hs HU Ha Hl Hpre w'.
  pose proof Hi as [Hg Hnx Ho Hse Hr Hav]. pose proof Hg as (_ & Hn & _).
  split; [|split].
  - constructor; unfold w'; cbn; rewrite ?length_insert; try done.
    + by apply (geometry_insert w _ s).
    + apply window_insert_out; [lia|intros; lia|done].
    + apply window_insert_out; [lia|intros; lia|done].
    + by apply window_insert_any.
  - rewrite <- Hh. unfold handed, w'. cbn. rewrite length_insert. f_equal.
    apply window_list_insert_out; lia.
  - by apply stamped_insert.
Qed.

Lemma slot_length w i s : geometry w -> slots w !! i = Some s ->
  Z.of_nat (length (sl_bytes s)) = m_frameSize (obj w) - kDataOffset.
Proof. intros (_ & _ & _ & Hg) Hs. by eapply Forall_lookup_1 in Hg. Qed.

Lemma acquire_spec h sent n w :
  idle h sent w -> Z.of_nat (length h) <= n <= m_frameSize (obj w) - kDataOffset ->
  match acquire env n w with
  | (Done None, w') => idle h sent w'
  | (Done (Some p), w') =>
      exists b, Z.of_nat (length b) = n /\ h `prefix_of` b /\ lent h sent p b w'
  | _ => False
  end.
Proof.
  intros (U & Hp) Hlen. destruct (ksteps_inv (fun _ => True) U h sent w (env w) (env_ok w) Hp)
    as (Hp' & Ho & _).
  rewrite <- Ho in Hlen. unfold acquire, mbind, M_bind, modify, gets. cbn.
  clear Hp Ho. revert Hp' Hlen. generalize (env w). intros v Hv Hlen.
  pose proof Hv as (Hi & Hh & Hst).
  destruct (hdr_at_next U v Hi) as (s & Hs & Hat). rewrite Hat.
  case_decide as Ha; cbn; [by exists U|].
  assert (tp_status s = TP_STATUS_AVAILABLE) as Hav by (by destruct (decide (tp_status s = TP_STATUS_AVAILABLE))).
  pose proof (available_room U v s Hi Hs Hav) as HU.
  pose proof (slot_length _ _ _ (inv_geo _ _ Hi) Hs) as Hsl.
  pose proof (Hst _ _ Hs I) as Hpre.
  exists (take (Z.to_nat n) (sl_bytes s)). split_and!.
  - rewrite length_take. lia.
  - apply prefix_take_le; [done|lia].
  - exists U, (set_len n s).
    destruct (update_free (fun _ => True) U U h sent v s (set_len n s) Hv Hs ltac:(lia) Hav eq_refl (fun _ => Hpre)) as (H1 & H2 & H3).
    split; [exact H1|]. split; [exact H2|].
    split; [intros i s' Hi' _; by eapply H3|]. cbn. rewrite length_insert. split_and!; try done.
    + apply list_lookup_insert_eq. by eapply lookup_lt_Some.
    + rewrite length_take. lia.
    + apply prefix_take.
Qed.

Lemma write_spec h sent p b b' off src w :
  lent h sent p b w -> src <> [] -> store off src b = Some b' ->
  exists w', write env (p + Z.of_nat off) src w = (Done tt, w') /\ lent h sent p b' w'.
Proof.
  intros Hlt Hsrc Hst. apply env_lent in Hlt. unfold write, mbind, M_bind, modify, gets. cbn.
  revert Hlt. generalize (env w). intros v (U & s & Hi & Hh & Hx & HU & Hp & Hs & Hlen & Hb).
  pose proof (slot_length _ _ _ (inv_geo _ _ Hi) Hs) as Hsl.
  pose proof (available_at_head U v s Hi HU Hs) as Hav.
  assert (Z.of_nat (off + length src) <= Z.of_nat (length b)) as Hfit.
  { unfold store in Hst. case_decide; [lia|done]. }
  pose proof (prefix_length _ _ Hb) as Hbl.
  assert (0 < length src)%nat as Hpos by (destruct src; [done|cbn; lia]).
  pose proof kDataOffset_eq as HK.
  destruct (slot_of_pos (m_ringBase (obj v)) (m_frameSize (obj v)) (nslots v) U
              (kDataOffset + Z.of_nat off)) as [He Hoff]; [apply Hi|lia|].
  rewrite <- inv_next in He, Hoff by done. rewrite Z.add_assoc, <- Hp in He, Hoff.
  unfold hdr_at. rewrite He, Hs. cbn. rewrite Hoff.
  rewrite decide_False by lia.
  replace (Z.to_nat (kDataOffset + Z.of_nat off - kDataOffset)) with off by lia.
  destruct (store_prefix _ _ _ _ _ Hst Hb) as (l' & -> & Hb' & Hl'). cbn.
  eexists. split; [done|].
  destruct (update_free (fun i => i <> pos (nslots v) U) U U h sent v s (set_bytes l' s))
    as (H1 & H2 & H3); [done|done|lia|done..|].
  exists U, (set_bytes l' s). cbn. rewrite length_insert.
  split; [exact H1|]. split; [exact H2|]. split; [exact H3|].
  split_and!; try done; [|by rewrite (length_store _ _ _ _ Hst)].
  apply list_lookup_insert_eq. by eapply lookup_lt_Some.
Qed.

(** The kernel does not read the program's object. *)
Lemma ksteps_set_obj o (w w' : W) : rtc kstep w w' -> rtc kstep (set_obj o w) (set_obj o w').
Proof.
  induction 1 as [w|w w1 w2 H1 _ IH]; [done|]. eapply rtc_l; [|exact IH].
  destruct H1 as [w s Hs Hq|w s Hlt Hs|w e].
  - by apply (k_pick (set_obj o w) s).
  - by apply (k_complete (set_obj o w) s).
  - apply (k_other (set_obj o w) e).
Qed.

Lemma ksteps_obj (w w' : W) : rtc kstep w w' -> obj w' = obj w.
Proof. induction 1 as [|w w1 w2 H1 _ IH]; [done|]. rewrite IH. by destruct H1. Qed.

Lemma send_loop_spec n w :
  match send_loop sys_send n w with
  | (Done tt, w') | (NoFuel, w') => rtc kstep w w'
  | _ => False
  end.
Proof.
  revert w; induction n as [|n IH]; intros w; [apply rtc_refl|].
  cbn. unfold mbind, M_bind, lift. pose proof (send_ok w) as Hk.
  destruct (sys_send w) as [[r errno] w1]. cbn in *.
  assert (rtc kstep w w1) as Hk' by exact Hk.
  case_decide; [|done]. case_decide; [done|]. specialize (IH w1).
  destruct (send_loop sys_send n w1) as [[[]| | | |] w2]; try done; by etrans.
Qed.

(** The retry loop ends as soon as one answer is not EAGAIN/EBUSY: with fuel [n]
    it only runs out when the first [n] answers were all of that kind. *)
Fixpoint answers (n : nat) (w : W) : list (Z * Z) :=
  match n with
  | O => []
  | S n => let '(a, w') := sys_send w in a :: answers n w'
  end.

Definition busy (a : Z * Z) : bool := (a.1 <? 0) && ((a.2 =? EAGAIN) || (a.2 =? EBUSY)).

Lemma send_loop_ends n w :
  (exists w', send_loop sys_send n w = (Done tt, w')) <->
  existsb (fun a => negb (busy a)) (answers n w) = true.
Proof.
  revert w; induction n as [|n IH]; intros w; cbn; [split; [by intros (?&?)|done]|].
  unfold mbind, M_bind, lift. destruct (sys_send w) as [[r errno] w1]. cbn.
  unfold busy at 1. cbn. destruct (Z.ltb_spec r 0).
  2:{ rewrite decide_False by lia. cbn. split; [done|]. by eexists. }
  rewrite decide_True by done. cbn.
  destruct (Z.eqb_spec errno EAGAIN), (Z.eqb_spec errno EBUSY); cbn;
    [rewrite decide_False by tauto; apply IH..|].
  rewrite decide_True by tauto. split; [done|]. by eexists.
Qed.

(** Publishing the lent slot: one more requested frame, the pointer advanced. *)
Lemma publish_spec h sent p b w s :
  lent h sent p b w -> h `prefix_of` b ->
  hdr_at (m_nextSlot (obj w)) w = (Done s, w) ->
  idle h (sent ++ [b])
    (set_obj (advance (obj w)) (set_slot s.1 (set_status TP_STATUS_SEND_REQUEST s.2) w)).
Proof.
  intros (U & s' & Hi & Hh & Hx & HU & Hp & Hs & Hlen & Hb) Hpre Hat.
  destruct (hdr_at_next U w Hi) as (s1 & Hs1 & Hat1). simplify_eq. cbn.
  rewrite Hat1 in Hat. simplify_eq. cbn.
  pose proof (slot_length _ _ _ (inv_geo _ _ Hi) Hs) as Hsl.
  pose proof Hi as [Hg Hnx Ho Hse Hr Hav]. pose proof Hg as (Hg1 & Hn & Hg2 & Hg3).
  pose proof (prefix_length _ _ Hb) as Hbl. pose proof kDataOffset_eq as HK.
  exists (U + 1). split; [|split].
  - constructor; cbn; rewrite ?length_insert; try done; try lia.
    + by apply (geometry_insert w _ s').
    + rewrite Hnx, Hg2. apply advance_pos; lia.
    + apply window_insert_out; [lia|intros; lia|done].
    + apply window_push; [lia|done|lia| |done]. split; [done|]. cbn. lia.
    + apply window_insert_out; [lia|intros; lia|]. eapply window_mono; [exact Hav|lia..].
  - unfold handed. cbn. rewrite length_insert.
    replace (Z.to_nat (U + 1 - k_head w)) with (S (Z.to_nat (U - k_head w))) by lia.
    rewrite (window_list_S _ _ _ _ _ (set_status TP_STATUS_SEND_REQUEST s')).
    2:{ replace (k_head w + Z.of_nat (Z.to_nat (U - k_head w))) with U by lia.
        apply list_lookup_insert_eq. by eapply lookup_lt_Some. }
    rewrite window_list_insert_out by lia. rewrite app_assoc. f_equal.
    unfold frame_of. cbn. rewrite Hlen, Nat2Z.id. destruct Hb as [k ->]. by rewrite take_app_length.
  - intros i s Hl _. cbn in Hl. apply list_lookup_insert_Some in Hl as [(<- & <- & _)|[Hne Hl]].
    + cbn. by etrans.
    + eapply Hx; [done|]. by intros ->.
Qed.

Lemma commit_spec h sent p b w :
  lent h sent p b w -> h `prefix_of` b ->
  match commit env sys_send fuel w with
  | (Done tt, w') => idle h (sent ++ [b]) w'
  | (NoFuel, _) => True
  | _ => False
  end.
Proof.
  intros Hlt Hpre. apply env_lent in Hlt. unfold commit, mbind, M_bind, modify, gets. cbn.
  revert Hlt. generalize (env w). intros v Hlt.
  pose proof Hlt as (U & _ & Hi & _). destruct (hdr_at_next U v Hi) as (s & Hs & Hat).
  pose proof (publish_spec _ _ _ _ _ _ Hlt Hpre Hat) as Hid. rewrite Hat.
  cbn in *. pose proof (send_loop_spec fuel (set_slot (pos (nslots v) U) (set_status TP_STATUS_SEND_REQUEST s) v)) as Hk.
  destruct (send_loop _ _ _) as [[[]| | | |] w2]; cbn; try done.
  eapply ksteps_idle; [|exact Hid].
  rewrite (ksteps_obj _ _ Hk). cbn. apply (ksteps_set_obj (advance (obj v))) in Hk. apply Hk.
Qed.

(** A ring just mapped: all slots are the program's and nothing was sent. *)
Definition fresh (w : W) : Prop :=
  inv 0 w /\ k_head w = 0 /\ k_done w = 0 /\ taken w = [].

Lemma free_at i w :
  inv 0 w -> k_done w = 0 -> (i < length (slots w))%nat ->
  exists s, slots w !! i = Some s /\ tp_status s = TP_STATUS_AVAILABLE /\
    pos (nslots w) (Z.of_nat i) = i.
Proof.
  intros Hi Hd Hlt.
  assert (pos (nslots w) (Z.of_nat i) = i) as Hpos.
  { unfold pos. rewrite Z.mod_small by lia. lia. }
  destruct (inv_available _ _ Hi (Z.of_nat i)) as (s & Hs & Ha); [lia|].
  rewrite Hpos in Hs. by exists s.
Qed.

(** One iteration of the loop of [prefillRing]. *)
Lemma prefill_slot t i w :
  inv 0 w /\ handed 0 w = [] /\ stamped (fun j => j < i)%nat t w -> k_done w = 0 ->
  (i < length (slots w))%nat -> Z.of_nat (length t) <= m_frameSize (obj w) - kDataOffset ->
  exists s w', hdr_at (m_ringBase (obj w) + m_frameSize (obj w) * Z.of_nat i) w = (Done (i, s), w) /\
    tp_status s = TP_STATUS_AVAILABLE /\
    write env (m_ringBase (obj w) + m_frameSize (obj w) * Z.of_nat i + kDataOffset) t w = (Done tt, w') /\
    (inv 0 w' /\ handed 0 w' = [] /\ stamped (fun j => j < S i)%nat t w') /\
    k_done w' = 0 /\ obj w' = obj w /\ length (slots w') = length (slots w).
Proof.
  intros Hp Hd Hi Ht. pose proof kDataOffset_eq as HK.
  destruct (ksteps_inv _ _ _ _ _ _ (env_ok w) Hp) as (Hp' & Ho & Hn & Hdm & _).
  assert (kDataOffset < m_frameSize (obj w)) as Hfs by (destruct Hp as [[([? ?] & _) _ _ _ _ _] _]; done).
  destruct (free_at i w) as (s & Hs & Has & _); [apply Hp|done..|].
  assert (k_done (env w) = 0) as Hde.
  { destruct Hp' as (Hi' & _). pose proof (inv_order _ _ Hi'). lia. }
  destruct (free_at i (env w)) as (s' & Hs' & Has' & Hpos); [apply Hp'|done|lia|].
  pose proof (slot_length _ _ _ (inv_geo _ _ (proj1 Hp')) Hs') as Hsl. rewrite Ho in Hsl.
  destruct (slot_of_index (m_ringBase (obj w)) (m_frameSize (obj w)) i 0) as [Ha0 _]; [lia|].
  destruct (slot_of_index (m_ringBase (obj w)) (m_frameSize (obj w)) i kDataOffset) as [Ha1 Ha2]; [lia|].
  rewrite Z.add_0_r in Ha0. exists s. eexists. unfold hdr_at at 1. rewrite Ha0, Hs.
  split; [done|]. split; [done|].
  unfold write, mbind, M_bind, modify, gets, hdr_at. cbn. rewrite Ho, Ha1, Hs'. cbn.
  rewrite Ho, Ha2, Z.sub_diag, store_Some by (cbn; lia). split; [done|].
  set (b := list_inserts (Z.to_nat 0) t (sl_bytes s')).
  destruct (update_free (fun j => j < i)%nat 0 (Z.of_nat i) t [] (env w) s' (set_bytes b s'))
    as (H1 & H2 & H3); try done; [by rewrite Hpos|lia|by unfold b; cbn; rewrite length_inserts|intros ?; lia|].
  rewrite Hpos in H1, H2, H3. cbn. rewrite length_insert. split_and!; try done; [|lia].
  intros j sj Hj Hlt. destruct (decide (j = i)) as [->|Hne].
  - cbn in Hj. rewrite list_lookup_insert_eq in Hj by (eapply lookup_lt_Some; done). simplify_eq.
    cbn. unfold b. rewrite inserts_split by (cbn; lia). by eexists.
  - eapply H3; [done|]. lia.
Qed.

Lemma prefill_from_spec t m i w :
  inv 0 w /\ handed 0 w = [] /\ stamped (fun j => j < i)%nat t w -> k_done w = 0 ->
  (i + m = length (slots w))%nat -> Z.of_nat (length t) <= m_frameSize (obj w) - kDataOffset ->
  exists w', prefill_from env m (m_ringBase (obj w) + m_frameSize (obj w) * Z.of_nat i) t w = (Done tt, w') /\
    idle t [] w'.
Proof.
  revert i w; induction m as [|m IH]; intros i w Hp Hd Hm Ht;
    pose proof Hp as (Hi & Hh & Hst); pose proof (inv_geo _ _ Hi) as (Hfs & _ & Hend & _);
    rewrite kDataOffset_eq in Hfs; cbn [prefill_from]; unfold mbind at 1, M_bind at 1, gets; cbn.
  - rewrite decide_False by (rewrite Hend; nia). exists w. split; [done|].
    exists 0. split; [done|]. split; [done|]. intros j s Hj _. eapply Hst; [done|].
    apply lookup_lt_Some in Hj. lia.
  - rewrite decide_True by (rewrite Hend; nia).
    destruct (prefill_slot t i w Hp Hd ltac:(lia) Ht) as (s & w' & Hat & Has & Hw & Hp' & Hd' & Ho & Hl).
    unfold mbind, M_bind. rewrite Hat. rewrite decide_True, Hw by done.
    destruct (IH (S i) w') as (w2 & Hw2 & Hid); [done|done|lia|by rewrite Ho|].
    rewrite Ho in Hw2. exists w2. split; [|done]. rewrite <- Hw2. f_equal. lia.
Qed.

(** Prefilling a fresh ring stamps the template into every slot, with as many
    iterations as there are slots. *)
Lemma prefillRing_spec t w :
  fresh w -> Z.of_nat (length t) <= m_frameSize (obj w) - kDataOffset ->
  exists w', prefillRing env t w = (Done tt, w') /\ idle t [] w'.
Proof.
  intros (Hi & Hk & Hd & Ht) Hlen.
  destruct (prefill_from_spec t (length (slots w)) 0 w) as (w' & Hw & Hid); [|done..|].
  { split; [done|]. split; [|intros j s _ Hj; lia].
    unfold handed. by rewrite Ht, Hk. }
  exists w'. split; [|done]. rewrite <- Hw. unfold prefillRing, mbind, M_bind, gets.
  by rewrite Z.mul_0_r, Z.add_0_r.
Qed.

(** [send] copies the frame and hands it over, or does nothing at all. *)
Lemma send_spec sent f w :
  idle [] sent w -> f <> [] -> Z.of_nat (length f) <= m_frameSize (obj w) - kDataOffset ->
  m_frameSize (obj w) < 2 ^ 32 ->
  match send env sys_send fuel f w with
  | (Done true, w') => idle [] (sent ++ [f]) w'
  | (Done false, w') => idle [] sent w'
  | (NoFuel, _) => True
  | _ => False
  end.
Proof.
  intros Hid Hne Hlen Hfs. unfold send. rewrite kDataOffset_eq in Hlen.
  rewrite wrap_small by (unfold in_u; lia).
  pose proof (acquire_spec _ _ (Z.of_nat (length f)) _ Hid) as Ha. cbn in Ha.
  rewrite kDataOffset_eq in Ha. specialize (Ha ltac:(lia)).
  unfold mbind, M_bind. destruct (acquire _ _ _) as [[[p|]| | | |] w1]; try done.
  destruct Ha as (b & Hb & Hp & Hl). apply Nat2Z.inj in Hb.
  destruct (write_spec _ _ _ _ f 0 f _ Hl Hne) as (w2 & Hw & Hl2).
  { rewrite store_Some by lia. f_equal. rewrite inserts_split by (cbn; lia).
    cbn. rewrite drop_ge by lia. by rewrite app_nil_r. }
  rewrite Z.add_0_r in Hw. rewrite Hw.
  pose proof (commit_spec _ _ _ _ _ Hl2 (prefix_nil _)) as Hc.
  by destruct (commit _ _ _ w2) as [[[]| | | |] w3].
Qed.

Lemma idle_room h sent w : idle h sent w -> m_frameSize (obj w) = fs.
Proof. intros (U & [([_ ?] & _) _ _ _ _ _] & _). done. Qed.

(** The packet-mmap transmit ring keeps the transmit contract. *)
#[export] Program Instance PacketMmapTx_contract :
  @TxContract W (PacketMmapTx_TxRing env sys_send fuel) := {|
  tx_fresh := fresh; tx_idle := idle; tx_lent := lent; tx_room := fs - kDataOffset |}.
Next Obligation.
  intros h h' sent w (U & Hi & Hh & Hst) Hp. exists U. split; [done|]. split; [done|].
  intros i s Hs _. etrans; [exact Hp|]. by eapply Hst.
Qed.
Next Obligation.
  intros t w Hf Hl. apply prefillRing_spec; [done|].
  destruct Hf as ([([_ ->] & _) _ _ _ _ _] & _). done.
Qed.
Next Obligation.
  intros h sent n w Hid Hl. apply acquire_spec; [done|]. by rewrite (idle_room _ _ _ Hid).
Qed.
Next Obligation. intros. by eapply write_spec. Qed.
Next Obligation. intros. by eapply commit_spec. Qed.
End Properties.

(** A concrete kernel: it takes and completes one frame per visit and answers
    every other [send] with EAGAIN. *)
Definition sim_pick (w : world Z) : world Z :=
  let i := pos (Z.of_nat (length (slots w))) (k_head w) in
  match slots w !! i with
  | Some s =>
      if decide (tp_status s = TP_STATUS_SEND_REQUEST) then
        mk_world (obj w) (<[i := set_status TP_STATUS_SENDING s]> (slots w))
          (k_head w + 1) (k_done w) (taken w ++ [frame_of s]) (ext w)
      else w
  | None => w
  end.

Definition sim_complete (w : world Z) : world Z :=
  let i := pos (Z.of_nat (length (slots w))) (k_done w) in
  match slots w !! i with
  | Some s =>
      if decide (k_done w < k_head w) then
        mk_world (obj w) (<[i := set_status TP_STATUS_AVAILABLE s]> (slots w))
          (k_head w) (k_done w + 1) (taken w) (ext w)
      else w
  | None => w
  end.

Definition sim_env (w : world Z) : world Z := sim_complete (sim_pick w).

Definition sim_send (w : world Z) : (Z * Z) * world Z :=
  ((if Z.even (ext w) then (-1, EAGAIN) else (0, 0)),
   sim_pick (mk_world (obj w) (slots w) (k_head w) (k_done w) (taken w) (ext w + 1))).

Lemma sim_pick_ok w : rtc kstep w (sim_pick w).
Proof.
  unfold sim_pick. destruct (slots w !! _) eqn:Hs; [|apply rtc_refl].
  case_decide; [|apply rtc_refl]. by apply rtc_once, k_pick.
Qed.

Lemma sim_complete_ok w : rtc kstep w (sim_complete w).
Proof.
  unfold sim_complete. destruct (slots w !! _) eqn:Hs; [|apply rtc_refl].
  case_decide; [|apply rtc_refl]. by apply rtc_once, k_complete.
Qed.

Lemma sim_env_ok w : rtc kstep w (sim_env w).
Proof. etrans; [apply sim_pick_ok|apply sim_complete_ok]. Qed.

Lemma sim_send_ok w : rtc kstep w (snd (sim_send w)).
Proof. eapply rtc_l; [|apply sim_pick_ok]. apply k_other. Qed.

(** A two-slot ring of 64-byte frames at address 4096. *)
Definition sim_obj : PacketMmapTx := {|
  m_nextSlot := 4096; m_ringBase := 4096; m_ringEnd := 4224; m_fd := 3; m_frameSize := 64;
  m_socketHandler := {| SocketOps.m_fd := 3; m_ringAddress := 4096; m_ringSize := 128 |} |}.
Definition blank_slot : tpacket2_slot :=
  {| tp_status := TP_STATUS_AVAILABLE; tp_len := 0; tp_snaplen := 0; tp_mac := 0;
     sl_bytes := replicate 32 0 |}.
Definition sim_world : world Z := mk_world sim_obj [blank_slot; blank_slot] 0 0 [] 0.

Lemma sim_world_fresh : fresh 64 sim_world.
Proof.
  split; [|done]. constructor; cbn; try (apply window_empty; done); try done.
  - split; [done|]. split; [done|]. split; [done|]. by repeat constructor.
  - intros j Hj. assert (j = 0 \/ j = 1) as [->| ->] by (cbn in Hj; lia);
      exists blank_slot; by split.
Qed.
End Tx.

(** ** Receive *)
Module Rx.

Record PacketMmapRx := {
  m_nextFrame : Z;
  m_ringBase : Z;
  m_ringEnd : Z;
  m_frameSize : Z;
  m_socketHandler : SocketOps;
}.

Definition set_nextFrame (p : Z) (o : PacketMmapRx) : PacketMmapRx :=
  {| m_nextFrame := p; m_ringBase := m_ringBase o; m_ringEnd := m_ringEnd o;
     m_frameSize := m_frameSize o; m_socketHandler := m_socketHandler o |}.

(** [PacketMmapRx::PacketMmapRx(const RingConfig&)]: the exception is thrown with
    the socket member already constructed, so its destructor runs. *)
Definition packetMmapRx {W} `{PacketOS W} (cfg : RingConfig) : M W PacketMmapRx :=
  h ← socketOps cfg;
  if decide (packetVersion cfg <> TPACKET_V2) then
    socketOps_dtor h ;; raise (Throw "PacketMmapRx optimized for TPACKET_V2 only")
  else
  mret {| m_nextFrame := m_ringAddress h; m_ringBase := m_ringAddress h;
          m_ringEnd := m_ringAddress h + m_ringSize h;
          m_frameSize := blockSize cfg; m_socketHandler := h |}.

Definition moved_out : PacketMmapRx :=
  {| m_nextFrame := nullptr; m_ringBase := nullptr; m_ringEnd := nullptr;
     m_frameSize := 0; m_socketHandler := moved_from |}.
Definition move (other : PacketMmapRx) : PacketMmapRx * PacketMmapRx := (other, moved_out).
Definition assign {W} `{PacketOS W} (self other : PacketMmapRx) : M W (PacketMmapRx * PacketMmapRx) :=
  '(h, left_) ← socketOps_assign (m_socketHandler self) (m_socketHandler other);
  mret ({| m_nextFrame := m_nextFrame other; m_ringBase := m_ringBase other;
           m_ringEnd := m_ringEnd other; m_frameSize := m_frameSize other;
           m_socketHandler := h |},
        {| m_nextFrame := nullptr; m_ringBase := nullptr; m_ringEnd := nullptr;
           m_frameSize := 0; m_socketHandler := left_ |}).

Record world (E : Type) := mk_world {
  obj : PacketMmapRx;
  slots : list tpacket2_slot;
  k_head : Z;
  arrived : list bytes;
  ext : E;
}.
Arguments mk_world {E}.
Arguments obj {E}.
Arguments slots {E}.
Arguments k_head {E}.
Arguments arrived {E}.
Arguments ext {E}.

(** The span [hdr + tp_mac, tp_snaplen): it lies behind the header. *)
Definition payload (s : tpacket2_slot) : option bytes :=
  if decide (tp_mac s < kDataOffset) then None
  else load (Z.to_nat (tp_mac s - kDataOffset)) (Z.to_nat (tp_snaplen s)) (sl_bytes s).

Section Operations.
Context {E : Type} (env : world E -> world E).
Abbreviation W := (world E).

Definition set_obj (o : PacketMmapRx) (w : W) : W :=
  mk_world o (slots w) (k_head w) (arrived w) (ext w).
Definition set_slot (i : nat) (s : tpacket2_slot) (w : W) : W :=
  mk_world (obj w) (<[i := s]> (slots w)) (k_head w) (arrived w) (ext w).

Definition hdr_at (p : Z) : M W (nat * tpacket2_slot) :=
  fun w =>
    let i := slot_of (m_ringBase (obj w)) (m_frameSize (obj w)) p in
    match slots w !! i with
    | Some s => (Done (i, s), w)
    | None => (Undef, w)
    end.

(** [tryReceive] *)
Definition tryReceive : M W bytes :=
  modify env ;;
  o ← gets obj;
  '(i, hdr) ← hdr_at (m_nextFrame o);
  if decide (Z.land (tp_status hdr) TP_STATUS_USER = 0) then mret [] else
  match payload hdr with
  | Some f => mret f
  | None => raise Undef
  end.

Definition advance (o : PacketMmapRx) : PacketMmapRx :=
  let p := m_nextFrame o + m_frameSize o in
  set_nextFrame (if decide (m_ringEnd o <= p) then m_ringBase o else p) o.

(** [release] *)
Definition release : M W unit :=
  modify env ;;
  o ← gets obj;
  '(i, hdr) ← hdr_at (m_nextFrame o);
  modify (set_slot i (set_status TP_STATUS_KERNEL hdr)) ;;
  modify (set_obj (advance o)).

#[export] Instance PacketMmapRx_RxRing : RxRing W := {|
  rx_tryReceive := tryReceive; rx_release := release |}.

(** The kernel fills its next slot when the program gave it back, and drops the
    frame otherwise. *)
Inductive kstep : W -> W -> Prop :=
  | k_arrive w s s' f :
      slots w !! pos (Z.of_nat (length (slots w))) (k_head w) = Some s ->
      tp_status s = TP_STATUS_KERNEL ->
      Z.land (tp_status s') TP_STATUS_USER <> 0 -> payload s' = Some f -> f <> [] -> is_bytes f ->
      kstep w (mk_world (obj w)
        (<[pos (Z.of_nat (length (slots w))) (k_head w) := s']> (slots w))
        (k_head w + 1) (arrived w ++ [f]) (ext w))
  | k_other w e : kstep w (mk_world (obj w) (slots w) (k_head w) (arrived w) e).
End Operations.

Section Properties.
Context {E : Type} (env : world E -> world E).
Abbreviation W := (world E).
Context (env_ok : forall w : W, rtc kstep w (env w)).

Abbreviation nslots w := (Z.of_nat (length (slots w))).

Definition geometry (w : W) : Prop :=
  let o := obj w in
  0 < m_frameSize o /\ 0 < nslots w /\
  m_ringEnd o = m_ringBase o + m_frameSize o * nslots w.

Definition filled (s : tpacket2_slot) : Prop :=
  Z.land (tp_status s) TP_STATUS_USER <> 0 /\ exists f, payload s = Some f /\ f <> [] /\ is_bytes f.

Definition frame_of (s : tpacket2_slot) : bytes := default [] (payload s).

(** [C <= k_head <= C + n]: filled slots from the program's position [C] up to the
    kernel's, the kernel's own after that. *)
Record inv (C : Z) (w : W) : Prop := {
  inv_geo : geometry w;
  inv_next : m_nextFrame (obj w) = m_ringBase (obj w) + m_frameSize (obj w) * (C mod nslots w);
  inv_order : C <= k_head w <= C + nslots w;
  inv_filled : window filled (nslots w) C (k_head w) (slots w);
  inv_kernel : window (fun s => tp_status s = TP_STATUS_KERNEL) (nslots w)
    (k_head w) (C + nslots w) (slots w);
}.

Definition waiting (C : Z) (w : W) : list bytes :=
  window_list frame_of (nslots w) C (Z.to_nat (k_head w - C)) (slots w).
#[local] Arguments waiting : simpl never.

Definition idle (seen : list bytes) (w : W) : Prop :=
  exists C, inv C w /\ arrived w = seen ++ waiting C w.

(** The oldest frame is in the program's hands. *)
Definition held (seen : list bytes) (f : bytes) (w : W) : Prop :=
  exists C s, inv C w /\ arrived w = seen ++ waiting C w /\ C < k_head w /\
    slots w !! pos (nslots w) C = Some s /\ payload s = Some f.

Lemma rx_kstep_inv C seen (w w' : W) :
  kstep w w' -> inv C w /\ arrived w = seen ++ waiting C w ->
  (inv C w' /\ arrived w' = seen ++ waiting C w') /\ obj w' = obj w /\
  nslots w' = nslots w /\ k_head w <= k_head w' /\
  (forall s, C < k_head w -> slots w !! pos (nslots w) C = Some s ->
    slots w' !! pos (nslots w) C = Some s).
Proof.
  intros Hk (Hi & Har). pose proof Hi as [Hg Hnx Ho Hf Hke]. pose proof Hg as (_ & Hn & _).
  destruct Hk as [w s s' f Hl Hq Hu Hpl Hne Hby|w e].
  2:{ split; [done|]. split_and!; cbn; [done..|lia|done]. }
  assert (k_head w < C + nslots w) as Hlt.
  { destruct (decide (k_head w < C + nslots w)); [done|exfalso].
    replace (k_head w) with (C + nslots w) in Hl by lia. rewrite pos_add_n in Hl by done.
    destruct (Hf C) as (s0 & Hs0 & Hu0 & _); [lia|]. simplify_eq. by rewrite Hq in Hu0. }
  split; [|split; [done|]; split; [cbn; by rewrite length_insert|]; split; [cbn; lia|]].
  - split.
    + constructor; cbn; rewrite ?length_insert; try done; try lia.
      * unfold geometry. cbn. by rewrite length_insert.
      * apply window_push; [lia|done|lia| |done]. by split; [|exists f].
      * apply window_insert_out; [lia|intros; lia|]. eapply window_mono; [exact Hke|lia..].
    + cbn. rewrite Har, <- app_assoc. f_equal. unfold waiting. cbn. rewrite length_insert.
      replace (Z.to_nat (k_head w + 1 - C)) with (S (Z.to_nat (k_head w - C))) by lia.
      rewrite (window_list_S _ _ _ _ _ s').
      2:{ replace (C + Z.of_nat (Z.to_nat (k_head w - C))) with (k_head w) by lia.
          apply list_lookup_insert_eq. by eapply lookup_lt_Some. }
      rewrite window_list_insert_out by lia. unfold frame_of at 3. by rewrite Hpl.
  - intros s0 HC Hs0. cbn. rewrite list_lookup_insert_ne; [done|]. apply pos_ne; lia.
Qed.

Lemma rx_ksteps_inv C seen (w w' : W) :
  rtc kstep w w' -> inv C w /\ arrived w = seen ++ waiting C w ->
  (inv C w' /\ arrived w' = seen ++ waiting C w') /\ obj w' = obj w /\
  nslots w' = nslots w /\ k_head w <= k_head w' /\
  (forall s, C < k_head w -> slots w !! pos (nslots w) C = Some s ->
    slots w' !! pos (nslots w) C = Some s).
Proof.
  intros Hr. induction Hr as [w|w w1 w2 H1 _ IH]; intros Hp.
  { split; [done|]. split_and!; [done..|lia|done]. }
  destruct (rx_kstep_inv _ _ _ _ H1 Hp) as (Hp1 & Ho1 & Hn1 & Hd1 & Hs1).
  destruct (IH Hp1) as (Hp2 & Ho2 & Hn2 & Hd2 & Hs2).
  split; [done|]. split_and!; [by rewrite Ho2|by rewrite Hn2|lia|].
  intros s HC Hs. rewrite <- Hn1. apply Hs2; [lia|]. rewrite Hn1. by apply Hs1.
Qed.

Lemma rx_hdr_at_next C w :
  inv C w -> exists s, slots w !! pos (nslots w) C = Some s /\
    hdr_at (m_nextFrame (obj w)) w = (Done (pos (nslots w) C, s), w).
Proof.
  intros [(Hg1 & Hn & _) Hnx _ _ _].
  destruct (slot_of_pos (m_ringBase (obj w)) (m_frameSize (obj w)) (nslots w) C 0) as [He _]; [lia..|].
  destruct (lookup_lt_is_Some_2 (slots w) (pos (nslots w) C)) as [s Hs]; [by apply pos_lt|].
  exists s. split; [done|]. unfold hdr_at. rewrite Hnx. rewrite Z.add_0_r in He. by rewrite He, Hs.
Qed.

(** A slot whose USER bit is set holds a frame. *)
Lemma user_filled C w s :
  inv C w -> slots w !! pos (nslots w) C = Some s ->
  Z.land (tp_status s) TP_STATUS_USER <> 0 -> C < k_head w /\ filled s.
Proof.
  intros [(_ & Hn & _) _ Ho Hf Hk] Hs Hu. destruct (decide (C < k_head w)) as [HC|HC].
  - destruct (Hf C) as (s0 & Hs0 & Hs1); [lia|]. by simplify_eq.
  - destruct (Hk C) as (s0 & Hs0 & Hs1); [lia|]. simplify_eq. by rewrite Hs1 in Hu.
Qed.

Lemma tryReceive_spec seen w :
  idle seen w ->
  exists f w', tryReceive env w = (Done f, w') /\
    match f with [] => idle seen w' | _ => held seen f w' end.
Proof.
  intros (C & Hp). destruct (rx_ksteps_inv _ _ _ _ (env_ok w) Hp) as (Hp' & _).
  unfold tryReceive, mbind, M_bind, modify, gets. cbn. revert Hp'. generalize (env w).
  intros v (Hi & Har). destruct (rx_hdr_at_next C v Hi) as (s & Hs & ->).
  case_decide as Hu; cbn; [eexists _, _; split; [done|]; by exists C|].
  destruct (user_filled C v s Hi Hs Hu) as (HC & _ & f & Hpl & Hne & _). rewrite Hpl.
  exists f, v. split; [done|]. destruct f as [|b f]; [done|]. by exists C, s.
Qed.

(** A second look before the release sees the same frame. *)
Lemma tryReceive_held seen f w :
  held seen f w -> exists w', tryReceive env w = (Done f, w') /\ held seen f w'.
Proof.
  intros (C & s & Hi & Har & HC & Hs & Hpl).
  destruct (rx_ksteps_inv _ _ _ _ (env_ok w) (conj Hi Har)) as ((Hi' & Har') & Ho & Hn & Hk & Hst).
  pose proof (Hst _ HC Hs) as Hs'. rewrite <- Hn in Hs'.
  unfold tryReceive, mbind, M_bind, modify, gets. cbn.
  destruct (rx_hdr_at_next C (env w) Hi') as (s1 & Hs1 & ->). simplify_eq.
  destruct (inv_filled _ _ Hi' C) as (s2 & Hs2 & Hu & _); [lia|]. simplify_eq.
  rewrite decide_False, Hpl by done. eexists. split; [done|].
  eexists C, _. split_and!; try done. lia.
Qed.

Lemma release_spec seen f w :
  held seen f w -> exists w', release env w = (Done tt, w') /\ idle (seen ++ [f]) w'.
Proof.
  intros (C & s & Hi & Har & HC & Hs & Hpl).
  destruct (rx_ksteps_inv _ _ _ _ (env_ok w) (conj Hi Har)) as (Hp' & Ho & Hn & Hk & Hst).
  pose proof (Hst _ HC Hs) as Hs'. rewrite <- Hn in Hs'.
  unfold release, mbind, M_bind, modify, gets. cbn. assert (C < k_head (env w)) as HC' by lia.
  revert Hp' Hs' HC'. generalize (env w). clear - Hpl. intros v (Hi & Har) Hs HC.
  destruct (rx_hdr_at_next C v Hi) as (s0 & Hs1 & ->). simplify_eq. cbn.
  eexists. split; [done|]. exists (C + 1).
  pose proof Hi as [Hg Hnx Hor Hf Hke]. pose proof Hg as (Hg1 & Hn & Hg2). split.
  - constructor; cbn; rewrite ?length_insert; try done; try lia.
    + unfold geometry. cbn. by rewrite length_insert.
    + rewrite Hnx, Hg2. apply advance_pos; lia.
    + apply window_insert_out; [lia|intros; lia|]. eapply window_mono; [exact Hf|lia..].
    + apply (window_join _ _ _ (C + nslots v)); [by apply window_insert_any|].
      intros j Hj. assert (j = C + nslots v) as -> by lia. rewrite pos_add_n by lia.
      exists (set_status TP_STATUS_KERNEL s). split; [|done].
      apply list_lookup_insert_eq. by eapply lookup_lt_Some.
  - cbn. rewrite Har, <- app_assoc. f_equal. unfold waiting. cbn. rewrite length_insert.
    replace (Z.to_nat (k_head v - C)) with (S (Z.to_nat (k_head v - (C + 1)))) by lia.
    rewrite (window_list_head _ _ _ _ _ s) by done. cbn. f_equal.
    + unfold frame_of. by rewrite Hpl.
    + symmetry. apply window_list_insert_out; lia.
Qed.

(** The packet-mmap receive ring keeps the receive contract. *)
#[export] Program Instance PacketMmapRx_contract :
  @RxContract W (PacketMmapRx_RxRing env) := {|
  rx_arrived := arrived; rx_idle := idle; rx_held := held |}.
Next Obligation. intros seen w (C & _ & ->). by eexists. Qed.
Next Obligation.
  intros seen f w (C & s & Hi & -> & HC & Hs & Hpl). unfold waiting.
  replace (Z.to_nat (k_head w - C)) with (S (Z.to_nat (k_head w - (C + 1)))) by lia.
  rewrite (window_list_head _ _ _ _ _ s) by done. unfold frame_of at 1. rewrite Hpl. cbn.
  eexists. by rewrite cons_middle, app_assoc.
Qed.
Next Obligation.
  intros seen f w (C & s & Hi & _ & HC & Hs & Hpl).
  destruct (inv_filled _ _ Hi C) as (s' & Hs' & _ & f' & Hpl' & _ & Hb); [lia|]. by simplify_eq.
Qed.
Next Obligation. apply tryReceive_spec. Qed.
Next Obligation. apply release_spec. Qed.
End Properties.
End Rx.

(** ** End to end *)

Section EndToEnd.
Import Tx.
Context {E : Type} (env : Tx.world E -> Tx.world E)
  (sys_send : Tx.world E -> (Z * Z) * Tx.world E) (fuel : nat).

(** Send the frames in turn and collect the answers. *)
Fixpoint send_all (fs : list bytes) : M (Tx.world E) (list bool) :=
  match fs with
  | [] => mret []
  | f :: fs => ok ← Tx.send env sys_send fuel f; oks ← send_all fs; mret (ok :: oks)
  end.

(** The frames whose [send] answered true. *)
Fixpoint accepted (fs : list bytes) (oks : list bool) : list bytes :=
  match fs, oks with
  | f :: fs, ok :: oks => if ok then f :: accepted fs oks else accepted fs oks
  | _, _ => []
  end.

Lemma send_all_idle (sz : Z) (env_ok : forall w, rtc kstep w (env w))
  (send_ok : forall w, rtc kstep w (snd (sys_send w))) fs sent w w' oks :
  Tx.idle sz [] sent w -> sz < 2 ^ 32 ->
  Forall (fun f => f <> [] /\ Z.of_nat (length f) <= sz - kDataOffset) fs ->
  send_all fs w = (Done oks, w') -> Tx.idle sz [] (sent ++ accepted fs oks) w'.
Proof.
  intros Hid Hsz Hfs. revert sent w oks Hid. induction Hfs as [|f fs (Hne & Hlen) _ IH]; intros sent w oks Hid.
  { intros [= <- <-]. by rewrite app_nil_r. }
  cbn. pose proof (Tx.send_spec env sys_send fuel env_ok send_ok sz sent f w Hid Hne) as Hs.
  rewrite (Tx.idle_room _ _ _ _ Hid) in Hs. specialize (Hs Hlen Hsz).
  unfold mbind, M_bind in *. destruct (Tx.send env sys_send fuel f w) as [[ok| | | |] w1]; try done.
  destruct (send_all fs w1) as [[oks1| | | |] w2] eqn:Hr; try done.
  intros [= <- <-]. cbn. destruct ok.
  - rewrite cons_middle, app_assoc. by eapply IH.
  - by eapply IH.
Qed.
End EndToEnd.

(** C4: Frames sent through the packet-mmap transmit ring leave in order, each once:
    whatever the kernel's schedule and the answers of [send(2)], what the kernel has
    taken off the ring is a prefix of the frames whose [send] returned true, and the
    rest of them is still waiting in the ring in order. *)
Theorem packetmmap_tx_fifo {E} (env : Tx.world E -> Tx.world E) sys_send fuel (fs : Z)
    (env_ok : forall w, rtc Tx.kstep w (env w))
    (send_ok : forall w, rtc Tx.kstep w (snd (sys_send w))) frames w w' oks :
  Tx.fresh fs w -> fs < 2 ^ 32 ->
  Forall (fun f => f <> [] /\ Z.of_nat (length f) <= fs - kDataOffset) frames ->
  send_all env sys_send fuel frames w = (Done oks, w') ->
  Tx.taken w' `prefix_of` accepted frames oks /\
  exists U, Tx.inv fs U w' /\ Tx.handed U w' = accepted frames oks.
Proof.
  intros Hf Hsz Hfr Hrun.
  assert (Tx.idle fs [] [] w) as Hid.
  { destruct Hf as (Hi & Hk & Hd & Ht). exists 0. split; [done|]. split.
    - unfold Tx.handed. by rewrite Ht, Hk.
    - intros i s _ _. apply prefix_nil. }
  destruct (send_all_idle env sys_send fuel fs env_ok send_ok _ _ _ _ _ Hid Hsz Hfr Hrun) as (U & Hi & Hh & _).
  cbn in Hh. split; [|by exists U]. rewrite <- Hh. by eexists.
Qed.

Lemma packetmmap_tx_fifo_witness :
  let r := send_all Tx.sim_env Tx.sim_send 3 [[1;2];[3];[4;5]] Tx.sim_world in
  fst r = Done [true; true; true] /\ Tx.taken (snd r) `prefix_of` [[1;2];[3];[4;5]].
Proof.
  cbn zeta. split; [vm_compute; reflexivity|].
  refine (proj1 (packetmmap_tx_fifo Tx.sim_env Tx.sim_send 3 64 Tx.sim_env_ok Tx.sim_send_ok
    [[1;2];[3];[4;5]] Tx.sim_world _ [true; true; true] Tx.sim_world_fresh _ _ _)); [done| |].
  - repeat constructor; try done; cbn; lia.
  - vm_compute; reflexivity.
Defined.

(** The retry loop of [commit] ends exactly when the kernel gives an answer other
    than EAGAIN/EBUSY within the loop's fuel: it never gives up early and never spins
    past such an answer. *)
Theorem packetmmap_commit_terminates {E} (sys_send : Tx.world E -> (Z * Z) * Tx.world E) n w :
  (exists w', Tx.send_loop sys_send n w = (Done tt, w')) <->
  existsb (fun a => negb (Tx.busy a)) (Tx.answers sys_send n w) = true.
Proof. apply Tx.send_loop_ends. Qed.

Section RxEndToEnd.
Context {E : Type} (env : Rx.world E -> Rx.world E).

(** Poll [n] times, releasing every frame found, and collect the frames. *)
Definition drain (n : nat) : M (Rx.world E) (list bytes) :=
  receive_n (H := Rx.PacketMmapRx_RxRing env) n.

Lemma rx_drain_spec (env_ok : forall w, rtc Rx.kstep w (env w)) n seen w :
  Rx.idle seen w ->
  exists fs w', drain n w = (Done fs, w') /\ Rx.idle (seen ++ fs) w'.
Proof. apply (receive_n_spec (H0 := Rx.PacketMmapRx_contract env env_ok)). Qed.
End RxEndToEnd.

(** C5: Polling the packet-mmap receive ring always answers, and returns the frames in
    the order in which the kernel delivered them, each exactly once: the frames
    received are those received before plus a prefix of what was still waiting. *)
Theorem packetmmap_rx_fifo {E} (env : Rx.world E -> Rx.world E)
    (env_ok : forall w, rtc Rx.kstep w (env w)) n seen w :
  Rx.idle seen w ->
  exists fs w', drain env n w = (Done fs, w') /\ (seen ++ fs) `prefix_of` Rx.arrived w'.
Proof.
  intros Hid. destruct (rx_drain_spec env env_ok n seen w Hid) as (fs & w' & Hd & C & _ & Har).
  exists fs, w'. split; [done|]. rewrite Har. by eexists.
Qed.

(** A two-slot receive ring, and a kernel that delivers one frame per visit. *)
Definition sim_rx_obj : Rx.PacketMmapRx := {|
  Rx.m_nextFrame := 4096; Rx.m_ringBase := 4096; Rx.m_ringEnd := 4224; Rx.m_frameSize := 64;
  Rx.m_socketHandler := {| SocketOps.m_fd := 3; m_ringAddress := 4096; m_ringSize := 128 |} |}.
Definition sim_rx_world : Rx.world (list bytes) :=
  Rx.mk_world sim_rx_obj [Tx.blank_slot; Tx.blank_slot] 0 [] [[1;2];[3];[4;5]].

Definition filled_slot (f : bytes) (s : tpacket2_slot) : tpacket2_slot :=
  {| tp_status := TP_STATUS_USER; tp_len := Z.of_nat (length f);
     tp_snaplen := Z.of_nat (length f); tp_mac := 40;
     sl_bytes := replicate 8 0 ++ f ++ replicate (24 - length f) 0 |}.

Definition sim_rx_env (w : Rx.world (list bytes)) : Rx.world (list bytes) :=
  let i := pos (Z.of_nat (length (Rx.slots w))) (Rx.k_head w) in
  match Rx.slots w !! i, Rx.ext w with
  | Some s, f :: rest =>
      if decide (tp_status s = TP_STATUS_KERNEL /\ f <> [] /\ Forall (in_u 8) f) then
        Rx.mk_world (Rx.obj w) (<[i := filled_slot f s]> (Rx.slots w))
          (Rx.k_head w + 1) (Rx.arrived w ++ [f]) rest
      else w
  | _, _ => w
  end.

Lemma sim_rx_env_ok w : rtc Rx.kstep w (sim_rx_env w).
Proof.
  unfold sim_rx_env. destruct (Rx.slots w !! _) as [s|] eqn:Hs, (Rx.ext w) as [|f rest] eqn:He;
    try apply rtc_refl.
  case_decide as Hd; [|apply rtc_refl]. destruct Hd as (Hk & Hne & Hby).
  eapply rtc_l; [apply (Rx.k_other w rest)|].
  apply rtc_once, (Rx.k_arrive (Rx.mk_world (Rx.obj w) (Rx.slots w) (Rx.k_head w) (Rx.arrived w) rest) s); try done.
  unfold Rx.payload, load. cbn [tp_mac filled_slot]. rewrite decide_False by done.
  cbn [tp_snaplen sl_bytes filled_slot]. rewrite Nat2Z.id. cbn [Z.to_nat].
  change (Z.to_nat (40 - kDataOffset)) with 8%nat.
  rewrite decide_True by (rewrite !length_app, !length_replicate; lia).
  unfold slice. rewrite drop_app_length' by (by rewrite length_replicate).
  by rewrite take_app_length.
Qed.

Lemma sim_rx_world_idle : Rx.idle [] sim_rx_world.
Proof.
  exists 0. split; [|done]. constructor; cbn; try (apply window_empty; done); try done.
  intros j Hj. assert (j = 0 \/ j = 1) as [->| ->] by (cbn in Hj; lia); exists Tx.blank_slot; by split.
Qed.

Lemma packetmmap_rx_fifo_witness :
  (exists w, drain sim_rx_env 3 sim_rx_world = (Done [[1;2];[3];[4;5]], w)) /\
  exists fs w', drain sim_rx_env 3 sim_rx_world = (Done fs, w') /\ ([] ++ fs) `prefix_of` Rx.arrived w'.
Proof.
  split; [eexists; vm_compute; reflexivity|].
  apply (packetmmap_rx_fifo sim_rx_env sim_rx_env_ok 3 [] sim_rx_world sim_rx_world_idle).
Defined.
