(* ===== verification/BpfFilter.v ===== *)
(** * The XDP filters (src/backends/bpf/xdp_filter.bpf.c, src/backends/AF_XDP/af_xdp_kern.c)

    Both programs see a packet as the bytes between [ctx->data] and [ctx->data_end];
    an access outside them is what the verifier refuses, here [None].  The helpers
    [bpf_redirect_map] and [bpf_map_lookup_elem] work on the XSKMAP, a finite map
    from queue numbers to sockets. *)

From S2P Require Import Prelude.

Definition target_ethertype : Z := 0x88B5.
Definition ABT_ETHERTYPE : Z := 0x88B5.
Definition sizeof_ethhdr : Z := 14.

Definition XDP_ABORTED : Z := 0.
Definition XDP_PASS : Z := 2.
Definition XDP_REDIRECT : Z := 4.

Record xdp_md := { packet : bytes; rx_queue_index : Z }.

(** [eth->h_proto]: the 16-bit load at offset 12, in host order. *)
Definition h_proto (p : bytes) : option Z := le_decode <$> load 12 2 p.

Section Filters.
Context (bpf_redirect_map : gmap Z Z -> Z -> Z -> Z).

(** [xdp_filter_ethertype] *)
Definition xdp_filter_ethertype (xsks_map : gmap Z Z) (ctx : xdp_md) : option Z :=
  if decide (sizeof_ethhdr > Z.of_nat (length (packet ctx))) then Some XDP_PASS else
  proto ← h_proto (packet ctx);
  if decide (proto <> htons target_ethertype) then Some XDP_PASS else
  Some (bpf_redirect_map xsks_map 0 0).

(** [xdp_sock_prog] *)
Definition xdp_sock_prog (xsks_map : gmap Z Z) (ctx : xdp_md) : option Z :=
  if decide (sizeof_ethhdr > Z.of_nat (length (packet ctx))) then Some XDP_PASS else
  proto ← h_proto (packet ctx);
  if decide (proto <> htons ABT_ETHERTYPE) then Some XDP_PASS else
  let index := rx_queue_index ctx in
  match xsks_map !! index with
  | Some _ => Some (bpf_redirect_map xsks_map index 0)
  | None => Some XDP_PASS
  end.
End Filters.

(** bpf-helpers(7): redirect to the socket at [key], or the flags' low bits. *)
Definition redirects (f : gmap Z Z -> Z -> Z -> Z) : Prop :=
  forall m key flags, f m key flags =
    match m !! key with Some _ => XDP_REDIRECT | None => Z.land flags 3 end.

(** A timing frame: a full Ethernet header whose EtherType is 0x88B5. *)
Definition timing_frame (p : bytes) : Prop :=
  (14 <= length p)%nat /\ p !! 12%nat = Some 0x88 /\ p !! 13%nat = Some 0xB5.

#[export] Instance timing_frame_dec p : Decision (timing_frame p).
Proof. unfold timing_frame. apply _. Defined.

Lemma slice_2 (p : bytes) i :
  (i + 2 <= length p)%nat -> exists a b, slice i 2 p = [a; b] /\ p !! i = Some a /\ p !! S i = Some b.
Proof.
  intros Hl. destruct (lookup_lt_is_Some_2 p i ltac:(lia)) as [a Ha].
  destruct (lookup_lt_is_Some_2 p (S i) ltac:(lia)) as [b Hb].
  exists a, b. split; [|done]. unfold slice.
  rewrite (drop_S _ _ _ Ha), (drop_S _ _ _ Hb). done.
Qed.

(** The comparison with [bpf_htons(0x88B5)] is the comparison of the two bytes on
    the wire, and the load it needs is always in bounds after the size check. *)
Lemma h_proto_timing p :
  is_bytes p -> (14 <= length p)%nat ->
  exists proto, h_proto p = Some proto /\ (proto = htons ABT_ETHERTYPE <-> timing_frame p).
Proof.
  intros Hb Hl. destruct (slice_2 p 12 ltac:(lia)) as (a & b & Hs & Ha & Hb').
  exists (a + 256 * (b + 256 * 0)). unfold h_proto, load. rewrite decide_True by lia. rewrite Hs.
  split; [done|]. change (htons ABT_ETHERTYPE) with 0xB588. unfold timing_frame. rewrite Ha, Hb'.
  pose proof (Forall_lookup_1 _ _ _ _ Hb Ha) as Hra. pose proof (Forall_lookup_1 _ _ _ _ Hb Hb') as Hrb.
  unfold in_u in *. change (2 ^ 8) with 256 in *. split.
  - intros He. split; [lia|]. split; f_equal; lia.
  - intros (_ & [= ->] & [= ->]). done.
Qed.

(** C29: The AF_XDP filter decides every packet without an out-of-bounds access: it
    hands exactly the timing frames whose queue has a socket to user space, and
    passes everything else (ARP, SSH, NFS, runts) to the kernel's stack. *)
Theorem xdp_sock_prog_spec redirect (Hr : redirects redirect) m ctx :
  is_bytes (packet ctx) ->
  xdp_sock_prog redirect m ctx =
    Some (if decide (timing_frame (packet ctx) /\ is_Some (m !! rx_queue_index ctx))
          then XDP_REDIRECT else XDP_PASS).
Proof.
  intros Hb. unfold xdp_sock_prog. unfold sizeof_ethhdr.
  destruct (decide (14 > Z.of_nat (length (packet ctx)))).
  { rewrite decide_False; [done|]. intros [[? _] _]. lia. }
  destruct (h_proto_timing (packet ctx) Hb ltac:(lia)) as (proto & -> & Hp). unfold mbind, option_bind.
  destruct (decide (proto <> htons ABT_ETHERTYPE)) as [Hne|He].
  { rewrite decide_False; [done|]. intros [Ht _]. by apply Hne, Hp. }
  apply dec_stable in He. destruct (m !! rx_queue_index ctx) eqn:Hm.
  - rewrite decide_True by (split; [by apply Hp|done]). by rewrite Hr, Hm.
  - rewrite decide_False; [done|]. by intros [_ [? ?]].
Qed.

Definition sim_redirect (m : gmap Z Z) (key flags : Z) : Z :=
  match m !! key with Some _ => XDP_REDIRECT | None => Z.land flags 3 end.

Definition sim_frame : bytes := replicate 12 1 ++ [0x88; 0xB5] ++ replicate 50 0.

Lemma xdp_sock_prog_spec_witness :
  xdp_sock_prog sim_redirect {[3 := 7]} {| packet := sim_frame; rx_queue_index := 3 |} = Some XDP_REDIRECT.
Proof.
  rewrite (xdp_sock_prog_spec sim_redirect (fun _ _ _ => eq_refl)).
  - vm_compute. reflexivity.
  - repeat constructor; unfold in_u; cbn; lia.
Defined.

(** The fixed-key filter redirects exactly the timing frames to the socket at key
    0, whatever queue they arrived on, and aborts them when no socket is bound there;
    all other packets pass. *)
Theorem xdp_filter_ethertype_spec redirect (Hr : redirects redirect) m ctx :
  is_bytes (packet ctx) ->
  xdp_filter_ethertype redirect m ctx =
    Some (if decide (timing_frame (packet ctx))
          then (match m !! 0 with Some _ => XDP_REDIRECT | None => XDP_ABORTED end)
          else XDP_PASS).
Proof.
  intros Hb. unfold xdp_filter_ethertype. unfold sizeof_ethhdr.
  destruct (decide (14 > Z.of_nat (length (packet ctx)))).
  { rewrite decide_False; [done|]. intros [? _]. lia. }
  destruct (h_proto_timing (packet ctx) Hb ltac:(lia)) as (proto & -> & Hp). unfold mbind, option_bind.
  change (htons target_ethertype) with (htons ABT_ETHERTYPE).
  destruct (decide (proto <> htons ABT_ETHERTYPE)) as [Hne|He].
  { rewrite decide_False; [done|]. intros Ht. by apply Hne, Hp. }
  apply dec_stable in He. rewrite decide_True by (by apply Hp). rewrite Hr. by destruct (m !! 0).
Qed.

Lemma xdp_filter_ethertype_spec_witness :
  xdp_filter_ethertype sim_redirect {[3 := 7]} {| packet := sim_frame; rx_queue_index := 3 |}
  = Some XDP_ABORTED.
Proof.
  rewrite (xdp_filter_ethertype_spec sim_redirect (fun _ _ _ => eq_refl)).
  - vm_compute. reflexivity.
  - repeat constructor; unfold in_u; cbn; lia.
Defined.
