(* ===== verification/TestConfig.v ===== *)
(** * The test configuration (src/app/TestConfig.hpp)

    [parseMac] with the conversion rules of [sscanf("%x")], [loadRole] and
    [loadConfig] over the lookups of a parsed TOML document (the toml++ library,
    class [Toml]).  [RoleConfig] and [TestConfig] are the structs all applications
    and transports read. *)

From Stdlib Require Import Ascii.
From S2P Require Export CStrings.
From S2P Require Import Prelude.

Inductive NicTunerMode := Off | NfsSafe | Full.

#[export] Instance NicTunerMode_eq_dec : EqDecision NicTunerMode.
Proof. solve_decision. Defined.

Record RoleConfig := {
  transport : string;
  interface : string;
  driver : string;
  mac : list Z;
  cpuCore : Z;
  xdpQueueId : Z;
  dpdkBifurcated : bool;
  dpdkAfxdpPmd : bool;
}.

Record TestConfig := {
  etherType : Z;
  frameSize : Z;
  watchdogSec : Z;
  nicTunerMode : NicTunerMode;
  sendIntervalUs : Z;
  outputPath : string;
  server : RoleConfig;
  client : RoleConfig;
  clientCount : Z;
  clientDurationSec : Z;
  clientRecorderCore : Z;
  serverHwTimestampRecorderCore : Z;
  serverHwTimestampOutputPath : string;
  mmapBlockSize : Z;
  mmapBlockNumber : Z;
  afxdpEnableDeferral : bool;
  afxdpEnableIrqSuspend : bool;
  recHotPathCore : Z;
  recRxCore : Z;
  recRecorderCore : Z;
  recDurationSec : Z;
  recQueueCapacity : Z;
}.

(** A concrete configuration, for the witnesses of the development. *)

Definition sim_role (m : list Z) : RoleConfig := {|
  transport := "packet_mmap"; interface := "eth0"; driver := ""; mac := m; cpuCore := 4;
  xdpQueueId := 0; dpdkBifurcated := false; dpdkAfxdpPmd := false |}.

Definition sim_cfg (size : Z) : TestConfig := {|
  etherType := 0x88B5; frameSize := size; watchdogSec := 30; nicTunerMode := Full;
  sendIntervalUs := 0; outputPath := ""; server := sim_role [2;2;2;2;2;2];
  client := sim_role [1;1;1;1;1;1]; clientCount := 10; clientDurationSec := 60;
  clientRecorderCore := 4; serverHwTimestampRecorderCore := 0;
  serverHwTimestampOutputPath := ""; mmapBlockSize := 4096; mmapBlockNumber := 512;
  afxdpEnableDeferral := false; afxdpEnableIrqSuspend := false; recHotPathCore := 2;
  recRxCore := 3; recRecorderCore := 4; recDurationSec := 60; recQueueCapacity := 16 |}.

(** ** [sscanf] conversions *)

(** [%x] into an [unsigned int]. *)
Definition scan_x (s : string) : option (Z * string) :=
  match skip_space s with
  | String "-" s' => '(v, r) ← one_or_more_hex (skip_0x s'); Some (u32 (- v), r)
  | String "+" s' => '(v, r) ← one_or_more_hex (skip_0x s'); Some (u32 v, r)
  | s' => '(v, r) ← one_or_more_hex (skip_0x s'); Some (u32 v, r)
  end%char.

Definition scan_colon (s : string) : option string :=
  match s with String ":" s' => Some s' | _ => None end%char.

(** [sscanf(s, "%x:%x:%x:%x:%x:%x", ...)]: the converted values, fewer than [n]
    when the text stops matching. *)
Fixpoint scan_macs (n : nat) (s : string) : list Z :=
  match n with
  | O => []
  | S n =>
      match scan_x s with
      | None => []
      | Some (v, r) =>
          v :: match n with
               | O => []
               | _ => match scan_colon r with Some r' => scan_macs n r' | None => [] end
               end
      end
  end.

(** [parseMac] *)
Definition parseMac {W} (s : string) : M W (list Z) :=
  let b := scan_macs 6 s in
  if decide (length b <> 6%nat) then raise (Throw ("Invalid MAC address: " ++ s)%string)
  else mret (u8 <$> b).

(** ** The TOML document: a lookup gives a value that fits the requested type. *)
Class Toml (T : Type) := {
  toml_string : T -> string -> string -> option string;
  toml_int : T -> string -> string -> option Z;
  toml_unsigned : T -> string -> string -> option Z;
  toml_bool : T -> string -> string -> option bool;
}.

Section Load.
Context {T : Type} `{Toml T} {W : Type}.

Definition string_or (tbl : T) (sec key d : string) : string := default d (toml_string tbl sec key).
Definition int_or (tbl : T) (sec key : string) (d : Z) : Z := default d (toml_int tbl sec key).
Definition unsigned_or (tbl : T) (sec key : string) (d : Z) : Z := default d (toml_unsigned tbl sec key).
Definition bool_or (tbl : T) (sec key : string) (d : bool) : bool := default d (toml_bool tbl sec key).

(** [loadRole] *)
Definition loadRole (tbl : T) (role : string) : M W RoleConfig :=
  m ← parseMac (string_or tbl role "mac" "");
  let rc := {|
    transport := string_or tbl role "transport" "packet_mmap";
    interface := string_or tbl role "interface" "eno2";
    driver := string_or tbl role "driver" "";
    mac := m;
    cpuCore := int_or tbl role "cpu_core" 4;
    xdpQueueId := u32 (int_or tbl role "xdp_queue_id" 0);
    dpdkBifurcated := bool_or tbl role "dpdk_bifurcated" false;
    dpdkAfxdpPmd := bool_or tbl role "dpdk_afxdp_pmd" false |} in
  if dpdkBifurcated rc && dpdkAfxdpPmd rc
  then raise (Throw "dpdk_bifurcated and dpdk_afxdp_pmd are mutually exclusive")
  else mret rc.

Definition nic_tuner_of (s : string) : NicTunerMode :=
  if decide (s = "off"%string) then Off
  else if decide (s = "nfs_safe"%string) then NfsSafe else Full.

(** [loadConfig], after the file was parsed. *)
Definition loadConfig (tbl : T) : M W TestConfig :=
  srv ← loadRole tbl "server";
  cli ← loadRole tbl "client";
  mret {|
    etherType := u16 (int_or tbl "general" "ether_type" 0x88B5);
    frameSize := u32 (int_or tbl "general" "frame_size" 64);
    watchdogSec := int_or tbl "general" "watchdog_sec" 30;
    nicTunerMode := nic_tuner_of (string_or tbl "general" "nic_tuner" "full");
    sendIntervalUs := u32 (int_or tbl "general" "send_interval_us" 0);
    outputPath := string_or tbl "general" "output" "";
    server := srv;
    client := cli;
    clientCount := u32 (int_or tbl "client" "count" 10);
    clientDurationSec := u64 (int_or tbl "client" "duration_sec" 60);
    clientRecorderCore := int_or tbl "client" "recorder_core" 4;
    serverHwTimestampRecorderCore := int_or tbl "server" "server_hw_timestamp_recorder_core" 0;
    serverHwTimestampOutputPath := string_or tbl "server" "server_hw_timestamp_output" "";
    mmapBlockSize := u32 (int_or tbl "packet_mmap" "block_size" 4096);
    mmapBlockNumber := u32 (int_or tbl "packet_mmap" "block_number" 512);
    afxdpEnableDeferral := bool_or tbl "af_xdp" "enable_deferral" false;
    afxdpEnableIrqSuspend := bool_or tbl "af_xdp" "enable_irq_suspend" false;
    recHotPathCore := int_or tbl "single_recorder" "hot_path_core" 2;
    recRxCore := int_or tbl "single_recorder" "rx_core" 3;
    recRecorderCore := int_or tbl "single_recorder" "benchmark_recorder_core" 4;
    recDurationSec := u64 (int_or tbl "single_recorder" "duration_sec" 60);
    recQueueCapacity := unsigned_or tbl "single_recorder" "queue_capacity" (2 ^ 20)
  |}.
End Load.

(** ** Properties *)

Lemma length_scan_macs n s : (length (scan_macs n s) <= n)%nat.
Proof.
  revert s; induction n as [|n IH]; intros s; [done|]. cbn.
  destruct (scan_x s) as [[v r]|]; cbn; [|lia].
  destruct n; cbn in *; [lia|]. destruct (scan_colon r); cbn; [|lia].
  specialize (IH s0). lia.
Qed.

(** The usual notation of a MAC address. *)
Definition hex_char (d : Z) : ascii :=
  ascii_of_nat (Z.to_nat (if d <? 10 then 48 + d else 87 + d)).

Fixpoint print_mac (m : list Z) : string :=
  match m with
  | [] => ""
  | [b] => String (hex_char (b / 16)) (String (hex_char (b mod 16)) "")
  | b :: m => String (hex_char (b / 16)) (String (hex_char (b mod 16)) (String ":" (print_mac m)))
  end.

(** One byte is read back, whatever non-digit follows it. *)
Lemma scan_x_byte b rest :
  0 <= b < 256 -> (rest = ""%string \/ exists r, rest = String ":" r) ->
  scan_x (String (hex_char (b / 16)) (String (hex_char (b mod 16)) rest)) = Some (b, rest).
Proof.
  intros Hb Hr. rewrite <- (Z2Nat.id b) by lia. assert (Z.to_nat b < 256)%nat as Hn by lia.
  revert Hn. generalize (Z.to_nat b). intros n Hn.
  do 256 (destruct n as [|n]; [destruct Hr as [->|[r ->]]; reflexivity|]). lia.
Qed.

Lemma scan_print m :
  m <> [] -> Forall (in_u 8) m -> scan_macs (length m) (print_mac m) = m.
Proof.
  induction m as [|b m IH]; intros Hne Hm; [done|]. apply Forall_cons_1 in Hm as [Hb Hm].
  unfold in_u in Hb. change (2 ^ 8) with 256 in Hb. destruct m as [|b' m].
  - cbn [length scan_macs print_mac]. rewrite (scan_x_byte b "" Hb (or_introl eq_refl)). done.
  - change (print_mac (b :: b' :: m)) with
      (String (hex_char (b / 16)) (String (hex_char (b mod 16)) (String ":" (print_mac (b' :: m))))).
    cbn [length scan_macs].
    rewrite (scan_x_byte b (String ":" (print_mac (b' :: m))) Hb (or_intror (ex_intro _ _ eq_refl))).
    cbn [scan_colon]. f_equal. by apply IH.
Qed.

(** [parseMac] reads every MAC address in the usual notation back to its six
    bytes, and on any text it either throws or gives exactly six bytes. *)
Theorem parseMac_roundtrip {W} (w : W) :
  (forall m, length m = 6%nat -> Forall (in_u 8) m -> parseMac (print_mac m) w = (Done m, w)) /\
  (forall s, match parseMac s w with
             | (Done m, w') => length m = 6%nat /\ Forall (in_u 8) m /\ w' = w
             | (Throw _, w') => w' = w
             | _ => False
             end).
Proof.
  split.
  - intros m Hl Hm. unfold parseMac. pose proof (scan_print m) as Hs. rewrite Hl in Hs.
    rewrite Hs by (first [done|by destruct m]). rewrite decide_False by (intros Hn; by apply Hn).
    unfold mret, M_ret. f_equal. f_equal. clear Hl Hs. induction Hm as [|b m Hb Hm IH]; [done|].
    cbn. rewrite IH. f_equal. by apply wrap_small.
  - intros s. unfold parseMac. destruct (decide _) as [|Hl]; [done|]. cbn.
    rewrite length_fmap. split; [|split; [|done]].
    + destruct (decide (length (scan_macs 6 s) = 6%nat)); done.
    + apply Forall_fmap, Forall_forall. intros x _. by apply wrap_range.
Qed.

(** A role never comes out of [loadRole] with both DPDK binding models selected,
    its MAC has six bytes, and a document that selects both is refused. *)
Theorem loadRole_spec {T W} `{Toml T} (tbl : T) role (w : W) :
  match loadRole tbl role w with
  | (Done rc, w') => w' = w /\ length (mac rc) = 6%nat /\ Forall (in_u 8) (mac rc) /\
      ~ (dpdkBifurcated rc = true /\ dpdkAfxdpPmd rc = true) /\ in_u 32 (xdpQueueId rc)
  | (Throw e, w') => w' = w /\
      (length (scan_macs 6 (string_or tbl role "mac" "")) <> 6%nat \/
       (toml_bool tbl role "dpdk_bifurcated" = Some true /\
        toml_bool tbl role "dpdk_afxdp_pmd" = Some true))
  | _ => False
  end.
Proof.
  unfold loadRole, parseMac, mbind, M_bind.
  destruct (decide _) as [Hl|Hl]; cbn -[u8 u32 scan_macs]; [by split; [|left]|].
  destruct (bool_or tbl role "dpdk_bifurcated" false) eqn:H1,
    (bool_or tbl role "dpdk_afxdp_pmd" false) eqn:H2; cbn -[u8 u32 scan_macs].
  1:{ split; [done|]. right. unfold bool_or, default in *.
      destruct (toml_bool tbl role "dpdk_bifurcated") as [[]|], (toml_bool tbl role "dpdk_afxdp_pmd") as [[]|]; done. }
  all: rewrite length_fmap; split; [done|]; split; [by apply dec_stable|]; split;
    [apply Forall_fmap, Forall_forall; intros x _; by apply wrap_range
    |split; [by intros [? ?]|by apply wrap_range]].
Qed.
