(* ===== verification/App.v ===== *)
(** * What the benchmark applications share
    (src/app/SingleRecorder.hpp, src/app/HistThread.hpp, src/app/TscClock.hpp)

    The frame layout and its unaligned loads and stores, the pacing of the senders,
    the clocks, and the cross-thread surface [Shared]: the SPSC queue (rigtorp's,
    class [Spsc]), the [txDone] flag and the overflow tally.  An application runs in
    the world [app]: its transmit and receive transports, the shared surface and the
    clocks; [others] is what the other threads do to the shared surface meanwhile. *)

From S2P Require Import Prelude RingConcepts TestConfig.

Definition kWarmupDiscard : Z := 500000.
Definition kOffDstMac : nat := 0.
Definition kOffSrcMac : nat := 6.
Definition kOffEtherType : nat := 12.
Definition kOffSeq : nat := 14.
Definition kOffTxStamp : nat := 18.
Definition kFrameMinBytes : Z := Z.of_nat kOffTxStamp + 8.
Definition kEndSentinel : Z := 2 ^ 64 - 1.

(** ** Clocks: the TSC, CLOCK_MONOTONIC as seconds and nanoseconds, the stop token. *)
Class Clock (C : Type) := {
  tsc_now : C -> Z * C;
  clock_monotonic : C -> (Z * Z) * C;
  stop_requested : C -> bool * C;
  clock_nanosleep : Z * Z -> C -> C;
}.

(** An invariant TSC: [tsc_value] counts without wrap-around; every read advances it,
    nothing turns it back, and no single operation takes [max_step] cycles. *)
Class ClockLaws (C : Type) `{Clock C} := {
  tsc_value : C -> Z;
  max_step : Z;
  max_step_pos : 0 < max_step;
  tsc_law c : fst (tsc_now c) = u64 (tsc_value c) /\
    tsc_value c < tsc_value (snd (tsc_now c)) < tsc_value c + max_step;
  mono_law c : 0 <= snd (fst (clock_monotonic c)) < 1000000000 /\
    tsc_value c <= tsc_value (snd (clock_monotonic c)) < tsc_value c + max_step;
  stop_law c : tsc_value c <= tsc_value (snd (stop_requested c)) < tsc_value c + max_step;
  sleep_law ts c : tsc_value c <= tsc_value (clock_nanosleep ts c) < tsc_value c + max_step;
}.

(** A clock that advances by one per read, with the stop request at a given time. *)
Record sim_clock := { sc_tsc : Z; sc_stop : Z }.

#[export] Instance sim_Clock : Clock sim_clock := {|
  tsc_now c := (u64 (sc_tsc c), {| sc_tsc := sc_tsc c + 1; sc_stop := sc_stop c |});
  clock_monotonic c := ((sc_tsc c, 0), c);
  stop_requested c := (sc_stop c <=? sc_tsc c, c);
  clock_nanosleep ts c := c |}.

#[export] Program Instance sim_ClockLaws : ClockLaws sim_clock := {|
  tsc_value := sc_tsc; max_step := 2 |}.
Next Obligation. done. Qed.
Next Obligation. intros c. cbn -[u64]. split; [done|lia]. Qed.
Next Obligation. intros c. cbn. lia. Qed.
Next Obligation. intros c. cbn. lia. Qed.
Next Obligation. intros ts c. cbn. lia. Qed.

(** [tsc::mono_ns], [txgen_now_ns] *)
Definition mono_ns {C} `{Clock C} (c : C) : Z * C :=
  let '((s, ns), c') := clock_monotonic c in (u64 (u64 s * 1000000000 + u64 ns), c').

(** ** The SPSC queue: a bounded FIFO, seen through its contents [q_items] and the
    history [q_pushed] of what was ever stored. *)
Class Spsc (Q : Type) := {
  q_try_push : Z -> Q -> bool * Q;
  q_front : Q -> option Z;
  q_pop : Q -> Q;
}.

Class SpscLaws (Q : Type) `{Spsc Q} := {
  q_items : Q -> list Z;
  q_pushed : Q -> list Z;
  q_suffix q : exists popped, q_pushed q = popped ++ q_items q;
  try_push_law v q : let '(ok, q') := q_try_push v q in
    if ok then q_items q' = q_items q ++ [v] /\ q_pushed q' = q_pushed q ++ [v]
    else q_items q' = q_items q /\ q_pushed q' = q_pushed q /\ q_items q <> [];
  front_law q : q_front q = head (q_items q);
  pop_law q v rest : q_items q = v :: rest ->
    q_items (q_pop q) = rest /\ q_pushed (q_pop q) = q_pushed q;
}.

(** A bounded list with its history. *)
Record list_queue := { lq_cap : nat; lq_items : list Z; lq_popped : list Z }.

#[export] Instance list_Spsc : Spsc list_queue := {|
  q_try_push v q :=
    if decide (lq_items q <> [] /\ (lq_cap q <= length (lq_items q))%nat) then (false, q)
    else (true, {| lq_cap := lq_cap q; lq_items := lq_items q ++ [v]; lq_popped := lq_popped q |});
  q_front q := head (lq_items q);
  q_pop q := {| lq_cap := lq_cap q; lq_items := tail (lq_items q);
                lq_popped := lq_popped q ++ option_list (head (lq_items q)) |};
|}.

#[export] Program Instance list_SpscLaws : SpscLaws list_queue := {|
  q_items := lq_items; q_pushed q := lq_popped q ++ lq_items q |}.
Next Obligation. intros q. by eexists. Qed.
Next Obligation.
  intros v q. cbn. case_decide as Hd; cbn; [by destruct Hd|]. split; [done|]. apply app_assoc.
Qed.
Next Obligation. done. Qed.
Next Obligation. intros q v rest Hi. cbn in *. rewrite Hi. split; [done|]. cbn. by rewrite <- app_assoc. Qed.

(** ** The world of an application *)
Record app (T R Q C : Type) := mk_app {
  txd : T;
  rxd : R;
  toHist : Q;
  txDone : bool;
  pushFailures : Z;
  clk : C;
}.
Arguments mk_app {T R Q C}.
Arguments txd {T R Q C}.
Arguments rxd {T R Q C}.
Arguments toHist {T R Q C}.
Arguments txDone {T R Q C}.
Arguments pushFailures {T R Q C}.
Arguments clk {T R Q C}.

Section World.
Context {T R Q C : Type} `{TxRing T} `{RxRing R} `{Spsc Q} `{Clock C}.
Context (others : Q * bool -> C -> (Q * bool) * C).
Abbreviation W := (app T R Q C).

Definition set_txd (t : T) (w : W) : W := mk_app t (rxd w) (toHist w) (txDone w) (pushFailures w) (clk w).
Definition set_rxd (r : R) (w : W) : W := mk_app (txd w) r (toHist w) (txDone w) (pushFailures w) (clk w).
Definition set_shared (q : Q) (d : bool) (w : W) : W := mk_app (txd w) (rxd w) q d (pushFailures w) (clk w).
Definition set_fails (n : Z) (w : W) : W := mk_app (txd w) (rxd w) (toHist w) (txDone w) n (clk w).
Definition set_clk (c : C) (w : W) : W := mk_app (txd w) (rxd w) (toHist w) (txDone w) (pushFailures w) c.

Definition on_tx {A} (m : M T A) : M W A := zoom txd set_txd m.
Definition on_rx {A} (m : M R A) : M W A := zoom rxd set_rxd m.
Definition on_clk {A} (f : C -> A * C) : M W A := zoom clk set_clk (lift f).

Definition now : M W Z := on_clk tsc_now.
Definition stopped : M W bool := on_clk stop_requested.

(** The other threads take their turn before every access to the shared surface. *)
Definition interfere : M W unit := modify (fun w =>
  let '((q, d), c) := others (toHist w, txDone w) (clk w) in set_clk c (set_shared q d w)).

Definition try_push (v : Z) : M W bool :=
  interfere ;;
  lift (fun w => let '(ok, q) := q_try_push v (toHist w) in (ok, set_shared q (txDone w) w)).

Definition load_txDone : M W bool := interfere ;; gets txDone.
Definition store_txDone : M W unit := modify (fun w => set_shared (toHist w) true w).
Definition count_failure : M W unit := modify (fun w => set_fails (u64 (pushFailures w + 1)) w).

(** [while (!toHist.try_push(kEndSentinel)) ;] *)
Fixpoint push_sentinel (fuel : nat) : M W unit :=
  match fuel with
  | O => raise NoFuel
  | S n => ok ← try_push kEndSentinel; if (ok : bool) then mret tt else push_sentinel n
  end.

(** Push a sample, counting it when the queue is full. *)
Definition push_sample (v : Z) : M W unit :=
  ok ← try_push v; if (ok : bool) then mret tt else count_failure.
End World.

(** The other threads only take samples out, and [txDone] never goes back. *)
Definition others_ok {Q C} `{SpscLaws Q} (others : Q * bool -> C -> (Q * bool) * C) : Prop :=
  forall q d c, let '((q', d'), _) := others (q, d) c in
    q_pushed q' = q_pushed q /\ (d = true -> d' = true).

Section Shared.
Context {T R Q C : Type} `{SpscLaws Q} `{Clock C}.
Context (others : Q * bool -> C -> (Q * bool) * C) (Hothers : others_ok others).
Abbreviation W := (app T R Q C).

(** Every operation on the shared surface leaves the transport and the tally alone
    and extends the history by what it pushed. *)
Lemma try_push_run v (w : W) : exists b (w' : W),
  try_push others v w = (Done b, w') /\ rxd w' = rxd w /\ pushFailures w' = pushFailures w /\
  q_pushed (toHist w') = q_pushed (toHist w) ++ (if b then [v] else []).
Proof.
  unfold try_push, interfere, modify, mbind, M_bind, lift. cbn.
  pose proof (Hothers (toHist w) (txDone w) (clk w)) as Ho.
  destruct (others (toHist w, txDone w) (clk w)) as [[q d] c]. destruct Ho as [Ho _]. cbn.
  pose proof (try_push_law v q) as Hl. destruct (q_try_push v q) as [b q']. cbn.
  exists b. eexists. split; [done|]. split; [done|]. split; [done|]. cbn. destruct b.
  - destruct Hl as [_ ->]. by rewrite Ho.
  - destruct Hl as (_ & -> & _). by rewrite Ho, app_nil_r.
Qed.

Lemma load_txDone_run (w : W) : exists b (w' : W),
  load_txDone others w = (Done b, w') /\ rxd w' = rxd w /\ pushFailures w' = pushFailures w /\
  q_pushed (toHist w') = q_pushed (toHist w).
Proof.
  unfold load_txDone, interfere, modify, gets, mbind, M_bind. cbn.
  pose proof (Hothers (toHist w) (txDone w) (clk w)) as Ho.
  destruct (others (toHist w, txDone w) (clk w)) as [[q d] c]. cbn.
  eexists _, _. split; [done|]. split; [done|]. split; [done|]. apply Ho.
Qed.

Lemma push_sample_run v (w : W) : exists (b : bool) (w' : W),
  push_sample others v w = (Done tt, w') /\ rxd w' = rxd w /\
  pushFailures w' = (if b then pushFailures w else u64 (pushFailures w + 1)) /\
  q_pushed (toHist w') = q_pushed (toHist w) ++ (if b : bool then [v] else []).
Proof.
  destruct (try_push_run v w) as (b & w' & Hp & Hr & Hf & Hq). unfold push_sample.
  rewrite (run_bind _ _ _ _ _ Hp). destruct b; [by exists true, w'|].
  exists false. eexists. split; [done|]. cbn. by rewrite Hf.
Qed.

Lemma push_sentinel_run n (w : W) :
  match push_sentinel others n w with
  | (Done tt, w') => rxd w' = rxd w /\ pushFailures w' = pushFailures w /\
      q_pushed (toHist w') = q_pushed (toHist w) ++ [kEndSentinel]
  | (NoFuel, _) => True
  | _ => False
  end.
Proof.
  revert w; induction n as [|n IH]; intros w; [done|]. cbn [push_sentinel].
  destruct (try_push_run kEndSentinel w) as (b & w' & Hp & Hr & Hf & Hq).
  rewrite (run_bind _ _ _ _ _ Hp). destruct b; cbn; [done|].
  specialize (IH w'). rewrite app_nil_r in Hq. rewrite Hr, Hf, Hq in IH. exact IH.
Qed.

(** None of them touches the transmit transport. *)
Lemma try_push_txd v (w : W) : txd (snd (try_push others v w)) = txd w.
Proof.
  unfold try_push, interfere, modify, mbind, M_bind, lift. cbn.
  destruct (others _ _) as [[q d] c]. cbn. by destruct (q_try_push v q).
Qed.

Lemma push_sample_txd v (w : W) : txd (snd (push_sample others v w)) = txd w.
Proof.
  unfold push_sample, mbind, M_bind. pose proof (try_push_txd v w) as Ht.
  destruct (try_push others v w) as [[[]| | | |] w']; exact Ht.
Qed.

Lemma push_sentinel_txd n (w : W) : txd (snd (push_sentinel others n w)) = txd w.
Proof.
  revert w; induction n as [|n IH]; intros w; [done|]. cbn [push_sentinel].
  unfold mbind, M_bind. pose proof (try_push_txd kEndSentinel w) as Ht.
  destruct (try_push others kEndSentinel w) as [[[]| | | |] w']; try exact Ht. etrans; [apply IH|exact Ht].
Qed.
End Shared.

(** ** Pacing *)

(** The interval in whole seconds and remaining nanoseconds. *)
Definition intervalNs (cfg : TestConfig) : Z := u64 (sendIntervalUs cfg * 1000).
Definition paceSec (cfg : TestConfig) : Z := intervalNs cfg / 1000000000.
Definition paceNsec (cfg : TestConfig) : Z := intervalNs cfg mod 1000000000.

(** The deadline one interval later, with one carry. *)
Definition pace_next (cfg : TestConfig) (ts : Z * Z) : Z * Z :=
  let sec := ts.1 + paceSec cfg in
  let nsec := ts.2 + paceNsec cfg in
  if decide (1000000000 <= nsec) then (sec + 1, nsec - 1000000000) else (sec, nsec).

Fixpoint pace_iter (cfg : TestConfig) (n : nat) (ts : Z * Z) : Z * Z :=
  match n with O => ts | S n => pace_iter cfg n (pace_next cfg ts) end.

Section Pace.
Context {T R Q C : Type} `{Clock C}.
Abbreviation W := (app T R Q C).

(** Before the loop: the first deadline. *)
Definition pace_start (cfg : TestConfig) : M W (Z * Z) :=
  if decide (0 < intervalNs cfg) then on_clk clock_monotonic else mret (0, 0).

(** In the loop: advance the deadline and sleep until it. *)
Definition pace (cfg : TestConfig) (ts : Z * Z) : M W (Z * Z) :=
  if decide (0 < intervalNs cfg) then
    let ts' := pace_next cfg ts in
    modify (fun w => set_clk (clock_nanosleep ts' (clk w)) w) ;; mret ts'
  else mret ts.
End Pace.

(** The nanoseconds of a deadline. *)
Definition ts_ns (ts : Z * Z) : Z := ts.1 * 1000000000 + ts.2.
Definition ts_normal (ts : Z * Z) : Prop := 0 <= ts.2 < 1000000000.

(** Running the operations of the world one part at a time. *)
Section Runs.
Context {T R Q C : Type} `{TxRing T} `{RxRing R} `{Spsc Q} `{ClockLaws C}.
Abbreviation W := (app T R Q C).

Lemma on_tx_run {A} (m : M T A) (w : W) o t :
  m (txd w) = (o, t) -> on_tx m w = (o, set_txd t w).
Proof. intros He. unfold on_tx, zoom. by rewrite He. Qed.

Lemma on_rx_run {A} (m : M R A) (w : W) o r :
  m (rxd w) = (o, r) -> on_rx m w = (o, set_rxd r w).
Proof. intros He. unfold on_rx, zoom. by rewrite He. Qed.

Lemma now_run (w : W) : exists c',
  now w = (Done (u64 (tsc_value (clk w))), set_clk c' w) /\
  tsc_value (clk w) < tsc_value c' < tsc_value (clk w) + max_step.
Proof.
  exists (snd (tsc_now (clk w))). pose proof (tsc_law (clk w)) as [He Hv]. split; [|exact Hv].
  rewrite <- He. unfold now, on_clk, zoom, lift. by destruct (tsc_now (clk w)).
Qed.

Lemma stopped_run (w : W) : exists b c',
  stopped w = (Done b, set_clk c' w) /\
  tsc_value (clk w) <= tsc_value c' < tsc_value (clk w) + max_step.
Proof.
  exists (fst (stop_requested (clk w))), (snd (stop_requested (clk w))).
  split; [|apply stop_law].
  unfold stopped, on_clk, zoom, lift. by destruct (stop_requested (clk w)).
Qed.

Lemma pace_run cfg ts (w : W) : exists ts' c',
  pace cfg ts w = (Done ts', set_clk c' w) /\
  tsc_value (clk w) <= tsc_value c' < tsc_value (clk w) + max_step.
Proof.
  pose proof (@max_step_pos C _ _) as Hm. unfold pace. case_decide.
  - eexists _, _. split; [done|]. apply sleep_law.
  - exists ts, (clk w). split; [by destruct w|lia].
Qed.

Lemma pace_start_run cfg (w : W) : exists ts c',
  pace_start cfg w = (Done ts, set_clk c' w) /\ ts_normal ts.
Proof.
  unfold pace_start. case_decide.
  - pose proof (mono_law (clk w)) as [Hn _]. unfold on_clk, zoom, lift.
    destruct (clock_monotonic (clk w)) as [ts c]. by eexists _, _.
  - eexists (0, 0), (clk w). split; [by destruct w|done].
Qed.
End Runs.

Lemma pace_next_spec cfg ts :
  ts_normal ts ->
  ts_normal (pace_next cfg ts) /\ ts_ns (pace_next cfg ts) = ts_ns ts + intervalNs cfg.
Proof.
  unfold ts_normal, pace_next, ts_ns, paceSec, paceNsec. intros Hn.
  pose proof (Z.div_mod (intervalNs cfg) 1000000000 ltac:(lia)).
  pose proof (Z.mod_pos_bound (intervalNs cfg) 1000000000 ltac:(lia)).
  case_decide; cbn; lia.
Qed.

(** The senders' deadlines stay normalised and never drift: after [n] frames the
    deadline is exactly [n] intervals after the first, for every interval that the
    configuration can hold. *)
Theorem pacing_drift_free cfg n ts :
  ts_normal ts ->
  ts_normal (pace_iter cfg n ts) /\
  ts_ns (pace_iter cfg n ts) = ts_ns ts + Z.of_nat n * intervalNs cfg.
Proof.
  revert ts; induction n as [|n IH]; intros ts Hn; [cbn; split; [done|lia]|].
  cbn [pace_iter]. destruct (pace_next_spec cfg ts Hn) as [H1 H2].
  destruct (IH _ H1) as [H3 H4]. split; [done|]. rewrite H4, H2. lia.
Qed.

Lemma pacing_drift_free_witness :
  ts_normal (pace_iter (sim_cfg 64) 3 (7, 900000000)) /\
  ts_ns (pace_iter (sim_cfg 64) 3 (7, 900000000)) = ts_ns (7, 900000000) + Z.of_nat 3 * intervalNs (sim_cfg 64).
Proof. apply (pacing_drift_free (sim_cfg 64) 3 (7, 900000000)). unfold ts_normal. cbn. lia. Defined.

(** ** Frames *)

(** [storeU<T>] and [loadU<T>]: unaligned little-endian accesses of [n] bytes. *)
Definition storeU {W} `{TxRing W} (n : nat) (p : Z) (v : Z) : M W unit := tx_write p (le_encode n v).
Definition loadU (n off : nat) (f : bytes) : option Z := le_decode <$> load off n f.

Definition ethertype_bytes (et : Z) : bytes := [u8 (Z.shiftr et 8); u8 (Z.land et 255)].

(** The frame template: a vector of [frameSize] zero bytes with the header written
    over its start. *)
Definition make_template (cfg : TestConfig) (dst src : list Z) : option bytes :=
  t ← store kOffDstMac dst (replicate (Z.to_nat (frameSize cfg)) 0);
  t ← store kOffSrcMac src t;
  store kOffEtherType (ethertype_bytes (etherType cfg)) t.

Definition some_or_undef {W A} (o : option A) : M W A :=
  match o with Some a => mret a | None => raise Undef end.

(** The 14 header bytes. *)
Definition header (dst src : list Z) (et : Z) : bytes := dst ++ src ++ ethertype_bytes et.

Lemma make_template_spec cfg dst src :
  length dst = 6%nat -> length src = 6%nat -> 14 <= frameSize cfg ->
  make_template cfg dst src =
    Some (header dst src (etherType cfg) ++ replicate (Z.to_nat (frameSize cfg) - 14) 0).
Proof.
  intros Hd Hs Hf. unfold make_template, header, kOffDstMac, kOffSrcMac, kOffEtherType.
  set (n := Z.to_nat (frameSize cfg)).
  assert (replicate n 0 = replicate 14 0 ++ replicate (n - 14) 0) as ->.
  { rewrite <- replicate_add. f_equal. lia. }
  destruct dst as [|d0 [|d1 [|d2 [|d3 [|d4 [|d5 [|]]]]]]]; try done.
  by destruct src as [|s0 [|s1 [|s2 [|s3 [|s4 [|s5 [|]]]]]]].
Qed.

(** Frames smaller than the header make the template run past its end. *)
Lemma make_template_short cfg dst src :
  length dst = 6%nat -> length src = 6%nat -> frameSize cfg < 14 ->
  make_template cfg dst src = None.
Proof.
  intros Hd Hs Hf. unfold make_template, kOffDstMac, kOffSrcMac, kOffEtherType.
  destruct (store 0 dst _) as [t1|] eqn:H1; [|done]. cbn.
  destruct (store 6 src t1) as [t2|] eqn:H2; [|done]. cbn.
  apply length_store in H1, H2. rewrite length_replicate in H1.
  unfold store. rewrite decide_False; [done|]. cbn. lia.
Qed.
