(* ===== verification/Sim.v ===== *)
(** * A concrete world for the applications

    The packet-mmap rings of [PacketMmap] with their simulated kernels, the list
    queue and the counting clock of [App]: a closed world in which the applications
    can be run, used by the witnesses. *)

From S2P Require Import Prelude RingConcepts TestConfig App.
From S2P Require PacketMmap.

Abbreviation sim_tx := (PacketMmap.Tx.world Z).
Abbreviation sim_rx := (PacketMmap.Rx.world (list bytes)).
Abbreviation sim_app := (app sim_tx sim_rx list_queue sim_clock).

#[export] Instance sim_TxRing : TxRing sim_tx :=
  PacketMmap.Tx.PacketMmapTx_TxRing PacketMmap.Tx.sim_env PacketMmap.Tx.sim_send 3.
#[export] Instance sim_TxContract : TxContract sim_tx :=
  PacketMmap.Tx.PacketMmapTx_contract PacketMmap.Tx.sim_env PacketMmap.Tx.sim_send 3
    PacketMmap.Tx.sim_env_ok PacketMmap.Tx.sim_send_ok 64.
#[export] Instance sim_RxRing : RxRing sim_rx :=
  PacketMmap.Rx.PacketMmapRx_RxRing PacketMmap.sim_rx_env.
#[export] Instance sim_RxContract : RxContract sim_rx :=
  PacketMmap.Rx.PacketMmapRx_contract PacketMmap.sim_rx_env PacketMmap.sim_rx_env_ok.

Definition sim_queue (cap : nat) : list_queue := {| lq_cap := cap; lq_items := []; lq_popped := [] |}.

Definition sim_start (arrivals : list bytes) (tsc : Z) : sim_app :=
  mk_app PacketMmap.Tx.sim_world
    (PacketMmap.Rx.mk_world PacketMmap.sim_rx_obj
       [PacketMmap.Tx.blank_slot; PacketMmap.Tx.blank_slot] 0 [] arrivals)
    (sim_queue 4) true 0 {| sc_tsc := tsc; sc_stop := 1000 |}.

(** Nobody else touches the shared surface. *)
Definition alone {Q C} (s : Q * bool) (c : C) : (Q * bool) * C := (s, c).

Lemma alone_ok {Q C} `{SpscLaws Q} : others_ok (C := C) (alone (Q := Q)).
Proof. intros q d c. done. Qed.

Lemma sim_tx_fresh : tx_fresh (PacketMmap.Tx.sim_world : sim_tx).
Proof. apply PacketMmap.Tx.sim_world_fresh. Qed.

Lemma sim_rx_idle arrivals :
  rx_idle [] (PacketMmap.Rx.mk_world PacketMmap.sim_rx_obj
       [PacketMmap.Tx.blank_slot; PacketMmap.Tx.blank_slot] 0 [] arrivals : sim_rx).
Proof.
  exists 0. split; [|done]. constructor; cbn; try (apply RingWindow.window_empty; done); try done.
  intros j Hj. assert (j = 0 \/ j = 1) as [->| ->] by (cbn in Hj; lia);
    exists PacketMmap.Tx.blank_slot; by split.
Qed.
