(* ===== verification/Recorder.v ===== *)
(** * The one-way latency recorder (src/app/SingleRecorder.hpp)

    [AntiReplay] is the sequence gate, [TxThread.run] the stream of stamped frames,
    [RxThread.run] the receive loop with its header check, warm-up window, grace
    period and end sentinel, each over any transport with the contracts of
    [RingConcepts] and any behaviour of the other threads. *)

From S2P Require Import Prelude RingConcepts TestConfig App Sim.

(** ** The sequence gate *)
Module AntiReplay.

Record AntiReplay := { last : Z; have : bool }.

Definition init : AntiReplay := {| last := 0; have := false |}.

(** [accept]: the verdict, the new gate and the two counters. *)
Definition accept (seq : Z) (g : AntiReplay) (lost dropped : Z) : bool * AntiReplay * Z * Z :=
  if negb (have g) then (true, {| last := seq; have := true |}, lost, dropped) else
  let diff := sint 32 (seq - last g) in
  if decide (diff <= 0) then (false, g, lost, u64 (dropped + 1)) else
  (true, {| last := seq; have := true |}, u64 (lost + u64 (diff - 1)), dropped).

(** The gate over a stream, with the number of accepted frames. *)
Fixpoint run (seqs : list Z) (g : AntiReplay) (accepted lost dropped : Z) : AntiReplay * Z * Z * Z :=
  match seqs with
  | [] => (g, accepted, lost, dropped)
  | seq :: seqs =>
      let '(ok, g, lost, dropped) := accept seq g lost dropped in
      run seqs g (if ok then accepted + 1 else accepted) lost dropped
  end.

(** The ideal gate on unbounded sequence numbers: the highest seen so far. *)
Definition ideal_accept (s : Z) (hi : option Z) : bool * option Z :=
  match hi with
  | None => (true, Some s)
  | Some h => if decide (h < s) then (true, Some s) else (false, hi)
  end.

Lemma accept_ideal s h lost dropped :
  - 2 ^ 31 <= s - h < 2 ^ 31 ->
  let '(ok, g, _, _) := accept (u32 s) {| last := u32 h; have := true |} lost dropped in
  ok = fst (ideal_accept s (Some h)) /\
  exists h', snd (ideal_accept s (Some h)) = Some h' /\ g = {| last := u32 h'; have := true |}.
Proof.
  intros Hd. unfold accept. cbn [have negb last].
  assert (sint 32 (u32 s - u32 h) = s - h) as ->.
  { rewrite <- sint_wrap, wrap_sub_l, wrap_sub_r, sint_wrap. by apply sint_small. }
  unfold ideal_accept. case_decide; (case_decide; [try lia|try lia]); cbn; eauto.
Qed.

(** Sequence numbers never further than 2^31 from the highest one before them. *)
Fixpoint near (h : Z) (ss : list Z) : Prop :=
  match ss with
  | [] => True
  | s :: ss => - 2 ^ 31 <= s - h < 2 ^ 31 /\ near (Z.max h s) ss
  end.

Fixpoint ideal_run (ss : list Z) (hi : option Z) : list bool :=
  match ss with
  | [] => []
  | s :: ss => let '(ok, hi) := ideal_accept s hi in ok :: ideal_run ss hi
  end.

Fixpoint verdicts (seqs : list Z) (g : AntiReplay) : list bool :=
  match seqs with
  | [] => []
  | seq :: seqs => let '(ok, g, _, _) := accept seq g 0 0 in ok :: verdicts seqs g
  end.

Lemma verdicts_near ss h :
  near h ss ->
  verdicts (u32 <$> ss) {| last := u32 h; have := true |} = ideal_run ss (Some h).
Proof.
  revert h; induction ss as [|s ss IH]; intros h Hn; [done|]. destruct Hn as [Hd Hn].
  cbn [fmap list_fmap verdicts ideal_run].
  pose proof (accept_ideal s h 0 0 Hd) as Ha.
  destruct (accept _ _ _ _) as [[[ok g] l] d]. destruct Ha as (-> & h' & He & ->).
  destruct (ideal_accept s (Some h)) as [ok' hi] eqn:Hi. cbn in *. subst hi. f_equal.
  apply IH. unfold ideal_accept in Hi. case_decide; simplify_eq.
  - by replace (Z.max h h') with h' in Hn by lia.
  - by replace (Z.max h' s) with h' in Hn by lia.
Qed.

(** C18: The 32-bit sequence gate is the ideal one: on any stream whose sequence
    numbers, counted without wrap-around, stay within 2^31 of the highest one seen,
    it accepts exactly the frames that are newer than everything before them, also
    across the wrap of the 32-bit counter. *)
Theorem antireplay_wrap_safe s ss :
  near s ss -> verdicts (u32 <$> (s :: ss)) init = ideal_run (s :: ss) None.
Proof. intros Hn. cbn. f_equal. by apply verdicts_near. Qed.

Lemma antireplay_wrap_safe_witness :
  near (2 ^ 32 - 1) [2 ^ 32; 2 ^ 32 - 1; 2 ^ 32 + 5] /\
  verdicts (u32 <$> [2 ^ 32 - 1; 2 ^ 32; 2 ^ 32 - 1; 2 ^ 32 + 5]) init = [true; true; false; true].
Proof.
  assert (near (2 ^ 32 - 1) [2 ^ 32; 2 ^ 32 - 1; 2 ^ 32 + 5]) as Hn by (cbn; lia).
  split; [exact Hn|]. rewrite (antireplay_wrap_safe _ _ Hn). reflexivity.
Defined.

Lemma accept_account seq g accepted lost dropped first :
  have g = true -> in_u 32 (last g) -> in_u 32 seq ->
  u32 (first + (accepted - 1) + lost) = last g ->
  let '(ok, g', lost', dropped') := accept seq g lost dropped in
  have g' = true /\ in_u 32 (last g') /\
  u32 (first + ((if ok then accepted + 1 else accepted) - 1) + lost') = last g' /\
  dropped' = (if ok then dropped else u64 (dropped + 1)).
Proof.
  intros Hh Hg Hs Hacc. unfold accept. rewrite Hh. cbn [negb].
  pose proof (sint_range 32 (seq - last g) ltac:(lia)) as Hr.
  pose proof (wrap_sint 32 (seq - last g)) as Hw.
  set (d := sint 32 (seq - last g)) in *. case_decide; [done|].
  split; [done|]. split; [done|]. split; [|done]. cbn [last].
  assert (u32 (u64 (lost + u64 (d - 1))) = u32 (lost + (d - 1))) as He.
  { assert (forall x, u32 (u64 x) = u32 x) as H32.
    { intros x. unfold wrap. apply Z.mod_mod_divide. by exists (2 ^ 32). }
    rewrite H32, <- wrap_add_r, H32, wrap_add_r. done. }
  rewrite <- wrap_add_r, He, wrap_add_r.
  replace (first + (accepted + 1 - 1) + (lost + (d - 1))) with ((first + (accepted - 1) + lost) + d) by lia.
  rewrite <- wrap_add_l, Hacc, <- wrap_add_r, Hw, wrap_add_r.
  replace (last g + (seq - last g)) with seq by lia. by apply wrap_small.
Qed.

(** The loss accounting is exact: whatever frames arrive, the last accepted
    sequence number is the first one plus the frames accepted since plus the frames
    counted as lost (modulo 2^32), and every frame was either accepted or counted as
    dropped. *)
Theorem antireplay_accounting first seqs :
  in_u 32 first -> Forall (in_u 32) seqs ->
  let '(g, accepted, lost, dropped) := run (first :: seqs) init 0 0 0 in
  u32 (first + (accepted - 1) + lost) = last g /\
  u64 (accepted + dropped) = u64 (Z.of_nat (length (first :: seqs))).
Proof.
  intros Hf Hs. cbn [run accept init have negb].
  assert (forall seqs g a l d n, Forall (in_u 32) seqs -> have g = true -> in_u 32 (last g) ->
    u32 (first + (a - 1) + l) = last g -> u64 (a + d) = u64 n ->
    let '(g, a, l, d) := run seqs g a l d in
    u32 (first + (a - 1) + l) = last g /\ u64 (a + d) = u64 (n + Z.of_nat (length seqs))) as Hrun.
  { clear. induction seqs as [|seq seqs IH]; intros g a l d n Hs Hh Hg Hacc Hn.
    { cbn. by rewrite Z.add_0_r. }
    apply Forall_cons_1 in Hs as [Hs1 Hs]. cbn [run].
    pose proof (accept_account seq g a l d first Hh Hg Hs1 Hacc) as Ha.
    destruct (accept seq g l d) as [[[ok g'] l'] d']. destruct Ha as (H1 & H2 & H3 & ->).
    assert (u64 ((if ok then a + 1 else a) + (if ok then d else u64 (d + 1))) = u64 (n + 1)) as Hn'.
    { destruct ok; rewrite <- (wrap_add_l _ n 1), <- Hn, wrap_add_l, ?wrap_add_r; f_equal; lia. }
    specialize (IH g' _ l' _ (n + 1) Hs H1 H2 H3 Hn').
    destruct (run _ _ _ _ _) as [[[? ?] ?] ?]. destruct IH as [? ->]. split; [done|]. f_equal. cbn. lia. }
  specialize (Hrun seqs {| last := first; have := true |} (0 + 1) 0 0 1 Hs eq_refl Hf).
  cbn [last] in Hrun. specialize (Hrun ltac:(rewrite wrap_small; unfold in_u in *; lia) eq_refl).
  destruct (run _ _ _ _ _) as [[[? ?] ?] ?]. destruct Hrun as [? ->]. split; [done|]. f_equal. cbn. lia.
Qed.

Lemma antireplay_accounting_witness :
  let '(g, accepted, lost, dropped) := run [4294967290; 4294967295; 4; 4; 2; 5] init 0 0 0 in
  u32 (4294967290 + (accepted - 1) + lost) = last g /\ u64 (accepted + dropped) = u64 6.
Proof.
  apply (antireplay_accounting 4294967290 [4294967295; 4; 4; 2; 5]); repeat constructor; unfold in_u; lia.
Defined.
End AntiReplay.

(** ** The transmit thread *)
Module TxThread.
Section TxThread.
Context {T R Q C : Type} `{TxRing T} `{RxRing R} `{Spsc Q} `{Clock C}.
Context (cfg : TestConfig).
Abbreviation W := (app T R Q C).

(** [while (tsc::now() - start < durationCyc && !stop.stop_requested())] *)
Fixpoint loop (fuel : nat) (durationCyc start seq : Z) (nextSend : Z * Z) : M W Z :=
  t ← now;
  if decide (durationCyc <= u64 (t - start)) then mret seq else
  stop ← stopped;
  if (stop : bool) then mret seq else
  match fuel with
  | O => raise NoFuel
  | S fuel =>
      nextSend ← pace cfg nextSend;
      dst ← on_tx (tx_acquire (frameSize cfg));
      match dst with
      | None => loop fuel durationCyc start seq nextSend
      | Some dst =>
          on_tx (storeU 4 (dst + Z.of_nat kOffSeq) (htonl seq)) ;;
          t0 ← now;
          on_tx (storeU 8 (dst + Z.of_nat kOffTxStamp) t0) ;;
          on_tx tx_commit ;;
          loop fuel durationCyc start (u32 (seq + 1)) nextSend
      end
  end.

(** [TxThread::run]: the number of frames sent, [None] when the frame size is refused. *)
Definition run (fuel : nat) (durationCyc : Z) : M W (option Z) :=
  if decide (frameSize cfg < kFrameMinBytes) then store_txDone ;; mret None else
  tmpl ← some_or_undef (make_template cfg (mac (server cfg)) (mac (client cfg)));
  on_tx (tx_prefillRing tmpl) ;;
  nextSend ← pace_start cfg;
  start ← now;
  seq ← loop fuel durationCyc start 0 nextSend;
  store_txDone ;;
  mret (Some seq).
End TxThread.

Section Properties.
Context {T R Q C : Type} `{TxContract T} `{RxRing R} `{Spsc Q} `{ClockLaws C}.
Context (cfg : TestConfig).
Abbreviation W := (app T R Q C).

Definition hdr : bytes := header (mac (server cfg)) (mac (client cfg)) (etherType cfg).

(** The [i]-th frame of the stream. *)
Definition stream_frame (i : Z) (b : bytes) : Prop :=
  Z.of_nat (length b) = frameSize cfg /\ hdr `prefix_of` b /\
  slice kOffSeq 4 b = rev (le_encode 4 (u32 i)).

Definition stream (bs : list bytes) : Prop :=
  forall i b, bs !! i = Some b -> stream_frame (Z.of_nat i) b.

Definition valid_cfg : Prop :=
  length (mac (server cfg)) = 6%nat /\ length (mac (client cfg)) = 6%nat /\
  kFrameMinBytes <= frameSize cfg <= tx_room.

Lemma length_hdr : valid_cfg -> length hdr = 14%nat.
Proof. intros (H1' & H2' & _). unfold hdr, header. rewrite !length_app, H1', H2'. done. Qed.

(** Storing behind the header keeps the header. *)
Lemma store_keeps_hdr off src b b' :
  valid_cfg -> hdr `prefix_of` b -> (14 <= off)%nat -> store off src b = Some b' -> hdr `prefix_of` b'.
Proof. intros Hv Hp Ho. eapply store_keeps_prefix; [exact Hp|]. by rewrite (length_hdr Hv). Qed.

(** Filling in one acquired buffer and sending it. *)
Lemma send_stamped seq sent p b t0 (s : T) :
  valid_cfg -> tx_lent hdr sent p b s -> Z.of_nat (length b) = frameSize cfg -> hdr `prefix_of` b ->
  exists s1 s2 b', storeU 4 (p + Z.of_nat kOffSeq) (htonl seq) s = (Done tt, s1) /\
    storeU 8 (p + Z.of_nat kOffTxStamp) t0 s1 = (Done tt, s2) /\
    tx_lent hdr sent p b' s2 /\ stream_frame seq b' /\ slice kOffTxStamp 8 b' = le_encode 8 t0.
Proof.
  intros Hv Hl Hlen Hpre. pose proof Hv as (_ & _ & Hf & _).
  unfold kFrameMinBytes, kOffTxStamp in Hf.
  destruct (store kOffSeq (le_encode 4 (htonl seq)) b) as [b1|] eqn:Hb1.
  2:{ unfold store in Hb1. case_decide as Hd; [done|]. rewrite length_le_encode in Hd. cbn in Hd. lia. }
  pose proof (length_store _ _ _ _ Hb1) as Hl1.
  destruct (store kOffTxStamp (le_encode 8 t0) b1) as [b2|] eqn:Hb2.
  2:{ unfold store in Hb2. case_decide as Hd; [done|]. rewrite length_le_encode in Hd. cbn in Hd. lia. }
  pose proof (length_store _ _ _ _ Hb2) as Hl2.
  destruct (fun Hne => write_lent _ _ _ _ _ _ _ _ Hl Hne Hb1) as (s1 & Hs1 & Hl1'); [done|].
  destruct (fun Hne => write_lent _ _ _ _ _ _ _ _ Hl1' Hne Hb2) as (s2 & Hs2 & Hl2'); [done|].
  exists s1, s2, b2. split; [done|]. split; [done|]. split; [done|].
  assert (hdr `prefix_of` b1) as Hp1 by (eapply store_keeps_hdr; [exact Hv|exact Hpre| |exact Hb1]; unfold kOffSeq; lia).
  assert (hdr `prefix_of` b2) as Hp2 by (eapply store_keeps_hdr; [exact Hv|exact Hp1| |exact Hb2]; unfold kOffTxStamp; lia).
  unfold store in Hb1, Hb2. do 2 (case_decide; [|done]). simplify_eq.
  split; [split; [lia|split; [done|]]|].
  - rewrite slice_inserts_before; [|done|unfold kOffSeq, kOffTxStamp; lia].
    rewrite <- (length_le_encode 4 (htonl seq)) at 1. rewrite slice_inserts_eq by done.
    unfold htonl. rewrite le_encode_bswap. f_equal. symmetry. apply (le_encode_mod 4).
  - rewrite <- (length_le_encode 8 t0) at 1. by rewrite slice_inserts_eq.
Qed.

Lemma stream_snoc bs b :
  stream bs -> stream_frame (u32 (Z.of_nat (length bs))) b -> stream (bs ++ [b]).
Proof.
  intros Hs Hb i x Hx. apply lookup_app_Some in Hx as [Hx|[Hi Hx]]; [by apply Hs|].
  destruct (i - length bs)%nat as [|k] eqn:He; [|by destruct k].
  cbn in Hx. simplify_eq. replace i with (length bs) by lia.
  unfold stream_frame in *. by rewrite wrap_wrap in Hb.
Qed.

(** The transport's [commit] always answers. *)
Definition commit_total : Prop :=
  forall h sent p b s, tx_lent h sent p b s -> h `prefix_of` b -> fst (tx_commit s) <> NoFuel.

(** The fuel covers the cycles left until the deadline [v0 + dur], and the run is too
    short for the 64-bit counter to come round. *)
Definition budget (fuel : nat) (dur start : Z) (w : W) : Prop :=
  exists v0, start = u64 v0 /\ v0 <= tsc_value (clk w) < v0 + dur + 4 * max_step /\
    dur + 4 * max_step < 2 ^ 64 /\ dur - (tsc_value (clk w) - v0) <= Z.of_nat fuel.

Lemma elapsed v0 v : v0 <= v < v0 + 2 ^ 64 -> u64 (u64 v - u64 v0) = v - v0.
Proof. intros Hv. rewrite wrap_sub_l, wrap_sub_r. apply wrap_small. unfold in_u. lia. Qed.

Lemma budget_zero dur start (w : W) :
  ~ dur <= u64 (u64 (tsc_value (clk w)) - start) -> ~ budget 0 dur start w.
Proof.
  intros Hn (v0 & -> & Hv & Hb & Hf). pose proof (@max_step_pos C _ _).
  rewrite elapsed in Hn by lia. lia.
Qed.

Lemma budget_step fuel dur start (w w' : W) :
  ~ dur <= u64 (u64 (tsc_value (clk w)) - start) ->
  tsc_value (clk w) < tsc_value (clk w') < tsc_value (clk w) + 4 * max_step ->
  budget (S fuel) dur start w -> budget fuel dur start w'.
Proof.
  intros Hn Hw (v0 & -> & Hv & Hb & Hf). pose proof (@max_step_pos C _ _).
  rewrite elapsed in Hn by lia. exists v0. split; [done|]. lia.
Qed.

(** The loop sends nothing but the next frames of the stream, and with enough fuel it
    ends. *)
Lemma loop_spec fuel dur start seq ts (w : W) sent :
  valid_cfg -> tx_idle hdr sent (txd w) -> stream sent -> u32 (Z.of_nat (length sent)) = seq ->
  match loop cfg fuel dur start seq ts w with
  | (Done n, w') => exists all, tx_idle hdr all (txd w') /\ stream all /\
      n = u32 (Z.of_nat (length all)) /\ sent `prefix_of` all
  | (NoFuel, _) => ~ (commit_total /\ budget fuel dur start w)
  | _ => False
  end.
Proof.
  intros Hv. revert seq ts w sent; induction fuel as [|fuel IH]; intros seq ts w sent Hid Hst Hseq;
    cbn [loop]; destruct (now_run w) as (c1 & Hnow & V1); rewrite (run_bind _ _ _ _ _ Hnow);
    (destruct (decide _) as [|Hel]; [by exists sent|]);
    destruct (stopped_run (set_clk c1 w)) as (stop & c2 & Hstop & V2); rewrite (run_bind _ _ _ _ _ Hstop);
    (destruct stop; [by exists sent|]).
  { intros [_ Hb]. by eapply budget_zero. }
  set (w2 := set_clk c2 (set_clk c1 w)). change (txd w) with (txd w2) in Hid.
  destruct (pace_run cfg ts w2) as (ts' & c3 & Hp & V3); rewrite (run_bind _ _ _ _ _ Hp).
  set (w3 := set_clk c3 w2). change (txd w2) with (txd w3) in Hid.
  pose proof (acquire_lends _ _ (frameSize cfg) _ Hid) as Ha.
  pose proof Hv as (_ & _ & Hf). unfold kFrameMinBytes, kOffTxStamp in Hf.
  rewrite (length_hdr Hv) in Ha. specialize (Ha ltac:(lia)).
  destruct (tx_acquire (frameSize cfg) (txd w3)) as [o t3] eqn:Hacq. unfold mbind at 1, M_bind at 1.
  rewrite (on_tx_run _ _ _ _ Hacq). destruct o as [[p|]| | | |]; try done.
  2:{ pose proof (IH seq ts' (set_txd t3 w3) sent Ha Hst Hseq) as IH'.
      destruct (loop _ _ _ _ _ _ _) as [[n| | | |] w']; try done. intros [Hct Hbu]. apply IH'.
      split; [done|]. eapply budget_step; [exact Hel| |exact Hbu]. cbn in *. lia. }
  destruct Ha as (b & Hb & Hpre & Hl). set (w4 := set_txd t3 w3).
  destruct (send_stamped seq sent p b (u64 (tsc_value (clk w4))) t3 Hv Hl Hb Hpre)
    as (s1 & s2 & b' & Hs1 & Hs2 & Hl2 & Hsf & _).
  rewrite (run_bind _ _ _ _ _ (on_tx_run _ w4 _ _ Hs1)).
  destruct (now_run (set_txd s1 w4)) as (c5 & Hn5 & V5). rewrite (run_bind _ _ _ _ _ Hn5).
  set (w5 := set_clk c5 (set_txd s1 w4)).
  rewrite (run_bind _ _ _ _ _ (on_tx_run _ w5 _ _ Hs2)).
  assert (hdr `prefix_of` b') as Hpre' by apply Hsf.
  pose proof (commit_sends _ _ _ _ _ Hl2 Hpre') as Hc.
  destruct (tx_commit s2) as [oc t6] eqn:Hcm. unfold mbind at 1, M_bind at 1.
  rewrite (on_tx_run _ (set_txd s2 w5) _ _ Hcm). destruct oc as [[]| | | |]; try done.
  2:{ intros [Hct _]. apply (Hct _ _ _ _ _ Hl2 Hpre'). by rewrite Hcm. }
  subst seq. pose proof (IH (u32 (u32 (Z.of_nat (length sent)) + 1)) ts' (set_txd t6 (set_txd s2 w5)) (sent ++ [b']) Hc
    (stream_snoc _ _ Hst Hsf)) as IH'.
  rewrite length_app in IH'. cbn [length] in IH'. specialize (IH' ltac:(rewrite wrap_add_l; f_equal; lia)).
  destruct (loop _ _ _ _ _ _ _) as [[n| | | |] w']; try done.
  2:{ intros [Hct Hbu]. apply IH'. split; [done|]. eapply budget_step; [exact Hel| |exact Hbu].
      cbn in *. lia. }
  destruct IH' as (all & H1' & H2' & H3' & H4'). exists all. split_and!; try done.
  etrans; [|exact H4']. by eexists.
Qed.

(** The whole run of the transmit thread, for the threads put together as well. *)
Lemma tx_thread_run fuel dur (w : W) :
  length (mac (server cfg)) = 6%nat -> length (mac (client cfg)) = 6%nat ->
  frameSize cfg <= tx_room -> tx_fresh (txd w) ->
  match run cfg fuel dur w with
  | (Done (Some n), w') => txDone w' = true /\ exists all,
      tx_idle hdr all (txd w') /\ stream all /\ n = u32 (Z.of_nat (length all))
  | (Done None, w') => txDone w' = true /\ txd w' = txd w /\ frameSize cfg < kFrameMinBytes
  | (NoFuel, _) => commit_total -> 0 <= dur -> dur + 4 * max_step < 2 ^ 64 -> Z.of_nat fuel < dur
  | _ => False
  end.
Proof.
  intros Hm1 Hm2 Hroom Hfr. unfold run. case_decide as Hsz; [done|].
  assert (valid_cfg) as Hv by (split_and!; first [done|lia]).
  unfold kFrameMinBytes, kOffTxStamp in Hsz.
  rewrite make_template_spec by (first [done|lia]). fold hdr.
  destruct (prefill_idle (hdr ++ replicate (Z.to_nat (frameSize cfg) - 14) 0) _ Hfr) as (t1 & Hp & Hid).
  { rewrite length_app, length_replicate, (length_hdr Hv). lia. }
  cbn [some_or_undef]. rewrite bind_ret_l. cbv beta. rewrite (run_bind _ _ _ _ _ (on_tx_run _ w _ _ Hp)).
  destruct (pace_start_run cfg (set_txd t1 w)) as (ts & c2 & Hps & _). rewrite (run_bind _ _ _ _ _ Hps).
  destruct (now_run (set_clk c2 (set_txd t1 w))) as (c3 & Hn & V3). rewrite (run_bind _ _ _ _ _ Hn).
  set (w3 := set_clk c3 _).
  assert (tx_idle hdr [] (txd w3)) as Hid3.
  { eapply tx_idle_weaken; [exact Hid|]. by eexists. }
  pose proof (loop_spec fuel dur (u64 (tsc_value (clk (set_clk c2 (set_txd t1 w))))) 0 ts w3 [] Hv Hid3) as Hl.
  specialize (Hl ltac:(intros i b Hb; done) eq_refl).
  unfold mbind, M_bind. destruct (loop _ _ _ _ _ _ _) as [[n| | | |] w']; try done.
  2:{ intros Hct Hd0 Hb. apply Z.nle_gt. intros Hle. apply Hl. split; [done|].
      exists (tsc_value (clk (set_clk c2 (set_txd t1 w)))). split; [done|]. cbn in *.
      pose proof (@max_step_pos C _ _). lia. }
  destruct Hl as (all & H1' & H2' & H3' & _). split; [done|]. by exists all.
Qed.

(** C2: The transmit thread sends nothing but the stream: whatever the transport's
    answers, every frame handed over has the configured length, carries the 14-byte
    header and, in network order, its own index as sequence number (modulo 2^32), in
    order and without a gap; [txDone] is set, and the count it prints is the number
    of frames.  A frame size below 26 is refused before anything is sent.  When the
    transport's commit always answers, the run ends within as many iterations as the
    duration has cycles. *)
Theorem tx_stream fuel dur (w : W) :
  length (mac (server cfg)) = 6%nat -> length (mac (client cfg)) = 6%nat ->
  frameSize cfg <= tx_room -> tx_fresh (txd w) ->
  match run cfg fuel dur w with
  | (Done (Some n), w') => txDone w' = true /\ exists all,
      tx_idle hdr all (txd w') /\ stream all /\ n = u32 (Z.of_nat (length all))
  | (Done None, w') => txDone w' = true /\ txd w' = txd w /\ frameSize cfg < kFrameMinBytes
  | (NoFuel, _) => commit_total -> 0 <= dur -> dur + 4 * max_step < 2 ^ 64 -> Z.of_nat fuel < dur
  | _ => False
  end.
Proof. exact (tx_thread_run fuel dur w). Qed.
End Properties.

Lemma tx_stream_witness :
  exists w', run (sim_cfg 32) 20 20 (sim_start [] 0) = (Done (Some 10), w') /\
  txDone w' = true /\ exists all,
      tx_idle (hdr (sim_cfg 32)) all (txd w') /\ stream (sim_cfg 32) all /\
      10 = u32 (Z.of_nat (length all)).
Proof.
  assert (frameSize (sim_cfg 32) <= tx_room (W := sim_tx)) as Hroom by (vm_compute; discriminate).
  pose proof (tx_stream (sim_cfg 32) 20 20 (sim_start [] 0) eq_refl eq_refl Hroom sim_tx_fresh) as Ht.
  assert (fst (run (sim_cfg 32) 20 20 (sim_start [] 0)) = Done (Some 10)) as Hf
    by (vm_compute; reflexivity).
  destruct (run (sim_cfg 32) 20 20 (sim_start [] 0)) as [o w']. cbn [fst] in Hf. subst o.
  exists w'. split; [reflexivity|exact Ht].
Defined.
End TxThread.

(** ** The receive thread *)
Module RxThread.
Import AntiReplay.

Definition kGraceEmptyPolls : Z := 2 ^ 20.

(** The loop's locals and the member [m_warmupSeen]. *)
Record state := {
  gate : AntiReplay;
  recorded : Z;
  lost : Z;
  dropped : Z;
  graceEmpty : Z;
  warmupSeen : Z;
}.

Definition init : state := {| gate := AntiReplay.init; recorded := 0; lost := 0; dropped := 0;
  graceEmpty := 0; warmupSeen := 0 |}.

Definition set_grace (g : Z) (st : state) : state := {| gate := gate st; recorded := recorded st;
  lost := lost st; dropped := dropped st; graceEmpty := g; warmupSeen := warmupSeen st |}.
Definition set_gate (g : AntiReplay) (l d : Z) (st : state) : state := {| gate := g;
  recorded := recorded st; lost := l; dropped := d; graceEmpty := graceEmpty st;
  warmupSeen := warmupSeen st |}.
Definition count_recorded (st : state) : state := {| gate := gate st; recorded := u64 (recorded st + 1);
  lost := lost st; dropped := dropped st; graceEmpty := graceEmpty st; warmupSeen := warmupSeen st |}.

(** The expected header as two overlapping 8-byte words of a 16-byte array. *)
Definition exp_hdr (cfg : TestConfig) : option (Z * Z) :=
  h ← store kOffDstMac (mac (server cfg)) (replicate 16 0);
  h ← store kOffSrcMac (mac (client cfg)) h;
  h ← store kOffEtherType (ethertype_bytes (etherType cfg)) h;
  lo ← loadU 8 kOffDstMac h;
  hi ← loadU 8 kOffSrcMac h;
  Some (lo, hi).

(** [((hdrLo ^ expHdrLo) | (hdrHi ^ expHdrHi)) == 0] *)
Definition header_matches (exp : Z * Z) (packet : bytes) : option bool :=
  lo ← loadU 8 kOffDstMac packet;
  hi ← loadU 8 kOffSrcMac packet;
  Some (Z.lor (Z.lxor lo exp.1) (Z.lxor hi exp.2) =? 0).

(** [inWarmup]: the answer, the new state, and whether the counters were reset. *)
Definition inWarmup (st : state) : bool * state * bool :=
  if decide (kWarmupDiscard <= warmupSeen st) then (false, st, false) else
  let n := warmupSeen st + 1 in
  if decide (n = kWarmupDiscard) then
    (true, {| gate := gate st; recorded := recorded st; lost := 0; dropped := 0;
              graceEmpty := graceEmpty st; warmupSeen := n |}, true)
  else
    (true, {| gate := gate st; recorded := recorded st; lost := lost st; dropped := dropped st;
              graceEmpty := graceEmpty st; warmupSeen := n |}, false).

Section RxThread.
Context {T R Q C : Type} `{TxRing T} `{RxRing R} `{Spsc Q} `{Clock C}.
Context (others : Q * bool -> C -> (Q * bool) * C) (cfg : TestConfig).
Abbreviation W := (app T R Q C).

Fixpoint loop (fuel : nat) (exp : Z * Z) (st : state) : M W state :=
  match fuel with
  | O => raise NoFuel
  | S fuel =>
      f ← on_rx rx_tryReceive;
      match f with
      | [] =>
          done ← load_txDone others;
          if (done : bool) then
            let st := set_grace (u32 (graceEmpty st + 1)) st in
            if decide (kGraceEmptyPolls <= graceEmpty st) then mret st else loop fuel exp st
          else loop fuel exp st
      | _ =>
          let st := set_grace 0 st in
          t1 ← now;
          if decide (Z.of_nat (length f) < kFrameMinBytes) then
            on_rx rx_release ;; loop fuel exp st
          else
          ours ← some_or_undef (header_matches exp f);
          if negb ours then on_rx rx_release ;; loop fuel exp st else
          seqNet ← some_or_undef (loadU 4 kOffSeq f);
          t0 ← some_or_undef (loadU 8 kOffTxStamp f);
          on_rx rx_release ;;
          let '(ok, g, l, d) := accept (ntohl seqNet) (gate st) (lost st) (dropped st) in
          let st := set_gate g l d st in
          if negb ok then loop fuel exp st else
          let '(warm, st, reset) := inWarmup st in
          (if (reset : bool) then modify (set_fails 0) else mret tt) ;;
          if (warm : bool) then loop fuel exp st else
          push_sample others (u64 (t1 - t0)) ;;
          loop fuel exp (count_recorded st)
      end
  end.

(** [RxThread::run], from given values of the locals. *)
Definition run_from (fuel sfuel : nat) (st : state) : M W state :=
  exp ← some_or_undef (exp_hdr cfg);
  st ← loop fuel exp st;
  push_sentinel others sfuel ;;
  mret st.

Definition run (fuel sfuel : nat) : M W state := run_from fuel sfuel init.
End RxThread.

(** *** What the thread is meant to compute from the frames and their arrival times *)

(** One frame: the new state and the latency sample, if it yields one. *)
Definition step (hdr : bytes) (st : state) (ft : bytes * Z) : state * option Z :=
  let '(f, t1) := ft in
  let st := set_grace 0 st in
  if decide (Z.of_nat (length f) < kFrameMinBytes \/ take 14 f <> hdr) then (st, None) else
  let seq := le_decode (rev (slice kOffSeq 4 f)) in
  let t0 := le_decode (slice kOffTxStamp 8 f) in
  let '(ok, g, l, d) := accept seq (gate st) (lost st) (dropped st) in
  let st := set_gate g l d st in
  if negb ok then (st, None) else
  let '(warm, st, _) := inWarmup st in
  if (warm : bool) then (st, None) else (count_recorded st, Some (u64 (t1 - t0))).

Fixpoint steps (hdr : bytes) (st : state) (log : list (bytes * Z)) : state * list Z :=
  match log with
  | [] => (st, [])
  | ft :: log =>
      let '(st, s) := step hdr st ft in
      let '(st, ss) := steps hdr st log in
      (st, option_list s ++ ss)
  end.

(** Two runs that differ in the empty polls only. *)
Definition same_counts (a b : state) : Prop := set_grace 0 a = set_grace 0 b.

(** *** The header check *)
Lemma lor_lxor_zero a b c d : Z.lor (Z.lxor a b) (Z.lxor c d) = 0 <-> a = b /\ c = d.
Proof. rewrite Z.lor_eq_0_iff, !Z.lxor_eq_0_iff. done. Qed.

Lemma loadU_slice n off f : (off + n <= length f)%nat -> loadU n off f = Some (le_decode (slice off n f)).
Proof. intros Hl. unfold loadU, load. by rewrite decide_True. Qed.

Lemma exp_hdr_spec cfg :
  length (mac (server cfg)) = 6%nat -> length (mac (client cfg)) = 6%nat ->
  let h := header (mac (server cfg)) (mac (client cfg)) (etherType cfg) in
  exp_hdr cfg = Some (le_decode (slice 0 8 h), le_decode (slice 6 8 h)).
Proof.
  intros H1 H2. unfold exp_hdr, header, kOffDstMac, kOffSrcMac, kOffEtherType.
  destruct (mac (server cfg)) as [|d0 [|d1 [|d2 [|d3 [|d4 [|d5 [|]]]]]]]; try done.
  by destruct (mac (client cfg)) as [|s0 [|s1 [|s2 [|s3 [|s4 [|s5 [|]]]]]]].
Qed.

Lemma take_slices (f h : bytes) :
  (14 <= length f)%nat -> length h = 14%nat ->
  take 14 f = h <-> slice 0 8 f = slice 0 8 h /\ slice 6 8 f = slice 6 8 h.
Proof.
  intros Hf Hh. do 14 (destruct f as [|? f]; [cbn in Hf; lia|]).
  do 14 (destruct h as [|? h]; [done|]). destruct h; [|done].
  unfold slice. cbn. split; [by intros [= -> -> -> -> -> -> -> -> -> -> -> -> -> ->]|].
  intros [H1 H2]. congruence.
Qed.

Lemma header_matches_spec h f :
  length h = 14%nat -> is_bytes h -> is_bytes f -> (26 <= length f)%nat ->
  header_matches (le_decode (slice 0 8 h), le_decode (slice 6 8 h)) f = Some (bool_decide (take 14 f = h)).
Proof.
  intros Hh Bh Bf Hl. unfold header_matches, kOffDstMac, kOffSrcMac.
  rewrite !loadU_slice by lia. cbn -[slice]. f_equal. apply eq_bool_prop_intro.
  rewrite Is_true_true, Z.eqb_eq, lor_lxor_zero, bool_decide_spec, (take_slices f h) by lia.
  assert (forall o, (o + 8 <= 14)%nat ->
    le_decode (slice o 8 f) = le_decode (slice o 8 h) <-> slice o 8 f = slice o 8 h) as He.
  { intros o Ho. split; [|by intros ->]. intros E.
    apply le_decode_inj; [by apply is_bytes_slice..| |done]. rewrite !length_slice by lia. done. }
  rewrite !He by lia. done.
Qed.

Definition macs_ok (cfg : TestConfig) : Prop :=
  length (mac (server cfg)) = 6%nat /\ length (mac (client cfg)) = 6%nat /\
  is_bytes (mac (server cfg)) /\ is_bytes (mac (client cfg)).

Definition rx_hdr (cfg : TestConfig) : bytes :=
  header (mac (server cfg)) (mac (client cfg)) (etherType cfg).

Lemma rx_hdr_ok cfg : macs_ok cfg -> length (rx_hdr cfg) = 14%nat /\ is_bytes (rx_hdr cfg).
Proof.
  intros (H1 & H2 & B1 & B2). unfold rx_hdr, header.
  split; [by rewrite !length_app, H1, H2|].
  apply Forall_app; split; [done|]. apply Forall_app; split; [done|].
  repeat (constructor; [by apply wrap_range|]). done.
Qed.

(** The branchless header test is exact: on a frame of at least 26 bytes the two
    overlapping 8-byte comparisons succeed precisely when all 14 header bytes
    (destination, source, EtherType) are the expected ones. *)
Theorem header_check_exact cfg f :
  macs_ok cfg -> is_bytes f -> kFrameMinBytes <= Z.of_nat (length f) ->
  exists exp b, exp_hdr cfg = Some exp /\ header_matches exp f = Some b /\
    (b = true <-> take 14 f = rx_hdr cfg).
Proof.
  intros Hm Bf Hl. pose proof Hm as (H1 & H2 & _). destruct (rx_hdr_ok cfg Hm) as [Hh Bh].
  unfold kFrameMinBytes, kOffTxStamp in Hl. rewrite (exp_hdr_spec cfg H1 H2).
  eexists _, _. split; [done|]. rewrite header_matches_spec by (first [done|lia]).
  split; [done|]. by rewrite bool_decide_eq_true.
Qed.

Lemma header_check_exact_witness :
  exists exp b, exp_hdr (sim_cfg 32) = Some exp /\
    header_matches exp ([2;2;2;2;2;2;1;1;1;1;1;1;0x88;0xB6] ++ replicate 18 0) = Some b /\
    (b = true <-> [2;2;2;2;2;2;1;1;1;1;1;1;0x88;0xB6] = rx_hdr (sim_cfg 32)).
Proof.
  apply (header_check_exact (sim_cfg 32) ([2;2;2;2;2;2;1;1;1;1;1;1;0x88;0xB6] ++ replicate 18 0));
    [split_and!; try done; by_decision|by_decision|done].
Defined.

(** *** The loop computes [steps] *)
Section Properties.
Context {T R Q C : Type} `{TxRing T} `{RxContract R} `{SpscLaws Q} `{ClockLaws C}.
Context (others : Q * bool -> C -> (Q * bool) * C) (Hothers : others_ok others) (cfg : TestConfig).
Abbreviation W := (app T R Q C).

(** The overflow tally starts over when the warm-up window closes. *)
Definition tally_base (F : Z) (st st' : state) : Z :=
  if decide (warmupSeen st < kWarmupDiscard /\ kWarmupDiscard <= warmupSeen st') then 0 else F.

(** What a run of the loop from [st] must have done: received some frames at some
    times, computed what [steps] says, pushed the samples except those counted as
    failures. *)
Definition loop_post (seen : list bytes) (st : state) (pushed0 : list Z) (F : Z)
    (r : outcome state * W) : Prop :=
  match r with
  | (Done st', w') => exists log pushed,
      rx_idle (seen ++ log.*1) (rxd w') /\
      same_counts st' (fst (steps (rx_hdr cfg) st log)) /\
      (pushed `sublist_of` snd (steps (rx_hdr cfg) st log)) /\
      q_pushed (toHist w') = pushed0 ++ pushed /\
      u64 (pushFailures w') = u64 (tally_base F st st' +
        (Z.of_nat (length (snd (steps (rx_hdr cfg) st log))) - Z.of_nat (length pushed)))
  | (NoFuel, _) => True
  | _ => False
  end.

Lemma step_grace h st g ft : step h (set_grace g st) ft = step h st ft.
Proof. by destruct ft. Qed.

Lemma steps_grace h a b log :
  same_counts a b ->
  same_counts (fst (steps h a log)) (fst (steps h b log)) /\
  snd (steps h a log) = snd (steps h b log).
Proof.
  intros Hs. destruct log as [|ft log]; [done|]. cbn.
  rewrite <- (step_grace h a 0), <- (step_grace h b 0), Hs. done.
Qed.

Lemma post_same seen st st1 pushed0 F r :
  same_counts st st1 -> loop_post seen st1 pushed0 F r -> loop_post seen st pushed0 F r.
Proof.
  intros Hs. destruct r as [[st'| | | |] w']; try done. intros (log & pushed & H1' & H2' & H3' & H4' & H5').
  destruct (steps_grace (rx_hdr cfg) st st1 log Hs) as [Hf Hsn].
  exists log, pushed. rewrite Hsn. split; [done|]. split; [unfold same_counts in *; congruence|].
  split; [done|]. split; [done|]. rewrite H5'. unfold tally_base.
  assert (warmupSeen st = warmupSeen st1) as ->; [|done]. by apply (f_equal warmupSeen) in Hs.
Qed.

Lemma step_mono h st ft : warmupSeen st <= warmupSeen (fst (step h st ft)).
Proof.
  destruct ft as [f t]. unfold step. case_decide; [done|].
  destruct (accept _ _ _ _) as [[[ok g] l] d]. destruct ok; [|done]. cbn [negb]. unfold inWarmup.
  do 2 (case_decide; cbn; [lia|]). lia.
Qed.

Lemma steps_mono h st log : warmupSeen st <= warmupSeen (fst (steps h st log)).
Proof.
  revert st; induction log as [|ft log IH]; intros st; [done|]. cbn.
  pose proof (step_mono h st ft). destruct (step h st ft) as [st1 s]. specialize (IH st1).
  destruct (steps h st1 log). cbn in *. lia.
Qed.

(** One received frame in front of the rest of the run. *)
Lemma post_step seen st st1 f t s p pushed0 F F1 r :
  step (rx_hdr cfg) st (f, t) = (st1, s) -> (p `sublist_of` option_list s) ->
  (warmupSeen st1 = warmupSeen st /\ (s = None -> F1 = F) /\
     (is_Some s -> kWarmupDiscard <= warmupSeen st) /\
     u64 F1 = u64 (F + (Z.of_nat (length (option_list s)) - Z.of_nat (length p))) \/
   warmupSeen st < kWarmupDiscard /\ s = None /\
     F1 = (if decide (kWarmupDiscard <= warmupSeen st1) then 0 else F)) ->
  loop_post (seen ++ [f]) st1 (pushed0 ++ p) F1 r -> loop_post seen st pushed0 F r.
Proof.
  intros Hstep Hp Hw. destruct r as [[st'| | | |] w']; try done.
  intros (log & pushed & H1' & H2' & H3' & H4' & H5'). exists ((f, t) :: log), (p ++ pushed).
  cbn [steps]. rewrite Hstep. destruct (steps (rx_hdr cfg) st1 log) as [sf ss] eqn:Hss.
  cbn [fst snd fmap list_fmap] in *.
  split; [by rewrite cons_middle, app_assoc|]. split; [done|].
  split; [by apply sublist_app|]. split; [by rewrite app_assoc|].
  rewrite H5', !length_app. unfold tally_base in *. destruct Hw as [(Hw & HN & HS & HF)|(Hw & -> & ->)].
  - rewrite Hw. destruct (decide (warmupSeen st < kWarmupDiscard <= warmupSeen st')) as [Hd|Hd].
    + destruct s as [s|]; [pose proof (HS ltac:(by eexists)); lia|].
      apply sublist_nil_r in Hp. by subst p.
    + rewrite <- wrap_add_l, HF, wrap_add_l. f_equal. lia.
  - apply sublist_nil_r in Hp. subst p. change (length (option_list None)) with 0%nat. cbn [length]. f_equal.
    pose proof (steps_mono (rx_hdr cfg) st1 log) as Hmono. rewrite Hss in Hmono. cbn [fst] in Hmono.
    assert (warmupSeen st' = warmupSeen sf) as He by (by apply (f_equal warmupSeen) in H2').
    repeat case_decide; lia.
Qed.

(** What the loop does with a frame of ours, and what is meant. *)
Lemma step_ours st f t1 :
  (26 <= length f)%nat -> take 14 f = rx_hdr cfg ->
  step (rx_hdr cfg) st (f, t1) =
    let '(ok, g, l, d) := accept (le_decode (rev (slice 14 4 f))) (gate st) (lost st) (dropped st) in
    let st1 := set_gate g l d (set_grace 0 st) in
    if negb ok then (st1, None) else
    let '(warm, st2, _) := inWarmup st1 in
    if (warm : bool) then (st2, None)
    else (count_recorded st2, Some (u64 (t1 - le_decode (slice 18 8 f)))).
Proof.
  intros Hl Hh. unfold step. rewrite decide_False; [done|].
  unfold kFrameMinBytes, kOffTxStamp. intros [?|?]; [lia|done].
Qed.

Lemma frame_refines fuel st (w : W) seen f t1 (w3 : W) exp :
  (26 <= length f)%nat -> take 14 f = rx_hdr cfg ->
  rx_idle (seen ++ [f]) (rxd w3) -> q_pushed (toHist w3) = q_pushed (toHist w) ->
  pushFailures w3 = pushFailures w ->
  (forall st1 (w4 : W) seen4, rx_idle seen4 (rxd w4) ->
    loop_post seen4 st1 (q_pushed (toHist w4)) (pushFailures w4) (loop others fuel exp st1 w4)) ->
  loop_post seen st (q_pushed (toHist w)) (pushFailures w)
    ((let '(ok, g, l, d) := accept (le_decode (rev (slice 14 4 f))) (gate (set_grace 0 st))
          (lost (set_grace 0 st)) (dropped (set_grace 0 st)) in
      let st := set_gate g l d (set_grace 0 st) in
      if negb ok then loop others fuel exp st else
      let '(warm, st, reset) := inWarmup st in
      (if (reset : bool) then modify (set_fails 0) else mret tt) ;;
      if (warm : bool) then loop others fuel exp st else
      push_sample others (u64 (t1 - le_decode (slice 18 8 f))) ;;
      loop others fuel exp (count_recorded st)) w3).
Proof.
  intros Hl Hh Hid Hq HF IH. pose proof (step_ours st f t1 Hl Hh) as Hstep.
  cbn [gate lost dropped set_grace]. destruct (accept _ _ _ _) as [[[ok g] l] d].
  cbv zeta in *. set (st1 := set_gate g l d (set_grace 0 st)) in *.
  destruct ok; cbn [negb] in *.
  2:{ eapply (post_step seen st st1 f t1 None [] _ _ (pushFailures w3)); [exact Hstep|done| |].
      - left. split; [done|]. split; [done|]. split; [by intros []|]. rewrite HF. f_equal. cbn. lia.
      - rewrite app_nil_r, <- Hq. by apply IH. }
  unfold inWarmup in *. change (warmupSeen st1) with (warmupSeen st) in *.
  destruct (decide (kWarmupDiscard <= warmupSeen st)) as [Hw|Hw].
  - rewrite bind_ret_l. cbv beta iota. destruct (push_sample_run others Hothers (u64 (t1 - le_decode (slice 18 8 f))) w3) as (b & w4 & Hp & Hr & Hf4 & Hq4).
    rewrite (run_bind _ _ _ _ _ Hp).
    eapply (post_step seen st _ f t1 _ (if b then [u64 (t1 - le_decode (slice 18 8 f))] else []) _ _ (pushFailures w4));
      [exact Hstep|by destruct b; [|apply sublist_cons, sublist_nil_l]| |].
    + left. split; [done|]. split; [done|]. split; [done|]. rewrite Hf4, HF.
      destruct b; cbn; rewrite ?wrap_wrap; f_equal; lia.
    + rewrite <- Hq, <- Hq4. apply IH. by rewrite Hr.
  - destruct (decide (warmupSeen st + 1 = kWarmupDiscard)) as [He|He]; cbn.
    + eapply (post_step seen st _ f t1 None [] _ _ 0); [exact Hstep|done| |].
      * right. split; [lia|]. split; [done|]. cbn. rewrite decide_True by lia. done.
      * rewrite app_nil_r, <- Hq. apply (IH _ (set_fails 0 w3)). done.
    + eapply (post_step seen st _ f t1 None [] _ _ (pushFailures w3)); [exact Hstep|done| |].
      * right. split; [lia|]. split; [done|]. cbn. rewrite decide_False by lia. done.
      * rewrite app_nil_r, <- Hq. by apply IH.
Qed.

Lemma loop_refines fuel st (w : W) seen :
  macs_ok cfg -> rx_idle seen (rxd w) ->
  loop_post seen st (q_pushed (toHist w)) (pushFailures w)
    (loop others fuel (le_decode (slice 0 8 (rx_hdr cfg)), le_decode (slice 6 8 (rx_hdr cfg))) st w).
Proof.
  intros Hm. destruct (rx_hdr_ok cfg Hm) as [Hh Bh].
  revert st w seen; induction fuel as [|fuel IH]; intros st w seen Hid; [done|]. cbn [loop].
  destruct (receive_in_order _ _ Hid) as (f & r1 & Hrx & Hf).
  rewrite (run_bind _ _ _ _ _ (on_rx_run _ w _ _ Hrx)).
  set (w1 := set_rxd r1 w). destruct f as [|b0 f0].
  { destruct (load_txDone_run others Hothers w1) as (d & w2 & Hd & Hr2 & Hf2 & Hq2).
    rewrite (run_bind _ _ _ _ _ Hd). change (q_pushed (toHist w)) with (q_pushed (toHist w1)).
    change (pushFailures w) with (pushFailures w1). rewrite <- Hf2, <- Hq2.
    assert (rx_idle seen (rxd w2)) as Hid2 by (rewrite Hr2; exact Hf).
    destruct d; [|by apply IH].
    case_decide; [|eapply post_same; [|by apply IH]; done].
    exists [], []. cbn. rewrite !app_nil_r. split; [done|]. split; [done|]. split; [done|].
    split; [done|]. unfold tally_base. rewrite decide_False; [f_equal; lia|cbn; lia]. }
  set (f := b0 :: f0) in *. pose proof (rx_held_bytes _ _ _ Hf) as Bf.
  destruct (now_run w1) as (c2 & Hn & _). rewrite (run_bind _ _ _ _ _ Hn).
  set (t1 := u64 _). set (w2 := set_clk c2 w1). change r1 with (rxd w2) in Hf.
  destruct (release_idle _ _ _ Hf) as (r3 & Hrel & Hid3).
  set (w3 := set_rxd r3 w2).
  assert (forall st1, step (rx_hdr cfg) st (f, t1) = (st1, None) -> warmupSeen st1 = warmupSeen st ->
    loop_post seen st (q_pushed (toHist w)) (pushFailures w)
      (loop others fuel (le_decode (slice 0 8 (rx_hdr cfg)), le_decode (slice 6 8 (rx_hdr cfg))) st1 w3)) as Hskip.
  { intros st1 Hst Hw. eapply (post_step seen st st1 f t1 None []); [done|done| |].
    - left. split; [done|]. split; [done|]. split; [by intros []|]. f_equal. cbn. lia.
    - rewrite app_nil_r. by apply (IH st1 w3). }
  case_decide as Hsz; unfold step in Hskip.
  { rewrite (run_bind _ _ _ _ _ (on_rx_run _ w2 _ _ Hrel)). apply Hskip; [|done].
    rewrite decide_True by (by left). done. }
  unfold kFrameMinBytes, kOffTxStamp in Hsz.
  rewrite header_matches_spec by (first [done|lia]). cbn [some_or_undef]. rewrite bind_ret_l. cbv beta.
  destruct (bool_decide_reflect (take 14 f = rx_hdr cfg)) as [Heq|Hne]; cbn [negb].
  2:{ rewrite (run_bind _ _ _ _ _ (on_rx_run _ w2 _ _ Hrel)). apply Hskip; [|done].
      rewrite decide_True by (by right). done. }
  rewrite decide_False in Hskip by (unfold kFrameMinBytes, kOffTxStamp; intros [?|?]; [lia|done]).
  unfold kOffSeq, kOffTxStamp in *.
  rewrite !loadU_slice by lia. cbn [some_or_undef]. rewrite !bind_ret_l. cbv beta.
  rewrite (run_bind _ _ _ _ _ (on_rx_run _ w2 _ _ Hrel)). fold w3.
  assert (ntohl (le_decode (slice 14 4 f)) = le_decode (rev (slice 14 4 f))) as ->.
  { unfold ntohl, bswap. pose proof (le_encode_decode (slice 14 4 f) (is_bytes_slice _ _ _ Bf)) as He.
    rewrite length_slice in He by lia. by rewrite He. }
  apply (frame_refines fuel st w seen f t1 w3); [lia|done..|]. intros; by apply IH.
Qed.

(** The whole run of the receive thread, likewise. *)
Lemma rx_thread_run fuel sfuel st (w : W) seen :
  macs_ok cfg -> rx_idle seen (rxd w) ->
  match run_from others cfg fuel sfuel st w with
  | (Done st', w') => exists log pushed,
      rx_idle (seen ++ log.*1) (rxd w') /\
      same_counts st' (fst (steps (rx_hdr cfg) st log)) /\
      (pushed `sublist_of` snd (steps (rx_hdr cfg) st log)) /\
      q_pushed (toHist w') = q_pushed (toHist w) ++ pushed ++ [kEndSentinel] /\
      u64 (pushFailures w') = u64 (tally_base (pushFailures w) st st' +
        (Z.of_nat (length (snd (steps (rx_hdr cfg) st log))) - Z.of_nat (length pushed)))
  | (NoFuel, _) => True
  | _ => False
  end.
Proof.
  intros Hm Hid. pose proof Hm as (H1' & H2' & _). unfold run_from.
  rewrite (exp_hdr_spec cfg H1' H2'). cbn [some_or_undef]. rewrite bind_ret_l. cbv beta.
  pose proof (loop_refines fuel st w seen Hm Hid) as Hl. unfold mbind at 1, M_bind at 1.
  change (header (mac (server cfg)) (mac (client cfg)) (etherType cfg)) with (rx_hdr cfg).
  destruct (loop _ _ _ _ _) as [[st'| | | |] w1]; try done.
  destruct Hl as (log & pushed & L1 & L2 & L3 & L4 & L5).
  pose proof (push_sentinel_run others Hothers sfuel w1) as Hs. unfold mbind, M_bind.
  destruct (push_sentinel others sfuel w1) as [[[]| | | |] w2]; try done.
  destruct Hs as (Hr & Hf & Hq). exists log, pushed. cbn. rewrite Hr, Hf, Hq, L4, app_assoc.
  done.
Qed.

End Properties.

(** One empty poll before the end of the grace period. *)
Definition sim_state : state := {| gate := AntiReplay.init; recorded := 0; lost := 0; dropped := 0;
  graceEmpty := kGraceEmptyPolls - 1; warmupSeen := kWarmupDiscard |}.

Definition sim_run : outcome state * sim_app :=
  run_from alone (sim_cfg 26) 1 1 sim_state (sim_start [] 100).

End RxThread.
