(* ===== verification/Hist.v ===== *)
(** * The latency histogram thread (src/app/HistThread.hpp)

    [HistThread.run] drains the SPSC queue into an HdrHistogram (a library: class
    [Hdr]) until the end sentinel or a stop request, and [report] names the files it
    writes.  The floating-point bounds derived from the TSC rate are arguments. *)

From S2P Require Import Prelude RingConcepts TestConfig App Sim.
From S2P Require PacketMmap.

Class Hdr (H : Type) := {
  hdr_init : Z -> Z -> Z -> option H;
  hdr_record_value : Z -> H -> H;
}.

(** The member variables of [HistThread] and the sample decoder of [Shared]. *)
Record HistThread := {
  m_outputPath : string;
  m_title : string;
  m_reportOneWayHalf : bool;
  decode : option (Z -> Z -> option Z);
  decodeArg : Z;
}.

Definition decode_sample (ht : HistThread) (cyc : Z) : option Z :=
  match decode ht with
  | None => Some cyc
  | Some f => f cyc (decodeArg ht)
  end.

(** ** Report files *)

(** [histPath]: one trailing ".csv" is replaced by ".hist.csv". *)
Definition hist_path (p : string) : string :=
  let n := String.length p in
  let base :=
    if decide ((4 <= n)%nat /\ substring (n - 4) 4 p = ".csv"%string)
    then substring 0 (n - 4) p else p in
  (base ++ ".hist.csv")%string.

(** The files [report] opens and manages to write. *)
Definition report_files (ht : HistThread) (fopen : string -> bool) : list string :=
  let p := m_outputPath ht in
  if decide (p = ""%string) then [] else
  if negb (fopen p) then [] else
  p :: (if fopen (hist_path p) then [hist_path p] else []).

Lemma length_append (a b : string) : String.length (a ++ b) = (String.length a + String.length b)%nat.
Proof. induction a as [|c a IH]; [done|]. simpl. f_equal. exact IH. Qed.

Lemma substring_0_append (a b : string) : substring 0 (String.length a) (a ++ b) = a.
Proof. induction a as [|c a IH]; simpl; [by destruct b|]. f_equal. exact IH. Qed.

Lemma substring_append_end (a b : string) :
  substring (String.length a) (String.length b) (a ++ b) = b.
Proof.
  induction a as [|c a IH]; [|exact IH]. simpl. induction b as [|c b IHb]; simpl; [done|]. f_equal. exact IHb.
Qed.

Lemma length_substring_0 n s : (n <= String.length s)%nat -> String.length (substring 0 n s) = n.
Proof.
  revert s; induction n as [|n IH]; intros s Hn; [by destruct s|].
  destruct s as [|c s]; simpl in *; [lia|]. f_equal. apply IH. lia.
Qed.

(** The per-bucket file of a report never overwrites the percentile file: its name
    always differs from the configured path, and "x.csv" gives "x.hist.csv". *)
Theorem hist_path_distinct p base :
  hist_path p <> p /\ hist_path (base ++ ".csv") = (base ++ ".hist.csv")%string.
Proof.
  split.
  - intros He. apply (f_equal String.length) in He. unfold hist_path in He.
    case_decide as Hd; rewrite length_append in He; cbn in He; [|lia].
    rewrite length_substring_0 in He by lia. lia.
  - unfold hist_path. rewrite length_append. change (String.length ".csv") with 4%nat.
    replace (String.length base + 4 - 4)%nat with (String.length base) by lia.
    rewrite decide_True.
    + by rewrite substring_0_append.
    + split; [lia|]. apply (substring_append_end base ".csv").
Qed.

(** ** The drain loop *)
Section Run.
Context {T R Q C H : Type} `{Spsc Q} `{Clock C} `{Hdr H}.
Context (others : Q * bool -> C -> (Q * bool) * C) (ht : HistThread).
Abbreviation W := (app T R Q C).

(** [front] and [pop], the producer running in between. *)
Definition front : M W (option Z) := interfere others ;; gets (fun w => q_front (toHist w)).
Definition pop : M W unit := modify (fun w => set_shared (q_pop (toHist w)) (txDone w) w).

(** The loop's locals: histogram, recorded, dropped, next heartbeat. *)
Fixpoint drain (fuel : nat) (startTsc hbCyc nextHb recorded dropped : Z) (h : H) : M W (H * Z * Z) :=
  match fuel with
  | O => raise NoFuel
  | S fuel =>
      t ← now;
      let el := u64 (t - startTsc) in
      let nextHb := if decide (nextHb <= el) then u64 (nextHb + hbCyc) else nextHb in
      cyclePtr ← front;
      match cyclePtr with
      | None =>
          stop ← stopped;
          if (stop : bool) then mret (h, recorded, dropped)
          else drain fuel startTsc hbCyc nextHb recorded dropped h
      | Some cyc =>
          pop ;;
          if decide (cyc = kEndSentinel) then mret (h, recorded, dropped) else
          match decode_sample ht cyc with
          | None => drain fuel startTsc hbCyc nextHb recorded (u64 (dropped + 1)) h
          | Some sample =>
              drain fuel startTsc hbCyc nextHb (u64 (recorded + 1)) dropped
                (hdr_record_value (sint 64 sample) h)
          end
      end
  end.

(** [HistThread::run], up to the report: [None] when [hdr_init] fails. *)
Definition run (fuel : nat) (maxCyc hbCyc : Z) : M W (option (H * Z * Z)) :=
  match hdr_init 1 maxCyc 5 with
  | None => mret None
  | Some h =>
      startTsc ← now;
      r ← drain fuel startTsc hbCyc hbCyc 0 0 h;
      mret (Some r)
  end.
End Run.

(** The other side only appends to the queue. *)
Definition producer_ok {Q C} `{SpscLaws Q} (others : Q * bool -> C -> (Q * bool) * C) : Prop :=
  forall q d c, let '((q', _), _) := others (q, d) c in
    exists extra, q_items q' = q_items q ++ extra /\ q_pushed q' = q_pushed q ++ extra.

Section Properties.
Context {T R Q C H : Type} `{SpscLaws Q} `{ClockLaws C} `{Hdr H}.
Context (others : Q * bool -> C -> (Q * bool) * C) (Hprod : producer_ok others) (ht : HistThread).
Abbreviation W := (app T R Q C).

Definition record_all (xs : list Z) (h : H) : H :=
  foldl (fun h x => hdr_record_value (sint 64 x) h) h (omap (decode_sample ht) xs).

(** [taken w l]: the samples [l] have been popped so far. *)
Definition popped (w : W) (l : list Z) : Prop := q_pushed (toHist w) = l ++ q_items (toHist w).

Lemma front_run (w : W) l :
  popped w l -> exists w', front others w = (Done (head (q_items (toHist w'))), w') /\ popped w' l.
Proof.
  intros Hp. unfold front, interfere, modify, gets, mbind, M_bind. cbn.
  pose proof (Hprod (toHist w) (txDone w) (clk w)) as Ho.
  destruct (others (toHist w, txDone w) (clk w)) as [[q d] c]. destruct Ho as (ex & Hi & Hq).
  eexists. split; [by rewrite front_law|]. unfold popped in *. cbn. by rewrite Hq, Hi, Hp, app_assoc.
Qed.

Lemma pop_run (w : W) l x rest :
  popped w l -> q_items (toHist w) = x :: rest ->
  exists w', pop w = (Done tt, w') /\ popped w' (l ++ [x]).
Proof.
  intros Hp Hi. destruct (pop_law (toHist w) x rest Hi) as [H1' H2'].
  eexists. split; [done|]. unfold popped in *. cbn. rewrite H1', H2', Hp, Hi, <- app_assoc. done.
Qed.

Lemma hist_drain_spec fuel st hb nhb rec drp h (w : W) l :
  popped w l ->
  match drain others ht fuel st hb nhb rec drp h w with
  | (Done (h', rec', drp'), w') => exists xs,
      kEndSentinel ∉ xs /\ h' = record_all xs h /\
      u64 rec' = u64 (rec + Z.of_nat (length (omap (decode_sample ht) xs))) /\
      u64 drp' = u64 (drp + (Z.of_nat (length xs) - Z.of_nat (length (omap (decode_sample ht) xs)))) /\
      (popped w' (l ++ xs ++ [kEndSentinel]) \/ popped w' (l ++ xs) /\ q_items (toHist w') = [])
  | (NoFuel, _) => True
  | _ => False
  end.
Proof.
  revert nhb rec drp h w l; induction fuel as [|fuel IH]; intros nhb rec drp h w l Hp; [done|].
  cbn [drain]. destruct (now_run w) as (c1 & Hn & _). rewrite (run_bind _ _ _ _ _ Hn).
  set (w1 := set_clk c1 w). assert (popped w1 l) as Hp1 by exact Hp.
  destruct (front_run w1 l Hp1) as (w2 & Hf & Hp2). rewrite (run_bind _ _ _ _ _ Hf).
  destruct (q_items (toHist w2)) as [|x rest] eqn:Hi; cbn [head].
  { destruct (stopped_run w2) as (b & c3 & Hs & _). rewrite (run_bind _ _ _ _ _ Hs).
    destruct b; [|by apply (IH _ rec drp h (set_clk c3 w2) l)].
    exists []. cbn. split; [apply not_elem_of_nil|]. rewrite !app_nil_r, Z.add_0_r.
    split; [done|]. split; [done|]. split; [f_equal; lia|]. by right. }
  destruct (pop_run w2 l x rest Hp2 Hi) as (w3 & Hpop & Hp3). rewrite (run_bind _ _ _ _ _ Hpop).
  case_decide as Hx.
  { exists []. cbn. split; [apply not_elem_of_nil|]. rewrite Z.add_0_r.
    split; [done|]. split; [done|]. split; [f_equal; lia|]. left. by subst x. }
  destruct (decode_sample ht x) as [s|] eqn:Hds.
  - match goal with |- context [drain _ _ fuel _ _ ?n ?r ?d ?h1 w3] =>
      specialize (IH n r d h1 w3 _ Hp3); destruct (drain others ht fuel st hb n r d h1 w3) as [[[[h' rec'] drp']| | | |] w'] end; try done.
    destruct IH as (xs & I1 & I2 & I3 & I4 & I5). exists (x :: xs).
    rewrite <- app_assoc in I5. unfold record_all. cbn. rewrite Hds. cbn.
    split; [by apply not_elem_of_cons|]. split; [done|].
    split; [rewrite I3, wrap_add_l; f_equal; lia|]. split; [rewrite I4; f_equal; lia|].
    by rewrite <- app_assoc in I5.
  - match goal with |- context [drain _ _ fuel _ _ ?n ?r ?d ?h1 w3] =>
      specialize (IH n r d h1 w3 _ Hp3); destruct (drain others ht fuel st hb n r d h1 w3) as [[[[h' rec'] drp']| | | |] w'] end; try done.
    destruct IH as (xs & I1 & I2 & I3 & I4 & I5). exists (x :: xs).
    rewrite <- app_assoc in I5. unfold record_all. cbn. rewrite Hds.
    split; [by apply not_elem_of_cons|]. split; [done|]. split; [done|].
    split; [rewrite I4, wrap_add_l; f_equal; lia|]. by rewrite <- app_assoc in I5.
Qed.

Lemma first_sentinel (S : Z) xs ys r1 r2 :
  S ∉ xs -> S ∉ ys -> xs ++ S :: r1 = ys ++ S :: r2 -> xs = ys.
Proof.
  revert ys; induction xs as [|x xs IH]; intros [|y ys] Hx Hy He; simplify_eq/=; try done.
  - by apply not_elem_of_cons in Hy as [? _].
  - by apply not_elem_of_cons in Hx as [? _].
  - f_equal. apply not_elem_of_cons in Hx as [_ Hx], Hy as [_ Hy]. by eapply IH.
Qed.

(** The whole run of the histogram thread. *)
Lemma hist_run_spec fuel maxCyc hbCyc h0 (w : W) ys :
  popped w [] -> hdr_init 1 maxCyc 5 = Some h0 -> kEndSentinel ∉ ys ->
  match run others ht fuel maxCyc hbCyc w with
  | (Done (Some (h, recorded, dropped)), w') =>
      q_pushed (toHist w') = ys ++ [kEndSentinel] ->
      h = record_all ys h0 /\
      u64 recorded = u64 (Z.of_nat (length (omap (decode_sample ht) ys))) /\
      u64 (recorded + dropped) = u64 (Z.of_nat (length ys))
  | (NoFuel, _) => True
  | _ => False
  end.
Proof.
  intros Hp Hi Hys. unfold run. rewrite Hi. destruct (now_run w) as (c1 & Hn & _).
  rewrite (run_bind _ _ _ _ _ Hn). set (w1 := set_clk c1 w).
  pose proof (hist_drain_spec fuel (u64 (tsc_value (clk w))) hbCyc hbCyc 0 0 h0 w1 [] Hp) as Hd.
  unfold mbind, M_bind. destruct (drain _ _ _ _ _ _ _ _ _ w1) as [[[[h rec] drp]| | | |] w']; try done.
  destruct Hd as (xs & I1 & -> & I3 & I4 & I5). cbn. intros Hh.
  assert (xs = ys) as ->.
  { unfold popped in I5. rewrite Hh in I5. destruct I5 as [I5|[I5 I6]]; cbn in I5.
    - rewrite <- app_assoc in I5. by eapply first_sentinel.
    - rewrite I6, app_nil_r in I5. subst xs. exfalso. apply I1. apply elem_of_app. right. by left. }
  split; [done|]. split; [exact I3|].
  rewrite <- wrap_add_l, I3, wrap_add_l, <- wrap_add_r, I4, wrap_add_r. f_equal. lia.
Qed.

(** C19: No sample is lost on the way into the histogram: when the producer's history
    ends in the only sentinel, [run] has recorded exactly the decodable samples of
    that history, in order; [recorded] and [dropped] count the decoded and the
    rejected ones. *)
Theorem hist_no_lost_tail fuel maxCyc hbCyc h0 (w : W) ys :
  popped w [] -> hdr_init 1 maxCyc 5 = Some h0 -> kEndSentinel ∉ ys ->
  match run others ht fuel maxCyc hbCyc w with
  | (Done (Some (h, recorded, dropped)), w') =>
      q_pushed (toHist w') = ys ++ [kEndSentinel] ->
      h = record_all ys h0 /\
      u64 recorded = u64 (Z.of_nat (length (omap (decode_sample ht) ys))) /\
      u64 (recorded + dropped) = u64 (Z.of_nat (length ys))
  | (NoFuel, _) => True
  | _ => False
  end.
Proof. exact (hist_run_spec fuel maxCyc hbCyc h0 w ys). Qed.

(** A latency sample equals the end sentinel exactly when the arrival stamp lies one
    cycle before the send stamp; the consumer that meets such a sample ends its run
    there, recording neither it nor anything queued behind it. *)
Theorem sentinel_collision fuel st hb nhb rec drp h (w w2 : W) t0 t1 :
  in_u 64 t0 -> in_u 64 t1 ->
  front others (snd (now w)) = (Done (Some (u64 (t1 - t0))), w2) ->
  (u64 (t1 - t0) = kEndSentinel <-> t0 = u64 (t1 + 1)) /\
  (t0 = u64 (t1 + 1) ->
   drain others ht (S fuel) st hb nhb rec drp h w = (Done (h, rec, drp), snd (pop w2))).
Proof.
  intros H0' H1' Hf.
  assert (u64 (t1 - t0) = kEndSentinel <-> t0 = u64 (t1 + 1)) as Hk.
  { unfold in_u, wrap, kEndSentinel in *. change (2 ^ 64) with 18446744073709551616 in *.
    split; intros; Z.div_mod_to_equations; lia. }
  split; [exact Hk|]. intros Ht. cbn [drain].
  destruct (now_run w) as (c1 & Hn & _). rewrite Hn in Hf. cbn [snd] in Hf.
  rewrite (run_bind _ _ _ _ _ Hn), (run_bind _ _ _ _ _ Hf).
  by rewrite (run_bind pop _ w2 tt (snd (pop w2)) eq_refl), decide_True by (by apply Hk).
Qed.
End Properties.

#[export] Instance list_Hdr : Hdr (list Z) := {|
  hdr_init lo hi digits := Some []; hdr_record_value v h := h ++ [v] |}.

Definition sim_hist : HistThread := {| m_outputPath := ""; m_title := "One-Way";
  m_reportOneWayHalf := false; decode := None; decodeArg := 0 |}.

Definition sim_full : sim_app :=
  mk_app PacketMmap.Tx.sim_world
    (PacketMmap.Rx.mk_world PacketMmap.sim_rx_obj [] 0 [] [])
    {| lq_cap := 8; lq_items := [30; 10; kEndSentinel]; lq_popped := [] |} true 0
    {| sc_tsc := 0; sc_stop := 1000 |}.

Lemma hist_no_lost_tail_witness :
  match run (T := sim_tx) (R := sim_rx) (H := list Z) alone sim_hist 5 100 100 sim_full with
  | (Done (Some (h, recorded, dropped)), w') =>
      h = [30; 10] /\ u64 recorded = 2 /\ u64 (recorded + dropped) = 2
  | _ => False
  end.
Proof.
  assert (producer_ok (C := sim_clock) (alone (Q := list_queue))) as Hp.
  { intros q d c. exists []. cbn. by rewrite !app_nil_r. }
  pose proof (hist_no_lost_tail (T := sim_tx) (R := sim_rx) (H := list Z) alone Hp sim_hist 5 100 100 [] sim_full [30; 10])
    as Ht.
  assert (kEndSentinel ∉ [30; 10]) as Hni by by_decision.
  specialize (Ht eq_refl eq_refl Hni).
  assert (fst (run (T := sim_tx) (R := sim_rx) (H := list Z) alone sim_hist 5 100 100 sim_full) =
          Done (Some ([30; 10], 2, 0))) as Hf by (vm_compute; reflexivity).
  assert (lq_popped (toHist (snd (run (T := sim_tx) (R := sim_rx) (H := list Z) alone sim_hist 5 100 100 sim_full)))
          ++ lq_items (toHist (snd (run (T := sim_tx) (R := sim_rx) (H := list Z) alone sim_hist 5 100 100 sim_full)))
          = [30; 10; kEndSentinel]) as Hq by (vm_compute; reflexivity).
  destruct (run (T := sim_tx) (R := sim_rx) (H := list Z) alone sim_hist 5 100 100 sim_full) as [o w'].
  cbn [fst snd] in *. subst o. apply Ht. exact Hq.
Defined.

Definition sim_collided : sim_app :=
  mk_app PacketMmap.Tx.sim_world
    (PacketMmap.Rx.mk_world PacketMmap.sim_rx_obj [] 0 [] [])
    {| lq_cap := 8; lq_items := [u64 (999 - 1000); 10]; lq_popped := [] |} true 0
    {| sc_tsc := 0; sc_stop := 1000 |}.

Lemma sentinel_collision_witness :
  fst (drain (T := sim_tx) (R := sim_rx) (H := list Z) alone sim_hist 2 0 100 100 3 0 [7] sim_collided)
  = Done ([7], 3, 0).
Proof.
  destruct (sentinel_collision (T := sim_tx) (R := sim_rx) (H := list Z) alone sim_hist 1 0 100 100 3 0 [7]
    sim_collided (snd (front alone (snd (now sim_collided)))) 1000 999) as [_ Ht];
    [by_decision|by_decision|reflexivity|].
  rewrite Ht by reflexivity. reflexivity.
Defined.
