(* ===== verification/Apps.v ===== *)
(** * The applications over the transport interface
    (src/app/Client.hpp, Server.hpp, TxGenerator.hpp, RxSink.hpp)

    [run_client] is the round-trip originator, [run_server] the reflector, [run_txgen]
    the transmit-only generator and [run_rxsink] the receive-only counter.  [HwTs] are
    the extra operations of a transport with hardware timestamps ([if constexpr
    (kHwTs)]); a transport without them is [None].  Loops run on fuel; the counters
    printed at the end are the results. *)

From Stdlib Require Import Sorting.Sorted.
From S2P Require Import Prelude RingConcepts TestConfig App Sim.

Record HwTs (T R : Type) := {
  hwRxTimestamp : R -> Z;
  pollTxTimestamp : M T (option (Z * Z));   (* sequence number, minor stamp *)
  txSequence : T -> Z;
}.
Arguments hwRxTimestamp {T R}.
Arguments pollTxTimestamp {T R}.
Arguments txSequence {T R}.

(** ** Round-trip client *)

Record client_state := {
  seq : Z;
  sent : Z;
  recorded : Z;
  timeouts : Z;
  warmup : Z;
  hwTxMissing : Z;
}.

Definition client_init : client_state := {| seq := 0; sent := 0; recorded := 0; timeouts := 0;
  warmup := 0; hwTxMissing := 0 |}.

Definition count_sent (st : client_state) : client_state := {| seq := seq st; sent := u64 (sent st + 1);
  recorded := recorded st; timeouts := timeouts st; warmup := warmup st; hwTxMissing := hwTxMissing st |}.
Definition count_rec (st : client_state) : client_state := {| seq := seq st; sent := sent st;
  recorded := u64 (recorded st + 1); timeouts := timeouts st; warmup := warmup st; hwTxMissing := hwTxMissing st |}.
Definition count_warm (st : client_state) : client_state := {| seq := seq st; sent := sent st;
  recorded := recorded st; timeouts := timeouts st; warmup := u64 (warmup st + 1); hwTxMissing := hwTxMissing st |}.
Definition count_missing (st : client_state) : client_state := {| seq := seq st; sent := sent st;
  recorded := recorded st; timeouts := timeouts st; warmup := warmup st; hwTxMissing := u64 (hwTxMissing st + 1) |}.
(** After the wait: a missed echo outside the warm-up is a timeout; next sequence number. *)
Definition finish_round (received : bool) (st : client_state) : client_state := {| seq := u32 (seq st + 1);
  sent := sent st; recorded := recorded st;
  timeouts := if negb received && (kWarmupDiscard <=? warmup st) then u64 (timeouts st + 1) else timeouts st;
  warmup := warmup st; hwTxMissing := hwTxMissing st |}.

Section Apps.
Context {T R Q C : Type} `{TxRing T} `{RxRing R} `{Spsc Q} `{Clock C}.
Context (others : Q * bool -> C -> (Q * bool) * C) (hw : option (HwTs T R)) (cfg : TestConfig).
Abbreviation W := (app T R Q C).

(** [while (txTs && txTs->seq != txSeq) txTs = tx.pollTxTimestamp();] *)
Fixpoint poll_for (fuel : nat) (h : HwTs T R) (txSeq : Z) : M W (option (Z * Z)) :=
  match fuel with
  | O => raise NoFuel
  | S n =>
      txTs ← on_tx (pollTxTimestamp h);
      match txTs with
      | Some (s, _) => if decide (s <> txSeq) then poll_for n h txSeq else mret txTs
      | None => mret None
      end
  end.

(** Our echo arrived: warm-up, hardware stamps, or the TSC difference. *)
Definition client_sample (fuel : nat) (txSeq t1 t2 : Z) (st : client_state) : M W client_state :=
  match hw with
  | Some h =>
      txTs ← poll_for fuel h txSeq;
      if decide (warmup st < kWarmupDiscard) then mret (count_warm st) else
      match txTs with
      | Some (_, minor) =>
          rx ← gets (fun w => hwRxTimestamp h (rxd w));
          push_sample others (Z.lor (Z.shiftl rx 32) minor) ;;
          mret (count_rec st)
      | None => mret (count_missing st)
      end
  | None =>
      if decide (warmup st < kWarmupDiscard) then mret (count_warm st) else
      push_sample others (u64 (t2 - t1)) ;;
      mret (count_rec st)
  end.

(** [rxf.size() >= kFrameMinBytes && memcmp(rxf.data(), mac, 6) == 0], then the
    sequence number: is this the echo of [seqNet]? *)
Definition is_our_echo (seqNet : Z) (rxf : bytes) : option bool :=
  if decide (kFrameMinBytes <= Z.of_nat (length rxf) /\ take 6 rxf = mac (client cfg)) then
    rxSeq ← loadU 4 kOffSeq rxf; Some (rxSeq =? seqNet)
  else Some false.

(** Spin for the echo carrying our sequence number; every 2048 spins look at the
    stop token and the timeout. *)
Fixpoint client_spin (fuel : nat) (timeoutCyc seqNet txSeq t1 spins : Z) (st : client_state)
    : M W (bool * client_state) :=
  match fuel with
  | O => raise NoFuel
  | S fuel =>
      rxf ← on_rx rx_tryReceive;
      hit ← match rxf with
            | [] => mret None
            | _ =>
                t2 ← match hw with Some _ => mret 0 | None => now end;
                ours ← some_or_undef (is_our_echo seqNet rxf);
                on_rx rx_release ;;
                (if (ours : bool) then st' ← client_sample fuel txSeq t1 t2 st; mret (Some st')
                 else mret None)
            end;
      match hit with
      | Some st' => mret (true, st')
      | None =>
          let spins := u32 (spins + 1) in
          if decide (Z.land spins 0x7FF = 0) then
            stop ← stopped;
            if (stop : bool) then mret (false, st) else
            t ← now;
            if decide (timeoutCyc <= u64 (t - t1)) then mret (false, st)
            else client_spin fuel timeoutCyc seqNet txSeq t1 spins st
          else client_spin fuel timeoutCyc seqNet txSeq t1 spins st
      end
  end.

Fixpoint client_loop (fuel : nat) (durationCyc timeoutCyc start : Z) (nextSend : Z * Z)
    (st : client_state) : M W client_state :=
  loopTsc ← now;
  if decide (durationCyc <= u64 (loopTsc - start)) then mret st else
  stop ← stopped;
  if (stop : bool) then mret st else
  match fuel with
  | O => raise NoFuel
  | S fuel =>
      nextSend ← pace cfg nextSend;
      dst ← on_tx (tx_acquire (frameSize cfg));
      match dst with
      | None => client_loop fuel durationCyc timeoutCyc start nextSend st
      | Some dst =>
          let seqNet := htonl (seq st) in
          on_tx (storeU 4 (dst + Z.of_nat kOffSeq) seqNet) ;;
          t1 ← match hw with Some _ => mret loopTsc | None => now end;
          txSeq ← match hw with Some h => gets (fun w => txSequence h (txd w)) | None => mret 0 end;
          on_tx tx_commit ;;
          '(received, st) ← client_spin fuel timeoutCyc seqNet txSeq t1 0 (count_sent st);
          client_loop fuel durationCyc timeoutCyc start nextSend (finish_round received st)
      end
  end.

(** [run_client]; [durationCyc] and [timeoutCyc] come from the calibrated TSC rate. *)
Definition run_client (fuel sfuel : nat) (durationCyc timeoutCyc : Z) : M W (option client_state) :=
  if decide (frameSize cfg < kFrameMinBytes) then mret None else
  tmpl ← some_or_undef (make_template cfg (mac (server cfg)) (mac (client cfg)));
  on_tx (tx_prefillRing tmpl) ;;
  nextSend ← pace_start cfg;
  start ← now;
  st ← client_loop fuel durationCyc timeoutCyc start nextSend client_init;
  push_sentinel others sfuel ;;
  mret (Some st).

(** ** Reflector *)

(** [while (!dst)]: wait for a transmit buffer, or give the frame back and stop. *)
Fixpoint server_acquire (fuel : nat) : M W (option Z) :=
  dst ← on_tx (tx_acquire (frameSize cfg));
  match dst with
  | Some dst => mret (Some dst)
  | None =>
      stop ← stopped;
      if (stop : bool) then on_rx rx_release ;; mret None else
      match fuel with O => raise NoFuel | S n => server_acquire n end
  end.

(** The hardware stamps of the last reply: warm-up count, RX stamp and sequence number
    in flight. *)
Record server_hw := { hwWarmup : Z; rxInFlight : Z; txSeqInFlight : Z }.

Definition server_poll (s : server_hw) : M W server_hw :=
  match hw with
  | None => mret s
  | Some h =>
      txTs ← on_tx (pollTxTimestamp h);
      match txTs with
      | Some (sq, minor) =>
          if decide (sq = txSeqInFlight s) then
            if decide (hwWarmup s < kWarmupDiscard) then
              mret {| hwWarmup := u64 (hwWarmup s + 1); rxInFlight := rxInFlight s; txSeqInFlight := txSeqInFlight s |}
            else push_sample others (Z.lor (Z.shiftl (rxInFlight s) 32) minor) ;; mret s
          else mret s
      | None => mret s
      end
  end.

(** The loops of [run_server]: [i] counts the inner loop's 65536 polls. *)
Fixpoint server_loop (fuel : nat) (i : Z) (packet_count : Z) (s : server_hw) : M W (Z * server_hw) :=
  match fuel with
  | O => raise NoFuel
  | S fuel =>
      if decide (65536 <= i) then
        stop ← stopped;
        if (stop : bool) then mret (packet_count, s) else server_loop fuel 0 packet_count s
      else
      rxf ← on_rx rx_tryReceive;
      match rxf with
      | [] => s ← server_poll s; server_loop fuel (i + 1) packet_count s
      | _ =>
          dst ← server_acquire fuel;
          match dst with
          | None => mret (packet_count, s)
          | Some dst =>
              payload ← some_or_undef (load 14 12 rxf);
              on_tx (tx_write (dst + 14) payload) ;;
              on_rx rx_release ;;
              txSeq ← match hw with Some h => gets (fun w => txSequence h (txd w)) | None => mret 0 end;
              on_tx tx_commit ;;
              rxTs ← match hw with Some h => gets (fun w => hwRxTimestamp h (rxd w)) | None => mret 0 end;
              let s := {| hwWarmup := hwWarmup s; rxInFlight := rxTs; txSeqInFlight := txSeq |} in
              server_loop fuel (i + 1) (u64 (packet_count + 1)) s
          end
      end
  end.

(** [run_server]: the number of reflected packets. *)
Definition run_server (fuel sfuel : nat) : M W Z :=
  tmpl ← some_or_undef (make_template cfg (mac (client cfg)) (mac (server cfg)));
  on_tx (tx_prefillRing tmpl) ;;
  '(n, _) ← server_loop fuel 0 0 {| hwWarmup := 0; rxInFlight := 0; txSeqInFlight := 0 |};
  match hw with Some _ => push_sentinel others sfuel | None => mret tt end ;;
  mret n.

(** ** Transmit generator *)

Fixpoint txgen_loop (n : nat) (i : Z) (nextSend : Z * Z) (sent_ failed : Z) : M W (Z * Z) :=
  match n with
  | O => mret (sent_, failed)
  | S n =>
      stop ← stopped;
      if (stop : bool) then mret (sent_, failed) else
      nextSend ← pace cfg nextSend;
      dst ← on_tx (tx_acquire (frameSize cfg));
      match dst with
      | None => txgen_loop n (i + 1) nextSend sent_ (u32 (failed + 1))
      | Some dst =>
          on_tx (storeU 4 (dst + 14) (htonl i)) ;;
          ts_ns ← on_clk mono_ns;
          on_tx (storeU 8 (dst + 18) ts_ns) ;;
          on_tx tx_commit ;;
          txgen_loop n (i + 1) nextSend (u32 (sent_ + 1)) failed
      end
  end.

(** [run_txgen]: frames sent and frames given up because the ring was full. *)
Definition run_txgen (count : Z) : M W (Z * Z) :=
  tmpl ← some_or_undef (make_template cfg (mac (server cfg)) (mac (client cfg)));
  on_tx (tx_prefillRing tmpl) ;;
  nextSend ← pace_start cfg;
  _ ← on_clk mono_ns;
  r ← txgen_loop (Z.to_nat count) 0 nextSend 0 0;
  _ ← on_clk mono_ns;
  mret r.

(** ** Receive sink *)

(** [memcmp(rxf.data(), ourMac.data(), 6) == 0]: reads six bytes of the frame. *)
Definition dst_is_ours (rxf : bytes) : option bool :=
  d ← load 0 6 rxf; Some (bool_decide (d = mac (server cfg))).

Fixpoint rxsink_loop (fuel : nat) (i accepted rejected : Z) : M W (Z * Z) :=
  match fuel with
  | O => raise NoFuel
  | S fuel =>
      if decide (65536 <= i) then
        stop ← stopped;
        if (stop : bool) then mret (accepted, rejected) else rxsink_loop fuel 0 accepted rejected
      else
      rxf ← on_rx rx_tryReceive;
      match rxf with
      | [] => rxsink_loop fuel (i + 1) accepted rejected
      | _ =>
          ours ← some_or_undef (dst_is_ours rxf);
          on_rx rx_release ;;
          if (ours : bool) then rxsink_loop fuel (i + 1) (u64 (accepted + 1)) rejected
          else rxsink_loop fuel (i + 1) accepted (u64 (rejected + 1))
      end
  end.

Definition run_rxsink (fuel : nat) : M W (Z * Z) :=
  _ ← on_clk clock_monotonic;
  r ← rxsink_loop fuel 0 0 0;
  _ ← on_clk clock_monotonic;
  mret r.
End Apps.

(** ** Properties *)
Section Properties.
Context {T R Q C : Type} `{TxContract T} `{RxContract R} `{SpscLaws Q} `{ClockLaws C}.
Context (others : Q * bool -> C -> (Q * bool) * C) (Hothers : others_ok others) (cfg : TestConfig).
Abbreviation W := (app T R Q C).

Definition macs6 : Prop := length (mac (server cfg)) = 6%nat /\ length (mac (client cfg)) = 6%nat.

(** A frame of [frameSize] bytes with header [h] and the bytes [pl] behind it. *)
Definition frame_with (h pl b : bytes) : Prop :=
  Z.of_nat (length b) = frameSize cfg /\ h `prefix_of` b /\ slice 14 (length pl) b = pl.

(** Filling the first bytes behind the header of an acquired buffer. *)
Lemma fill_frame h sent p b pl (s : T) :
  tx_lent h sent p b s -> Z.of_nat (length b) = frameSize cfg -> h `prefix_of` b ->
  length h = 14%nat -> pl <> [] -> 14 + Z.of_nat (length pl) <= frameSize cfg ->
  exists s' b', tx_write (p + 14) pl s = (Done tt, s') /\ tx_lent h sent p b' s' /\ frame_with h pl b'.
Proof.
  intros Hl Hb Hp Hh Hne Hsz.
  assert (store 14 pl b = Some (list_inserts 14 pl b)) as Hst by (apply store_Some; lia).
  destruct (write_lent _ _ _ _ _ _ _ _ Hl Hne Hst) as (s' & Hw & Hl').
  exists s', (list_inserts 14 pl b). split; [done|]. split; [done|]. split; [|split].
  - by rewrite length_inserts.
  - eapply store_keeps_prefix; [exact Hp| |exact Hst]. lia.
  - apply slice_inserts_eq. lia.
Qed.

(** *** The client *)
Definition echo_hdr : bytes := header (mac (server cfg)) (mac (client cfg)) (etherType cfg).

Definition client_frames (all : list bytes) : Prop :=
  forall i b, all !! i = Some b ->
    frame_with echo_hdr (rev (le_encode 4 (u32 (Z.of_nat i)))) b.

(** The books of the client: [missed] rounds ended without an echo, [k] of them are
    reported as timeouts. *)
Definition client_books (all : list bytes) (st : client_state) : Prop :=
  exists missed k, 0 <= k <= missed /\ 0 <= warmup st <= kWarmupDiscard /\
    sent st = u64 (Z.of_nat (length all)) /\ seq st = u32 (Z.of_nat (length all)) /\
    u64 (recorded st + warmup st + missed) = sent st /\ timeouts st = u64 k.

(** The samples the client handed to the histogram or counted as failures. *)
Definition client_pushes (w : W) (st st' : client_state) (w' : W) (pushed : list Z) : Prop :=
  q_pushed (toHist w') = q_pushed (toHist w) ++ pushed /\
  exists fails, 0 <= fails /\
    u64 (pushFailures w') = u64 (pushFailures w + fails) /\
    u64 (recorded st') = u64 (recorded st + Z.of_nat (length pushed) + fails).

Lemma client_pushes_refl w st : client_pushes w st st w [].
Proof.
  split; [by rewrite app_nil_r|]. exists 0. split; [done|]. split; f_equal; cbn; lia.
Qed.

Lemma client_pushes_trans w1 st1 w2 st2 w3 st3 p q :
  client_pushes w1 st1 st2 w2 p -> client_pushes w2 st2 st3 w3 q ->
  client_pushes w1 st1 st3 w3 (p ++ q).
Proof.
  intros (Ha & f1 & F1 & G1 & R1) (Hb & f2 & F2 & G2 & R2). split; [by rewrite Hb, Ha, app_assoc|].
  exists (f1 + f2). split; [lia|]. rewrite G2, R2, length_app. split.
  - rewrite <- wrap_add_l, G1, wrap_add_l. f_equal. lia.
  - rewrite <- Z.add_assoc, <- wrap_add_l, R1, wrap_add_l. f_equal. lia.
Qed.

(** One successful round: a warm-up tick or one recorded sample. *)
Definition round_done (st st' : client_state) : Prop :=
  (warmup st < kWarmupDiscard /\ st' = count_warm st) \/
  (kWarmupDiscard <= warmup st /\ st' = count_rec st).

Lemma client_sample_spec fuel txSeq t1 t2 st (w : W) :
  exists st' w' p, client_sample (R := R) (T := T) others None fuel txSeq t1 t2 st w = (Done st', w') /\
    round_done st st' /\ txd w' = txd w /\ rxd w' = rxd w /\ client_pushes w st st' w' p.
Proof.
  unfold client_sample. case_decide as Hw.
  - eexists _, w, []. split; [done|]. split; [by left|]. split; [done|]. split; [done|].
    destruct (client_pushes_refl w st) as (? & f & ? & ? & ?). split; [done|]. by exists f.
  - destruct (push_sample_run others Hothers (u64 (t2 - t1)) w) as (b & w' & Hp & Hr & Hf & Hq).
    rewrite (run_bind _ _ _ _ _ Hp).
    exists (count_rec st), w', (if b then [u64 (t2 - t1)] else []). split; [done|].
    split; [right; split; [lia|done]|].
    split; [by pose proof (push_sample_txd others (u64 (t2 - t1)) w) as Ht; rewrite Hp in Ht|].
    split; [done|]. split; [done|]. exists (if b then 0 else 1). cbn [recorded count_rec].
    rewrite Hf. destruct b; cbn; rewrite ?wrap_wrap; (split; [done|]); split; f_equal; lia.
Qed.

Lemma is_our_echo_total seqNet rxf : exists b, is_our_echo cfg seqNet rxf = Some b.
Proof.
  unfold is_our_echo. case_decide as Hd; [|by eexists]. destruct Hd as [Hl _].
  unfold kFrameMinBytes, kOffTxStamp in Hl. unfold loadU, load, kOffSeq.
  rewrite decide_True by lia. by eexists.
Qed.

Lemma client_spin_spec fuel tmo seqNet txSeq t1 spins st (w : W) seen :
  rx_idle seen (rxd w) ->
  match client_spin others None cfg fuel tmo seqNet txSeq t1 spins st w with
  | (Done (received, st'), w') =>
      txd w' = txd w /\ (exists seen', rx_idle seen' (rxd w')) /\
      (exists p, client_pushes w st st' w' p) /\ (if (received : bool) then round_done st st' else st' = st)
  | (NoFuel, _) => True
  | _ => False
  end.
Proof.
  revert spins w seen; induction fuel as [|fuel IH]; intros spins w seen Hid; [done|]. cbn [client_spin].
  destruct (receive_in_order _ _ Hid) as (f & r1 & Hrx & Hf).
  rewrite (run_bind _ _ _ _ _ (on_rx_run _ w _ _ Hrx)). set (w1 := set_rxd r1 w).
  assert (forall (w2 : W) seen2, txd w2 = txd w -> rx_idle seen2 (rxd w2) ->
    toHist w2 = toHist w -> pushFailures w2 = pushFailures w ->
    match (if decide (Z.land (u32 (spins + 1)) 0x7FF = 0) then
            stop ← stopped;
            if (stop : bool) then mret (false, st) else
            t ← now;
            if decide (tmo <= u64 (t - t1)) then mret (false, st)
            else client_spin others None cfg fuel tmo seqNet txSeq t1 (u32 (spins + 1)) st
          else client_spin others None cfg fuel tmo seqNet txSeq t1 (u32 (spins + 1)) st) w2 with
    | (Done (received, st'), w') =>
        txd w' = txd w /\ (exists seen', rx_idle seen' (rxd w')) /\
        (exists p, client_pushes w st st' w' p) /\ (if (received : bool) then round_done st st' else st' = st)
    | (NoFuel, _) => True
    | _ => False
    end) as Htail.
  { intros w2 seen2 Ht Hid2 Hq HF.
    assert (forall (w4 : W), txd w4 = txd w2 -> rxd w4 = rxd w2 -> toHist w4 = toHist w2 ->
      pushFailures w4 = pushFailures w2 ->
      match client_spin others None cfg fuel tmo seqNet txSeq t1 (u32 (spins + 1)) st w4 with
      | (Done (received, st'), w') =>
        txd w' = txd w /\ (exists seen', rx_idle seen' (rxd w')) /\
        (exists p, client_pushes w st st' w' p) /\ (if (received : bool) then round_done st st' else st' = st)
      | (NoFuel, _) => True
      | _ => False
      end) as Hrec.
    { intros w4 E1 E2 E3 E4. specialize (IH (u32 (spins + 1)) w4 seen2).
      rewrite E2 in IH. specialize (IH Hid2). unfold client_pushes in *.
      rewrite E1, Ht in IH. rewrite E3, Hq, E4, HF in IH. exact IH. }
    assert (exists p, client_pushes w st st w2 p) as Hnone.
    { exists []. pose proof (client_pushes_refl w st) as (G1 & G2). split; [by rewrite Hq|].
      by rewrite HF. }
    case_decide; [|by apply Hrec].
    destruct (stopped_run w2) as (b & c3 & Hs & _). rewrite (run_bind _ _ _ _ _ Hs).
    destruct b; [split; [done|]; split; [by eexists|]; by split|].
    destruct (now_run (set_clk c3 w2)) as (c4 & Hn & _). rewrite (run_bind _ _ _ _ _ Hn).
    case_decide; [split; [done|]; split; [by eexists|]; by split|]. by apply Hrec. }
  destruct f as [|b0 f0]; [rewrite bind_ret_l; by apply (Htail w1 seen)|].
  set (f := b0 :: f0) in *. destruct (is_our_echo_total seqNet f) as [ours Ho].
  destruct (now_run w1) as (c2 & Hn & _). set (w2 := set_clk c2 w1).
  destruct (release_idle _ _ _ Hf) as (r3 & Hrel & Hid3). set (w3 := set_rxd r3 w2).
  rewrite bind_assoc, (run_bind _ _ _ _ _ Hn), Ho. cbn [some_or_undef].
  rewrite bind_assoc, bind_ret_l, bind_assoc. cbv beta.
  rewrite (run_bind _ _ _ _ _ (on_rx_run _ w2 _ _ Hrel)). fold w3. destruct ours.
  - destruct (client_sample_spec fuel txSeq t1 (u64 (tsc_value (clk w1))) st w3)
      as (st' & w4 & p & Hcs & Hrd & Ht4 & Hr4 & Hp4).
    rewrite bind_assoc, (run_bind _ _ _ _ _ Hcs), bind_ret_l. cbv beta. cbn.
    split; [done|]. split; [rewrite Hr4; by eexists|]. split; [|done]. exists p. exact Hp4.
  - rewrite bind_ret_l. cbv beta. by apply (Htail w3 (seen ++ [f])).
Qed.

Lemma books_round all b received st st' :
  client_books all st ->
  (if (received : bool) then round_done (count_sent st) st' else st' = count_sent st) ->
  client_books (all ++ [b]) (finish_round received st').
Proof.
  intros (m & k & Hk & Hw & Hs & Hq & Hb & Ht) Hr.
  assert (u64 (recorded st + warmup st + m + 1) = u64 (Z.of_nat (length (all ++ [b])))) as Hb'.
  { rewrite <- wrap_add_l, Hb, Hs, wrap_add_l, length_app. f_equal. cbn. lia. }
  assert (u64 (sent st + 1) = u64 (Z.of_nat (length (all ++ [b])))) as Hs'.
  { rewrite Hs, wrap_add_l, length_app. f_equal. cbn. lia. }
  assert (u32 (seq st + 1) = u32 (Z.of_nat (length (all ++ [b])))) as Hq'.
  { rewrite Hq, wrap_add_l, length_app. f_equal. cbn. lia. }
  destruct received.
  - exists m, k. destruct Hr as [[Hlt ->]|[Hge ->]];
      cbn [warmup sent seq recorded timeouts finish_round count_sent count_warm count_rec negb andb] in *;
      (split; [done|]); (split; [|split; [done|split; [done|split; [|done]]]]).
    + rewrite wrap_small by (unfold in_u, kWarmupDiscard in *; lia). lia.
    + rewrite (wrap_small 64 (warmup st + 1)) by (unfold in_u, kWarmupDiscard in *; lia).
      rewrite Hs', <- Hb'. f_equal. lia.
    + done.
    + rewrite Hs', <- Hb', <- !Z.add_assoc, wrap_add_l. f_equal. lia.
  - subst st'. exists (m + 1), (if kWarmupDiscard <=? warmup st then k + 1 else k).
    cbn [warmup sent seq recorded timeouts finish_round count_sent negb andb].
    split; [case_match; lia|]. split; [done|]. split; [done|]. split; [done|].
    split; [rewrite Hs', <- Hb'; f_equal; lia|].
    rewrite Ht. case_match; [by rewrite wrap_add_l|done].
Qed.

Definition client_cfg : Prop := macs6 /\ kFrameMinBytes <= frameSize cfg <= tx_room.

Lemma length_echo_hdr : client_cfg -> length echo_hdr = 14%nat.
Proof. intros ((H1' & H2') & _). unfold echo_hdr, header. by rewrite !length_app, H1', H2'. Qed.

Lemma client_loop_spec fuel dur tmo start ts st (w : W) all seen :
  client_cfg -> tx_idle echo_hdr all (txd w) -> client_frames all -> client_books all st ->
  rx_idle seen (rxd w) ->
  match client_loop others None cfg fuel dur tmo start ts st w with
  | (Done st', w') => exists all', tx_idle echo_hdr all' (txd w') /\ client_frames all' /\
      client_books all' st' /\ exists p, client_pushes w st st' w' p
  | (NoFuel, _) => True
  | _ => False
  end.
Proof.
  intros Hcfg. pose proof (length_echo_hdr Hcfg) as Hh. destruct Hcfg as (Hm & Hsz).
  revert ts st w all seen; induction fuel as [|fuel IH]; intros ts st w all seen Hid Hfr Hbk Hrx;
    cbn [client_loop]; destruct (now_run w) as (c1 & Hnow & _); rewrite (run_bind _ _ _ _ _ Hnow);
    (assert (forall c c' : C, exists all', tx_idle echo_hdr all' (txd (set_clk c' (set_clk c w))) /\
        client_frames all' /\ client_books all' st /\ exists p, client_pushes w st st (set_clk c' (set_clk c w)) p)
       as Hend by (intros c c'; exists all; split_and!; try done; exists []; exact (client_pushes_refl w st)));
    (destruct (decide _); [exact (Hend c1 c1)|]);
    destruct (stopped_run (set_clk c1 w)) as (stop & c2 & Hstop & _); rewrite (run_bind _ _ _ _ _ Hstop);
    (destruct stop; [exact (Hend c1 c2)|]); [done|].
  set (w2 := set_clk c2 (set_clk c1 w)) in *. change (txd w) with (txd w2) in Hid.
  destruct (pace_run cfg ts w2) as (ts' & c3 & Hp & _); rewrite (run_bind _ _ _ _ _ Hp).
  set (w3 := set_clk c3 w2). change (txd w2) with (txd w3) in Hid. change (rxd w) with (rxd w3) in Hrx.
  unfold kFrameMinBytes, kOffTxStamp in Hsz.
  pose proof (acquire_lends _ _ (frameSize cfg) _ Hid) as Ha. rewrite Hh in Ha. specialize (Ha ltac:(lia)).
  destruct (tx_acquire (frameSize cfg) (txd w3)) as [o t3] eqn:Hacq. unfold mbind at 1, M_bind at 1.
  rewrite (on_tx_run _ _ _ _ Hacq). destruct o as [[p|]| | | |]; try done.
  2:{ apply (IH ts' st (set_txd t3 w3) all seen Ha Hfr Hbk Hrx). }
  destruct Ha as (b & Hb & Hpre & Hl). set (w4 := set_txd t3 w3).
  destruct (fill_frame _ _ _ _ (le_encode 4 (htonl (seq st))) _ Hl Hb Hpre Hh ltac:(done) ltac:(cbn; lia))
    as (s1 & b' & Hs1 & Hl2 & Hsf).
  unfold storeU, kOffSeq. rewrite (run_bind _ _ _ _ _ (on_tx_run _ w4 _ _ Hs1)).
  destruct (now_run (set_txd s1 w4)) as (c5 & Hn5 & _). rewrite (run_bind _ _ _ _ _ Hn5).
  set (w5 := set_clk c5 (set_txd s1 w4)). rewrite bind_ret_l. cbv beta.
  assert (echo_hdr `prefix_of` b') as Hpre' by apply Hsf.
  pose proof (commit_sends _ _ _ _ _ Hl2 Hpre') as Hc.
  destruct (tx_commit s1) as [oc t6] eqn:Hcm. unfold mbind at 1, M_bind at 1.
  rewrite (on_tx_run _ w5 _ _ Hcm). destruct oc as [[]| | | |]; try done.
  set (w6 := set_txd t6 w5).
  pose proof (client_spin_spec fuel tmo (htonl (seq st)) 0 (u64 (tsc_value (clk (set_txd s1 w4)))) 0
    (count_sent st) w6 seen Hrx) as Hspin.
  unfold mbind at 1, M_bind at 1.
  destruct (client_spin _ _ _ _ _ _ _ _ _ _ w6) as [[[received st1]| | | |] w7]; try done.
  destruct Hspin as (Ht7 & (seen7 & Hrx7) & (p7 & Hp7) & Hround).
  pose proof (books_round all b' received st st1 Hbk Hround) as Hbk'.
  assert (tx_idle echo_hdr (all ++ [b']) (txd w7)) as Hid7 by (rewrite Ht7; exact Hc).
  assert (client_frames (all ++ [b'])) as Hfr'.
  { intros i x Hx. apply lookup_app_Some in Hx as [Hx|[Hi Hx]]; [by apply Hfr|].
    destruct (i - length all)%nat as [|j] eqn:He; [|by destruct j]. cbn in Hx. simplify_eq.
    replace i with (length all) by lia. destruct Hbk as (_ & _ & _ & _ & _ & Hq & _).
    rewrite <- Hq. unfold htonl in Hsf. by rewrite le_encode_bswap in Hsf. }
  specialize (IH ts' (finish_round received st1) w7 _ seen7 Hid7 Hfr' Hbk' Hrx7).
  destruct (client_loop _ _ _ _ _ _ _ _ _ w7) as [[st'| | | |] w']; try done.
  destruct IH as (all' & I1 & I2 & I3 & p' & I4). exists all'. split_and!; try done.
  exists (p7 ++ p'). eapply client_pushes_trans; [exact Hp7|exact I4].
Qed.


(** *** The reflector *)
Definition reply_hdr : bytes := header (mac (client cfg)) (mac (server cfg)) (etherType cfg).

(** The reply to a frame: the configured header and the 12 payload bytes copied. *)
Definition reply_to (f b : bytes) : Prop := frame_with reply_hdr (slice 14 12 f) b.

Lemma length_reply_hdr : client_cfg -> length reply_hdr = 14%nat.
Proof. intros ((H1' & H2') & _). unfold reply_hdr, header. by rewrite !length_app, H1', H2'. Qed.

Lemma server_acquire_spec fuel all seen f (w : W) :
  client_cfg -> tx_idle reply_hdr all (txd w) -> rx_held seen f (rxd w) ->
  match server_acquire cfg fuel w with
  | (Done (Some p), w') => rxd w' = rxd w /\ exists b,
      Z.of_nat (length b) = frameSize cfg /\ reply_hdr `prefix_of` b /\
      tx_lent reply_hdr all p b (txd w')
  | (Done None, w') => tx_idle reply_hdr all (txd w') /\ rx_idle (seen ++ [f]) (rxd w')
  | (NoFuel, _) => True
  | _ => False
  end.
Proof.
  intros Hcfg. pose proof (length_reply_hdr Hcfg) as Hh. destruct Hcfg as (_ & Hsz).
  unfold kFrameMinBytes, kOffTxStamp in Hsz.
  revert w; induction fuel as [|fuel IH]; intros w Hid Hrx; cbn [server_acquire];
    pose proof (acquire_lends _ _ (frameSize cfg) _ Hid) as Ha; rewrite Hh in Ha;
    specialize (Ha ltac:(lia)); unfold mbind at 1, M_bind at 1;
    destruct (tx_acquire (frameSize cfg) (txd w)) as [o t1] eqn:Hacq; rewrite (on_tx_run _ _ _ _ Hacq);
    (destruct o as [[p|]| | | |]; try done);
    destruct (stopped_run (set_txd t1 w)) as (stop & c2 & Hs & _); rewrite (run_bind _ _ _ _ _ Hs);
    destruct (release_idle _ _ _ Hrx) as (r3 & Hrel & Hid3);
    (destruct stop; [rewrite (run_bind _ _ _ _ _ (on_rx_run _ (set_clk c2 (set_txd t1 w)) _ _ Hrel)); by split|]).
  - done.
  - exact (IH (set_clk c2 (set_txd t1 w)) Ha Hrx).
Qed.

(** What a run of the reflector has done: the frames [fs] were answered one by one,
    and at most one more was taken and not answered. *)
Definition server_post (base : list bytes) (r : outcome (Z * server_hw) * W) : Prop :=
  match r with
  | (Done (n, _), w') => exists fs all extra, tx_idle reply_hdr all (txd w') /\
      Forall2 reply_to fs all /\ rx_idle (base ++ fs ++ extra) (rxd w') /\
      (length extra <= 1)%nat /\ n = u64 (Z.of_nat (length all))
  | (Undef, w') => exists f, f ∈ rx_arrived (rxd w') /\ (length f < 26)%nat
  | (NoFuel, _) => True
  | _ => False
  end.

Lemma server_loop_spec fuel base i n hwst all fs (w : W) :
  client_cfg -> tx_idle reply_hdr all (txd w) -> Forall2 reply_to fs all ->
  rx_idle (base ++ fs) (rxd w) -> n = u64 (Z.of_nat (length all)) ->
  server_post base (server_loop others None cfg fuel i n hwst w).
Proof.
  intros Hcfg. pose proof (length_reply_hdr Hcfg) as Hh. pose proof Hcfg as (_ & Hsz).
  unfold kFrameMinBytes, kOffTxStamp in Hsz.
  revert i n hwst all fs w; induction fuel as [|fuel IH]; intros i n hwst all fs w Hid Hrep Hrx Hn; [done|].
  cbn [server_loop]. case_decide.
  { destruct (stopped_run w) as (stop & c1 & Hs & _). rewrite (run_bind _ _ _ _ _ Hs).
    destruct stop; [|by apply (IH 0 n hwst all fs (set_clk c1 w))].
    exists fs, all, []. rewrite app_nil_r. split_and!; try done. cbn. lia. }
  destruct (receive_in_order _ _ Hrx) as (f & r1 & Hrc & Hf).
  rewrite (run_bind _ _ _ _ _ (on_rx_run _ w _ _ Hrc)). set (w1 := set_rxd r1 w).
  destruct f as [|b0 f0].
  { unfold server_poll. rewrite bind_ret_l. cbv beta. by apply (IH (i + 1) n hwst all fs w1). }
  set (f := b0 :: f0) in *. change (txd w) with (txd w1) in Hid. change r1 with (rxd w1) in Hf.
  pose proof (server_acquire_spec fuel all _ f w1 Hcfg Hid Hf) as Ha. unfold mbind at 1, M_bind at 1.
  destruct (server_acquire cfg fuel w1) as [[[p|]| | | |] w2]; try done.
  2:{ destruct Ha as [Ht Hr]. exists fs, all, [f]. rewrite <- app_assoc in Hr. split_and!; try done. }
  destruct Ha as (Hr2 & b & Hb & Hpre & Hl). rewrite <- Hr2 in Hf.
  unfold load. case_decide as Hlen.
  2:{ cbn. exists f. split; [|lia]. pose proof (rx_held_prefix _ _ _ Hf) as [k Hk]. rewrite Hk.
      apply elem_of_app. left. apply elem_of_app. right. by left. }
  cbn [some_or_undef]. rewrite bind_ret_l. cbv beta.
  destruct (fill_frame _ _ _ _ (slice 14 12 f) _ Hl Hb Hpre Hh) as (s3 & b' & Hw3 & Hl3 & Hsf).
  { intros He. apply (f_equal length) in He. rewrite length_slice in He by lia. done. }
  { rewrite length_slice by lia. lia. }
  rewrite (run_bind _ _ _ _ _ (on_tx_run _ w2 _ _ Hw3)). set (w3 := set_txd s3 w2).
  change (rxd w2) with (rxd w3) in Hf. destruct (release_idle _ _ _ Hf) as (r4 & Hrel & Hid4).
  rewrite (run_bind _ _ _ _ _ (on_rx_run _ w3 _ _ Hrel)), bind_ret_l. cbv beta. set (w4 := set_rxd r4 w3).
  assert (reply_hdr `prefix_of` b') as Hpre' by apply Hsf.
  pose proof (commit_sends _ _ _ _ _ Hl3 Hpre') as Hc. unfold mbind at 1, M_bind at 1.
  destruct (tx_commit s3) as [oc t5] eqn:Hcm. rewrite (on_tx_run _ w4 _ _ Hcm).
  destruct oc as [[]| | | |]; try done. rewrite bind_ret_l. cbv beta.
  apply (IH _ _ _ (all ++ [b']) (fs ++ [f]) (set_txd t5 w4)).
  - exact Hc.
  - by apply Forall2_app; [|constructor].
  - by rewrite app_assoc.
  - rewrite Hn, wrap_add_l, length_app. f_equal. cbn. lia.
Qed.


(** *** The transmit generator *)

(** The frames of the burst carry increasing indices below [i]. *)
Definition burst (i : Z) (all : list bytes) : Prop :=
  exists is_, length is_ = length all /\ StronglySorted Z.lt is_ /\ Forall (fun j => 0 <= j < i) is_ /\
    Forall2 (fun j b => frame_with echo_hdr (rev (le_encode 4 j)) b) is_ all.

Lemma burst_snoc i all b :
  0 <= i -> burst i all -> frame_with echo_hdr (rev (le_encode 4 i)) b -> burst (i + 1) (all ++ [b]).
Proof.
  intros Hi (is_ & Hl & Hs & Hb & Hf) Hfb. exists (is_ ++ [i]). rewrite !length_app. split; [cbn; lia|].
  split; [|split].
  - clear Hl Hf. induction Hs as [|j is_ Hs IH Hj]; [repeat constructor|].
    apply Forall_cons_1 in Hb as [Hj1 Hb]. constructor; [by apply IH|].
    apply Forall_app. split; [done|]. constructor; [lia|done].
  - apply Forall_app. split; [|constructor; [lia|done]].
    eapply Forall_impl; [|exact Hb]. cbn. lia.
  - apply Forall2_app; [done|by constructor].
Qed.

Lemma burst_mono i all : burst i all -> burst (i + 1) all.
Proof.
  intros (is_ & Hl & Hs & Hb & Hf). exists is_. split_and!; try done.
  eapply Forall_impl; [|exact Hb]. cbn. lia.
Qed.

Lemma mono_run (w : W) : exists t c', on_clk mono_ns w = (Done t, set_clk c' w).
Proof.
  unfold on_clk, zoom, lift, mono_ns. destruct (clock_monotonic (clk w)) as [[sec ns] c]. by eexists _, _.
Qed.

Lemma txgen_loop_spec n i ts sent_ failed (w : W) all :
  client_cfg -> 0 <= i -> tx_idle echo_hdr all (txd w) -> burst i all ->
  sent_ = u32 (Z.of_nat (length all)) -> u32 (sent_ + failed) = u32 i ->
  match txgen_loop cfg n i ts sent_ failed w with
  | (Done (s, f), w') => exists all' k, tx_idle echo_hdr all' (txd w') /\ burst k all' /\
      i <= k <= i + Z.of_nat n /\ s = u32 (Z.of_nat (length all')) /\ u32 (s + f) = u32 k
  | (NoFuel, _) => True
  | _ => False
  end.
Proof.
  intros Hcfg. pose proof (length_echo_hdr Hcfg) as Hh. destruct Hcfg as (_ & Hsz).
  unfold kFrameMinBytes, kOffTxStamp in Hsz.
  revert i ts sent_ failed w all; induction n as [|n IH]; intros i ts sent_ failed w all Hi Hid Hb Hs Hf.
  { cbn. exists all, i. split_and!; try done; lia. }
  cbn [txgen_loop]. destruct (stopped_run w) as (stop & c1 & Hst & _). rewrite (run_bind _ _ _ _ _ Hst).
  destruct stop; [exists all, i; split_and!; try done; lia|].
  set (w1 := set_clk c1 w). destruct (pace_run cfg ts w1) as (ts' & c2 & Hp & _).
  rewrite (run_bind _ _ _ _ _ Hp). set (w2 := set_clk c2 w1).
  pose proof (acquire_lends _ _ (frameSize cfg) (txd w2) Hid) as Ha. rewrite Hh in Ha.
  specialize (Ha ltac:(lia)). unfold mbind at 1, M_bind at 1.
  destruct (tx_acquire (frameSize cfg) (txd w2)) as [o t3] eqn:Hacq. rewrite (on_tx_run _ _ _ _ Hacq).
  destruct o as [[p|]| | | |]; try done.
  2:{ pose proof (IH (i + 1) ts' sent_ (u32 (failed + 1)) (set_txd t3 w2) all ltac:(lia) Ha (burst_mono _ _ Hb) Hs) as IH'.
      specialize (IH' ltac:(rewrite wrap_add_r, Z.add_assoc, <- wrap_add_l, Hf, wrap_add_l; done)).
      destruct (txgen_loop _ _ _ _ _ _ _) as [[[s f]| | | |] w']; try done.
      destruct IH' as (all' & k & I1 & I2 & I3 & I4 & I5). exists all', k. split_and!; try done; lia. }
  destruct Ha as (b & Hbl & Hpre & Hl). set (w3 := set_txd t3 w2).
  destruct (fill_frame _ _ _ _ (le_encode 4 (htonl i)) _ Hl Hbl Hpre Hh ltac:(done) ltac:(cbn; lia))
    as (s4 & b4 & Hw4 & Hl4 & Hsf). unfold storeU.
  rewrite (run_bind _ _ _ _ _ (on_tx_run _ w3 _ _ Hw4)).
  destruct (mono_run (set_txd s4 w3)) as (t & c5 & Hm5). rewrite (run_bind _ _ _ _ _ Hm5).
  destruct Hsf as (Hsf1 & Hsf2 & Hsf3).
  assert (store 18 (le_encode 8 t) b4 = Some (list_inserts 18 (le_encode 8 t) b4)) as Hst5.
  { apply store_Some. rewrite length_le_encode. lia. }
  destruct (fun Hne => write_lent _ _ _ _ _ _ _ _ Hl4 Hne Hst5) as (s6 & Hw6 & Hl6); [done|].
  rewrite (run_bind _ _ _ _ _ (on_tx_run _ (set_clk c5 (set_txd s4 w3)) _ _ Hw6)).
  set (b6 := list_inserts 18 (le_encode 8 t) b4) in *. set (w6 := set_txd s6 _).
  assert (frame_with echo_hdr (rev (le_encode 4 i)) b6) as Hfr.
  { split; [unfold b6; by rewrite length_inserts|]. split.
    - eapply store_keeps_prefix; [exact Hsf2| |exact Hst5]. lia.
    - unfold htonl in Hsf3. rewrite le_encode_bswap in Hsf3. rewrite <- Hsf3 at 2.
      rewrite length_rev, length_le_encode. apply slice_inserts_before; [|lia].
      rewrite length_le_encode. lia. }
  pose proof (commit_sends _ _ _ _ _ Hl6 (proj1 (proj2 Hfr))) as Hc. unfold mbind at 1, M_bind at 1.
  destruct (tx_commit s6) as [oc t7] eqn:Hcm. rewrite (on_tx_run _ w6 _ _ Hcm).
  destruct oc as [[]| | | |]; try done.
  pose proof (IH (i + 1) ts' (u32 (sent_ + 1)) failed (set_txd t7 w6) (all ++ [b6]) ltac:(lia) Hc
    (burst_snoc _ _ _ Hi Hb Hfr)) as IH'.
  rewrite length_app in IH'. specialize (IH' ltac:(rewrite Hs, wrap_add_l; f_equal; cbn; lia)).
  specialize (IH' ltac:(rewrite wrap_add_l, <- (wrap_add_l _ i 1), <- Hf, wrap_add_l; f_equal; lia)).
  destruct (txgen_loop _ _ _ _ _ _ _) as [[[s f]| | | |] w']; try done.
  destruct IH' as (all' & k & I1 & I2 & I3 & I4 & I5). exists all', k. split_and!; try done; lia.
Qed.

(** The transmit generator sends at most [count] frames, each with the header and
    its own strictly increasing index (the indices of the failed attempts are the gaps),
    and the two printed counters are the number of frames sent and of attempts that
    found the ring full. *)
Theorem txgen_burst count (w : W) :
  client_cfg -> tx_fresh (txd w) -> 0 <= count ->
  match run_txgen cfg count w with
  | (Done (s, f), w') => exists all k, tx_idle echo_hdr all (txd w') /\ burst k all /\
      0 <= k <= count /\ s = u32 (Z.of_nat (length all)) /\ u32 (s + f) = u32 k
  | (NoFuel, _) => True
  | _ => False
  end.
Proof.
  intros Hcfg Hfr Hcnt. pose proof (length_echo_hdr Hcfg) as Hh. pose proof Hcfg as ((Hm1 & Hm2) & Hsz).
  unfold run_txgen. unfold kFrameMinBytes, kOffTxStamp in Hsz.
  rewrite make_template_spec by (first [done|lia]). cbn [some_or_undef]. rewrite bind_ret_l. cbv beta.
  change (header (mac (server cfg)) (mac (client cfg)) (etherType cfg)) with echo_hdr.
  destruct (prefill_idle (echo_hdr ++ replicate (Z.to_nat (frameSize cfg) - 14) 0) _ Hfr) as (t1 & Hp & Hid).
  { rewrite length_app, length_replicate, Hh. lia. }
  rewrite (run_bind _ _ _ _ _ (on_tx_run _ w _ _ Hp)).
  destruct (pace_start_run cfg (set_txd t1 w)) as (ts & c2 & Hps & _). rewrite (run_bind _ _ _ _ _ Hps).
  destruct (mono_run (set_clk c2 (set_txd t1 w))) as (t & c3 & Hm3). rewrite (run_bind _ _ _ _ _ Hm3).
  set (w3 := set_clk c3 _). assert (tx_idle echo_hdr [] (txd w3)) as Hid3.
  { eapply tx_idle_weaken; [exact Hid|]. by eexists. }
  assert (burst 0 []) as Hb.
  { exists []. split; [done|]. split; [constructor|]. by split. }
  pose proof (txgen_loop_spec (Z.to_nat count) 0 ts 0 0 w3 [] Hcfg ltac:(lia) Hid3 Hb eq_refl eq_refl) as Hl.
  unfold mbind at 1, M_bind at 1.
  destruct (txgen_loop _ _ _ _ _ _ w3) as [[[s f]| | | |] w4]; try done.
  destruct (mono_run w4) as (t5 & c5 & Hm5). rewrite (run_bind _ _ _ _ _ Hm5).
  destruct Hl as (all & k & L1 & L2 & L3 & L4 & L5). exists all, k. split_and!; try done; lia.
Qed.

(** Without the frame-size guard of the other senders, [run_txgen] and [run_server]
    write past the end of the frame template when the configured size is below the
    14 header bytes: undefined behaviour before anything is sent. *)
Theorem short_frame_undefined fuel sfuel count hwts (w : W) :
  macs6 -> frameSize cfg < 14 ->
  fst (run_txgen cfg count w) = Undef /\ fst (run_server others hwts cfg fuel sfuel w) = Undef /\
  fst (run_client others hwts cfg fuel sfuel count count w) = Done None.
Proof.
  intros [Hm1 Hm2] Hsz. unfold run_txgen, run_server, run_client.
  rewrite !make_template_short by done.
  rewrite decide_True by (unfold kFrameMinBytes, kOffTxStamp; lia). done.
Qed.

(** *** The receive sink *)
Definition addressed (f : bytes) : Prop := take 6 f = mac (server cfg).

#[export] Instance addressed_dec f : Decision (addressed f).
Proof. unfold addressed. apply _. Defined.

Lemma rxsink_loop_spec fuel i a r base fs (w : W) :
  rx_idle (base ++ fs) (rxd w) ->
  a = u64 (Z.of_nat (length (filter addressed fs))) ->
  r = u64 (Z.of_nat (length (filter (fun f => ~ addressed f) fs))) ->
  match rxsink_loop cfg fuel i a r w with
  | (Done (a', r'), w') => exists fs', rx_idle (base ++ fs') (rxd w') /\
      a' = u64 (Z.of_nat (length (filter addressed fs'))) /\
      r' = u64 (Z.of_nat (length (filter (fun f => ~ addressed f) fs')))
  | (Undef, w') => exists f, f ∈ rx_arrived (rxd w') /\ (length f < 6)%nat
  | (NoFuel, _) => True
  | _ => False
  end.
Proof.
  revert i a r fs w; induction fuel as [|fuel IH]; intros i a r fs w Hrx Ha Hr; [done|].
  cbn [rxsink_loop]. case_decide.
  { destruct (stopped_run w) as (stop & c1 & Hs & _). rewrite (run_bind _ _ _ _ _ Hs).
    destruct stop; [|by apply (IH 0 a r fs (set_clk c1 w))]. by exists fs. }
  destruct (receive_in_order _ _ Hrx) as (f & r1 & Hrc & Hf).
  rewrite (run_bind _ _ _ _ _ (on_rx_run _ w _ _ Hrc)). set (w1 := set_rxd r1 w).
  destruct f as [|b0 f0]; [by apply (IH (i + 1) a r fs w1)|]. set (f := b0 :: f0) in *.
  unfold dst_is_ours, load. destruct (decide (0 + 6 <= length f)%nat) as [Hlen|Hlen].
  2:{ cbn. exists f. split; [|lia]. pose proof (rx_held_prefix _ _ _ Hf) as [k Hk]. change (rx_arrived (rxd w1)) with (rx_arrived r1). rewrite Hk.
      apply elem_of_app. left. apply elem_of_app. right. by left. }
  cbn [mbind option_bind some_or_undef]. rewrite bind_ret_l. cbv beta.
  destruct (release_idle _ _ _ Hf) as (r2 & Hrel & Hid2).
  rewrite (run_bind _ _ _ _ _ (on_rx_run _ w1 _ _ Hrel)). set (w2 := set_rxd r2 w1).
  rewrite <- app_assoc in Hid2. unfold slice. rewrite skipn_O.
  case_bool_decide as Hd.
  - apply (IH _ _ _ (fs ++ [f]) w2 Hid2); rewrite list.filter_app, filter_cons.
    + rewrite decide_True by exact Hd. rewrite Ha, wrap_add_l, length_app. f_equal. cbn. lia.
    + rewrite decide_False by (intros Hn; by apply Hn). cbn. by rewrite app_nil_r.
  - apply (IH _ _ _ (fs ++ [f]) w2 Hid2); rewrite list.filter_app, filter_cons.
    + rewrite decide_False by exact Hd. cbn. by rewrite app_nil_r.
    + rewrite decide_True by exact Hd. rewrite Hr, wrap_add_l, length_app. f_equal. cbn. lia.
Qed.

(** The receive sink's counters partition the frames it received: [accepted] counts
    those whose first six bytes are our MAC and [rejected] the others, whatever their
    size; a delivered frame of fewer than six bytes is read past its end. *)
Theorem rxsink_counts fuel (w : W) base :
  rx_idle base (rxd w) ->
  match run_rxsink cfg fuel w with
  | (Done (a, r), w') => exists fs, rx_idle (base ++ fs) (rxd w') /\
      a = u64 (Z.of_nat (length (filter addressed fs))) /\
      r = u64 (Z.of_nat (length (filter (fun f => ~ addressed f) fs)))
  | (Undef, w') => exists f, f ∈ rx_arrived (rxd w') /\ (length f < 6)%nat
  | (NoFuel, _) => True
  | _ => False
  end.
Proof.
  intros Hrx. unfold run_rxsink.
  assert (forall v : W, exists t c', on_clk clock_monotonic v = (Done t, set_clk c' v)) as Hclk.
  { intros v. unfold on_clk, zoom, lift. destruct (clock_monotonic (clk v)) as [t c]. by eexists _, _. }
  destruct (Hclk w) as (t & c1 & H1'). rewrite (run_bind _ _ _ _ _ H1'). set (w1 := set_clk c1 w).
  change (rxd w) with (rxd w1) in Hrx. rewrite <- (app_nil_r base) in Hrx.
  pose proof (rxsink_loop_spec fuel 0 0 0 base [] w1 Hrx eq_refl eq_refl) as Hl.
  unfold mbind at 1, M_bind at 1.
  destruct (rxsink_loop _ _ _ _ _ w1) as [[[a r]| | | |] w2]; try done.
  destruct (Hclk w2) as (t3 & c3 & H3'). rewrite (run_bind _ _ _ _ _ H3'). exact Hl.
Qed.
End Properties.

(** Two echoes for the first two rounds; the duration covers exactly these. *)
Definition sim_echo (i : Z) : bytes :=
  [1;1;1;1;1;1;2;2;2;2;2;2;0x88;0xB5] ++ rev (le_encode 4 i) ++ replicate 8 0.

Definition sim_client_world : sim_app := sim_start [sim_echo 0; sim_echo 1] 0.

Definition sim_client_run : outcome (option client_state) * sim_app :=
  run_client alone None (sim_cfg 32) 4 2 6 100 sim_client_world.

Example client_run_ends :
  fst sim_client_run = Done (Some {| seq := 2; sent := 2; recorded := 0; timeouts := 0;
    warmup := 2; hwTxMissing := 0 |}).
Proof. vm_compute. reflexivity. Qed.


Lemma sim_client_cfg : client_cfg (T := sim_tx) (sim_cfg 32).
Proof. split; [split; reflexivity|]. split; vm_compute; discriminate. Qed.


Lemma txgen_burst_witness :
  match run_txgen (T := sim_tx) (R := sim_rx) (Q := list_queue) (sim_cfg 32) 3 sim_client_world with
  | (Done (s, f), w') => exists all k, tx_idle (echo_hdr (sim_cfg 32)) all (txd w') /\
      burst (sim_cfg 32) k all /\
      0 <= k <= 3 /\ s = u32 (Z.of_nat (length all)) /\ u32 (s + f) = u32 k
  | (NoFuel, _) => True
  | _ => False
  end.
Proof.
  assert (0 <= 3) as H3 by lia.
  pose proof (txgen_burst (R := sim_rx) (Q := list_queue) (sim_cfg 32) 3 sim_client_world sim_client_cfg sim_tx_fresh H3) as Ht. exact Ht.
Defined.

Example txgen_run :
  fst (run_txgen (T := sim_tx) (R := sim_rx) (Q := list_queue) (sim_cfg 32) 3 sim_client_world) = Done (3, 0).
Proof. vm_compute. reflexivity. Qed.

Lemma short_frame_undefined_witness :
  fst (run_txgen (T := sim_tx) (R := sim_rx) (Q := list_queue) (sim_cfg 13) 3 sim_client_world) = Undef /\
  fst (run_server (T := sim_tx) (R := sim_rx) alone None (sim_cfg 13) 4 2 sim_client_world) = Undef /\
  fst (run_client (T := sim_tx) (R := sim_rx) alone None (sim_cfg 13) 4 2 3 3 sim_client_world) = Done None.
Proof.
  assert (frameSize (sim_cfg 13) < 14) as Hs by (cbn; lia).
  pose proof (short_frame_undefined (T := sim_tx) (R := sim_rx) (Q := list_queue) alone (sim_cfg 13) 4 2 3 None
    sim_client_world (conj eq_refl eq_refl) Hs) as Ht. exact Ht.
Defined.

Lemma rxsink_counts_witness :
  match run_rxsink (T := sim_tx) (R := sim_rx) (Q := list_queue) (sim_cfg 32) 4 sim_client_world with
  | (Done (a, r), w') => exists fs, rx_idle ([] ++ fs) (rxd w') /\
      a = u64 (Z.of_nat (length (filter (addressed (sim_cfg 32)) fs))) /\
      r = u64 (Z.of_nat (length (filter (fun f => ~ addressed (sim_cfg 32) f) fs)))
  | (Undef, w') => exists f, f ∈ rx_arrived (rxd w') /\ (length f < 6)%nat
  | (NoFuel, _) => True
  | _ => False
  end.
Proof.
  pose proof (rxsink_counts (T := sim_tx) (Q := list_queue) (sim_cfg 32) 4 sim_client_world [] (sim_rx_idle _)) as Ht. exact Ht.
Defined.
