(* ===== verification/Dispatch.v ===== *)
(** * Transport dispatch (src/app/TransportDispatch.hpp, TransportTraits.hpp)

    The traits of the six transports, the name-to-traits boundary [withTransport] and
    the two runners [runModes] and [runSingleFor].  What a runner does to the rest of
    the program (construct or destroy a NIC object, bring it up, touch PCI
    configuration, run an application) is a [call]; its effect and its answer belong
    to the machine [do], a parameter.  An exception has no handler above [main], so a
    throwing constructor ends the run without unwinding. *)

From S2P Require Import Prelude CStrings TestConfig SocketOps.
Open Scope string_scope.

(** ** Transports *)

Inductive Transport := PacketMmapT | AfxdpT | DpdkT | VerbsT | EfViT | I210T.

#[export] Instance Transport_eq_dec : EqDecision Transport.
Proof. solve_decision. Defined.

(** The [EtherFabricVirtualInterface]'s hot path: libciul's, or written by hand. *)
Inductive EfViTuning := Generic | X2522Plus.

#[export] Instance EfViTuning_eq_dec : EqDecision EfViTuning.
Proof. solve_decision. Defined.

Definition kName (t : Transport) : string :=
  match t with
  | PacketMmapT => "packet_mmap"
  | AfxdpT => "af_xdp"
  | DpdkT => "dpdk"
  | VerbsT => "verbs"
  | EfViT => "ef_vi"
  | I210T => "intel_i210"
  end.

(** Separate Tx and Rx objects; [--single] supported. *)
Definition kPairedRxTx (t : Transport) : bool := bool_decide (t = PacketMmapT).
Definition kSingleCapable (t : Transport) : bool := negb (bool_decide (t = I210T)).

(** The CMake options the binary was built with. *)
Record Build := {
  HAVE_DPDK : bool;
  HAVE_VERBS : bool;
  HAVE_EFVI : bool;
  HAVE_I210 : bool;
}.

Inductive Mode := TxOnly | RxOnly | RxTx.

(** The NIC objects the traits construct, with their constructor and template
    arguments. *)
Inductive Nic :=
  | PacketMmapNic (rc : RingConfig)
  | AfxdpNic (m : Mode) (needWakeup : bool) (interface : string) (queueId : Z)
  | DpdkNic (m : Mode) (interface : string) (lcore : Z) (driver : string)
  | VerbsNic (m : Mode) (interface : string)
  | EfViNic (m : Mode) (nbRxBufs nbTxBufs bufSize ctThreshold : Z) (useCtpio hwTs : bool) (tuning : EfViTuning) (interface : string)
  | I210Nic (interface : string) (queue : Z) (driver : string).

Definition kI40eNoItr : bool := true.
Definition kI40eItrProbe : bool := false.
Definition kI40eItrProbeIdx : Z := 1.
Definition kI40eItrProbeInterval : Z := 10.
Definition kI40eAlsoClearItr : bool := false.
Definition kIgcAdvertise1GOnly : bool := true.
Definition kMlx5LatencyDevargs : string := "txq_mem_algn=0,txqs_min_inline=0,rxq_cqe_comp_en=0".
Definition kMlx5NbRxDesc : Z := 64.
Definition kSfcLatencyDevargs : string :=
  "perf_profile=low-latency,rx_datapath=ef10,tx_datapath=ef10_simple,stats_update_period_ms=0".
Definition kSfcNbRxDesc : Z := 64.
Definition kEfViCtThreshold : Z := 64.
Definition kEfViUseCtpio : bool := true.
Definition kEfViHwTimestamps : bool := true.
Definition kEfViTuning : EfViTuning := if kEfViHwTimestamps then X2522Plus else Generic.

(** ** The traits

    One module per struct; what they inherit is in [makeSingleTx], [makeSingleRx], [preflight]
    and [base_withSinglePair] below.  A banner is the line printed. *)

Module PacketMmapTraits.
(** No duplex object: [using RxTx = void]. *)
Definition makeTx (cfg : TestConfig) (role : RoleConfig) : Nic := PacketMmapNic {|
  SocketOps.interface := TestConfig.interface role; direction := TX; blockSize := mmapBlockSize cfg;
  blockNumber := mmapBlockNumber cfg; protocol := etherType cfg; packetVersion := TPACKET_V2;
  hwTimeStamp := hwTimeStamp default_RingConfig; qdiscBypass := true |}.

Definition makeRx (cfg : TestConfig) (role : RoleConfig) : Nic := PacketMmapNic {|
  SocketOps.interface := TestConfig.interface role; direction := RX; blockSize := mmapBlockSize cfg;
  blockNumber := mmapBlockNumber cfg; protocol := etherType cfg;
  packetVersion := packetVersion default_RingConfig; hwTimeStamp := false;
  qdiscBypass := qdiscBypass default_RingConfig |}.

Definition banner (role : RoleConfig) (roleName : string) : string :=
  "[" ++ roleName ++ "] Transport: packet_mmap on " ++ TestConfig.interface role.
End PacketMmapTraits.

Module AfxdpTraits.
(** The fifth template argument; the rings and frames have the default sizes. *)
Definition makeTx (role : RoleConfig) : Nic := AfxdpNic TxOnly true (TestConfig.interface role) (xdpQueueId role).
Definition makeRx (role : RoleConfig) : Nic := AfxdpNic RxOnly true (TestConfig.interface role) (xdpQueueId role).
Definition makeRxTx (role : RoleConfig) : Nic := AfxdpNic RxTx false (TestConfig.interface role) (xdpQueueId role).
Definition makeSingleTx (role : RoleConfig) : Nic := AfxdpNic TxOnly false (TestConfig.interface role) (xdpQueueId role).

Definition banner (role : RoleConfig) (roleName : string) : string :=
  "[" ++ roleName ++ "] Transport: af_xdp on " ++ TestConfig.interface role ++ " (queue " ++ dec (xdpQueueId role) ++ ")".
End AfxdpTraits.

Module DpdkTraits.
Definition makeTx (role : RoleConfig) : Nic := DpdkNic TxOnly (TestConfig.interface role) (cpuCore role) (driver role).
Definition makeRx (role : RoleConfig) : Nic := DpdkNic RxOnly (TestConfig.interface role) (cpuCore role) (driver role).
Definition makeRxTx (role : RoleConfig) : Nic := DpdkNic RxTx (TestConfig.interface role) (cpuCore role) (driver role).

Definition banner (role : RoleConfig) (roleName : string) : string :=
  "[" ++ roleName ++ "] Transport: dpdk on " ++ TestConfig.interface role ++
  " (driver=" ++ driver role ++ ", lcore " ++ dec (cpuCore role) ++ ")".
End DpdkTraits.

Module VerbsTraits.
Definition makeTx (role : RoleConfig) : Nic := VerbsNic TxOnly (TestConfig.interface role).
Definition makeRx (role : RoleConfig) : Nic := VerbsNic RxOnly (TestConfig.interface role).
Definition makeRxTx (role : RoleConfig) : Nic := VerbsNic RxTx (TestConfig.interface role).

Definition banner (role : RoleConfig) (roleName : string) : string :=
  "[" ++ roleName ++ "] Transport: verbs on " ++ TestConfig.interface role ++ " (RAW_PACKET QP)".
End VerbsTraits.

Module EtherFabricTraits.
(** The three types [TxOnly], [RxOnly] and [RxTx] of the struct. *)
Definition object (m : Mode) : string -> Nic :=
  EfViNic m 256 8 2048 kEfViCtThreshold kEfViUseCtpio kEfViHwTimestamps kEfViTuning.

Definition makeTx (role : RoleConfig) : Nic := object TxOnly (TestConfig.interface role).
Definition makeRx (role : RoleConfig) : Nic := object RxOnly (TestConfig.interface role).
Definition makeRxTx (role : RoleConfig) : Nic := object RxTx (TestConfig.interface role).

Definition banner (role : RoleConfig) (roleName : string) : string :=
  "[" ++ roleName ++ "] Transport: ef_vi on " ++ TestConfig.interface role ++ " (CTPIO)".
End EtherFabricTraits.

Module I210Traits.
Definition driverOf (role : RoleConfig) : string :=
  if decide (driver role = "") then "igb" else driver role.

Definition makeRxTx (role : RoleConfig) : Nic := I210Nic (TestConfig.interface role) 0 (driverOf role).
Definition makeTx (role : RoleConfig) : Nic := makeRxTx role.
Definition makeRx (role : RoleConfig) : Nic := makeRxTx role.

Definition banner (role : RoleConfig) (roleName : string) : string :=
  "[" ++ roleName ++ "] Transport: intel_i210 (PMD) on " ++ TestConfig.interface role ++ " (driver=" ++ driverOf role ++ ")".
End I210Traits.

(** The members of [Tr], for the [Tr] that stands for a transport. *)
Definition makeTx (t : Transport) (cfg : TestConfig) (role : RoleConfig) : Nic :=
  match t with
  | PacketMmapT => PacketMmapTraits.makeTx cfg role
  | AfxdpT => AfxdpTraits.makeTx role
  | DpdkT => DpdkTraits.makeTx role
  | VerbsT => VerbsTraits.makeTx role
  | EfViT => EtherFabricTraits.makeTx role
  | I210T => I210Traits.makeTx role
  end.

Definition makeRx (t : Transport) (cfg : TestConfig) (role : RoleConfig) : Nic :=
  match t with
  | PacketMmapT => PacketMmapTraits.makeRx cfg role
  | AfxdpT => AfxdpTraits.makeRx role
  | DpdkT => DpdkTraits.makeRx role
  | VerbsT => VerbsTraits.makeRx role
  | EfViT => EtherFabricTraits.makeRx role
  | I210T => I210Traits.makeRx role
  end.

Definition makeRxTx (t : Transport) (cfg : TestConfig) (role : RoleConfig) : option Nic :=
  match t with
  | PacketMmapT => None
  | AfxdpT => Some (AfxdpTraits.makeRxTx role)
  | DpdkT => Some (DpdkTraits.makeRxTx role)
  | VerbsT => Some (VerbsTraits.makeRxTx role)
  | EfViT => Some (EtherFabricTraits.makeRxTx role)
  | I210T => Some (I210Traits.makeRxTx role)
  end.

Definition makeSingleTx (t : Transport) (cfg : TestConfig) (role : RoleConfig) : Nic :=
  match t with
  | AfxdpT => AfxdpTraits.makeSingleTx role
  | _ => makeTx t cfg role
  end.

Definition makeSingleRx (t : Transport) (cfg : TestConfig) (role : RoleConfig) : Nic := makeRx t cfg role.

Definition banner (t : Transport) (role : RoleConfig) (roleName : string) : string :=
  match t with
  | PacketMmapT => PacketMmapTraits.banner role roleName
  | AfxdpT => AfxdpTraits.banner role roleName
  | DpdkT => DpdkTraits.banner role roleName
  | VerbsT => VerbsTraits.banner role roleName
  | EfViT => EtherFabricTraits.banner role roleName
  | I210T => I210Traits.banner role roleName
  end.

(** ** Modes and calls *)

Inductive RunMode := Server | Client | TxGen | RxSink | SingleRecorder.

#[export] Instance RunMode_eq_dec : EqDecision RunMode.
Proof. solve_decision. Defined.

Definition runModeName (m : RunMode) : string :=
  match m with
  | Server => "Server"
  | Client => "Client"
  | TxGen => "TxGen"
  | RxSink => "RxSink"
  | SingleRecorder => "SingleRecorder"
  end.

(** The applications over a Tx and an Rx object. *)
Inductive application :=
  | run_server (tx rx : Nic)
  | run_client (tx rx : Nic)
  | run_txgen (tx : Nic) (count : Z)
  | run_rxsink (rx : Nic)
  | bench_run (tx rx : Nic) (durationSec : Z).

Inductive message :=
  | NotCompiled (name : string)
  | UnknownTransport (name : string)
  | InitFailed (t : Transport) (interface : string)
  | PrepareFailed
  | LinkDown (interface : string)
  | HugepagesFailed
  | NotSingleCapable (t : Transport)
  | TransportsDiffer (tx rx : string)
  | CoresNotDistinct (tx rx recorder : Z).

Inductive call : Type -> Type :=
  | Construct (n : Nic) : call unit
  | Destroy (n : Nic) : call unit
  | RunApp (a : application) : call unit
  | PrintErr (m : message) : call unit
  | Banner (line : string) : call unit
  | EnsureHugepages (n : Z) : call bool
  (* pci:: and NicTuner:: *)
  | BoundToI40e (interface : string) : call bool
  | ResolveBdf (interface : string) : call string
  | ReportItr (bdf interface tag : string) : call unit
  | I40eClearItr (bdf interface : string) : call unit
  | I40eSetNoItr (bdf interface : string) : call unit
  | I40eItrProbe (bdf interface : string) (idx interval : Z) : call unit
  | IgcDisableEee (bdf interface : string) : call unit
  | SetCoalescingZero (interface : string) : call unit
  (* members of the NIC objects *)
  | AfxdpInit (n : Nic) (deferral irqSuspend : bool) : call bool
  | DpdkSetLinkSpeeds1G (n : Nic) : call unit
  | DpdkSetSymmetricQueues (n : Nic) : call unit
  | DpdkSetDevargs (n : Nic) (args : string) : call unit
  | DpdkSetTxInlineReuse (n : Nic) : call unit
  | DpdkSetNbRxDesc (n : Nic) (d : Z) : call unit
  | DpdkPrepare (n : Nic) (bifurcated afxdpPmd : bool) : call bool
  | DpdkInit (n : Nic) (waitForLink bifurcated afxdpPmd deferral : bool) : call bool
  | DpdkWaitLink (n : Nic) : call bool
  | NicInit (n : Nic) : call bool.

(** [role.driver.find(needle) != npos] *)
Definition contains (needle s : string) : bool :=
  match index 0 needle s with Some _ => true | None => false end.

Section Dispatch.
Context {W : Type} (do : forall A, call A -> M W A).
Arguments do {A}.

Definition when (b : bool) (m : M W unit) : M W unit := if b then m else mret tt.

(** A scope that owns a NIC object: the destructor runs when the body returns. *)
Definition scoped {A} (n : Nic) (body : M W A) : M W A :=
  do (Construct n) ;; r ← body; do (Destroy n) ;; mret r.

(** [i40eApplyWritebackPolicy] *)
Definition i40eApplyWritebackPolicy (bdf ifname tag : string) : M W unit :=
  when kI40eAlsoClearItr (do (I40eClearItr bdf ifname)) ;;
  when kI40eNoItr (do (I40eSetNoItr bdf ifname)) ;;
  when kI40eItrProbe (do (I40eItrProbe bdf ifname kI40eItrProbeIdx kI40eItrProbeInterval)) ;;
  do (ReportItr bdf ifname tag).

(** [AfxdpTraits::init] *)
Definition afxdp_init (xsk : Nic) (cfg : TestConfig) (role : RoleConfig) : M W bool :=
  let ifn := TestConfig.interface role in
  isI40e ← do (BoundToI40e ifn);
  bdf ← (if (isI40e : bool) then do (ResolveBdf ifn) else mret "");
  when isI40e (do (ReportItr bdf ifn "AFXDP-ITR pre-bind")) ;;
  ok ← do (AfxdpInit xsk (afxdpEnableDeferral cfg) (afxdpEnableIrqSuspend cfg));
  if negb ok then mret false else
  when (negb (bool_decide (nicTunerMode cfg = Off))) (do (SetCoalescingZero ifn)) ;;
  when isI40e (i40eApplyWritebackPolicy bdf ifn "AFXDP-ITR post-bind") ;;
  mret true.

(** [dpdkPreInit] *)
Definition dpdkPreInit (nic : Nic) (role : RoleConfig) : M W string :=
  bdf ← do (ResolveBdf (TestConfig.interface role));
  when (bool_decide (driver role = "igc") && negb (dpdkAfxdpPmd role))%bool
    (when kIgcAdvertise1GOnly (do (DpdkSetLinkSpeeds1G nic)) ;;
     do (DpdkSetSymmetricQueues nic)) ;;
  when (contains "mlx5" (driver role) && negb (dpdkAfxdpPmd role))%bool
    (do (DpdkSetDevargs nic kMlx5LatencyDevargs) ;;
     do (DpdkSetTxInlineReuse nic) ;;
     do (DpdkSetNbRxDesc nic kMlx5NbRxDesc)) ;;
  when (bool_decide (driver role = "sfc") && negb (dpdkAfxdpPmd role))%bool
    (do (DpdkSetDevargs nic kSfcLatencyDevargs) ;;
     do (DpdkSetNbRxDesc nic kSfcNbRxDesc)) ;;
  mret bdf.

(** [dpdkPostInitFixes] *)
Definition dpdkPostInitFixes (bdf : string) (role : RoleConfig) : M W unit :=
  when (bool_decide (driver role = "i40e"))
    (i40eApplyWritebackPolicy bdf (TestConfig.interface role) "DPDK-ITR") ;;
  when (bool_decide (driver role = "igc") && negb (dpdkAfxdpPmd role))%bool
    (do (IgcDisableEee bdf (TestConfig.interface role))).

(** [DpdkTraits::init] *)
Definition dpdk_init (nic : Nic) (cfg : TestConfig) (role : RoleConfig) : M W bool :=
  bdf ← dpdkPreInit nic role;
  ok ← do (DpdkInit nic true (dpdkBifurcated role) (dpdkAfxdpPmd role) (afxdpEnableDeferral cfg));
  if negb ok then mret false else
  dpdkPostInitFixes bdf role ;; mret true.

(** [VerbsTraits::init]; the same text in [EtherFabricTraits] and [I210Traits]. *)
Definition nic_init (nic : Nic) : M W bool := do (NicInit nic).

(** [Tr::init], [Tr::preflight] *)
Definition traits_init (t : Transport) (nic : Nic) (cfg : TestConfig) (role : RoleConfig) : M W bool :=
  match t with
  | PacketMmapT => mret true
  | AfxdpT => afxdp_init nic cfg role
  | DpdkT => dpdk_init nic cfg role
  | VerbsT | EfViT | I210T => nic_init nic
  end.

Definition i210_preflight : M W bool :=
  ok ← do (EnsureHugepages 16);
  if (ok : bool) then mret true else do (PrintErr HugepagesFailed) ;; mret false.

Definition preflight (t : Transport) (cfg : TestConfig) (role : RoleConfig) : M W bool :=
  match t with
  | I210T => i210_preflight
  | _ => mret true
  end.

(** [TransportBase::withAux] *)
Definition withAux (nic : Nic) (fn : M W unit) : M W unit := fn.

(** [dispatchMode] *)
Definition dispatchMode (tx rx : Nic) (mode : RunMode) (count : Z) : M W unit :=
  match mode with
  | Server => do (RunApp (run_server tx rx))
  | Client => do (RunApp (run_client tx rx))
  | TxGen => do (RunApp (run_txgen tx count))
  | RxSink => do (RunApp (run_rxsink rx))
  | SingleRecorder => mret tt
  end.

(** The lambda [bringUp] of [runModes]. *)
Definition bringUp (t : Transport) (nic : Nic) (cfg : TestConfig) (role : RoleConfig) : M W bool :=
  ok ← traits_init t nic cfg role;
  if (ok : bool) then mret true
  else do (PrintErr (InitFailed t (TestConfig.interface role))) ;; mret false.

(** One object brought up and used. *)
Definition run_one (t : Transport) (nic : Nic) (cfg : TestConfig) (role : RoleConfig)
    (mode : RunMode) (app : M W unit) : M W Z :=
  scoped nic
    (ok ← bringUp t nic cfg role;
     if negb ok then mret 1 else
     do (Banner (banner t role (runModeName mode))) ;; withAux nic app ;; mret 0).

(** [runModes<Tr>] *)
Definition runModes (t : Transport) (cfg : TestConfig) (role : RoleConfig) (mode : RunMode)
    (count : Z) : M W Z :=
  pf ← preflight t cfg role;
  if negb pf then mret 1 else
  match mode with
  | TxGen =>
      let nic := makeTx t cfg role in
      run_one t nic cfg role mode (do (RunApp (run_txgen nic count)))
  | RxSink =>
      let nic := makeRx t cfg role in
      run_one t nic cfg role mode (do (RunApp (run_rxsink nic)))
  | Server | Client =>
      match makeRxTx t cfg role with
      | None =>
          let tx := makeTx t cfg role in
          let rx := makeRx t cfg role in
          scoped tx (scoped rx
            (ok ← bringUp t tx cfg role;
             ok ← (if (ok : bool) then bringUp t rx cfg role else mret false);
             if negb ok then mret 1 else
             do (Banner (banner t role (runModeName mode))) ;; dispatchMode tx rx mode count ;; mret 0))
      | Some nic => run_one t nic cfg role mode (dispatchMode nic nic mode count)
      end
  | SingleRecorder => mret 0
  end.

(** [withTransport]: the compiled-in names first, then the names a rebuild would add. *)
Definition compiled_in (b : Build) : list Transport :=
  [PacketMmapT; AfxdpT] ++
  (if HAVE_DPDK b then [DpdkT] else []) ++ (if HAVE_VERBS b then [VerbsT] else []) ++
  (if HAVE_EFVI b then [EfViT] else []) ++ (if HAVE_I210 b then [I210T] else []).

Definition withTransport (b : Build) (name : string) (fn : Transport -> M W Z) : M W Z :=
  match list_find (fun t => name = kName t) (compiled_in b) with
  | Some (_, t) => fn t
  | None =>
      if decide (name ∈ ["dpdk"; "verbs"; "ef_vi"; "intel_i210"])
      then do (PrintErr (NotCompiled name)) ;; mret 1
      else do (PrintErr (UnknownTransport name)) ;; mret 1
  end.

Definition runTransport (b : Build) (cfg : TestConfig) (role : RoleConfig) (mode : RunMode)
    (count : Z) : M W Z :=
  withTransport b (transport role) (fun t => runModes t cfg role mode count).

(** [driveSingleRecorder] *)
Definition driveSingleRecorder (cfg : TestConfig) (tx rx : Nic) : M W unit :=
  do (RunApp (bench_run tx rx (recDurationSec cfg))).

(** [TransportBase::withSinglePair] *)
Definition base_withSinglePair (t : Transport) (cfg : TestConfig) (fn : Nic -> Nic -> M W unit) : M W Z :=
  let tx := makeSingleTx t cfg (client cfg) in
  let rx := makeSingleRx t cfg (server cfg) in
  scoped tx (scoped rx
    (ok ← traits_init t tx cfg (client cfg);
     if negb ok then
       do (PrintErr (InitFailed t (TestConfig.interface (client cfg)))) ;; mret 1 else
     ok ← traits_init t rx cfg (server cfg);
     if negb ok then
       do (PrintErr (InitFailed t (TestConfig.interface (server cfg)))) ;; mret 1 else
     fn tx rx ;; mret 0)).

(** [DpdkTraits::withSinglePair] *)
Definition dpdk_withSinglePair (cfg : TestConfig) (fn : Nic -> Nic -> M W unit) : M W Z :=
  let c := client cfg in
  let s := server cfg in
  let tx := DpdkNic TxOnly (TestConfig.interface c) (recHotPathCore cfg) (driver c) in
  let rx := DpdkNic RxOnly (TestConfig.interface s) (recHotPathCore cfg) (driver s) in
  scoped tx (scoped rx
    (txBdf ← dpdkPreInit tx c;
     rxBdf ← dpdkPreInit rx s;
     ok ← do (DpdkPrepare tx (dpdkBifurcated c) (dpdkAfxdpPmd c));
     ok ← (if (ok : bool) then do (DpdkPrepare rx (dpdkBifurcated s) (dpdkAfxdpPmd s)) else mret false);
     if negb ok then do (PrintErr PrepareFailed) ;; mret 1 else
     ok ← do (DpdkInit tx false (dpdkBifurcated c) (dpdkAfxdpPmd c) (afxdpEnableDeferral cfg));
     if negb ok then do (PrintErr (InitFailed DpdkT (TestConfig.interface c))) ;; mret 1 else
     ok ← do (DpdkInit rx false (dpdkBifurcated s) (dpdkAfxdpPmd s) (afxdpEnableDeferral cfg));
     if negb ok then do (PrintErr (InitFailed DpdkT (TestConfig.interface s))) ;; mret 1 else
     dpdkPostInitFixes txBdf c ;;
     dpdkPostInitFixes rxBdf s ;;
     ok ← do (DpdkWaitLink tx);
     if negb ok then do (PrintErr (LinkDown (TestConfig.interface c))) ;; mret 1 else
     ok ← do (DpdkWaitLink rx);
     if negb ok then do (PrintErr (LinkDown (TestConfig.interface s))) ;; mret 1 else
     fn tx rx ;; mret 0)).

(** [runSingleFor<Tr>] *)
Definition runSingleFor (t : Transport) (cfg : TestConfig) : M W Z :=
  if negb (kSingleCapable t) then do (PrintErr (NotSingleCapable t)) ;; mret 1 else
  pc ← preflight t cfg (client cfg);
  ps ← (if (pc : bool) then preflight t cfg (server cfg) else mret false);
  if negb ps then mret 1 else
  match t with
  | DpdkT => dpdk_withSinglePair cfg (driveSingleRecorder cfg)
  | _ => base_withSinglePair t cfg (driveSingleRecorder cfg)
  end.

Definition single_banner (cfg : TestConfig) : string :=
  "[SingleRecorder] " ++ transport (client cfg) ++ " | Tx=" ++ TestConfig.interface (client cfg) ++
  " (core " ++ dec (recHotPathCore cfg) ++ ") Rx=" ++ TestConfig.interface (server cfg) ++
  " (core " ++ dec (recRxCore cfg) ++ ") Hist core " ++ dec (recRecorderCore cfg) ++
  " duration=" ++ dec (recDurationSec cfg) ++ "s".

(** [runSingleRecorder] *)
Definition runSingleRecorder (b : Build) (cfg : TestConfig) : M W Z :=
  let tr := transport (client cfg) in
  if decide (transport (server cfg) <> tr)
  then do (PrintErr (TransportsDiffer tr (transport (server cfg)))) ;; mret 1 else
  if decide (recHotPathCore cfg = recRxCore cfg \/ recHotPathCore cfg = recRecorderCore cfg \/
             recRxCore cfg = recRecorderCore cfg)
  then do (PrintErr (CoresNotDistinct (recHotPathCore cfg) (recRxCore cfg) (recRecorderCore cfg))) ;; mret 1
  else do (Banner (single_banner cfg)) ;; withTransport b tr (fun t => runSingleFor t cfg).
End Dispatch.

(** ** The lifecycle protocol

    A run against a machine that logs every call with its answer; [ora] gives the
    answers (an answer other than [Done] is a throwing constructor). *)

Open Scope list_scope.

Inductive event :=
  | Ev {A : Type} (c : call A) (a : A).

Definition machine (ora : list event -> forall A, call A -> outcome A) (A : Type) (c : call A) :
    M (list event) A :=
  fun l => match ora l A c with
           | Done a => (Done a, l ++ [Ev c a])
           | o => (o, l)
           end.

#[export] Instance Mode_eq_dec : EqDecision Mode.
Proof. solve_decision. Defined.
#[export] Instance RingConfig_eq_dec : EqDecision RingConfig.
Proof. solve_decision. Defined.
#[export] Instance Nic_eq_dec : EqDecision Nic.
Proof. solve_decision. Defined.

(** Objects alive (youngest first), objects brought up, DPDK ports whose knobs are
    fixed, whether the EAL has started, and the applications run. *)
Record protocol := {
  alive : list Nic;
  ready : list Nic;
  frozen : list Nic;
  ealUp : bool;
  apps : list application;
}.

Definition idle_protocol : protocol :=
  {| alive := []; ready := []; frozen := []; ealUp := false; apps := [] |}.

Definition self_opening (n : Nic) : bool := match n with PacketMmapNic _ => true | _ => false end.

Definition can_tx (n : Nic) : bool :=
  match n with
  | PacketMmapNic rc => bool_decide (direction rc = TX)
  | AfxdpNic m _ _ _ | DpdkNic m _ _ _ | VerbsNic m _ | EfViNic m _ _ _ _ _ _ _ _ => negb (bool_decide (m = RxOnly))
  | I210Nic _ _ _ => true
  end.

Definition can_rx (n : Nic) : bool :=
  match n with
  | PacketMmapNic rc => bool_decide (direction rc = RX)
  | AfxdpNic m _ _ _ | DpdkNic m _ _ _ | VerbsNic m _ | EfViNic m _ _ _ _ _ _ _ _ => negb (bool_decide (m = TxOnly))
  | I210Nic _ _ _ => true
  end.

Definition app_tx (a : application) : list Nic :=
  match a with
  | run_server tx _ | run_client tx _ | run_txgen tx _ | bench_run tx _ _ => [tx]
  | run_rxsink _ => []
  end.

Definition app_rx (a : application) : list Nic :=
  match a with
  | run_server _ rx | run_client _ rx | run_rxsink rx | bench_run _ rx _ => [rx]
  | run_txgen _ _ => []
  end.

(** An application may run on live, initialised objects of the right direction. *)
Definition may_run (st : protocol) (a : application) : Prop :=
  Forall (fun n => n ∈ alive st /\ n ∈ ready st /\ can_tx n = true) (app_tx a) /\
  Forall (fun n => n ∈ alive st /\ n ∈ ready st /\ can_rx n = true) (app_rx a).

#[export] Instance may_run_dec st a : Decision (may_run st a).
Proof. unfold may_run. apply _. Defined.

Definition bring_up (n : Nic) (ok : bool) (st : protocol) : option protocol :=
  if decide (n ∈ alive st) then
    Some {| alive := alive st; ready := (if ok then [n] else []) ++ ready st;
            frozen := frozen st; ealUp := ealUp st; apps := apps st |}
  else None.

Definition set_knob (n : Nic) (st : protocol) : option protocol :=
  if decide (n ∈ alive st /\ n ∉ frozen st) then Some st else None.

Definition freeze (n : Nic) (eal : bool) (st : protocol) : protocol :=
  {| alive := alive st; ready := ready st; frozen := n :: frozen st;
     ealUp := eal || ealUp st; apps := apps st |}.

(** One observed call: objects die youngest first; they are initialised while alive;
    DPDK knobs come before the port is prepared, and all preparations before the EAL
    starts; register fixes come after a successful bring-up. *)
Definition observe (st : protocol) (e : event) : option protocol :=
  match e with
  | @Ev A c a =>
      match c in call A return A -> option protocol with
      | Construct n => fun _ =>
          Some {| alive := n :: alive st;
                  ready := (if self_opening n then [n] else []) ++ ready st;
                  frozen := frozen st; ealUp := ealUp st; apps := apps st |}
      | Destroy n => fun _ =>
          if decide (head (alive st) = Some n) then
            Some {| alive := tail (alive st); ready := ready st; frozen := frozen st;
                    ealUp := ealUp st; apps := apps st |}
          else None
      | RunApp a => fun _ =>
          if decide (may_run st a) then
            Some {| alive := alive st; ready := ready st; frozen := frozen st;
                    ealUp := ealUp st; apps := apps st ++ [a] |}
          else None
      | AfxdpInit n _ _ => fun ok => bring_up n ok st
      | NicInit n => fun ok => bring_up n ok st
      | DpdkInit n _ _ _ _ => fun ok => freeze n true <$> bring_up n ok st
      | DpdkPrepare n _ _ => fun _ =>
          if decide (n ∈ alive st /\ ealUp st = false) then Some (freeze n false st) else None
      | DpdkSetLinkSpeeds1G n => fun _ => set_knob n st
      | DpdkSetSymmetricQueues n => fun _ => set_knob n st
      | DpdkSetDevargs n _ => fun _ => set_knob n st
      | DpdkSetTxInlineReuse n => fun _ => set_knob n st
      | DpdkSetNbRxDesc n _ => fun _ => set_knob n st
      | DpdkWaitLink n => fun _ => if decide (n ∈ ready st) then Some st else None
      | I40eSetNoItr _ _ => fun _ => if decide (ready st <> []) then Some st else None
      | IgcDisableEee _ _ => fun _ => if decide (ready st <> []) then Some st else None
      | SetCoalescingZero _ => fun _ => if decide (ready st <> []) then Some st else None
      | _ => fun _ => Some st
      end a
  end.

Definition replay (l : list event) : option protocol :=
  foldl (fun o e => o ≫= fun st => observe st e) (Some idle_protocol) l.

Lemma replay_snoc l e : replay (l ++ [e]) = replay l ≫= fun st => observe st e.
Proof. unfold replay. by rewrite foldl_app. Qed.

Section Logic.
Context (ora : list event -> forall A, call A -> outcome A).
Abbreviation prog := (M (list event)).
Abbreviation mdo c := (machine ora _ c).

(** [spec st m Q]: from protocol state [st], [m] respects the protocol and, when it
    returns, ends in a state satisfying [Q]. *)
Definition spec {A} (st : protocol) (m : prog A) (Q : A -> protocol -> Prop) : Prop :=
  forall l, replay l = Some st ->
    match m l with
    | (Done a, l') => exists st', replay l' = Some st' /\ Q a st'
    | (_, l') => is_Some (replay l')
    end.

Lemma spec_ret {A} st (a : A) (Q : A -> protocol -> Prop) : Q a st -> spec st (mret a) Q.
Proof. intros HQ l Hl. by exists st. Qed.

Lemma spec_do {A} st (c : call A) (Q : A -> protocol -> Prop) :
  (forall a, exists st', observe st (Ev c a) = Some st' /\ Q a st') -> spec st (mdo c) Q.
Proof.
  intros HQ l Hl. unfold machine. destruct (ora l A c) as [a| | | |]; try by eexists.
  destruct (HQ a) as (st' & Ho & HQ'). exists st'. split; [|done]. by rewrite replay_snoc, Hl.
Qed.

Lemma spec_bind {A B} st (m : prog A) (f : A -> prog B) Q R :
  spec st m R -> (forall a st', R a st' -> spec st' (f a) Q) -> spec st (m ≫= f) Q.
Proof.
  intros Hm Hf l Hl. unfold mbind, M_bind. specialize (Hm l Hl).
  destruct (m l) as [[a| | | |] l']; try done. destruct Hm as (st' & Hr & HR). by apply (Hf a st').
Qed.

Lemma spec_bind_do {A B} st (c : call A) (f : A -> prog B) Q :
  (forall a, exists st', observe st (Ev c a) = Some st' /\ spec st' (f a) Q) ->
  spec st (mdo c ≫= f) Q.
Proof.
  intros Hc. eapply spec_bind; [|by intros a st' HR; exact HR].
  apply spec_do. intros a. destruct (Hc a) as (st' & ? & ?). by exists st'.
Qed.

(** A computation that leaves the protocol state as it is. *)
Definition quiet {A} (st : protocol) (m : prog A) : Prop := spec st m (fun _ st' => st' = st).

Lemma spec_quiet {A B} st (m : prog A) (f : A -> prog B) Q :
  quiet st m -> (forall a, spec st (f a) Q) -> spec st (m ≫= f) Q.
Proof. intros Hm Hf. eapply spec_bind; [exact Hm|]. by intros a st' ->. Qed.

Lemma quiet_when st b (m : prog unit) : (b = true -> quiet st m) -> quiet st (when b m).
Proof. destruct b; intros Hm; [by apply Hm|]. by apply spec_ret. Qed.

Lemma quiet_do {A} st (c : call A) : (forall a, observe st (Ev c a) = Some st) -> quiet st (mdo c).
Proof. intros Hc. apply spec_do. intros a. by exists st. Qed.

Lemma scoped_spec {A} st n (body : prog A) (Q : A -> protocol -> Prop) :
  spec {| alive := n :: alive st; ready := (if self_opening n then [n] else []) ++ ready st;
          frozen := frozen st; ealUp := ealUp st; apps := apps st |} body
    (fun a st' => exists rd fr eu ap, st' = {| alive := n :: alive st; ready := rd; frozen := fr;
         ealUp := eu; apps := ap |} /\
       Q a {| alive := alive st; ready := rd; frozen := fr; ealUp := eu; apps := ap |}) ->
  spec st (scoped (machine ora) n body) Q.
Proof.
  intros Hb. unfold scoped. apply spec_bind_do. intros []. eexists. split; [done|].
  eapply spec_bind; [exact Hb|]. intros a st' (rd & fr & eu & ap & -> & HQ).
  apply spec_bind_do. intros []. cbn. rewrite decide_True by done. eexists. split; [done|].
  by apply spec_ret.
Qed.
End Logic.

Section Lifecycle.
Context (ora : list event -> forall A, call A -> outcome A).
Abbreviation prog := (M (list event)).
Abbreviation mach := (machine ora).

(** The bring-up helpers leave the protocol state alone. *)
Lemma writeback_quiet st bdf ifn tag : ready st <> [] -> quiet st (i40eApplyWritebackPolicy mach bdf ifn tag).
Proof.
  intros Hr. unfold i40eApplyWritebackPolicy. apply spec_quiet; [by apply quiet_when|].
  intros _. apply spec_quiet; [apply quiet_when; intros _; apply quiet_do; intros []; cbn; by rewrite decide_True|].
  intros _. apply spec_quiet; [by apply quiet_when|]. intros _. by apply quiet_do.
Qed.

Lemma knob_quiet st n (c : call unit) :
  n ∈ alive st /\ n ∉ frozen st -> (forall a, observe st (Ev c a) = set_knob n st) -> quiet st (mach _ c).
Proof. intros Hn Hc. apply quiet_do. intros a. rewrite Hc. unfold set_knob. by rewrite decide_True. Qed.

Ltac quiet_seq tac :=
  first [ apply quiet_when; intros _; quiet_seq tac
        | apply spec_quiet; [quiet_seq tac|intros ?; quiet_seq tac]
        | tac ].

Lemma preInit_quiet st n role : n ∈ alive st /\ n ∉ frozen st -> quiet st (dpdkPreInit mach n role).
Proof.
  intros Hn. unfold dpdkPreInit. quiet_seq ltac:(first [by apply (knob_quiet st n)|by apply quiet_do|by apply spec_ret]).
Qed.

Lemma postFixes_quiet st bdf role : ready st <> [] -> quiet st (dpdkPostInitFixes mach bdf role).
Proof.
  intros Hr. unfold dpdkPostInitFixes.
  quiet_seq ltac:(first [by apply writeback_quiet|apply quiet_do; intros ?; cbn; by rewrite decide_True]).
Qed.

(** Bring-up keeps the objects and the applications, and a success makes [n] ready. *)
Definition brought_up (n : Nic) (st : protocol) (ok : bool) (st' : protocol) : Prop :=
  alive st' = alive st /\ apps st' = apps st /\ (forall m, m ∈ ready st -> m ∈ ready st') /\
  (ok = true -> n ∈ ready st').

Definition can_init (t : Transport) (n : Nic) (st : protocol) : Prop :=
  n ∈ alive st /\
  match t with PacketMmapT => n ∈ ready st | DpdkT => n ∉ frozen st | _ => True end.

Lemma afxdp_init_spec st n cfg role :
  n ∈ alive st -> spec st (afxdp_init mach n cfg role) (brought_up n st).
Proof.
  intros Hn. unfold afxdp_init. apply spec_quiet; [by apply quiet_do|]. intros isI.
  apply spec_quiet; [destruct isI; [by apply quiet_do|by apply spec_ret]|]. intros bdf.
  apply spec_quiet; [apply quiet_when; intros _; by apply quiet_do|]. intros _.
  apply spec_bind_do. intros ok. cbn. unfold bring_up. rewrite decide_True by done.
  eexists. split; [done|]. destruct ok; cbn [negb].
  2: { apply spec_ret. split_and!; try done. }
  apply spec_quiet; [apply quiet_when; intros _; apply quiet_do; intros ?; cbn; by rewrite decide_True|].
  intros _. apply spec_quiet; [apply quiet_when; intros _; by apply writeback_quiet|].
  intros _. apply spec_ret. split_and!; try done; cbn; intros; set_solver.
Qed.

Lemma dpdk_init_spec st n cfg role :
  n ∈ alive st /\ n ∉ frozen st -> spec st (dpdk_init mach n cfg role) (brought_up n st).
Proof.
  intros Hn. unfold dpdk_init. apply spec_quiet; [by apply preInit_quiet|]. intros bdf.
  apply spec_bind_do. intros ok. cbn. unfold bring_up. rewrite decide_True by apply Hn.
  eexists. split; [done|]. destruct ok; cbn [negb].
  2: { apply spec_ret. split_and!; try done. }
  apply spec_quiet; [by apply postFixes_quiet|]. intros _. apply spec_ret.
  split_and!; try done; cbn; intros; set_solver.
Qed.

Lemma traits_init_spec t st n cfg role :
  can_init t n st -> spec st (traits_init mach t n cfg role) (brought_up n st).
Proof.
  intros [Ha Ht]. destruct t; cbn [traits_init].
  - by apply spec_ret.
  - by apply afxdp_init_spec.
  - by apply dpdk_init_spec.
  - apply spec_do. intros ok. cbn. unfold bring_up. rewrite decide_True by done.
    eexists. split; [done|]. split_and!; try done; cbn; intros; destruct ok; set_solver.
  - apply spec_do. intros ok. cbn. unfold bring_up. rewrite decide_True by done.
    eexists. split; [done|]. split_and!; try done; cbn; intros; destruct ok; set_solver.
  - apply spec_do. intros ok. cbn. unfold bring_up. rewrite decide_True by done.
    eexists. split; [done|]. split_and!; try done; cbn; intros; destruct ok; set_solver.
Qed.

Lemma bringUp_spec t st n cfg role :
  can_init t n st -> spec st (bringUp mach t n cfg role) (brought_up n st).
Proof.
  intros Hc. unfold bringUp. eapply spec_bind; [by apply traits_init_spec|].
  intros [] st' Hb; [by apply spec_ret|]. apply spec_bind_do. intros []. eexists. split; [done|].
  apply spec_ret. destruct Hb as (? & ? & ? & ?). by split_and!.
Qed.

Lemma preflight_quiet t st cfg role : quiet st (preflight mach t cfg role).
Proof.
  destruct t; try by apply spec_ret. cbn [preflight]. apply spec_quiet; [by apply quiet_do|].
  intros []; [by apply spec_ret|]. apply spec_quiet; [by apply quiet_do|]. intros _. by apply spec_ret.
Qed.

Lemma app_spec st a :
  may_run st a ->
  spec st (mach _ (RunApp a)) (fun _ st' => alive st' = alive st /\ apps st' = apps st ++ [a]).
Proof. intros Hm. apply spec_do. intros []. cbn. rewrite decide_True by done. by eexists. Qed.

(** A run's verdict: every object is gone, and the exit code is 0 exactly when one
    application, [a], has run. *)
Definition verdict (a : application) (code : Z) (st : protocol) : Prop :=
  alive st = [] /\ (code = 0 /\ apps st = [a] \/ code = 1 /\ apps st = []).

Lemma run_one_spec t n cfg role mode a :
  can_init t n {| alive := [n]; ready := if self_opening n then [n] else []; frozen := []; ealUp := false; apps := [] |} ->
  (forall st, alive st = [n] -> n ∈ ready st -> may_run st a) ->
  spec idle_protocol (run_one mach t n cfg role mode (mach _ (RunApp a))) (verdict a).
Proof.
  intros Hc Ha. apply scoped_spec. cbn. rewrite app_nil_r.
  eapply spec_bind; [by apply bringUp_spec|].
  intros ok st' (Hal & Hap & Hr & Hok). destruct st' as [al rd fr eu ap]. cbn in Hal, Hap, Hr, Hok. subst al ap.
  destruct ok; cbn [negb].
  2: { apply spec_ret. exists rd, fr, eu, []. split; [done|]. split; [done|]. by right. }
  apply spec_quiet; [by apply quiet_do|]. intros _.
  eapply spec_bind; [apply app_spec, Ha; [done|by apply Hok]|].
  intros _ [al' rd' fr' eu' ap'] [Hal' Hap']. cbn in Hal', Hap'. subst al' ap'.
  apply spec_ret. exists rd', fr', eu', [a]. split; [done|]. split; [done|]. by left.
Qed.
End Lifecycle.

(** The application a mode stands for. *)
Definition mode_apps (t : Transport) (cfg : TestConfig) (role : RoleConfig) (mode : RunMode)
    (count : Z) : list application :=
  let tx := default (makeTx t cfg role) (makeRxTx t cfg role) in
  let rx := default (makeRx t cfg role) (makeRxTx t cfg role) in
  match mode with
  | Server => [run_server tx rx]
  | Client => [run_client tx rx]
  | TxGen => [run_txgen (makeTx t cfg role) count]
  | RxSink => [run_rxsink (makeRx t cfg role)]
  | SingleRecorder => []
  end.

(** How a run of the program over transport [t] may end: exit code 1 and no application,
    or exit code 0 and exactly the applications [l]; nothing is left alive. *)
Definition ends (l : list application) (code : Z) (st : protocol) : Prop :=
  alive st = [] /\ (code = 0 /\ apps st = l \/ code = 1 /\ apps st = []).

Lemma makeTx_can t cfg role : can_tx (makeTx t cfg role) = true.
Proof. by destruct t. Qed.
Lemma makeRx_can t cfg role : can_rx (makeRx t cfg role) = true.
Proof. by destruct t. Qed.
Lemma makeRxTx_can t cfg role n : makeRxTx t cfg role = Some n -> can_tx n = true /\ can_rx n = true.
Proof. destruct t; intros; by simplify_eq/=. Qed.
Lemma makeSingleTx_can t cfg role : can_tx (makeSingleTx t cfg role) = true.
Proof. by destruct t. Qed.

Section Runners.
Context (ora : list event -> forall A, call A -> outcome A).
Abbreviation prog := (M (list event)).
Abbreviation mach := (machine ora).

(** The common core of a run with a Tx and an Rx object: [up_tx] and [up_rx] bring the
    two up in turn, then one application [a] uses them. *)
Definition pair_ready (tx rx : Nic) (ok : bool) (st : protocol) : Prop :=
  alive st = [rx; tx] /\ apps st = [] /\ (ok = true -> tx ∈ ready st /\ rx ∈ ready st).

Lemma pair_spec tx rx (up : prog bool) (fail : prog Z) (pre : prog unit) a :
  (forall st, alive st = [rx; tx] -> apps st = [] -> frozen st = [] -> ealUp st = false ->
     (self_opening tx = true -> tx ∈ ready st) -> (self_opening rx = true -> rx ∈ ready st) ->
     spec st up (pair_ready tx rx)) ->
  (forall st, spec st fail (fun c st' => c = 1 /\ st' = st)) -> (forall st, quiet st pre) ->
  can_tx tx = true -> can_rx rx = true -> app_tx a = [tx] -> app_rx a = [rx] ->
  spec idle_protocol
    (scoped mach tx (scoped mach rx
       (ok ← up; if negb ok then fail else pre ;; mach _ (RunApp a) ;; mret 0))) (ends [a]).
Proof.
  intros Hup Hfail Hpre Htx Hrx Hatx Harx. apply scoped_spec. apply scoped_spec. cbn.
  eapply spec_bind; [apply Hup; try done; cbn; intros ->; set_solver|].
  intros ok [al rd fr eu ap] (Hal & Hap & Hr). cbn in Hal, Hap, Hr. subst al ap.
  destruct ok; cbn [negb].
  2: { intros l Hl. specialize (Hfail _ l Hl). destruct (fail l) as [[c| | | |] l']; try done.
       destruct Hfail as (st' & Hr' & -> & ->). eexists. split; [done|].
       eexists rd, fr, eu, []. split; [done|]. eexists rd, fr, eu, []. split; [done|]. split; [done|]. by right. }
  apply spec_quiet; [apply Hpre|]. intros _.
  eapply spec_bind; [apply app_spec|].
  { destruct (Hr eq_refl). unfold may_run. rewrite Hatx, Harx.
    split; apply Forall_singleton; split_and!; cbn; try done; set_solver. }
  intros _ [al' rd' fr' eu' ap'] [Hal' Hap']. cbn in Hal', Hap'. subst al' ap'.
  apply spec_ret. eexists rd', fr', eu', [a]. split; [done|]. eexists rd', fr', eu', [a].
  split; [done|]. split; [done|]. by left.
Qed.

Lemma err_spec st (m : message) :
  spec st (mach _ (PrintErr m) ;; mret 1) (fun c st' => c = 1 /\ st' = st).
Proof. apply spec_quiet; [by apply quiet_do|]. intros _. by apply spec_ret. Qed.

Lemma dispatchMode_app tx rx mode count :
  mode = Server \/ mode = Client ->
  exists a, dispatchMode mach tx rx mode count = mach _ (RunApp a) /\ app_tx a = [tx] /\ app_rx a = [rx] /\
    a = match mode with Client => run_client tx rx | _ => run_server tx rx end.
Proof. intros [-> | ->]; by eexists. Qed.

Lemma paired_up_spec t cfg role st :
  t = PacketMmapT -> let tx := makeTx t cfg role in let rx := makeRx t cfg role in
  alive st = [rx; tx] -> apps st = [] -> tx ∈ ready st -> rx ∈ ready st ->
  spec st (ok ← bringUp mach t tx cfg role;
           if (ok : bool) then bringUp mach t rx cfg role else mret false) (pair_ready tx rx).
Proof.
  intros -> tx rx Hal Hap Ht Hr.
  eapply spec_bind; [apply bringUp_spec; split; [rewrite Hal; set_solver|done]|].
  intros [] st' (Ha1 & Hp1 & Hk1 & Hok1).
  2: { apply spec_ret. split_and!; [by rewrite Ha1|by rewrite Hp1|done]. }
  assert (can_init PacketMmapT rx st') as Hci by (split; [rewrite Ha1, Hal; set_solver|by apply Hk1]).
  intros l Hl. pose proof (bringUp_spec ora PacketMmapT st' rx cfg role Hci l Hl) as Hs.
  destruct (bringUp mach PacketMmapT rx cfg role l) as [[ok| | | |] l']; try done.
  destruct Hs as (st2 & Hrep & Ha2 & Hp2 & Hk2 & Hok2). exists st2. split; [done|].
  split_and!; [by rewrite Ha2, Ha1|by rewrite Hp2, Hp1|]. intros _. split; [by apply Hk2, Hk1|by apply Hk2, Hk1].
Qed.

Lemma spec_bind_assoc {A B C} st (m : prog A) (f : A -> prog B) (g : B -> prog C) Q :
  spec st ((m ≫= f) ≫= g) Q -> spec st (m ≫= fun a => f a ≫= g) Q.
Proof. intros Hs l Hl. rewrite <- bind_assoc. by apply Hs. Qed.

Lemma scoped_ext {A} n (m1 m2 : prog A) l : (forall l, m1 l = m2 l) -> scoped mach n m1 l = scoped mach n m2 l.
Proof.
  intros He. unfold scoped, mbind, M_bind. destruct (mach _ (Construct n) l) as [[]?]; try done. by rewrite He.
Qed.

Lemma one_ends t n cfg role mode a :
  can_init t n {| alive := [n]; ready := if self_opening n then [n] else []; frozen := []; ealUp := false; apps := [] |} ->
  (forall m, m ∈ app_tx a -> m = n /\ can_tx n = true) -> (forall m, m ∈ app_rx a -> m = n /\ can_rx n = true) ->
  spec idle_protocol (run_one mach t n cfg role mode (mach _ (RunApp a))) (ends [a]).
Proof.
  intros Hc Htx Hrx. apply run_one_spec; [done|]. intros st Hal Hr.
  split; apply list.Forall_forall; intros m Hm; [pose proof (Htx m Hm) as [Hmn ?]|pose proof (Hrx m Hm) as [Hmn ?]];
    (rewrite Hmn; split_and!; [rewrite Hal; set_solver|done|done]).
Qed.

Lemma can_init_fresh t n :
  (t = PacketMmapT -> self_opening n = true) ->
  can_init t n {| alive := [n]; ready := if self_opening n then [n] else []; frozen := []; ealUp := false; apps := [] |}.
Proof.
  intros Hs. split; [cbn; set_solver|]. destruct t; cbn; try done; [|set_solver]. rewrite Hs by done. set_solver.
Qed.

Lemma runModes_spec t cfg role mode count :
  spec idle_protocol (runModes mach t cfg role mode count) (ends (mode_apps t cfg role mode count)).
Proof.
  unfold runModes. apply spec_quiet; [apply preflight_quiet|]. intros [] ; cbn [negb].
  2: { apply spec_ret. split; [done|]. by right. }
  assert (forall n, makeTx t cfg role = n \/ makeRx t cfg role = n -> t = PacketMmapT -> self_opening n = true) as Hso.
  { intros n [<- | <-] ->; done. }
  destruct mode; cbn [mode_apps].
  3: { apply one_ends; [apply can_init_fresh, Hso; by left|cbn|cbn]; intros m Hm; [|set_solver].
       apply list_elem_of_singleton in Hm as ->. split; [done|apply makeTx_can]. }
  3: { apply one_ends; [apply can_init_fresh, Hso; by right|cbn|cbn]; intros m Hm; [set_solver|].
       apply list_elem_of_singleton in Hm as ->. split; [done|apply makeRx_can]. }
  3: { apply spec_ret. split; [done|]. by left. }
  all: destruct (makeRxTx t cfg role) as [n|] eqn:Hn; cbn [default].
  1,3: destruct (makeRxTx_can t cfg role n Hn); apply one_ends;
    [apply can_init_fresh; by intros ->|..]; cbn; intros m Hm;
    apply list_elem_of_singleton in Hm as ->; done.
  all: assert (t = PacketMmapT) as Ht by (destruct t; done).
  all: cbn zeta; set (tx := makeTx t cfg role); set (rx := makeRx t cfg role).
  all: intros l Hl; erewrite (scoped_ext tx); [|intros ?; apply scoped_ext; intros ?; symmetry; apply bind_assoc].
  all: apply (fun H1 H2 H3 H4 H5 H6 H7 => pair_spec tx rx _ _ _ _ H1 H2 H3 H4 H5 H6 H7 l Hl); try done.
  all: try (apply makeTx_can || apply makeRx_can || (intros; by apply spec_ret) || (intros; by apply quiet_do)).
  all: intros st Hal Hap _ _ Hst Hsr; apply paired_up_spec; try done; [apply Hst|apply Hsr]; by subst.
Qed.
(** The body of a two-object scope. *)
Definition pair_body (tx rx : Nic) (l : list application) (code : Z) (st : protocol) : Prop :=
  alive st = [rx; tx] /\ (code = 0 /\ apps st = l \/ code = 1 /\ apps st = []).

Lemma pair_scope tx rx (body : prog Z) l :
  (forall st, alive st = [rx; tx] -> apps st = [] -> frozen st = [] -> ealUp st = false ->
     (self_opening tx = true -> tx ∈ ready st) -> (self_opening rx = true -> rx ∈ ready st) ->
     spec st body (pair_body tx rx l)) ->
  spec idle_protocol (scoped mach tx (scoped mach rx body)) (ends l).
Proof.
  intros Hb. apply scoped_spec, scoped_spec. cbn. intros h Hh.
  match type of Hh with _ = Some ?st => assert (spec st body (pair_body tx rx l)) as Hs by
    (apply Hb; cbn; try done; intros ->; set_solver) end.
  specialize (Hs h Hh).
  destruct (body h) as [[c| | | |] h']; try done.
  destruct Hs as ([al rd fr eu ap] & Hr & Hal & Hc). cbn in Hal, Hc. subst al.
  eexists. split; [exact Hr|]. exists rd, fr, eu, ap. split; [done|]. by exists rd, fr, eu, ap.
Qed.

Lemma fail_body st tx rx l m :
  alive st = [rx; tx] -> apps st = [] -> spec st (mach _ (PrintErr m) ;; mret 1) (pair_body tx rx l).
Proof.
  intros Hal Hap. apply spec_quiet; [by apply quiet_do|]. intros _. apply spec_ret. split; [done|]. by right.
Qed.

Lemma bench_body st tx rx cfg :
  alive st = [rx; tx] -> apps st = [] -> tx ∈ ready st -> rx ∈ ready st -> can_tx tx = true -> can_rx rx = true ->
  spec st (driveSingleRecorder mach cfg tx rx ;; mret 0)
    (pair_body tx rx [bench_run tx rx (recDurationSec cfg)]).
Proof.
  intros Hal Hap Ht Hr Hct Hcr. eapply spec_bind; [apply app_spec|].
  { split; apply Forall_singleton; split_and!; try done; rewrite Hal; set_solver. }
  intros _ st' [Ha' Hp']. apply spec_ret. split; [by rewrite Ha'|]. left. by rewrite Hp', Hap.
Qed.

Lemma base_withSinglePair_spec t cfg :
  t <> DpdkT ->
  spec idle_protocol (base_withSinglePair mach t cfg (driveSingleRecorder mach cfg))
    (ends [bench_run (makeSingleTx t cfg (client cfg)) (makeSingleRx t cfg (server cfg)) (recDurationSec cfg)]).
Proof.
  intros Ht. unfold base_withSinglePair. apply pair_scope.
  set (tx := makeSingleTx t cfg (client cfg)). set (rx := makeSingleRx t cfg (server cfg)).
  intros st Hal Hap _ _ Hst Hsr. eapply spec_bind; [apply traits_init_spec|].
  { split; [rewrite Hal; set_solver|]. destruct t; try done. by apply Hst. }
  intros [] st1 (Ha1 & Hp1 & Hk1 & Hok1); cbn [negb].
  2: { apply fail_body; [by rewrite Ha1|by rewrite Hp1]. }
  eapply spec_bind; [apply traits_init_spec|].
  { split; [rewrite Ha1, Hal; set_solver|]. destruct t; try done. by apply Hk1, Hsr. }
  intros [] st2 (Ha2 & Hp2 & Hk2 & Hok2); cbn [negb].
  2: { apply fail_body; [by rewrite Ha2, Ha1|by rewrite Hp2, Hp1]. }
  apply bench_body; [by rewrite Ha2, Ha1|by rewrite Hp2, Hp1|by apply Hk2, Hok1|by apply Hok2| |].
  - apply makeSingleTx_can.
  - apply makeRx_can.
Qed.

Lemma prepare_spec st n b p (Q : bool -> protocol -> Prop) :
  n ∈ alive st -> ealUp st = false -> (forall ok, Q ok (freeze n false st)) ->
  spec st (mach _ (DpdkPrepare n b p)) Q.
Proof.
  intros Hn He HQ. apply spec_do. intros ok. cbn. rewrite decide_True by done. by eexists.
Qed.

Lemma dpdk_up_spec st n wl b p d (Q : bool -> protocol -> Prop) :
  n ∈ alive st ->
  (forall ok st', alive st' = alive st -> apps st' = apps st -> (forall m, m ∈ ready st -> m ∈ ready st') ->
     (ok = true -> n ∈ ready st') -> Q ok st') ->
  spec st (mach _ (DpdkInit n wl b p d)) Q.
Proof.
  intros Hn HQ. apply spec_do. intros ok. cbn. unfold bring_up. rewrite decide_True by done. cbn.
  eexists. split; [done|]. apply HQ; try done; cbn; intros; destruct ok; set_solver.
Qed.

Lemma wait_quiet st n : n ∈ ready st -> quiet st (mach _ (DpdkWaitLink n)).
Proof. intros Hn. apply quiet_do. intros a. cbn. by rewrite decide_True. Qed.

Lemma ready_nonempty st n : n ∈ ready st -> ready st <> [].
Proof. intros Hn He. rewrite He in Hn. by apply not_elem_of_nil in Hn. Qed.

Lemma dpdk_withSinglePair_spec cfg :
  spec idle_protocol (dpdk_withSinglePair mach cfg (driveSingleRecorder mach cfg))
    (ends [bench_run (DpdkNic TxOnly (TestConfig.interface (client cfg)) (recHotPathCore cfg) (driver (client cfg)))
                     (DpdkNic RxOnly (TestConfig.interface (server cfg)) (recHotPathCore cfg) (driver (server cfg)))
                     (recDurationSec cfg)]).
Proof.
  unfold dpdk_withSinglePair. apply pair_scope.
  set (tx := DpdkNic TxOnly _ _ _). set (rx := DpdkNic RxOnly _ _ _).
  intros st Hal Hap Hfr He _ _.
  assert (tx ∈ alive st /\ rx ∈ alive st) as [Htx Hrx] by (rewrite Hal; set_solver).
  apply spec_quiet; [apply preInit_quiet; rewrite Hfr; split; [done|apply not_elem_of_nil]|]. intros tb.
  apply spec_quiet; [apply preInit_quiet; rewrite Hfr; split; [done|apply not_elem_of_nil]|]. intros rb.
  eapply spec_bind; [apply (prepare_spec _ _ _ _ (fun _ st' => st' = freeze tx false st)); done|].
  intros ok1 st1 ->. eapply (spec_bind _ _ _ _ (fun _ st' => alive st' = [rx; tx] /\ apps st' = [])).
  { destruct ok1; [|by apply spec_ret]. by apply prepare_spec. }
  intros [] st2 [Ha2 Hp2]; cbn [negb]; [|by apply fail_body].
  eapply spec_bind; [apply (dpdk_up_spec st2 tx _ _ _ _ (fun ok st' => alive st' = [rx; tx] /\ apps st' = [] /\ (ok = true -> tx ∈ ready st')))|].
  { rewrite Ha2; set_solver. }
  { intros ok st' E1 E2 _ E3. by rewrite E1, E2, Ha2, Hp2. }
  intros [] st3 (Ha3 & Hp3 & Ht3); cbn [negb]; [|by apply fail_body].
  eapply spec_bind; [apply (dpdk_up_spec st3 rx _ _ _ _ (fun ok st' => alive st' = [rx; tx] /\ apps st' = [] /\ tx ∈ ready st' /\ (ok = true -> rx ∈ ready st')))|].
  { rewrite Ha3; set_solver. }
  { intros ok st' E1 E2 E3 E4. rewrite E1, E2, Ha3, Hp3. split_and!; try done. by apply E3, Ht3. }
  intros [] st4 (Ha4 & Hp4 & Ht4 & Hr4); cbn [negb]; [|by apply fail_body].
  specialize (Hr4 eq_refl). pose proof (ready_nonempty _ _ Ht4) as Hne.
  apply spec_quiet; [by apply postFixes_quiet|]. intros _.
  apply spec_quiet; [by apply postFixes_quiet|]. intros _.
  apply spec_quiet; [by apply wait_quiet|]. intros []; cbn [negb]; [|by apply fail_body].
  apply spec_quiet; [by apply wait_quiet|]. intros []; cbn [negb]; [|by apply fail_body].
  by apply bench_body.
Qed.

(** The pair of objects [--single] measures with. *)
Definition single_tx (t : Transport) (cfg : TestConfig) : Nic :=
  match t with
  | DpdkT => DpdkNic TxOnly (TestConfig.interface (client cfg)) (recHotPathCore cfg) (driver (client cfg))
  | _ => makeSingleTx t cfg (client cfg)
  end.
Definition single_rx (t : Transport) (cfg : TestConfig) : Nic :=
  match t with
  | DpdkT => DpdkNic RxOnly (TestConfig.interface (server cfg)) (recHotPathCore cfg) (driver (server cfg))
  | _ => makeSingleRx t cfg (server cfg)
  end.

Lemma runSingleFor_spec t cfg :
  spec idle_protocol (runSingleFor mach t cfg)
    (fun code st => alive st = [] /\
       (code = 0 /\ kSingleCapable t = true /\
          apps st = [bench_run (single_tx t cfg) (single_rx t cfg) (recDurationSec cfg)] \/
        code = 1 /\ apps st = [])).
Proof.
  unfold runSingleFor. destruct (kSingleCapable t) eqn:Hk; cbn [negb].
  2: { apply spec_quiet; [by apply quiet_do|]. intros _. apply spec_ret. split; [done|]. by right. }
  apply spec_quiet; [apply preflight_quiet|]. intros pc.
  apply spec_quiet; [destruct pc; [apply preflight_quiet|by apply spec_ret]|]. intros []; cbn [negb].
  2: { apply spec_ret. split; [done|]. by right. }
  assert (forall l (m : prog Z), spec idle_protocol m (ends l) -> spec idle_protocol m (fun code st => alive st = [] /\
    (code = 0 /\ true = true /\ apps st = l \/ code = 1 /\ apps st = []))) as Hw.
  { intros l m Hm h Hh. specialize (Hm h Hh). destruct (m h) as [[c| | | |] h']; try done.
    destruct Hm as (st' & ? & ? & Hc). exists st'. split_and!; try done. destruct Hc as [[??]|[??]]; [by left|by right]. }
  apply Hw. destruct t; try (by apply base_withSinglePair_spec). apply dpdk_withSinglePair_spec.
Qed.
End Runners.

(** ** Properties *)

Definition all_transports : list Transport := [PacketMmapT; AfxdpT; DpdkT; VerbsT; EfViT; I210T].

(** The transport a configuration string names. *)
Definition transport_of (name : string) : option Transport :=
  snd <$> list_find (fun t => name = kName t) all_transports.

Lemma transport_of_kName t : transport_of (kName t) = Some t.
Proof. by destruct t. Qed.

Lemma transport_of_Some name t : transport_of name = Some t -> name = kName t.
Proof.
  unfold transport_of. destruct (list_find _ _) as [[i x]|] eqn:E; [|done]. intros [= <-].
  by apply list_find_Some in E as (_ & ? & _).
Qed.

(** The name-to-traits boundary is total and exact: the string of a transport that is
    compiled in runs that transport, the string of one that is not gets the rebuild
    hint, every other string is reported as unknown; both errors exit with code 1. *)
Theorem withTransport_boundary {W} (do : forall A, call A -> M W A) b name fn :
  withTransport do b name fn =
  match transport_of name with
  | Some t => if decide (t ∈ compiled_in b) then fn t else (do _ (PrintErr (NotCompiled name)) ;; mret 1)
  | None => do _ (PrintErr (UnknownTransport name)) ;; mret 1
  end.
Proof.
  destruct (transport_of name) as [t|] eqn:E.
  - apply transport_of_Some in E as ->. by destruct b as [[] [] [] []], t.
  - assert (forall t, name <> kName t) as Hn.
    { intros t ->. by rewrite transport_of_kName in E. }
    unfold withTransport. rewrite (proj2 (list_find_None _ _)).
    2: { apply list.Forall_forall. intros t _. apply Hn. }
    rewrite decide_False; [done|]. intros Hin.
    repeat (apply elem_of_cons in Hin as [->|Hin];
      [first [by destruct (Hn DpdkT)|by destruct (Hn VerbsT)|by destruct (Hn EfViT)|by destruct (Hn I210T)]|]).
    by apply not_elem_of_nil in Hin.
Qed.

(** C30: Whatever the machine answers, a run of one mode respects the lifecycle protocol:
    objects are initialised while they live and destroyed youngest first, DPDK knobs
    precede the preparation of their port, register fixes follow a successful bring-up,
    an application only sees live, initialised objects of the right direction.  It
    exits with 0 exactly when the mode's application has run over a compiled-in
    transport, with 1 and no application otherwise, and leaves no object behind. *)
Theorem dispatch_lifecycle ora b cfg role mode count :
  match runTransport (machine ora) b cfg role mode count [] with
  | (Done code, l) => exists st, replay l = Some st /\ alive st = [] /\
      ((code = 0 /\ exists t, t ∈ compiled_in b /\ transport role = kName t /\
                     apps st = mode_apps t cfg role mode count) \/
       (code = 1 /\ apps st = []))
  | (_, l) => is_Some (replay l)
  end.
Proof.
  unfold runTransport. rewrite withTransport_boundary.
  destruct (transport_of (transport role)) as [t|] eqn:Ht; [apply transport_of_Some in Ht; case_decide as Hc|].
  - pose proof (runModes_spec ora t cfg role mode count [] eq_refl) as Hs.
    destruct (runModes _ t cfg role mode count []) as [[c| | | |] l]; try done.
    destruct Hs as (st & Hr & Hal & Hv). exists st. split_and!; try done.
    destruct Hv as [[-> Hv]|[-> Hv]]; [left|by right]. split; [done|]. by exists t.
  - pose proof (err_spec ora idle_protocol (NotCompiled (transport role)) [] eq_refl) as Hs.
    match type of Hs with match ?r with _ => _ end => destruct r as [[c| | | |] l] end; try done.
    destruct Hs as (st & Hr & -> & ->). exists idle_protocol. split_and!; try done. by right.
  - pose proof (err_spec ora idle_protocol (UnknownTransport (transport role)) [] eq_refl) as Hs.
    match type of Hs with match ?r with _ => _ end => destruct r as [[c| | | |] l] end; try done.
    destruct Hs as (st & Hr & -> & ->). exists idle_protocol. split_and!; try done. by right.
Qed.

(** The single-process recorder measures only with both roles on one transport that
    supports it and three distinct cores; then and only then exactly one bench runs,
    over a Tx object on the client port and an Rx object on the server port, under
    the same lifecycle protocol. *)
Theorem single_recorder_guarded ora b cfg :
  match runSingleRecorder (machine ora) b cfg [] with
  | (Done code, l) => exists st, replay l = Some st /\ alive st = [] /\
      ((code = 0 /\ transport (server cfg) = transport (client cfg) /\
          NoDup [recHotPathCore cfg; recRxCore cfg; recRecorderCore cfg] /\
          exists t, t ∈ compiled_in b /\ transport (client cfg) = kName t /\ kSingleCapable t = true /\
            apps st = [bench_run (single_tx t cfg) (single_rx t cfg) (recDurationSec cfg)]) \/
       (code = 1 /\ apps st = []))
  | (_, l) => is_Some (replay l)
  end.
Proof.
  assert (forall m : M (list event) Z, spec idle_protocol m (fun c st => c = 1 /\ st = idle_protocol) ->
    forall P, match m [] with
    | (Done code, l) => exists st, replay l = Some st /\ alive st = [] /\ (P code st \/ (code = 1 /\ apps st = []))
    | (_, l) => is_Some (replay l)
    end) as Hw.
  { intros m Hm P. specialize (Hm [] eq_refl). destruct (m []) as [[c| | | |] l]; try done.
    destruct Hm as (st & Hr & -> & ->). exists idle_protocol. split_and!; try done. by right. }
  unfold runSingleRecorder. case_decide as Ht; [apply Hw, err_spec|].
  case_decide as Hc; [apply Hw, err_spec|]. rewrite withTransport_boundary.
  destruct (transport_of _) as [t|] eqn:Hk; [apply transport_of_Some in Hk; case_decide as Hb|];
    [|apply Hw, spec_quiet; [by apply quiet_do|intros _; apply err_spec]..].
  pose proof (spec_quiet idle_protocol (machine ora _ (Banner (single_banner cfg))) (fun _ => runSingleFor (machine ora) t cfg) _
    ltac:(by apply quiet_do) (fun _ => runSingleFor_spec ora t cfg) [] eq_refl) as Hs.
  match type of Hs with match ?r with _ => _ end => destruct r as [[c| | | |] l] end; try done.
  destruct Hs as (st & Hr & Hal & Hv). exists st. split_and!; try done.
  destruct Hv as [(-> & Hcap & Hv)|[-> Hv]]; [left|by right]. split_and!; try done.
  - repeat constructor; rewrite ?not_elem_of_cons; split_and?; try apply not_elem_of_nil; intros E; apply Hc; tauto.
  - by exists t.
Qed.
