(* ===== verification/NapiConfig.v ===== *)
(** * NAPI and netdev control plane (src/backends/common/NapiConfig.hpp)

    The netlink messages the program builds by hand and the replies it parses, byte for
    byte: [putAttr], [resolveFamily], [setBusyPoll], [getBusyPoll], [detachXdpProgram]; the
    sysfs knobs; the ethtool channel steering; the XSK read-back.  The system calls are the
    operations of [NlSys].  A received buffer holds exactly the bytes the kernel wrote, so
    that a read past them is undefined. *)

From S2P Require Import Prelude CStrings.
From S2P Require SocketOps.
From stdpp Require Import gmap.
Open Scope Z_scope.

(** ** Constants *)

Definition kCmdNapiGet : Z := 11.
Definition kCmdNapiSet : Z := 14.
Definition kAttrNapiId : Z := 2.
Definition kAttrNapiDeferHardIrqs : Z := 5.
Definition kAttrNapiGroFlushTimeout : Z := 6.
Definition kAttrNapiIrqSuspend : Z := 7.

Definition kDeferHardIrqs : Z := 2.
Definition kGroFlushTimeoutNs : Z := 200000.

(** linux/netlink.h, linux/genetlink.h, linux/rtnetlink.h, linux/if_link.h *)
Definition NLMSG_HDRLEN : Z := 16.
Definition GENL_HDRLEN : Z := 4.
Definition NLA_HDRLEN : Z := 4.
Definition NLMSG_ERROR : Z := 2.
Definition NLMSG_DONE : Z := 3.
Definition NLM_F_REQUEST : Z := 1.
Definition NLM_F_ACK : Z := 4.
Definition GENL_ID_CTRL : Z := 16.
Definition CTRL_CMD_GETFAMILY : Z := 3.
Definition CTRL_ATTR_FAMILY_ID : Z := 1.
Definition CTRL_ATTR_FAMILY_NAME : Z := 2.
Definition NETDEV_FAMILY_NAME : string := "netdev".
Definition RTM_SETLINK : Z := 19.
Definition IFLA_XDP : Z := 43.
Definition IFLA_XDP_FD : Z := 1.
Definition IFLA_XDP_FLAGS : Z := 3.
Definition XDP_FLAGS_SKB_MODE : Z := 2.
Definition XDP_FLAGS_DRV_MODE : Z := 4.
Definition NLA_TYPE_MASK : Z := 16383.
Definition XDP_OPTIONS_ZEROCOPY : Z := 1.
Definition AF_XDP : Z := 44.

Inductive nl_proto := NETLINK_GENERIC | NETLINK_ROUTE | INET_DGRAM.
Inductive sockopt := SO_PREFER_BUSY_POLL (v : Z) | SO_BUSY_POLL (v : Z) | SO_BUSY_POLL_BUDGET (v : Z).

(** [struct ethtool_channels] without its command word. *)
Record ethtool_channels := mk_channels {
  max_rx : Z; max_tx : Z; max_other : Z; max_combined : Z;
  rx_count : Z; tx_count : Z; other_count : Z; combined_count : Z }.
Definition no_channels : ethtool_channels := mk_channels 0 0 0 0 0 0 0 0.

(** ** The machine: system calls on descriptors.  [nl_recv] gives the received bytes, at
    most as many as the buffer holds, or none when it fails. *)
Class NlSys (W : Type) := {
  nl_socket : nl_proto -> W -> Z * W;
  nl_close : Z -> W -> W;
  nl_send : Z -> bytes -> W -> bool * W;
  nl_recv : Z -> nat -> W -> option bytes * W;
  nl_nametoindex : string -> W -> Z * W;
  ethtool_get_channels : Z -> string -> W -> option ethtool_channels * W;
  ethtool_set_channels : Z -> string -> ethtool_channels -> W -> bool * W;
  file_open : string -> W -> Z * W;
  file_write : Z -> string -> W -> Z * W;
  file_read : Z -> nat -> W -> option string * W;
  get_xdp_options : Z -> W -> option Z;
  get_busy_poll : Z -> W -> option Z;
  get_prefer_busy_poll : Z -> W -> option Z;
  get_domain : Z -> W -> option Z;
  list_self_fds : W -> option (list string);
}.

(** ** Messages *)

(** [NLMSG_ALIGN], [NLA_ALIGN] *)
Definition align4 (x : Z) : Z := Z.land (x + 3) (Z.lnot 3).

Section Buffers.
Context {W : Type}.

(** [*reinterpret_cast<uintN_t*>(buf + off)] *)
Definition rd (n : nat) (off : Z) (buf : bytes) : M W Z :=
  match load (Z.to_nat off) n buf with Some b => mret (le_decode b) | None => raise Undef end.

(** [memcpy(buf + off, src, len)] *)
Definition st (off : Z) (src buf : bytes) : M W bytes :=
  match store (Z.to_nat off) src buf with Some b => mret b | None => raise Undef end.

Definition put_data (buf : bytes) (off type : Z) (data : bytes) : M W (bytes * Z) :=
  let nla_len := u16 (NLA_HDRLEN + Z.of_nat (length data)) in
  buf ← st (off + 2) (le_encode 2 type) buf;
  buf ← st off (le_encode 2 nla_len) buf;
  buf ← st (off + NLA_HDRLEN) data buf;
  mret (buf, off + align4 nla_len).

(** [putAttr<T>], [sizeof(T) = n] *)
Definition putAttr (n : nat) (buf : bytes) (off type value : Z) : M W (bytes * Z) :=
  put_data buf off type (le_encode n value).

(** [putAttrStr] *)
Definition putAttrStr (buf : bytes) (off type : Z) (s : string) : M W (bytes * Z) :=
  put_data buf off type (c_str s).

(** The zeroed buffer with the netlink and generic-netlink headers of a request. *)
Definition genl_request (size : nat) (type flags seq cmd : Z) : M W bytes :=
  buf ← st 0 (le_encode 4 (NLMSG_HDRLEN + GENL_HDRLEN)) (replicate size 0);
  buf ← st 4 (le_encode 2 type) buf;
  buf ← st 6 (le_encode 2 flags) buf;
  buf ← st 8 (le_encode 4 seq) buf;
  buf ← st 16 [u8 cmd] buf;
  st 17 [1] buf.

(** [nlh->nlmsg_len = off], and the bytes [send] takes. *)
Definition finish_request (buf : bytes) (off : Z) : M W bytes :=
  buf ← st 0 (le_encode 4 off) buf;
  mret (take (Z.to_nat (u32 off)) buf).

(** ** Reply walks *)

(** [for (; rem >= NLA_HDRLEN && rem >= attr->nla_len; rem -= NLA_ALIGN(attr->nla_len),
    attr += NLA_ALIGN(attr->nla_len)) visit(attr)]: [visit] gives the state of the next
    round, or the result of the enclosing function. *)
Fixpoint walk {A R} (fuel : nat) (buf : bytes) (visit : Z -> Z -> Z -> A -> M W (A + R))
    (attr rem : Z) (acc : A) : M W (A + R) :=
  match fuel with
  | O => raise NoFuel
  | S fuel =>
      if rem <? NLA_HDRLEN then mret (inl acc) else
      nla_len ← rd 2 attr buf;
      if rem <? nla_len then mret (inl acc) else
      nla_type ← rd 2 (attr + 2) buf;
      r ← visit nla_len nla_type attr acc;
      match r with
      | inl acc => walk fuel buf visit (attr + align4 nla_len) (rem - align4 nla_len) acc
      | inr x => mret (inr x)
      end
  end.

(** [for (rh = rbuf; NLMSG_OK(rh, n); rh = NLMSG_NEXT(rh, n)) body(rh)] *)
Fixpoint messages {A R} (fuel : nat) (buf : bytes) (body : Z -> Z -> A -> M W (A + R))
    (rh n : Z) (acc : A) : M W (A + R) :=
  match fuel with
  | O => raise NoFuel
  | S fuel =>
      if n <? NLMSG_HDRLEN then mret (inl acc) else
      nlmsg_len ← rd 4 rh buf;
      if (nlmsg_len <? NLMSG_HDRLEN) || (n <? nlmsg_len) then mret (inl acc) else
      r ← body rh nlmsg_len acc;
      match r with
      | inl acc => messages fuel buf body (rh + align4 nlmsg_len) (n - align4 nlmsg_len) acc
      | inr x => mret (inr x)
      end
  end.

(** Enough rounds for any buffer of the program whose attributes have a nonzero length:
    the receive buffers hold at most 2048 bytes and every round consumes four. *)
Definition walk_fuel : nat := 600.
Definition sysM {A} (f : W -> A * W) : M W A := lift f.
End Buffers.

(** ** Generic netlink *)
Section Netlink.
Context {W : Type} `{NlSys W}.

(** The body of the message loop of [resolveFamily]. *)
Definition family_attr (buf : bytes) (nla_len nla_type attr : Z) (_ : unit) : M W (unit + Z) :=
  if nla_type =? CTRL_ATTR_FAMILY_ID
  then id ← rd 2 (attr + NLA_HDRLEN) buf; mret (inr id)
  else mret (inl tt).

Definition family_msg (buf : bytes) (rh nlmsg_len : Z) (_ : unit) : M W (unit + Z) :=
  type ← rd 2 (rh + 4) buf;
  if (type =? NLMSG_ERROR) || (type =? NLMSG_DONE) then mret (inr 0) else
  walk walk_fuel buf (family_attr buf) (rh + NLMSG_HDRLEN + GENL_HDRLEN)
    (sint 32 nlmsg_len - NLMSG_HDRLEN - GENL_HDRLEN) tt.

(** [detail::resolveFamily] *)
Definition resolveFamily (fd : Z) (name : string) : M W Z :=
  buf ← genl_request 512 GENL_ID_CTRL NLM_F_REQUEST 1 CTRL_CMD_GETFAMILY;
  '(buf, off) ← putAttrStr buf (align4 (NLMSG_HDRLEN + GENL_HDRLEN)) CTRL_ATTR_FAMILY_NAME name;
  req ← finish_request buf off;
  sent ← sysM (nl_send fd req);
  if negb sent then mret 0 else
  reply ← sysM (nl_recv fd 1024);
  match reply with
  | None => mret 0
  | Some rbuf =>
      let n := Z.of_nat (length rbuf) in
      if n <? NLMSG_HDRLEN then mret 0 else
      r ← messages walk_fuel rbuf (family_msg rbuf) 0 n tt;
      mret (match r with inl _ => 0 | inr id => id end)
  end.

(** [setBusyPoll] *)
Definition setBusyPoll (napiId deferHardIrqs groFlushNs irqSuspendNs : Z) : M W bool :=
  fd ← sysM (nl_socket NETLINK_GENERIC);
  if fd <? 0 then mret false else
  family ← resolveFamily fd NETDEV_FAMILY_NAME;
  if family =? 0 then modify (nl_close fd) ;; mret false else
  buf ← genl_request 512 family (Z.lor NLM_F_REQUEST NLM_F_ACK) 2 kCmdNapiSet;
  '(buf, off) ← putAttr 4 buf (align4 (NLMSG_HDRLEN + GENL_HDRLEN)) kAttrNapiId napiId;
  '(buf, off) ← putAttr 4 buf off kAttrNapiDeferHardIrqs deferHardIrqs;
  '(buf, off) ← putAttr 8 buf off kAttrNapiGroFlushTimeout groFlushNs;
  '(buf, off) ← putAttr 8 buf off kAttrNapiIrqSuspend irqSuspendNs;
  req ← finish_request buf off;
  sent ← sysM (nl_send fd req);
  if negb sent then modify (nl_close fd) ;; mret false else
  reply ← sysM (nl_recv fd 1024);
  modify (nl_close fd) ;;
  match reply with
  | None => mret false
  | Some rbuf =>
      if Z.of_nat (length rbuf) <? NLMSG_HDRLEN then mret false else
      type ← rd 2 4 rbuf;
      if type =? NLMSG_ERROR then
        error ← rd 4 NLMSG_HDRLEN rbuf;
        mret (sint 32 error =? 0)
      else mret true
  end.

Record NapiParams := mk_NapiParams { np_valid : bool; np_deferHardIrqs : Z; np_groFlushNs : Z; np_irqSuspendNs : Z }.
Definition no_params : NapiParams := mk_NapiParams false 0 0 0.

(** [readUint]: the payload as the kernel sized it, eight bytes or four. *)
Definition readUint (buf : bytes) (plen payload : Z) : M W Z :=
  if 8 <=? plen then rd 8 payload buf
  else if 4 <=? plen then rd 4 payload buf
  else mret 0.

Definition param_attr (buf : bytes) (nla_len nla_type attr : Z) (out : NapiParams) : M W (NapiParams + NapiParams) :=
  let payload := attr + NLA_HDRLEN in
  let plen := u64 (nla_len - NLA_HDRLEN) in
  let type := Z.land nla_type NLA_TYPE_MASK in
  if type =? kAttrNapiDeferHardIrqs then
    v ← readUint buf plen payload;
    mret (inl (mk_NapiParams (np_valid out) (u32 v) (np_groFlushNs out) (np_irqSuspendNs out)))
  else if type =? kAttrNapiGroFlushTimeout then
    v ← readUint buf plen payload;
    mret (inl (mk_NapiParams (np_valid out) (np_deferHardIrqs out) v (np_irqSuspendNs out)))
  else if type =? kAttrNapiIrqSuspend then
    v ← readUint buf plen payload;
    mret (inl (mk_NapiParams (np_valid out) (np_deferHardIrqs out) (np_groFlushNs out) v))
  else mret (inl out).

Definition param_msg (family : Z) (buf : bytes) (rh nlmsg_len : Z) (out : NapiParams) : M W (NapiParams + NapiParams) :=
  type ← rd 2 (rh + 4) buf;
  if type =? NLMSG_ERROR then _ ← rd 4 (rh + NLMSG_HDRLEN) buf; mret (inr out) else
  if negb (type =? family) then mret (inl out) else
  r ← walk walk_fuel buf (param_attr buf) (rh + NLMSG_HDRLEN + GENL_HDRLEN)
        (sint 32 nlmsg_len - NLMSG_HDRLEN - GENL_HDRLEN) out;
  mret (match r with
        | inl out => inl (mk_NapiParams true (np_deferHardIrqs out) (np_groFlushNs out) (np_irqSuspendNs out))
        | inr out => inr out
        end).

(** [getBusyPoll] *)
Definition getBusyPoll (napiId : Z) : M W NapiParams :=
  fd ← sysM (nl_socket NETLINK_GENERIC);
  if fd <? 0 then mret no_params else
  family ← resolveFamily fd NETDEV_FAMILY_NAME;
  if family =? 0 then modify (nl_close fd) ;; mret no_params else
  buf ← genl_request 256 family NLM_F_REQUEST 3 kCmdNapiGet;
  '(buf, off) ← putAttr 4 buf (align4 (NLMSG_HDRLEN + GENL_HDRLEN)) kAttrNapiId napiId;
  req ← finish_request buf off;
  sent ← sysM (nl_send fd req);
  if negb sent then modify (nl_close fd) ;; mret no_params else
  reply ← sysM (nl_recv fd 2048);
  modify (nl_close fd) ;;
  match reply with
  | None => mret no_params
  | Some rbuf =>
      let n := Z.of_nat (length rbuf) in
      if n <? NLMSG_HDRLEN then mret no_params else
      r ← messages walk_fuel rbuf (param_msg family rbuf) 0 n no_params;
      mret (match r with inl out => out | inr out => out end)
  end.

(** ** Netdev helpers *)

(** [snprintf(path, sizeof(path), "/sys/class/net/%s/%s", ifname, knob)], 128 bytes *)
Definition netdev_path (ifname knob : string) : string :=
  String.substring 0 127 ("/sys/class/net/" ++ ifname ++ "/" ++ knob)%string.

Definition writeNetdevKnob (ifname knob : string) (value : Z) : M W bool :=
  fd ← sysM (file_open (netdev_path ifname knob));
  if fd <? 0 then mret false else
  let val := dec (u64 value) in
  n ← sysM (file_write fd val);
  modify (nl_close fd) ;;
  mret (n =? Z.of_nat (String.length val)).

Definition readNetdevKnob (ifname knob : string) : M W Z :=
  fd ← sysM (file_open (netdev_path ifname knob));
  if fd <? 0 then mret (-1) else
  r ← sysM (file_read fd 31);
  modify (nl_close fd) ;;
  match r with
  | Some s => if (String.length s =? 0)%nat then mret (-1) else mret (strtol10_value s)
  | None => mret (-1)
  end.

Definition applyDeferralSysfs (ifname : string) (deferHardIrqs groFlushNs : Z) : M W bool :=
  a ← writeNetdevKnob ifname "napi_defer_hard_irqs" deferHardIrqs;
  b ← writeNetdevKnob ifname "gro_flush_timeout" groFlushNs;
  mret (a && b).

(** One RTM_SETLINK request: netlink header, [ifinfomsg], then IFLA_XDP with the nested
    descriptor -1 and, for a given mode, its flags. *)
Definition detach_request (ifindex mode : Z) : M W bytes :=
  buf ← st 0 (le_encode 4 32) (replicate 96 0);
  buf ← st 4 (le_encode 2 RTM_SETLINK) buf;
  buf ← st 6 (le_encode 2 (Z.lor NLM_F_REQUEST NLM_F_ACK)) buf;
  buf ← st 8 (le_encode 4 4) buf;
  buf ← st 20 (le_encode 4 ifindex) buf;
  let nestOff := align4 32 in
  buf ← st (nestOff + 2) (le_encode 2 IFLA_XDP) buf;
  '(buf, off) ← putAttr 4 buf (nestOff + NLA_HDRLEN) IFLA_XDP_FD (-1);
  '(buf, off) ← (if mode =? 0 then mret (buf, off) else putAttr 4 buf off IFLA_XDP_FLAGS mode);
  buf ← st nestOff (le_encode 2 (off - nestOff)) buf;
  finish_request buf off.

Definition detach_one (fd ifindex mode : Z) : M W unit :=
  req ← detach_request ifindex mode;
  sent ← sysM (nl_send fd req);
  if (sent : bool) then _ ← sysM (nl_recv fd 256); mret tt else mret tt.

(** [detachXdpProgram] *)
Definition detachXdpProgram (ifname : string) : M W unit :=
  ifindex ← sysM (nl_nametoindex ifname);
  if ifindex =? 0 then mret tt else
  fd ← sysM (nl_socket NETLINK_ROUTE);
  if fd <? 0 then mret tt else
  for_each [XDP_FLAGS_DRV_MODE; XDP_FLAGS_SKB_MODE; 0] (detach_one fd ifindex) ;;
  modify (nl_close fd).

Inductive CombinedResult := AlreadyOne | Changed | NoChannels | CombinedFailed.

#[export] Instance CombinedResult_eq_dec : EqDecision CombinedResult.
Proof. solve_decision. Defined.

(** [strncpy(ifr_name, ifname, IFNAMSIZ - 1)] *)
Definition ifr_name (ifname : string) : string := String.substring 0 15 ifname.

(** [ensureCombinedOne] *)
Definition ensureCombinedOne (ifname : string) : M W CombinedResult :=
  fd ← sysM (nl_socket INET_DGRAM);
  if fd <? 0 then mret CombinedFailed else
  got ← sysM (ethtool_get_channels fd (ifr_name ifname));
  match got with
  | None => modify (nl_close fd) ;; mret NoChannels
  | Some ch =>
      if max_combined ch =? 0 then modify (nl_close fd) ;; mret NoChannels else
      if combined_count ch =? 1 then modify (nl_close fd) ;; mret AlreadyOne else
      let ch := mk_channels (max_rx ch) (max_tx ch) (max_other ch) (max_combined ch)
                  (rx_count ch) (tx_count ch) (other_count ch) 1 in
      _ ← sysM (ethtool_set_channels fd (ifr_name ifname) ch);
      rb ← sysM (ethtool_get_channels fd (ifr_name ifname));
      modify (nl_close fd) ;;
      mret (match rb with
            | Some rb => if combined_count rb =? 1 then Changed else CombinedFailed
            | None => CombinedFailed
            end)
  end.

(** ** XSK read-back *)

Record XskModes := mk_XskModes {
  xm_valid : bool; xm_zeroCopy : bool; xm_xdpOptionsFlags : Z; xm_busyPollUs : Z; xm_preferBusyPoll : Z }.

Definition readXskModes (fd : Z) (w : W) : XskModes :=
  let busy := default (-1) (get_busy_poll fd w) in
  let prefer := default (-1) (get_prefer_busy_poll fd w) in
  match get_xdp_options fd w with
  | Some flags => mk_XskModes true (negb (Z.land flags XDP_OPTIONS_ZEROCOPY =? 0)) flags busy prefer
  | None => mk_XskModes false false 0 busy prefer
  end.

(** What one call of [printXskProcessValidation] reports. *)
Record xsk_report := mk_report {
  rp_deferOn : bool; rp_mismatch : bool; rp_sockets : list (Z * XskModes * bool); rp_found : bool }.

(** One directory entry; [reported] is the function's static list. *)
Definition validate_fd (w : W) (name : string) (acc : list Z * list (Z * XskModes * bool)) :
    list Z * list (Z * XskModes * bool) :=
  let '(reported, lines) := acc in
  match strtol10 name with
  | None => acc
  | Some (fd, _) =>
      if decide (get_domain (sint 32 fd) w <> Some AF_XDP) then acc else
      if decide (fd ∈ reported) then acc else
      let m := readXskModes (sint 32 fd) w in
      let good := (xm_zeroCopy m && (0 <? xm_preferBusyPoll m) && (0 <? xm_busyPollUs m))%bool in
      ((reported ++ [fd])%list, (lines ++ [(fd, m, good)])%list)
  end.

Definition printXskProcessValidation (ifname : string) (deferralExpected : bool) (reported : list Z) :
    M W (list Z * xsk_report) :=
  defer ← readNetdevKnob ifname "napi_defer_hard_irqs";
  gro ← readNetdevKnob ifname "gro_flush_timeout";
  let deferOn := ((0 <? defer) && (0 <? gro))%bool in
  names ← gets list_self_fds;
  w ← get;
  match names with
  | None => mret (reported, mk_report deferOn (xorb deferOn deferralExpected) [] false)
  | Some names =>
      let '(reported, lines) := fold_left (fun acc name => validate_fd w name acc) names (reported, []) in
      mret (reported, mk_report deferOn (xorb deferOn deferralExpected) lines (negb (bool_decide (lines = []))))
  end.
End Netlink.

(** ** The wire format: attributes and messages as the kernel reads and writes them. *)

Record nlattr := mk_attr { a_type : Z; a_data : bytes }.

Definition pad4 (n : nat) : nat := Z.to_nat (align4 (Z.of_nat n) - Z.of_nat n).

Definition encode_attr (a : nlattr) : bytes :=
  (le_encode 2 (NLA_HDRLEN + Z.of_nat (length (a_data a))) ++ le_encode 2 (a_type a) ++ a_data a ++
   replicate (pad4 (length (a_data a))) 0)%list.

Definition encode_attrs (l : list nlattr) : bytes := concat (encode_attr <$> l).

Record nlmsg := mk_msg { n_type : Z; n_flags : Z; n_seq : Z; n_pid : Z; n_payload : bytes }.

Definition msg_len (m : nlmsg) : Z := NLMSG_HDRLEN + Z.of_nat (length (n_payload m)).
Definition encode_msg (m : nlmsg) : bytes :=
  (le_encode 4 (msg_len m) ++ le_encode 2 (n_type m) ++ le_encode 2 (n_flags m) ++ le_encode 4 (n_seq m) ++
   le_encode 4 (n_pid m) ++ n_payload m)%list.

Definition genl_payload (cmd version : Z) (l : list nlattr) : bytes := ([cmd; version; 0; 0] ++ encode_attrs l)%list.

Definition wf_attr (a : nlattr) : Prop := in_u 16 (a_type a) /\ NLA_HDRLEN + Z.of_nat (length (a_data a)) < 2 ^ 16.

Lemma align4_spec x : align4 x = 4 * ((x + 3) / 4).
Proof.
  unfold align4. rewrite <- Z.ldiff_land. change 3 with (Z.ones 2) at 2.
  rewrite Z.ldiff_ones_r, Z.shiftl_mul_pow2, Z.shiftr_div_pow2 by lia. change (2 ^ 2) with 4. lia.
Qed.

Lemma align4_bounds x : x <= align4 x < x + 4 /\ align4 x mod 4 = 0.
Proof. rewrite align4_spec. dlia. Qed.

Lemma pad4_length n : Z.of_nat (n + pad4 n) = align4 (Z.of_nat n).
Proof. unfold pad4. pose proof (align4_bounds (Z.of_nat n)). lia. Qed.

Lemma align4_header n : align4 (NLA_HDRLEN + n) = NLA_HDRLEN + align4 n.
Proof. rewrite !align4_spec. unfold NLA_HDRLEN. dlia. Qed.

Lemma length_encode_attr a : Z.of_nat (length (encode_attr a)) = NLA_HDRLEN + align4 (Z.of_nat (length (a_data a))).
Proof.
  unfold encode_attr. rewrite !length_app, !length_le_encode, length_replicate.
  pose proof (pad4_length (length (a_data a))). unfold NLA_HDRLEN. lia.
Qed.

Lemma length_encode_msg m : Z.of_nat (length (encode_msg m)) = msg_len m.
Proof. unfold encode_msg, msg_len. rewrite !length_app, !length_le_encode. unfold NLMSG_HDRLEN. lia. Qed.

(** ** Reading and writing in the middle of a buffer *)
Section Wire.
Context {W : Type}.

Lemma load_mid p x s n : n = length x -> load (length p) n (p ++ x ++ s) = Some x.
Proof.
  intros ->. unfold load. rewrite decide_True by (rewrite !length_app; lia).
  unfold slice. by rewrite drop_app_length, take_app_length.
Qed.

Lemma store_mid p x y s : length x = length y -> store (length p) y (p ++ x ++ s) = Some (p ++ y ++ s).
Proof.
  intros Hl. rewrite store_Some by (rewrite !length_app; lia).
  rewrite inserts_split by (rewrite !length_app; lia). f_equal.
  rewrite take_app_length. f_equal. f_equal. rewrite app_assoc, <- Hl, <- length_app. by rewrite drop_app_length.
Qed.

Lemma rd_mid n off (p x s : bytes) (w : W) v :
  off = Z.of_nat (length p) -> n = length x -> le_decode x = v -> rd n off (p ++ x ++ s) w = (Done v, w).
Proof. intros -> Hn <-. unfold rd. by rewrite Nat2Z.id, load_mid. Qed.

Lemma st_mid off (p x y s : bytes) (w : W) :
  off = Z.of_nat (length p) -> length x = length y -> st off y (p ++ x ++ s) w = (Done (p ++ y ++ s), w).
Proof. intros -> Hl. unfold st. by rewrite Nat2Z.id, store_mid. Qed.

(** [putAttr] at the end of what is written appends the encoded attribute. *)
Lemma put_data_run (p : bytes) k type data (w : W) :
  Z.of_nat (length data) + NLA_HDRLEN < 2 ^ 16 -> align4 (NLA_HDRLEN + Z.of_nat (length data)) <= Z.of_nat k ->
  let a := mk_attr type data in
  put_data (p ++ replicate k 0) (Z.of_nat (length p)) type data w =
  (Done ((p ++ encode_attr a) ++ replicate (k - length (encode_attr a)) 0, Z.of_nat (length (p ++ encode_attr a))), w).
Proof.
  intros Hd Hk a. pose proof (length_encode_attr a) as Ha. cbn [a_data a] in Ha. rewrite align4_header in Hk.
  pose proof (pad4_length (length data)) as Hp. unfold NLA_HDRLEN in *.
  replace (replicate k 0) with ([0; 0] ++ [0; 0] ++ replicate (length data) 0 ++ replicate (pad4 (length data)) 0 ++
    replicate (k - length (encode_attr a)) 0)%list.
  2: { change [0; 0] with (replicate 2 0). rewrite <- !replicate_add. f_equal. lia. }
  unfold put_data. assert (u16 (NLA_HDRLEN + Z.of_nat (length data)) = 4 + Z.of_nat (length data)) as Hu.
  { apply wrap_small. unfold in_u, NLA_HDRLEN. lia. }
  rewrite Hu. rewrite (app_assoc p [0; 0]).
  erewrite run_bind; [|apply (st_mid _ (p ++ [0; 0])); [rewrite length_app; cbn; lia|by rewrite length_le_encode]].
  rewrite <- (app_assoc p [0; 0]).
  erewrite run_bind; [|apply (st_mid _ p); [done|by rewrite length_le_encode]].
  rewrite (app_assoc (le_encode 2 _)), (app_assoc p).
  erewrite run_bind; [|apply st_mid; [rewrite !length_app, !length_le_encode; unfold NLA_HDRLEN; lia|by rewrite length_replicate]].
  unfold mret, M_ret. f_equal. f_equal. f_equal.
  - unfold encode_attr. cbn [a_data a_type a]. by rewrite <- !app_assoc.
  - rewrite length_app. change 4 with NLA_HDRLEN. rewrite align4_header. unfold NLA_HDRLEN. lia.
Qed.

(** ** Requests *)

Definition genl_header (type flags seq cmd : Z) : bytes :=
  (le_encode 2 type ++ le_encode 2 flags ++ le_encode 4 seq ++ le_encode 4 0 ++ [u8 cmd; 1; 0; 0])%list.

(** A request under construction: its length field is not final. *)
Definition draft (h : bytes) (l : list nlattr) : bytes := (le_encode 4 (NLMSG_HDRLEN + GENL_HDRLEN) ++ h ++ encode_attrs l)%list.

Definition genl_msg (type flags seq cmd : Z) (l : list nlattr) : nlmsg :=
  mk_msg type flags seq 0 (genl_payload (u8 cmd) 1 l).

Lemma genl_request_run k type flags seq cmd (w : W) :
  genl_request (20 + k) type flags seq cmd w = (Done (draft (genl_header type flags seq cmd) [] ++ replicate k 0), w).
Proof.
  unfold genl_request. change (replicate (20 + k) 0) with (replicate 4 0 ++ replicate 2 0 ++ replicate 2 0 ++ replicate 4 0 ++
    replicate 4 0 ++ [0] ++ [0] ++ [0; 0] ++ replicate k 0).
  erewrite run_bind; [|apply (st_mid 0 [] (replicate 4 0)); [done|by rewrite length_le_encode]]. cbn [app].
  set (h4 := le_encode 4 (NLMSG_HDRLEN + GENL_HDRLEN)). assert (length h4 = 4%nat) as L4 by apply length_le_encode.
  erewrite run_bind; [|apply (st_mid 4 h4); [by rewrite L4|by rewrite length_le_encode]].
  rewrite (app_assoc h4). erewrite run_bind; [|apply st_mid; [by rewrite length_app, L4, length_le_encode|by rewrite length_le_encode]].
  rewrite (app_assoc (h4 ++ _)).
  erewrite run_bind; [|apply st_mid; [by rewrite !length_app, L4, !length_le_encode|by rewrite length_le_encode]].
  rewrite (app_assoc ((h4 ++ _) ++ _)), (app_assoc (((h4 ++ _) ++ _) ++ _)). set (h16 := ((((h4 ++ _) ++ _) ++ _) ++ _)%list).
  assert (length h16 = 16%nat) as L16 by (unfold h16; by rewrite !length_app, L4, !length_le_encode).
  erewrite run_bind; [|apply (st_mid 16 h16 [0] [u8 cmd]); [by rewrite L16|done]].
  rewrite (app_assoc h16).
  etransitivity; [apply (st_mid 17 (h16 ++ [u8 cmd])%list [0] [1]); [by rewrite length_app, L16|done]|].
  unfold draft, genl_header, encode_attrs. cbn [concat fmap list_fmap]. fold h4. unfold h16. by rewrite app_nil_r, <- !app_assoc.
Qed.

Lemma put_draft h l k off type data (w : W) :
  Z.of_nat (length data) + NLA_HDRLEN < 2 ^ 16 -> align4 (NLA_HDRLEN + Z.of_nat (length data)) <= Z.of_nat k ->
  off = Z.of_nat (length (draft h l)) ->
  put_data (draft h l ++ replicate k 0) off type data w =
  (Done (draft h (l ++ [mk_attr type data]) ++ replicate (k - length (encode_attr (mk_attr type data))) 0,
    Z.of_nat (length (draft h (l ++ [mk_attr type data])))), w).
Proof.
  intros Hd Hk ->. rewrite put_data_run by done.
  assert (draft h l ++ encode_attr (mk_attr type data) = draft h (l ++ [mk_attr type data]))%list as ->; [|done].
  unfold draft, encode_attrs. rewrite fmap_app, concat_app. cbn [fmap list_fmap concat].
  by rewrite app_nil_r, <- !app_assoc.
Qed.

Lemma finish_draft type flags seq cmd l k off (w : W) :
  off = Z.of_nat (length (draft (genl_header type flags seq cmd) l)) -> off < 2 ^ 32 ->
  finish_request (draft (genl_header type flags seq cmd) l ++ replicate k 0) off w =
  (Done (encode_msg (genl_msg type flags seq cmd l)), w).
Proof.
  intros Ho Hb. unfold finish_request. unfold draft at 1. rewrite <- !app_assoc.
  erewrite run_bind; [|apply (st_mid 0 []); [done|by rewrite !length_le_encode]]. cbn [app].
  unfold mret, M_ret. f_equal. f_equal.
  rewrite (wrap_small 32 off) by (unfold in_u; lia).
  assert (off = msg_len (genl_msg type flags seq cmd l)) as Hm.
  { rewrite Ho. unfold draft, genl_header, msg_len, genl_msg, genl_payload. cbn [n_payload].
    rewrite !length_app, !length_le_encode. cbn [length]. unfold NLMSG_HDRLEN. lia. }
  rewrite !app_assoc. rewrite take_app_length'.
  - rewrite Hm. unfold encode_msg, genl_msg, genl_payload, genl_header. cbn [n_type n_flags n_seq n_pid n_payload].
    by rewrite <- !app_assoc.
  - rewrite Ho, Nat2Z.id. unfold draft. rewrite !length_app, !length_le_encode. done.
Qed.

(** ** Replies *)

(** A visitor's effect on the attributes of a message. *)
Fixpoint visit_all {A R} (step : A -> nlattr -> A + R) (acc : A) (l : list nlattr) : A + R :=
  match l with
  | [] => inl acc
  | a :: l => match step acc a with inl acc => visit_all step acc l | inr r => inr r end
  end.

Definition visits {A R} (buf : bytes) (visit : Z -> Z -> Z -> A -> M W (A + R)) (step : A -> nlattr -> A + R) (a : nlattr) : Prop :=
  forall p s acc w, buf = (p ++ encode_attr a ++ s)%list ->
    visit (NLA_HDRLEN + Z.of_nat (length (a_data a))) (a_type a) (Z.of_nat (length p)) acc w = (Done (step acc a), w).

Lemma read_attr_header a (p s : bytes) (w : W) :
  wf_attr a ->
  rd 2 (Z.of_nat (length p)) (p ++ encode_attr a ++ s) w = (Done (NLA_HDRLEN + Z.of_nat (length (a_data a))), w) /\
  rd 2 (Z.of_nat (length p) + 2) (p ++ encode_attr a ++ s) w = (Done (a_type a), w).
Proof.
  intros [Ht Hl]. unfold encode_attr. rewrite <- !app_assoc. split.
  - apply rd_mid; [done|by rewrite length_le_encode|]. rewrite le_decode_encode. apply Z.mod_small. unfold NLA_HDRLEN in *. lia.
  - rewrite (app_assoc p). apply rd_mid; [rewrite length_app, length_le_encode; lia|by rewrite length_le_encode|].
    rewrite le_decode_encode. by apply Z.mod_small.
Qed.

Lemma walk_run {A R} (visit : Z -> Z -> Z -> A -> M W (A + R)) step l :
  forall fuel p s acc (w : W),
    let buf := (p ++ encode_attrs l ++ s)%list in
    Forall wf_attr l -> Forall (visits buf visit step) l -> (length l < fuel)%nat ->
    walk fuel buf visit (Z.of_nat (length p)) (Z.of_nat (length (encode_attrs l))) acc w = (Done (visit_all step acc l), w).
Proof.
  induction l as [|a l IH]; intros fuel p s acc w buf Hwf Hv Hf; destruct fuel as [|fuel]; try (cbn in Hf; lia).
  { done. }
  apply list.Forall_cons in Hwf as [Ha Hl]. apply list.Forall_cons in Hv as [Hva Hvl].
  assert (encode_attrs (a :: l) = encode_attr a ++ encode_attrs l)%list as He by done.
  pose proof (length_encode_attr a) as La. pose proof (align4_bounds (Z.of_nat (length (a_data a)))) as Hb.
  cbn [walk visit_all]. rewrite He, length_app.
  assert (buf = p ++ encode_attr a ++ (encode_attrs l ++ s))%list as Hbuf by (unfold buf; by rewrite He, <- !app_assoc).
  destruct (read_attr_header a p (encode_attrs l ++ s) w Ha) as [R1 R2]. rewrite <- Hbuf in R1, R2.
  rewrite (proj2 (Z.ltb_ge _ _)) by (unfold NLA_HDRLEN in *; lia).
  rewrite (run_bind _ _ _ _ _ R1). rewrite (proj2 (Z.ltb_ge _ _)) by (unfold NLA_HDRLEN in *; lia).
  rewrite (run_bind _ _ _ _ _ R2). rewrite (run_bind _ _ _ _ _ (Hva p _ acc w Hbuf)).
  destruct (step acc a) as [acc'|r]; [|done].
  rewrite align4_header, <- La.
  replace (Z.of_nat (length p) + Z.of_nat (length (encode_attr a))) with (Z.of_nat (length (p ++ encode_attr a)%list))
    by (rewrite length_app; lia).
  replace (Z.of_nat (length (encode_attr a) + length (encode_attrs l)) - Z.of_nat (length (encode_attr a)))
    with (Z.of_nat (length (encode_attrs l))) by lia.
  assert (buf = (p ++ encode_attr a) ++ encode_attrs l ++ s)%list as Hbuf' by (by rewrite Hbuf, <- !app_assoc).
  rewrite Hbuf'. apply IH; [done| |cbn in Hf; lia]. by rewrite <- Hbuf'.
Qed.

(** One message in the buffer, whole or cut off by the buffer's size. *)
Lemma messages_whole {A R} (body : Z -> Z -> A -> M W (A + R)) m acc fuel (w : W) :
  msg_len m < 2 ^ 32 ->
  messages (Datatypes.S (Datatypes.S fuel)) (encode_msg m) body 0 (msg_len m) acc w = body 0 (msg_len m) acc w.
Proof.
  intros Hm. assert (0 <= Z.of_nat (length (n_payload m))) as Hp by lia. remember (Datatypes.S fuel) as f1 eqn:Hf1. cbn [messages].
  rewrite (proj2 (Z.ltb_ge _ _)) by (unfold msg_len, NLMSG_HDRLEN in *; lia).
  assert (rd 4 0 (encode_msg m) w = (Done (msg_len m), w)) as R1.
  { apply (rd_mid 4 0 []); [done|by rewrite length_le_encode|]. rewrite le_decode_encode. apply Z.mod_small.
    unfold msg_len, NLMSG_HDRLEN in *. lia. }
  rewrite (run_bind _ _ _ _ _ R1).
  rewrite (proj2 (Z.ltb_ge (msg_len m) NLMSG_HDRLEN)), (proj2 (Z.ltb_ge (msg_len m) (msg_len m)))
    by (unfold msg_len, NLMSG_HDRLEN in *; lia). cbn [orb].
  unfold mbind, M_bind. destruct (body 0 (msg_len m) acc w) as [[[a|r]| | | |] w']; try done.
  subst f1. cbn [messages].
  rewrite (proj2 (Z.ltb_lt _ _)) by (pose proof (align4_bounds (msg_len m)); unfold NLMSG_HDRLEN; lia). done.
Qed.

Lemma messages_cut {A R} (body : Z -> Z -> A -> M W (A + R)) m k acc fuel (w : W) :
  msg_len m < 2 ^ 32 -> Z.of_nat k < msg_len m ->
  messages (Datatypes.S fuel) (take k (encode_msg m)) body 0 (Z.of_nat k) acc w = (Done (inl acc), w).
Proof.
  intros Hm Hk. cbn [messages]. destruct (Z.ltb_spec (Z.of_nat k) NLMSG_HDRLEN) as [|Hge]; [done|].
  unfold NLMSG_HDRLEN in Hge.
  assert (rd 4 0 (take k (encode_msg m)) w = (Done (msg_len m), w)) as R1.
  { unfold encode_msg. rewrite take_app_ge by (rewrite length_le_encode; lia).
    apply (rd_mid 4 0 []); [done|by rewrite length_le_encode|]. rewrite le_decode_encode. apply Z.mod_small.
    unfold msg_len, NLMSG_HDRLEN in *. lia. }
  rewrite (run_bind _ _ _ _ _ R1). rewrite (proj2 (Z.ltb_lt (Z.of_nat k) _)) by done. by rewrite orb_true_r.
Qed.

Lemma read_msg_type m (w : W) : in_u 16 (n_type m) -> rd 2 4 (encode_msg m) w = (Done (n_type m), w).
Proof.
  intros Ht. unfold encode_msg. apply rd_mid; [by rewrite length_le_encode|by rewrite length_le_encode|].
  rewrite le_decode_encode. by apply Z.mod_small.
Qed.

(** The attributes of a generic-netlink message. *)
Lemma walk_msg {A R} (visit : Z -> Z -> Z -> A -> M W (A + R)) step m cmd v l acc (w : W) :
  n_payload m = genl_payload cmd v l -> msg_len m < 2 ^ 31 -> (length l < walk_fuel)%nat ->
  Forall wf_attr l -> Forall (visits (encode_msg m) visit step) l ->
  walk walk_fuel (encode_msg m) visit (0 + NLMSG_HDRLEN + GENL_HDRLEN)
    (sint 32 (msg_len m) - NLMSG_HDRLEN - GENL_HDRLEN) acc w = (Done (visit_all step acc l), w).
Proof.
  intros Hp Hm Hl Hwf Hv.
  assert (0 <= msg_len m) by (unfold msg_len, NLMSG_HDRLEN; lia).
  rewrite sint_small by (change (2 ^ (32 - 1)) with (2 ^ 31); lia).
  set (p := (le_encode 4 (msg_len m) ++ le_encode 2 (n_type m) ++ le_encode 2 (n_flags m) ++ le_encode 4 (n_seq m) ++
   le_encode 4 (n_pid m) ++ [cmd; v; 0; 0])%list).
  assert (length p = 20%nat) as Lp by (unfold p; by rewrite !length_app, !length_le_encode).
  assert (encode_msg m = p ++ encode_attrs l ++ [])%list as He.
  { unfold encode_msg, p. rewrite Hp, app_nil_r. unfold genl_payload. by rewrite <- !app_assoc. }
  rewrite He in *. replace (0 + NLMSG_HDRLEN + GENL_HDRLEN) with (Z.of_nat (length p)) by (by rewrite Lp).
  replace (msg_len m - NLMSG_HDRLEN - GENL_HDRLEN) with (Z.of_nat (length (encode_attrs l))).
  2: { unfold msg_len. rewrite Hp. unfold genl_payload. rewrite length_app. cbn [length]. unfold GENL_HDRLEN, NLMSG_HDRLEN. lia. }
  by apply walk_run.
Qed.

Lemma read_data n a k (p s : bytes) (w : W) :
  (n <= length (a_data a))%nat -> k = Z.of_nat (length p) ->
  rd n (k + NLA_HDRLEN) (p ++ encode_attr a ++ s) w = (Done (le_decode (take n (a_data a))), w).
Proof.
  intros Hn ->. unfold encode_attr. rewrite <- (take_drop n (a_data a)) at 2.
  rewrite <- !app_assoc, (app_assoc p), (app_assoc (p ++ _)).
  apply rd_mid; [rewrite !length_app, !length_le_encode; unfold NLA_HDRLEN; lia|rewrite length_take; lia|done].
Qed.

(** ** What the two readers make of an attribute *)

Definition family_step (_ : unit) (a : nlattr) : unit + Z :=
  if a_type a =? CTRL_ATTR_FAMILY_ID then inr (le_decode (take 2 (a_data a))) else inl tt.

Lemma family_visits buf a :
  (a_type a = CTRL_ATTR_FAMILY_ID -> (2 <= length (a_data a))%nat) -> visits buf (family_attr (W := W) buf) family_step a.
Proof.
  intros Ha p s acc w ->. unfold family_attr, family_step. destruct (Z.eqb_spec (a_type a) CTRL_ATTR_FAMILY_ID) as [He|]; [|by destruct acc].
  by rewrite (run_bind _ _ _ _ _ (read_data 2 a _ p s w (Ha He) eq_refl)).
Qed.

(** The value of an unsigned attribute of four or eight bytes. *)
Definition uint_of (data : bytes) : Z :=
  if (8 <=? length data)%nat then le_decode (take 8 data)
  else if (4 <=? length data)%nat then le_decode (take 4 data) else 0.

Definition param_step (out : NapiParams) (a : nlattr) : NapiParams + NapiParams :=
  let type := Z.land (a_type a) NLA_TYPE_MASK in
  if type =? kAttrNapiDeferHardIrqs then
    inl (mk_NapiParams (np_valid out) (u32 (uint_of (a_data a))) (np_groFlushNs out) (np_irqSuspendNs out))
  else if type =? kAttrNapiGroFlushTimeout then
    inl (mk_NapiParams (np_valid out) (np_deferHardIrqs out) (uint_of (a_data a)) (np_irqSuspendNs out))
  else if type =? kAttrNapiIrqSuspend then
    inl (mk_NapiParams (np_valid out) (np_deferHardIrqs out) (np_groFlushNs out) (uint_of (a_data a)))
  else inl out.

Lemma readUint_run a (p s : bytes) (w : W) :
  wf_attr a ->
  readUint (p ++ encode_attr a ++ s) (u64 (NLA_HDRLEN + Z.of_nat (length (a_data a)) - NLA_HDRLEN))
    (Z.of_nat (length p) + NLA_HDRLEN) w = (Done (uint_of (a_data a)), w).
Proof.
  intros [_ Hl]. unfold readUint, uint_of.
  rewrite wrap_small by (unfold in_u, NLA_HDRLEN in *; split; [lia|change (2 ^ 64) with 18446744073709551616; lia]).
  replace (NLA_HDRLEN + Z.of_nat (length (a_data a)) - NLA_HDRLEN) with (Z.of_nat (length (a_data a))) by lia.
  destruct (Nat.leb_spec 8 (length (a_data a))).
  { rewrite (proj2 (Z.leb_le _ _)) by lia. by apply read_data. }
  rewrite (proj2 (Z.leb_gt _ _)) by lia. destruct (Nat.leb_spec 4 (length (a_data a))).
  - rewrite (proj2 (Z.leb_le _ _)) by lia. by apply read_data.
  - by rewrite (proj2 (Z.leb_gt _ _)) by lia.
Qed.

Lemma param_visits buf a : wf_attr a -> visits buf (param_attr (W := W) buf) param_step a.
Proof.
  intros Ha p s acc w ->. unfold param_attr, param_step.
  repeat (case_match; [by rewrite (run_bind _ _ _ _ _ (readUint_run a p s w Ha))|]). done.
Qed.
End Wire.

(** ** The kernel's netdev family: a table of NAPI parameters behind GET and SET. *)

Inductive request := GetFamily | NapiSet (id defer gro susp : Z) | NapiGet (id : Z).

Definition wire (fam : Z) (r : request) : nlmsg :=
  match r with
  | GetFamily => genl_msg GENL_ID_CTRL NLM_F_REQUEST 1 CTRL_CMD_GETFAMILY [mk_attr CTRL_ATTR_FAMILY_NAME (c_str NETDEV_FAMILY_NAME)]
  | NapiSet id defer gro susp =>
      genl_msg fam (Z.lor NLM_F_REQUEST NLM_F_ACK) 2 kCmdNapiSet
        [mk_attr kAttrNapiId (le_encode 4 id); mk_attr kAttrNapiDeferHardIrqs (le_encode 4 defer);
         mk_attr kAttrNapiGroFlushTimeout (le_encode 8 gro); mk_attr kAttrNapiIrqSuspend (le_encode 8 susp)]
  | NapiGet id => genl_msg fam NLM_F_REQUEST 3 kCmdNapiGet [mk_attr kAttrNapiId (le_encode 4 id)]
  end.

(** NLA_UINT: four bytes when the value fits, eight otherwise. *)
Definition nla_uint (type v : Z) : nlattr := mk_attr type (le_encode (if v <? 2 ^ 32 then 4 else 8) v).

Definition is_param (a : nlattr) : Prop :=
  Z.land (a_type a) NLA_TYPE_MASK ∈ [kAttrNapiDeferHardIrqs; kAttrNapiGroFlushTimeout; kAttrNapiIrqSuspend].
#[export] Instance is_param_dec a : Decision (is_param a).
Proof. unfold is_param. apply _. Defined.

Definition carries (size : Z) (m : nlmsg) (l : list nlattr) : Prop :=
  msg_len m <= size /\ in_u 16 (n_type m) /\ Forall wf_attr l /\ exists cmd v, n_payload m = genl_payload cmd v l.

(** The documented answers: the family's id, an ACK, the parameters the NAPI runs with;
    a message may carry other attributes in any order between. *)
Inductive answers (fam : Z) : gmap Z (Z * Z * Z) -> request -> nlmsg -> gmap Z (Z * Z * Z) -> Prop :=
  | ans_family t m l a :
      n_type m = GENL_ID_CTRL -> carries 1024 m l ->
      List.find (fun a => a_type a =? CTRL_ATTR_FAMILY_ID) l = Some a -> a_data a = le_encode 2 fam ->
      Forall (fun a => a_type a = CTRL_ATTR_FAMILY_ID -> (2 <= length (a_data a))%nat) l ->
      answers fam t GetFamily m t
  | ans_set t id defer gro susp m rest :
      is_Some (t !! id) -> n_type m = NLMSG_ERROR -> n_payload m = (le_encode 4 0 ++ rest)%list -> msg_len m <= 1024 ->
      answers fam t (NapiSet id defer gro susp) m (<[id := (defer, gro, susp)]> t)
  | ans_get t id defer gro susp m l :
      t !! id = Some (defer, gro, susp) -> n_type m = fam -> carries 2048 m l ->
      filter is_param l = [mk_attr kAttrNapiDeferHardIrqs (le_encode 4 defer);
                           nla_uint kAttrNapiGroFlushTimeout gro; nla_uint kAttrNapiIrqSuspend susp] ->
      answers fam t (NapiGet id) m t.

Definition served (t : gmap Z (Z * Z * Z)) (r : request) : Prop :=
  match r with
  | GetFamily => True
  | NapiSet id d g s => is_Some (t !! id) /\ in_u 32 id /\ in_u 32 d /\ in_u 64 g /\ in_u 64 s
  | NapiGet id => is_Some (t !! id) /\ in_u 32 id
  end.

Class NetdevKernel (W : Type) `{NlSys W} (fam : Z) := {
  nd_table : W -> gmap Z (Z * Z * Z);
  nd_family : in_u 16 fam /\ fam <> 0 /\ fam <> NLMSG_ERROR;
  nd_socket w : 0 <= fst (nl_socket NETLINK_GENERIC w) /\ nd_table (snd (nl_socket NETLINK_GENERIC w)) = nd_table w;
  nd_close fd w : nd_table (nl_close fd w) = nd_table w;
  nd_answers fd r w : served (nd_table w) r ->
    exists m w1, nl_send fd (encode_msg (wire fam r)) w = (true, w1) /\ answers fam (nd_table w) r m (nd_table w1) /\
      forall sz, msg_len m <= Z.of_nat sz ->
        exists w2, nl_recv fd sz w1 = (Some (encode_msg m), w2) /\ nd_table w2 = nd_table w1;
}.

Lemma attrs_count l : Z.of_nat (4 * length l) <= Z.of_nat (length (encode_attrs l)).
Proof.
  induction l as [|a l IH]; [done|]. unfold encode_attrs in *. cbn [fmap list_fmap concat length].
  rewrite length_app. pose proof (length_encode_attr a). pose proof (align4_bounds (Z.of_nat (length (a_data a)))).
  unfold NLA_HDRLEN in *. lia.
Qed.

Lemma carries_fuel size m l : carries size m l -> size <= 2048 -> (length l < walk_fuel)%nat.
Proof.
  intros (Hm & _ & _ & cmd & v & Hp) Hs. unfold msg_len in Hm. rewrite Hp in Hm. unfold genl_payload in Hm.
  rewrite length_app in Hm. pose proof (attrs_count l). unfold walk_fuel, NLMSG_HDRLEN in *. lia.
Qed.

Lemma visit_family l a id :
  List.find (fun a => a_type a =? CTRL_ATTR_FAMILY_ID) l = Some a -> a_data a = le_encode 2 id -> in_u 16 id ->
  visit_all family_step tt l = inr id.
Proof.
  intros Hf Hd Hi. induction l as [|b l IH]; [done|]. cbn [List.find visit_all] in *. unfold family_step at 1.
  destruct (a_type b =? CTRL_ATTR_FAMILY_ID) eqn:He; [|by apply IH].
  injection Hf as ->. rewrite Hd, take_ge by (by rewrite length_le_encode). rewrite le_decode_encode. f_equal.
  by apply Z.mod_small.
Qed.

Lemma visit_params l out : visit_all param_step out l = visit_all param_step out (filter is_param l).
Proof.
  revert out; induction l as [|a l IH]; intros out; [done|]. destruct (decide (is_param a)) as [Ha|Ha].
  - rewrite filter_cons_True by done. cbn [visit_all]. destruct (param_step out a); [apply IH|done].
  - rewrite filter_cons_False by done. cbn [visit_all]. assert (param_step out a = inl out) as ->; [|apply IH].
    unfold param_step, is_param in *. repeat case_match; try done;
      exfalso; apply Ha; repeat (rewrite elem_of_cons || rewrite elem_of_nil); lia.
Qed.

Lemma uint_of_nla type v : in_u 64 v -> uint_of (a_data (nla_uint type v)) = v.
Proof.
  intros Hv. unfold nla_uint, uint_of. cbn [a_data]. rewrite !length_le_encode. destruct (Z.ltb_spec v (2 ^ 32)).
  - cbn [Nat.leb]. rewrite take_ge by (by rewrite length_le_encode). rewrite le_decode_encode. apply Z.mod_small.
    unfold in_u in Hv. lia.
  - cbn [Nat.leb]. rewrite take_ge by (by rewrite length_le_encode). rewrite le_decode_encode. by apply Z.mod_small.
Qed.

Lemma params_read d g s :
  in_u 32 d -> in_u 64 g -> in_u 64 s ->
  visit_all param_step no_params [mk_attr kAttrNapiDeferHardIrqs (le_encode 4 d); nla_uint kAttrNapiGroFlushTimeout g;
    nla_uint kAttrNapiIrqSuspend s] = inl (mk_NapiParams false d g s).
Proof.
  intros Hd Hg Hs. cbn [visit_all].
  assert (forall out, param_step out (mk_attr kAttrNapiDeferHardIrqs (le_encode 4 d)) =
    inl (mk_NapiParams (np_valid out) d (np_groFlushNs out) (np_irqSuspendNs out))) as ->.
  { intros out. unfold param_step. cbn [a_type a_data].
    change (Z.land kAttrNapiDeferHardIrqs NLA_TYPE_MASK =? kAttrNapiDeferHardIrqs) with true. cbv iota.
    change (uint_of (le_encode 4 d)) with (le_decode (le_encode 4 d)). rewrite le_decode_encode.
    change (8 * Z.of_nat 4) with 32. fold (u32 d). by rewrite wrap_wrap, (wrap_small 32 d). }
  assert (forall out, param_step out (nla_uint kAttrNapiGroFlushTimeout g) =
    inl (mk_NapiParams (np_valid out) (np_deferHardIrqs out) g (np_irqSuspendNs out))) as ->.
  { intros out. rewrite <- (uint_of_nla kAttrNapiGroFlushTimeout g Hg) at 2. done. }
  assert (forall out, param_step out (nla_uint kAttrNapiIrqSuspend s) =
    inl (mk_NapiParams (np_valid out) (np_deferHardIrqs out) (np_groFlushNs out) s)) as ->.
  { intros out. rewrite <- (uint_of_nla kAttrNapiIrqSuspend s Hs) at 2. done. }
  done.
Qed.

Section Exchange.
Context {W : Type} `{NetdevKernel W fam}.

(** The program's request buffers hold the wire form. *)
Ltac put_step := erewrite run_bind; [|apply put_draft; [done|done|done]]; cbn beta iota.

Lemma family_request_run {A} (k : bytes -> M W A) (w : W) :
  (buf ← genl_request 512 GENL_ID_CTRL NLM_F_REQUEST 1 CTRL_CMD_GETFAMILY;
   '(buf, off) ← putAttrStr buf (align4 (NLMSG_HDRLEN + GENL_HDRLEN)) CTRL_ATTR_FAMILY_NAME NETDEV_FAMILY_NAME;
   req ← finish_request buf off; k req) w = k (encode_msg (wire fam GetFamily)) w.
Proof.
  rewrite (run_bind _ _ _ _ _ (genl_request_run 492 _ _ _ _ w)). unfold putAttrStr.
  put_step. erewrite run_bind; [|by apply finish_draft]. done.
Qed.

Lemma set_request_run {A} id d g s (k : bytes -> M W A) (w : W) :
  (buf ← genl_request 512 fam (Z.lor NLM_F_REQUEST NLM_F_ACK) 2 kCmdNapiSet;
   '(buf, off) ← putAttr 4 buf (align4 (NLMSG_HDRLEN + GENL_HDRLEN)) kAttrNapiId id;
   '(buf, off) ← putAttr 4 buf off kAttrNapiDeferHardIrqs d;
   '(buf, off) ← putAttr 8 buf off kAttrNapiGroFlushTimeout g;
   '(buf, off) ← putAttr 8 buf off kAttrNapiIrqSuspend s;
   req ← finish_request buf off; k req) w = k (encode_msg (wire fam (NapiSet id d g s))) w.
Proof.
  rewrite (run_bind _ _ _ _ _ (genl_request_run 492 _ _ _ _ w)). unfold putAttr.
  do 4 put_step. erewrite run_bind; [|by apply finish_draft]. done.
Qed.

Lemma get_request_run {A} id (k : bytes -> M W A) (w : W) :
  (buf ← genl_request 256 fam NLM_F_REQUEST 3 kCmdNapiGet;
   '(buf, off) ← putAttr 4 buf (align4 (NLMSG_HDRLEN + GENL_HDRLEN)) kAttrNapiId id;
   req ← finish_request buf off; k req) w = k (encode_msg (wire fam (NapiGet id))) w.
Proof.
  rewrite (run_bind _ _ _ _ _ (genl_request_run 236 _ _ _ _ w)). unfold putAttr.
  put_step. erewrite run_bind; [|by apply finish_draft]. done.
Qed.

Lemma sysM_run {A B} (f : W -> A * W) (k : A -> M W B) w a w' : f w = (a, w') -> (sysM f ≫= k) w = k a w'.
Proof. intros Hf. apply run_bind. unfold sysM, lift. by rewrite Hf. Qed.

Lemma resolve_run fd (w : W) :
  exists w', resolveFamily fd NETDEV_FAMILY_NAME w = (Done fam, w') /\ nd_table w' = nd_table w.
Proof.
  destruct (nd_answers fd GetFamily w I) as (m & w1 & Hs & Ha & Hr). inversion Ha as [t m' l a Ht Hc Hf Hd Hl| |]; subst.
  pose proof Hc as (Hm & Hty & Hwf & cmd & v & Hp).
  destruct (Hr 1024%nat) as (w2 & Hr2 & Ht2); [lia|].
  exists w2. split; [|congruence]. unfold resolveFamily. rewrite family_request_run.
  rewrite (sysM_run _ _ _ _ _ Hs). cbn [negb]. rewrite (sysM_run _ _ _ _ _ Hr2). rewrite length_encode_msg.
  assert (NLMSG_HDRLEN <= msg_len m) as Hlo by (unfold msg_len; lia).
  rewrite (proj2 (Z.ltb_ge _ _)) by done.
  assert (messages walk_fuel (encode_msg m) (family_msg (encode_msg m)) 0 (msg_len m) tt w2 = (Done (inr fam), w2)) as Hrun.
  { unfold walk_fuel. rewrite messages_whole by lia. unfold family_msg.
    rewrite (run_bind _ _ _ _ _ (read_msg_type m w2 Hty)). rewrite Ht. cbn [GENL_ID_CTRL NLMSG_ERROR NLMSG_DONE Z.eqb Pos.eqb orb].
    rewrite (walk_msg _ family_step m cmd v l tt w2 Hp); [|lia|by eapply carries_fuel|done|].
    - f_equal. f_equal. eapply visit_family; [done|done|apply nd_family].
    - eapply list.Forall_impl; [exact Hl|]. intros b Hb. by apply family_visits. }
  by rewrite (run_bind _ _ _ _ _ Hrun).
Qed.

Lemma setBusyPoll_run id d g s (w : W) :
  is_Some (nd_table w !! id) -> in_u 32 id -> in_u 32 d -> in_u 64 g -> in_u 64 s ->
  exists w', setBusyPoll id d g s w = (Done true, w') /\ nd_table w' = <[id := (d, g, s)]> (nd_table w).
Proof.
  intros Hid Hir Hdr Hgr Hsr. pose proof nd_family as (Hfr & Hf0 & _). pose proof (nd_socket w) as [Hfd Ht0]. unfold setBusyPoll.
  destruct (nl_socket NETLINK_GENERIC w) as [fd w0] eqn:Hso. cbn [fst snd] in *.
  rewrite (sysM_run _ _ _ _ _ Hso). rewrite (proj2 (Z.ltb_ge fd 0)) by done.
  destruct (resolve_run fd w0) as (w1 & Hres & Ht1). rewrite (run_bind _ _ _ _ _ Hres).
  rewrite (proj2 (Z.eqb_neq fam 0)) by done. rewrite set_request_run.
  destruct (nd_answers fd (NapiSet id d g s) w1) as (m & w2 & Hs & Ha & Hr); [cbn [served]; by rewrite Ht1, Ht0|].
  inversion Ha as [|t id' d' g' s' m' rest Hin Hty Hp Hm|]; subst.
  destruct (Hr 1024%nat) as (w3 & Hr3 & Ht3); [lia|].
  rewrite (sysM_run _ _ _ _ _ Hs). cbn [negb]. rewrite (sysM_run _ _ _ _ _ Hr3).
  exists (nl_close fd w3). unfold modify at 1. erewrite run_bind by done. rewrite length_encode_msg.
  rewrite (proj2 (Z.ltb_ge _ _)) by (unfold msg_len; lia).
  rewrite (run_bind _ _ _ _ _ (read_msg_type m _ ltac:(by rewrite Hty))). rewrite Hty. cbn [NLMSG_ERROR Z.eqb Pos.eqb].
  assert (rd 4 NLMSG_HDRLEN (encode_msg m) (nl_close fd w3) = (Done 0, nl_close fd w3)) as He.
  { unfold encode_msg. rewrite Hp, !app_assoc, <- (app_assoc _ (le_encode 4 0)).
    apply rd_mid; [by rewrite !length_app, !length_le_encode|done|done]. }
  rewrite (run_bind _ _ _ _ _ He). split; [done|]. rewrite nd_close, Ht3. congruence.
Qed.

Lemma getBusyPoll_run id d g s (w : W) :
  nd_table w !! id = Some (d, g, s) -> in_u 32 id -> in_u 32 d -> in_u 64 g -> in_u 64 s ->
  exists w', getBusyPoll id w = (Done (mk_NapiParams true d g s), w') /\ nd_table w' = nd_table w.
Proof.
  intros Hid Hir Hd Hg Hs'. pose proof nd_family as (Hfr & Hf0 & Hf2). pose proof (nd_socket w) as [Hfd Ht0]. unfold getBusyPoll.
  destruct (nl_socket NETLINK_GENERIC w) as [fd w0] eqn:Hso. cbn [fst snd] in *.
  rewrite (sysM_run _ _ _ _ _ Hso). rewrite (proj2 (Z.ltb_ge fd 0)) by done.
  destruct (resolve_run fd w0) as (w1 & Hres & Ht1). rewrite (run_bind _ _ _ _ _ Hres).
  rewrite (proj2 (Z.eqb_neq fam 0)) by done. rewrite get_request_run.
  destruct (nd_answers fd (NapiGet id) w1) as (m & w2 & Hs & Ha & Hr); [cbn [served]; by rewrite Ht1, Ht0, Hid|].
  inversion Ha as [| |t id' d' g' s' m' l Hin Hty Hc Hl]; subst.
  assert ((d', g', s') = (d, g, s)) as [= -> -> ->] by (rewrite Ht1, Ht0, Hid in Hin; congruence).
  pose proof Hc as (Hm & Htr & Hwf & cmd & v & Hp).
  destruct (Hr 2048%nat) as (w3 & Hr3 & Ht3); [lia|].
  rewrite (sysM_run _ _ _ _ _ Hs). cbn [negb]. rewrite (sysM_run _ _ _ _ _ Hr3).
  exists (nl_close fd w3). unfold modify at 1. erewrite run_bind by done. rewrite length_encode_msg.
  rewrite (proj2 (Z.ltb_ge _ _)) by (unfold msg_len; lia).
  split; [|rewrite nd_close; congruence].
  assert (messages walk_fuel (encode_msg m) (param_msg (n_type m) (encode_msg m)) 0 (msg_len m) no_params (nl_close fd w3) =
    (Done (inl (mk_NapiParams true d g s)), nl_close fd w3)) as Hrun; [|by rewrite (run_bind _ _ _ _ _ Hrun)].
  unfold walk_fuel. rewrite messages_whole by lia. unfold param_msg.
  rewrite (run_bind _ _ _ _ _ (read_msg_type m _ Htr)). rewrite (proj2 (Z.eqb_neq _ _) Hf2), Z.eqb_refl. cbn [negb].
  erewrite run_bind; [|apply (walk_msg _ param_step m cmd v l no_params _ Hp); [lia|by eapply carries_fuel|done|]].
  - by rewrite visit_params, Hl, params_read.
  - eapply list.Forall_impl; [exact Hwf|]. intros b Hb. by apply param_visits.
Qed.
End Exchange.


(** ** A simulated kernel with the netdev family *)

Record sim_nd := { sn_table : gmap Z (Z * Z * Z); sn_reply : bytes }.

Definition sim_family : Z := 28.

Definition sim_ack : nlmsg := mk_msg NLMSG_ERROR 0 2 0 (le_encode 4 0 ++ replicate 16 0).
Definition sim_family_attrs : list nlattr :=
  [mk_attr CTRL_ATTR_FAMILY_NAME (c_str NETDEV_FAMILY_NAME); mk_attr CTRL_ATTR_FAMILY_ID (le_encode 2 sim_family);
   mk_attr 3 (le_encode 4 1)].
Definition sim_params_attrs (id d g s : Z) : list nlattr :=
  [mk_attr 1 (le_encode 4 2); mk_attr kAttrNapiId (le_encode 4 id); mk_attr kAttrNapiDeferHardIrqs (le_encode 4 d);
   nla_uint kAttrNapiGroFlushTimeout g; nla_uint kAttrNapiIrqSuspend s].

Definition sim_send (req : bytes) (k : sim_nd) : sim_nd :=
  let word n off := le_decode (slice off n req) in
  if word 2%nat 4%nat =? GENL_ID_CTRL then
    {| sn_table := sn_table k; sn_reply := encode_msg (genl_msg GENL_ID_CTRL 0 1 CTRL_CMD_GETFAMILY sim_family_attrs) |}
  else
    let id := word 4%nat 24%nat in
    match sn_table k !! id with
    | None => {| sn_table := sn_table k; sn_reply := encode_msg (mk_msg NLMSG_ERROR 0 2 0 (le_encode 4 (-2) ++ replicate 16 0)) |}
    | Some (d, g, s) =>
        if word 1%nat 16%nat =? kCmdNapiSet then
          {| sn_table := <[id := (word 4%nat 32%nat, word 8%nat 40%nat, word 8%nat 52%nat)]> (sn_table k); sn_reply := encode_msg sim_ack |}
        else {| sn_table := sn_table k; sn_reply := encode_msg (genl_msg sim_family 0 3 kCmdNapiGet (sim_params_attrs id d g s)) |}
    end.

#[export] Instance sim_NlSys : NlSys sim_nd := {|
  nl_socket p w := (3, w);
  nl_close fd w := w;
  nl_send fd req w := (true, sim_send req w);
  nl_recv fd n w := (Some (take n (sn_reply w)), w);
  nl_nametoindex i w := (2, w);
  ethtool_get_channels fd i w := (Some (mk_channels 0 0 0 8 0 0 0 4), w);
  ethtool_set_channels fd i ch w := (true, w);
  file_open p w := (4, w);
  file_write fd s w := (Z.of_nat (String.length s), w);
  file_read fd n w := (Some "2"%string, w);
  get_xdp_options fd w := Some 1;
  get_busy_poll fd w := Some 20;
  get_prefer_busy_poll fd w := Some 1;
  get_domain fd w := Some (if fd =? 7 then AF_XDP else 1);
  list_self_fds w := Some ["."; ".."; "0"; "7"]%string;
|}.

Lemma sim_set_words id d g s :
  let req := encode_msg (wire sim_family (NapiSet id d g s)) in
  slice 4 2 req = le_encode 2 sim_family /\ slice 16 1 req = [14] /\ slice 24 4 req = le_encode 4 id /\
  slice 32 4 req = le_encode 4 d /\ slice 40 8 req = le_encode 8 g /\ slice 52 8 req = le_encode 8 s.
Proof. done. Qed.

Lemma sim_get_words id :
  let req := encode_msg (wire sim_family (NapiGet id)) in
  slice 4 2 req = le_encode 2 sim_family /\ slice 16 1 req = [11] /\ slice 24 4 req = le_encode 4 id.
Proof. done. Qed.

Lemma take_msg sz m : msg_len m <= Z.of_nat sz -> take sz (encode_msg m) = encode_msg m.
Proof. intros Hm. apply take_ge. pose proof (length_encode_msg m). lia. Qed.

Lemma sim_params_carried id d g s :
  carries 2048 (genl_msg sim_family 0 3 kCmdNapiGet (sim_params_attrs id d g s)) (sim_params_attrs id d g s).
Proof.
  assert (Forall wf_attr (sim_params_attrs id d g s)) as Hwf.
  { unfold sim_params_attrs. repeat (apply list.Forall_cons; split); try (by split); [| |apply list.Forall_nil]; try done.
    all: unfold nla_uint; case_match; split; done. }
  split; [|split; [done|split; [exact Hwf|by eexists _, _]]].
  unfold sim_params_attrs, nla_uint. by do 2 case_match.
Qed.

#[export] Program Instance sim_NetdevKernel : NetdevKernel sim_nd sim_family := {| nd_table := sn_table |}.
Next Obligation. done. Qed.
Next Obligation. done. Qed.
Next Obligation. done. Qed.
Next Obligation.
  intros fd r w Hr. destruct r as [|id d g s|id]; cbn [nl_send nl_recv sim_NlSys].
  - eexists (genl_msg GENL_ID_CTRL 0 1 CTRL_CMD_GETFAMILY sim_family_attrs), _. split; [done|]. split.
    + apply (ans_family _ _ _ sim_family_attrs (mk_attr CTRL_ATTR_FAMILY_ID (le_encode 2 sim_family))); [done| |reflexivity|done|].
      * split; [done|]. split; [done|]. split; [|by eexists _, _]. unfold sim_family_attrs. by repeat (apply list.Forall_cons; split).
      * unfold sim_family_attrs. repeat (apply list.Forall_cons; split); try apply list.Forall_nil; cbn [a_type a_data]; intros; cbn; lia.
    + intros sz Hsz. eexists. split; [|done]. f_equal. f_equal. by apply take_msg.
  - destruct Hr as ([[[d0 g0] s0] Hin] & Hi & Hd & Hg & Hs).
    destruct (sim_set_words id d g s) as (E1 & E2 & E3 & E4 & E5 & E6). cbn zeta in E1, E2, E3, E4, E5, E6.
    unfold sim_send. rewrite E1, E2, E3, E4, E5, E6. rewrite !le_decode_encode.
    rewrite (Z.mod_small id), (Z.mod_small d), (Z.mod_small g), (Z.mod_small s) by done. cbn -[le_encode encode_msg take].
    rewrite Hin. cbn -[le_encode encode_msg take sim_ack].
    eexists sim_ack, _. split; [done|]. split; [by eapply ans_set|].
    intros sz Hsz. eexists. split; [|done]. f_equal. f_equal. by apply take_msg.
  - destruct Hr as ([[[d g] s] Hin] & Hi). destruct (sim_get_words id) as (E1 & E2 & E3). cbn zeta in E1, E2, E3.
    unfold sim_send. rewrite E1, E2, E3. rewrite !le_decode_encode. rewrite (Z.mod_small id) by done.
    cbn -[le_encode encode_msg take sim_params_attrs]. rewrite Hin. cbn -[le_encode encode_msg take sim_params_attrs].
    eexists (genl_msg sim_family 0 3 kCmdNapiGet (sim_params_attrs id d g s)), _. split; [done|]. split.
    + eapply ans_get; [done|done|apply sim_params_carried|]. unfold sim_params_attrs, nla_uint. by do 2 case_match.
    + intros sz Hsz. eexists. split; [|done]. f_equal. f_equal. by apply take_msg.
Qed.

Definition sim_kernel : sim_nd := {| sn_table := {[8193 := (0, 0, 0); 8194 := (1, 2, 3)]}; sn_reply := [] |}.


(** ** Termination of the attribute walk *)

Lemma rd_value {W} n off buf (w : W) :
  rd n off buf w = match load (Z.to_nat off) n buf with Some b => (Done (le_decode b), w) | None => (Undef, w) end.
Proof. unfold rd. by case_match. Qed.

Lemma readUint_stops {W} buf plen payload (w : W) : fst (readUint buf plen payload w) <> NoFuel.
Proof. unfold readUint. repeat case_match; rewrite ?rd_value; by repeat case_match. Qed.

Lemma param_attr_stops {W} buf len type attr out (w : W) : fst (param_attr buf len type attr out w) <> NoFuel.
Proof.
  unfold param_attr, mbind, M_bind.
  repeat case_match; simplify_eq/=; try done;
    match goal with E : readUint ?b ?p ?q ?w0 = (NoFuel, _) |- _ => pose proof (readUint_stops b p q w0) as Hn; by rewrite E in Hn end.
Qed.

Lemma readUint_pure {W} buf plen payload (w : W) : snd (readUint buf plen payload w) = w.
Proof. unfold readUint. repeat case_match; rewrite ?rd_value; by repeat case_match. Qed.

Lemma param_attr_pure {W} buf len type attr out (w : W) : snd (param_attr buf len type attr out w) = w.
Proof.
  unfold param_attr, mbind, M_bind.
  repeat case_match; simplify_eq/=; try done;
    match goal with E : readUint ?b ?p ?q ?w0 = (_, _) |- _ => pose proof (readUint_pure b p q w0) as Hn; by rewrite E in Hn end.
Qed.

(** The walk over a reply's attributes consumes at least four bytes a round, so it ends
    within a quarter of the remaining length, unless it meets an attribute header whose
    length is zero; at such a header of a type the reader ignores it stays for ever. *)
Theorem attr_walk_termination {W} (w : W) (buf : bytes) :
  (forall fuel attr rem out, 0 <= attr -> - NLA_HDRLEN < rem <= 4 * Z.of_nat fuel - NLA_HDRLEN ->
     fst (walk fuel buf (param_attr buf) attr rem out w) = NoFuel ->
     exists a b, attr <= a /\ load (Z.to_nat a) 2 buf = Some b /\ le_decode b <= 0) /\
  (forall fuel attr rem out b t, NLA_HDRLEN <= rem -> 0 <= attr ->
     load (Z.to_nat attr) 2 buf = Some b -> le_decode b = 0 ->
     load (Z.to_nat (attr + 2)) 2 buf = Some t -> ~ is_param (mk_attr (le_decode t) []) ->
     walk fuel buf (param_attr buf) attr rem out w = (NoFuel, w)).
Proof.
  split.
  - induction fuel as [|fuel IH]; intros attr rem out Ha Hr; cbn [walk].
    { unfold NLA_HDRLEN in Hr. lia. }
    destruct (Z.ltb_spec rem NLA_HDRLEN) as [|Hge]; [done|].
    unfold mbind at 1, M_bind at 1. rewrite rd_value. destruct (load (Z.to_nat attr) 2 buf) as [b|] eqn:Hl; [|done].
    destruct (Z.ltb_spec rem (le_decode b)) as [|Hle]; [done|].
    unfold mbind at 1, M_bind at 1. rewrite rd_value. destruct (load (Z.to_nat (attr + 2)) 2 buf) as [t|]; [|done].
    unfold mbind, M_bind. pose proof (param_attr_stops buf (le_decode b) (le_decode t) attr out w) as Hn.
    pose proof (param_attr_pure buf (le_decode b) (le_decode t) attr out w) as Hw.
    destruct (param_attr buf (le_decode b) (le_decode t) attr out w) as [[[o|o]| | | |] w']; cbn in Hw, Hn; subst w'; try done.
    destruct (Z.le_gt_cases (le_decode b) 0) as [Hz|Hz]; [intros _; by exists attr, b|].
    intros Hf. pose proof (align4_bounds (le_decode b)) as [[Hb1 Hb2] Hb3].
    assert (4 <= align4 (le_decode b)) by (rewrite align4_spec in *; dlia).
    destruct (IH (attr + align4 (le_decode b)) (rem - align4 (le_decode b)) o) as (a & b' & Hle' & Hx); [lia|unfold NLA_HDRLEN in *; lia|done|].
    exists a, b'. split; [lia|done].
  - induction fuel as [|fuel IH]; intros attr rem out b t Hge Ha Hl Hb Ht Hp; [done|]. cbn [walk].
    rewrite (proj2 (Z.ltb_ge _ _)) by done. erewrite run_bind by (by rewrite rd_value, Hl). rewrite Hb.
    rewrite (proj2 (Z.ltb_ge rem 0)) by (unfold NLA_HDRLEN in *; lia). erewrite run_bind by (by rewrite rd_value, Ht).
    assert (param_attr buf 0 (le_decode t) attr out w = (Done (inl out), w)) as Hv.
    { unfold param_attr. unfold is_param in Hp. cbn [a_type] in Hp.
      repeat (case_match; [exfalso; apply Hp; repeat (rewrite elem_of_cons || rewrite elem_of_nil); lia|]). done. }
    rewrite (run_bind _ _ _ _ _ Hv). change (align4 0) with 0. rewrite Z.add_0_r, Z.sub_0_r. by eapply IH.
Qed.

(** A reply of the family whose first attribute has length zero. *)
Definition zero_attr_reply : bytes := encode_msg (mk_msg 28 0 3 0 ([11; 1; 0; 0] ++ replicate 8 0)).

Lemma attr_walk_termination_witness :
  (forall fuel, walk fuel zero_attr_reply (param_attr zero_attr_reply) 20 8 no_params tt = (NoFuel, tt)) /\
  (exists a b, 20 <= a /\ load (Z.to_nat a) 2 zero_attr_reply = Some b /\ le_decode b <= 0).
Proof.
  destruct (attr_walk_termination tt zero_attr_reply) as [H1 H2]. split.
  - intros fuel. apply (H2 fuel 20 8 no_params [0; 0] [0; 0]); [done|done|done|done|done|by_decision].
  - apply (H1 walk_fuel 20 8 no_params); [done|done|vm_compute; reflexivity].
Defined.

(** ** Descriptors: every helper closes what it opens. *)

(** The resources of the machine, by kind, handle and size. *)
Class Resources (W : Type) := { res : W -> gset (Z * Z * Z) }.

Definition desc (fd : Z) : Z * Z * Z := (4, fd, 0).

(** What the kernel sends back on a netlink socket: one message, an error or a
    generic-netlink message whose attributes are well formed. *)
Definition wf_msg (m : nlmsg) : Prop :=
  msg_len m < 2 ^ 31 /\ in_u 16 (n_type m) /\
  (if n_type m =? NLMSG_ERROR then (4 <= length (n_payload m))%nat
   else exists cmd v l, n_payload m = genl_payload cmd v l /\ Forall wf_attr l /\
        Forall (fun a => a_type a = CTRL_ATTR_FAMILY_ID -> (2 <= length (a_data a))%nat) l).

Class NlSysLaws (W : Type) `{NlSys W, Resources W} := {
  nl_socket_law p w : if decide (fst (nl_socket p w) < 0) then res (snd (nl_socket p w)) = res w
    else desc (fst (nl_socket p w)) ∉ res w /\ res (snd (nl_socket p w)) = {[desc (fst (nl_socket p w))]} ∪ res w;
  nl_open_law p w : if decide (fst (file_open p w) < 0) then res (snd (file_open p w)) = res w
    else desc (fst (file_open p w)) ∉ res w /\ res (snd (file_open p w)) = {[desc (fst (file_open p w))]} ∪ res w;
  nl_close_law fd w : res (nl_close fd w) = res w ∖ {[desc fd]};
  nl_send_law fd b w : res (snd (nl_send fd b w)) = res w;
  nl_recv_law fd n w : res (snd (nl_recv fd n w)) = res w;
  nl_nametoindex_law i w : res (snd (nl_nametoindex i w)) = res w;
  nl_get_channels_law fd i w : res (snd (ethtool_get_channels fd i w)) = res w;
  nl_set_channels_law fd i c w : res (snd (ethtool_set_channels fd i c w)) = res w;
  nl_write_law fd s w : res (snd (file_write fd s w)) = res w;
  nl_read_law fd n w : res (snd (file_read fd n w)) = res w;
  nl_recv_reply_law fd n w : match fst (nl_recv fd n w) with
    | Some b => exists m, wf_msg m /\ b = take n (encode_msg m)
    | None => True
    end;
}.

Section Balance.
Context {W : Type} `{NlSysLaws W}.

(** [to X Y m]: with the resources [X], [m] ends normally and leaves [Y]. *)
Definition to {A : Type} (X Y : gset (Z * Z * Z)) (m : M W A) : Prop :=
  forall w, res w = X -> exists a w', m w = (Done a, w') /\ res w' = Y.

(** [m] gives back what it took. *)
Definition settled {A : Type} (m : M W A) : Prop := forall X, to X X m.

Lemma to_bind {A B} X Y Z' (m : M W A) (f : A -> M W B) : to X Y m -> (forall a, to Y Z' (f a)) -> to X Z' (m ≫= f).
Proof.
  intros Hm Hf w Hw. destruct (Hm w Hw) as (a & w1 & E & Hw1). rewrite (run_bind _ _ _ _ _ E). by apply Hf.
Qed.

Lemma to_ret {A} X (a : A) : to X X (mret a).
Proof. intros w Hw. by eexists _, _. Qed.

Lemma to_sys {A} X (f : W -> A * W) : (forall w, res (snd (f w)) = res w) -> to X X (sysM f).
Proof. intros Hf w Hw. unfold sysM, lift. pose proof (Hf w). destruct (f w) as [a w']. eexists _, _. split; [done|]. cbn in *. congruence. Qed.

Lemma to_recv {A} X fd n (k : option bytes -> M W A) :
  to X X (k None) -> (forall m, wf_msg m -> to X X (k (Some (take n (encode_msg m))))) -> to X X (sysM (nl_recv fd n) ≫= k).
Proof.
  intros Hn Hs w Hw. unfold sysM, lift, mbind, M_bind. pose proof (nl_recv_law fd n w) as Hr. pose proof (nl_recv_reply_law fd n w) as Hl.
  destruct (nl_recv fd n w) as [[b|] w']; cbn [fst snd] in *; [|apply Hn; congruence].
  destruct Hl as (m & Hm & ->). apply Hs; [done|congruence].
Qed.

(** [recv] on a descriptor that is then closed. *)
Lemma to_recv_close {A} X fd n (k : option bytes -> M W A) :
  desc fd ∉ X -> to X X (k None) -> (forall m, wf_msg m -> to X X (k (Some (take n (encode_msg m))))) ->
  to ({[desc fd]} ∪ X) X (r ← sysM (nl_recv fd n); modify (nl_close fd) ;; k r).
Proof.
  intros Hfd Hn Hs w Hw. unfold sysM, lift, modify, mbind, M_bind. pose proof (nl_recv_law fd n w) as Hr. pose proof (nl_recv_reply_law fd n w) as Hl.
  destruct (nl_recv fd n w) as [[b|] w']; cbn [fst snd] in *.
  - destruct Hl as (m & Hm & ->). apply Hs; [done|]. rewrite nl_close_law, Hr, Hw. set_solver.
  - apply Hn. rewrite nl_close_law, Hr, Hw. set_solver.
Qed.

Lemma to_close {A} X fd (m : M W A) : desc fd ∉ X -> to X X m -> to ({[desc fd]} ∪ X) X (modify (nl_close fd) ;; m).
Proof. intros Hfd Hm w Hw. unfold modify, mbind, M_bind. apply Hm. rewrite nl_close_law, Hw. set_solver. Qed.

Lemma to_if {A} X Y (b : bool) (m1 m2 : M W A) : to X Y m1 -> to X Y m2 -> to X Y (if b then m1 else m2).
Proof. by destruct b. Qed.

(** A descriptor is taken, or the call failed. *)
Lemma to_acquire {A} X (f : W -> Z * W) (m1 : M W A) (m2 : Z -> M W A) :
  (forall w, if decide (fst (f w) < 0) then res (snd (f w)) = res w
     else desc (fst (f w)) ∉ res w /\ res (snd (f w)) = {[desc (fst (f w))]} ∪ res w) ->
  to X X m1 -> (forall fd, desc fd ∉ X -> to ({[desc fd]} ∪ X) X (m2 fd)) ->
  to X X (fd ← sysM f; if fd <? 0 then m1 else m2 fd).
Proof.
  intros Hf H1' H2' w Hw. unfold sysM, lift, mbind, M_bind. pose proof (Hf w) as Hl. destruct (f w) as [fd w']. cbn [fst snd] in *.
  destruct (Z.ltb_spec fd 0).
  - rewrite decide_True in Hl by lia. apply H1'. congruence.
  - rewrite decide_False in Hl by lia. destruct Hl as [Hl1 Hl2]. apply H2'; congruence.
Qed.

(** Steps that only look at buffers. *)
Lemma to_pure {A B} X Y (m : M W A) (k : A -> M W B) :
  (forall w, exists a, m w = (Done a, w) /\ to X Y (k a)) -> to X Y (m ≫= k).
Proof. intros Hm w Hw. destruct (Hm w) as (a & E & Hk). rewrite (run_bind _ _ _ _ _ E). by apply Hk. Qed.

Lemma to_ext {A} X Y (m m' : M W A) : (forall w, m w = m' w) -> to X Y m' -> to X Y m.
Proof. intros He Hm w Hw. rewrite He. by apply Hm. Qed.

Lemma messages_wf {A R} (body : Z -> Z -> A -> M W (A + R)) m k acc (w : W) :
  wf_msg m -> (forall w, msg_len m <= Z.of_nat k -> exists r, body 0 (msg_len m) acc w = (Done r, w)) ->
  let b := take k (encode_msg m) in exists r, messages walk_fuel b body 0 (Z.of_nat (length b)) acc w = (Done r, w).
Proof.
  intros (Hm & _) Hb b. pose proof (length_encode_msg m) as Hl.
  destruct (Z.le_gt_cases (msg_len m) (Z.of_nat k)) as [Hk|Hk].
  - unfold b. rewrite take_msg by done. rewrite Hl. unfold walk_fuel. rewrite messages_whole by lia. by apply Hb.
  - unfold b. rewrite length_take, Nat.min_l by lia. unfold walk_fuel. rewrite messages_cut by lia. by eexists.
Qed.

Lemma wf_attrs m : wf_msg m -> n_type m <> NLMSG_ERROR ->
  exists cmd v l, n_payload m = genl_payload cmd v l /\ Forall wf_attr l /\
    Forall (fun a => a_type a = CTRL_ATTR_FAMILY_ID -> (2 <= length (a_data a))%nat) l.
Proof. intros (_ & _ & Hw) Hn. by rewrite (proj2 (Z.eqb_neq _ _) Hn) in Hw. Qed.

Lemma wf_count m cmd v l k : n_payload m = genl_payload cmd v l -> msg_len m <= Z.of_nat k -> (k <= 2048)%nat -> (length l < walk_fuel)%nat.
Proof.
  intros Hp Hm Hk. unfold msg_len in Hm. rewrite Hp in Hm. unfold genl_payload in Hm.
  rewrite length_app in Hm. pose proof (attrs_count l). unfold walk_fuel, NLMSG_HDRLEN in *. lia.
Qed.

Lemma family_msg_wf m k (w : W) : wf_msg m -> (k <= 2048)%nat -> msg_len m <= Z.of_nat k ->
  forall b, b = encode_msg m -> exists r, family_msg b 0 (msg_len m) tt w = (Done r, w).
Proof.
  intros Hw Hk Hm b ->. unfold family_msg. pose proof Hw as (Hl & Ht & _). rewrite (run_bind _ _ _ _ _ (read_msg_type m w Ht)).
  destruct (Z.eqb_spec (n_type m) NLMSG_ERROR) as [|Hn]; [by eexists|]. destruct (n_type m =? NLMSG_DONE); [by eexists|]. cbn [orb].
  destruct (wf_attrs m Hw Hn) as (cmd & v & l & Hp & Hwf & Hf).
  rewrite (walk_msg _ family_step m cmd v l tt w Hp Hl); [by eexists|by eapply wf_count|done|].
  eapply list.Forall_impl; [exact Hf|]. intros a Ha. by apply family_visits.
Qed.

Lemma error_word m (w : W) : wf_msg m -> n_type m = NLMSG_ERROR -> exists e, rd 4 NLMSG_HDRLEN (encode_msg m) w = (Done e, w).
Proof.
  intros (_ & _ & Hw) Ht. rewrite Ht in Hw. cbn in Hw. eexists. unfold encode_msg.
  rewrite <- (take_drop 4 (n_payload m)), !app_assoc, <- (app_assoc _ (take 4 _)).
  apply rd_mid; [by rewrite !length_app, !length_le_encode|rewrite length_take; lia|reflexivity].
Qed.

Lemma param_msg_wf family m k (w : W) : wf_msg m -> (k <= 2048)%nat -> msg_len m <= Z.of_nat k ->
  forall b, b = encode_msg m -> exists r, param_msg family b 0 (msg_len m) no_params w = (Done r, w).
Proof.
  intros Hw Hk Hm b ->. unfold param_msg. pose proof Hw as (Hl & Ht & _). rewrite (run_bind _ _ _ _ _ (read_msg_type m w Ht)).
  destruct (Z.eqb_spec (n_type m) NLMSG_ERROR) as [He|Hn].
  { destruct (error_word m w Hw He) as (e & Er). rewrite Z.add_0_l, (run_bind _ _ _ _ _ Er). by eexists. }
  destruct (negb (n_type m =? family)); [by eexists|].
  destruct (wf_attrs m Hw Hn) as (cmd & v & l & Hp & Hwf & Hf).
  erewrite run_bind; [|apply (walk_msg _ param_step m cmd v l no_params w Hp Hl); [by eapply wf_count|done|]].
  - by eexists.
  - eapply list.Forall_impl; [exact Hwf|]. intros a Ha. by apply param_visits.
Qed.

Lemma resolveFamily_settled fd : settled (resolveFamily fd NETDEV_FAMILY_NAME).
Proof.
  intros X. unfold resolveFamily. eapply to_ext; [intros w; apply (family_request_run (fam := 0))|].
  eapply to_bind; [apply to_sys, nl_send_law|]. intros sent. apply to_if; [apply to_ret|].
  apply to_recv; [apply to_ret|]. intros m Hm. apply to_if; [apply to_ret|].
  apply to_pure. intros w. destruct (messages_wf (family_msg (take 1024 (encode_msg m))) m 1024 tt w Hm) as (r & Er).
  { intros w' Hl. apply (family_msg_wf m 1024 w' Hm); [lia|done|by apply take_msg]. }
  exists r. split; [exact Er|apply to_ret].
Qed.

(** The first bytes of a reply that is not shorter than its header. *)
Lemma ack_read m (w : W) : wf_msg m -> (16 <= length (take 1024 (encode_msg m)))%nat ->
  exists b, (type ← rd 2 4 (take 1024 (encode_msg m));
     if type =? NLMSG_ERROR then error ← rd 4 NLMSG_HDRLEN (take 1024 (encode_msg m)); mret (sint 32 error =? 0)
     else mret true) w = (Done b, w).
Proof.
  intros Hm Hl. pose proof Hm as (_ & Ht & He).
  assert (forall n off x, load off n (encode_msg m) = Some x -> (off + n <= 1024)%nat -> load off n (take 1024 (encode_msg m)) = Some x) as Hload.
  { intros n off x Hx Hn. unfold load, slice in *. case_decide; [|done]. injection Hx as <-. rewrite decide_True by (rewrite length_take; lia).
    f_equal. rewrite skipn_firstn_comm, take_take. f_equal. lia. }
  assert (rd 2 4 (take 1024 (encode_msg m)) w = (Done (n_type m), w)) as R1.
  { pose proof (read_msg_type m w Ht) as R. rewrite rd_value in R |- *. destruct (load _ _ (encode_msg m)) eqn:El; [|done].
    rewrite (Hload 2%nat _ _ El); [done|]. cbn. lia. }
  rewrite (run_bind _ _ _ _ _ R1). destruct (Z.eqb_spec (n_type m) NLMSG_ERROR) as [Hn|]; [|by eexists].
  destruct (error_word m w Hm Hn) as (e & Er). rewrite rd_value in Er. destruct (load _ _ (encode_msg m)) eqn:El; [|done].
  eexists. erewrite run_bind; [done|]. rewrite rd_value. rewrite (Hload 4%nat _ _ El); [done|]. unfold NLMSG_HDRLEN. lia.
Qed.

Lemma setBusyPoll_settled id d g s : settled (setBusyPoll id d g s).
Proof.
  intros X. unfold setBusyPoll. apply to_acquire; [apply nl_socket_law|apply to_ret|]. intros fd Hfd.
  eapply to_bind; [apply resolveFamily_settled|]. intros family.
  apply to_if; [apply to_close; [done|apply to_ret]|].
  eapply to_ext; [intros w; apply set_request_run|].
  eapply to_bind; [apply to_sys, nl_send_law|]. intros sent. apply to_if; [apply to_close; [done|apply to_ret]|].
  apply to_recv_close; [done|apply to_ret|]. intros m Hm w Hw.
  destruct (Z.ltb_spec (Z.of_nat (length (take 1024 (encode_msg m)))) NLMSG_HDRLEN) as [|Hge]; [by apply to_ret|].
  destruct (ack_read m w Hm) as (b & Eb); [unfold NLMSG_HDRLEN in Hge; lia|]. by eexists _, _.
Qed.

Lemma getBusyPoll_settled id : settled (getBusyPoll id).
Proof.
  intros X. unfold getBusyPoll. apply to_acquire; [apply nl_socket_law|apply to_ret|]. intros fd Hfd.
  eapply to_bind; [apply resolveFamily_settled|]. intros family.
  apply to_if; [apply to_close; [done|apply to_ret]|].
  eapply to_ext; [intros w; apply get_request_run|].
  eapply to_bind; [apply to_sys, nl_send_law|]. intros sent. apply to_if; [apply to_close; [done|apply to_ret]|].
  apply to_recv_close; [done|apply to_ret|]. intros m Hm. apply to_if; [apply to_ret|].
  apply to_pure. intros w. destruct (messages_wf (param_msg family (take 2048 (encode_msg m))) m 2048 no_params w Hm) as (r & Er).
  { intros w' Hl. apply (param_msg_wf family m 2048 w' Hm); [lia|done|by apply take_msg]. }
  exists r. split; [exact Er|apply to_ret].
Qed.

Lemma write_settled i k v : settled (writeNetdevKnob i k v).
Proof.
  intros X. unfold writeNetdevKnob. apply to_acquire; [apply nl_open_law|apply to_ret|]. intros fd Hfd.
  eapply to_bind; [apply to_sys, nl_write_law|]. intros n. apply to_close; [done|apply to_ret].
Qed.

Lemma read_settled i k : settled (readNetdevKnob i k).
Proof.
  intros X. unfold readNetdevKnob. apply to_acquire; [apply nl_open_law|apply to_ret|]. intros fd Hfd.
  eapply to_bind; [apply to_sys, nl_read_law|]. intros r. apply to_close; [done|].
  destruct r as [s|]; [apply to_if|]; apply to_ret.
Qed.

Lemma applyDeferralSysfs_settled i d g : settled (applyDeferralSysfs i d g).
Proof.
  intros X. unfold applyDeferralSysfs. eapply to_bind; [apply write_settled|]. intros a.
  eapply to_bind; [apply write_settled|]. intros b. apply to_ret.
Qed.

Lemma ensureCombinedOne_settled i : settled (ensureCombinedOne i).
Proof.
  intros X. unfold ensureCombinedOne. apply to_acquire; [apply nl_socket_law|apply to_ret|]. intros fd Hfd.
  eapply to_bind; [apply to_sys, nl_get_channels_law|]. intros [ch|]; [|apply to_close; [done|apply to_ret]].
  do 2 (apply to_if; [apply to_close; [done|apply to_ret]|]).
  eapply to_bind; [apply to_sys, nl_set_channels_law|]. intros ok.
  eapply to_bind; [apply to_sys, nl_get_channels_law|]. intros rb. apply to_close; [done|apply to_ret].
Qed.

(** The detach request is the message the kernel's link family expects: IFLA_XDP with the
    descriptor -1 and the mode's flags nested in it. *)
Definition detach_msg (ifindex mode : Z) : nlmsg :=
  mk_msg RTM_SETLINK (Z.lor NLM_F_REQUEST NLM_F_ACK) 4 0
    (replicate 4 0 ++ le_encode 4 ifindex ++ replicate 8 0 ++
     encode_attr (mk_attr IFLA_XDP (encode_attrs (mk_attr IFLA_XDP_FD (le_encode 4 (-1)) ::
       (if mode =? 0 then [] else [mk_attr IFLA_XDP_FLAGS (le_encode 4 mode)]))))).

Lemma detach_head_run {B} ifindex (k : bytes -> M W B) (w : W) :
  (buf ← st 0 (le_encode 4 32) (replicate 96 0);
   buf ← st 4 (le_encode 2 RTM_SETLINK) buf;
   buf ← st 6 (le_encode 2 (Z.lor NLM_F_REQUEST NLM_F_ACK)) buf;
   buf ← st 8 (le_encode 4 4) buf;
   buf ← st 20 (le_encode 4 ifindex) buf; k buf) w =
  k (le_encode 4 32 ++ (le_encode 2 RTM_SETLINK ++ le_encode 2 (Z.lor NLM_F_REQUEST NLM_F_ACK) ++ le_encode 4 4 ++
     le_encode 4 0 ++ replicate 4 0 ++ le_encode 4 ifindex ++ replicate 8 0) ++ replicate 64 0) w.
Proof. done. Qed.

Lemma detach_request_run ifindex mode (w : W) : detach_request ifindex mode w = (Done (encode_msg (detach_msg ifindex mode)), w).
Proof.
  unfold detach_request. rewrite detach_head_run.
  set (h := (le_encode 2 RTM_SETLINK ++ _)%list). assert (length h = 28%nat) as Lh by done.
  set (h4 := le_encode 4 32). assert (length h4 = 4%nat) as L4 by done.
  change (replicate 64 0) with ([0; 0] ++ [0; 0] ++ replicate 60 0). rewrite (app_assoc h4), (app_assoc (h4 ++ h)).
  erewrite run_bind; [|apply st_mid; [by rewrite !length_app, L4, Lh|done]].
  unfold putAttr. rewrite (app_assoc _ _ (replicate 60 0)).
  set (p := (((h4 ++ h) ++ [0; 0]) ++ _)%list). assert (length p = 36%nat) as Lp by done.
  change (align4 32 + NLA_HDRLEN) with 36. replace 36 with (Z.of_nat (length p)) by (by rewrite Lp).
  erewrite run_bind; [|apply put_data_run; [done|by rewrite length_le_encode]]. cbn iota beta.
  set (inner := encode_attrs (mk_attr IFLA_XDP_FD (le_encode 4 (-1)) :: (if mode =? 0 then [] else [mk_attr IFLA_XDP_FLAGS (le_encode 4 mode)]))).
  assert (forall (k : bytes * Z -> M W bytes), ((if mode =? 0
      then mret ((p ++ encode_attr (mk_attr IFLA_XDP_FD (le_encode 4 (-1)))) ++ replicate (60 - length (encode_attr (mk_attr IFLA_XDP_FD (le_encode 4 (-1))))) 0,
                 Z.of_nat (length (p ++ encode_attr (mk_attr IFLA_XDP_FD (le_encode 4 (-1)))))%list)
      else put_data ((p ++ encode_attr (mk_attr IFLA_XDP_FD (le_encode 4 (-1)))) ++ replicate (60 - length (encode_attr (mk_attr IFLA_XDP_FD (le_encode 4 (-1))))) 0)
             (Z.of_nat (length (p ++ encode_attr (mk_attr IFLA_XDP_FD (le_encode 4 (-1)))))%list) IFLA_XDP_FLAGS (le_encode 4 mode)) ≫= k) w =
    k ((p ++ inner) ++ replicate (60 - length inner) 0, Z.of_nat (length (p ++ inner))) w) as Hif.
  { intros k. unfold inner. destruct (mode =? 0).
    - unfold encode_attrs. cbn [fmap list_fmap concat]. by rewrite app_nil_r.
    - erewrite run_bind; [|apply put_data_run; [done|done]]. unfold encode_attrs. cbn [fmap list_fmap concat].
      rewrite app_nil_r, <- !app_assoc. done. }
  rewrite Hif. cbv iota beta.
  assert (length inner = 8%nat \/ length inner = 16%nat) as Li by (unfold inner; destruct (mode =? 0); [by left|by right]).
  change (align4 32) with 32. unfold p. rewrite <- !(app_assoc ((h4 ++ h) ++ [0;0])), <- (app_assoc (h4 ++ h) [0; 0]), !length_app, L4, Lh, length_le_encode.
  erewrite run_bind; [|apply (st_mid 32 (h4 ++ h) [0; 0]); [by rewrite length_app, L4, Lh|by rewrite length_le_encode]].
  unfold finish_request. rewrite <- (app_assoc h4).
  erewrite run_bind; [|apply (st_mid 0 []); [done|by rewrite length_le_encode]]. cbn [app length]. unfold mret, M_ret. f_equal. f_equal.
  rewrite wrap_small by (unfold in_u; destruct Li as [-> | ->]; by vm_compute).
  unfold encode_msg, detach_msg, encode_attr. cbn [n_type n_flags n_seq n_pid n_payload a_data a_type]. fold inner.
  rewrite !app_assoc. rewrite take_app_length'.
  - unfold msg_len. cbn [n_payload]. rewrite !length_app, !length_replicate, !length_le_encode.
    destruct Li as [-> | ->]; unfold h; rewrite <- !app_assoc; try rewrite app_nil_r; done.
  - rewrite !length_app, !length_le_encode, Lh. cbn [length]. destruct Li as [-> | ->]; done.
Qed.

Lemma detachXdpProgram_settled i : settled (detachXdpProgram i).
Proof.
  intros X. unfold detachXdpProgram. eapply to_bind; [apply to_sys, nl_nametoindex_law|]. intros ifindex.
  apply to_if; [apply to_ret|]. apply to_acquire; [apply nl_socket_law|apply to_ret|]. intros fd Hfd.
  eapply (to_bind _ ({[desc fd]} ∪ X)).
  - assert (forall mode, to ({[desc fd]} ∪ X) ({[desc fd]} ∪ X) (detach_one fd ifindex mode)) as Hone.
    { intros mode. unfold detach_one. apply to_pure. intros w. eexists. split; [apply detach_request_run|]. eapply to_bind; [apply to_sys, nl_send_law|]. intros sent. apply to_if; [|apply to_ret].
      eapply to_bind; [apply to_sys, nl_recv_law|]. intros r. apply to_ret. }
    cbn [for_each]. do 3 (eapply to_bind; [apply Hone|intros _]). apply to_ret.
  - intros _ w Hw. eexists _, _. split; [done|]. rewrite nl_close_law, Hw. set_solver.
Qed.

Lemma validation_settled i e l : settled (printXskProcessValidation i e l).
Proof.
  intros X. unfold printXskProcessValidation. eapply to_bind; [apply read_settled|]. intros defer.
  eapply to_bind; [apply read_settled|]. intros gro.
  eapply (to_bind _ X); [intros w Hw; by eexists _, _|]. intros names.
  eapply (to_bind _ X); [intros w Hw; by eexists _, _|]. intros w0.
  destruct names as [names|]; [destruct (fold_left _ _ _)|]; apply to_ret.
Qed.
End Balance.

(** Every helper of the NAPI control plane ends, on whatever the kernel answers (refused
    calls, missing, cut-off or error replies), and closes each descriptor it opened. *)
Theorem napi_helpers_balanced {W} `{NlSysLaws W} ifname id d g s expected reported :
  settled (setBusyPoll id d g s) /\ settled (getBusyPoll id) /\ settled (detachXdpProgram ifname) /\
  settled (ensureCombinedOne ifname) /\ settled (applyDeferralSysfs ifname d g) /\
  settled (printXskProcessValidation ifname expected reported).
Proof.
  split_and!; [apply setBusyPoll_settled|apply getBusyPoll_settled|apply detachXdpProgram_settled
    |apply ensureCombinedOne_settled|apply applyDeferralSysfs_settled|apply validation_settled].
Qed.

(** A simulated machine that hands out handles in increasing order and acknowledges
    every netlink request. *)
Record sim_machine := { sx_res : gset (Z * Z * Z) }.

Definition sx_fresh (w : sim_machine) : Z := foldr Z.max 0 ((fun r => snd (fst r)) <$> elements (sx_res w)) + 1.
Definition sx_add (r : Z * Z * Z) (w : sim_machine) : sim_machine := {| sx_res := {[r]} ∪ sx_res w |}.
Definition sx_del (r : Z * Z * Z) (w : sim_machine) : sim_machine := {| sx_res := sx_res w ∖ {[r]} |}.

Lemma sx_fresh_spec w k sz : (k, sx_fresh w, sz) ∉ sx_res w /\ 0 < sx_fresh w.
Proof.
  split.
  - rewrite <- elem_of_elements. intros Hin.
    apply (SocketOps.foldr_max_fresh ((fun r => snd (fst r)) <$> elements (sx_res w)) (sx_fresh w) 1); [lia|done|].
    apply list_elem_of_fmap. by exists (k, sx_fresh w, sz).
  - unfold sx_fresh. pose proof (SocketOps.foldr_max_nonneg ((fun r => snd (fst r)) <$> elements (sx_res w))). lia.
Qed.

#[export] Instance sim_Resources : Resources sim_machine := {| res := sx_res |}.

#[export] Instance sim_machine_NlSys : NlSys sim_machine := {|
  nl_socket p w := (sx_fresh w, sx_add (desc (sx_fresh w)) w);
  nl_close fd w := sx_del (desc fd) w;
  nl_send fd req w := (true, w);
  nl_recv fd n w := (Some (take n (encode_msg sim_ack)), w);
  nl_nametoindex i w := (if decide (i = ""%string) then 0 else 2, w);
  ethtool_get_channels fd i w := (Some (mk_channels 0 0 0 8 0 0 0 1), w);
  ethtool_set_channels fd i ch w := (true, w);
  file_open p w := (sx_fresh w, sx_add (desc (sx_fresh w)) w);
  file_write fd s w := (Z.of_nat (String.length s), w);
  file_read fd n w := (Some "2"%string, w);
  get_xdp_options fd w := Some XDP_OPTIONS_ZEROCOPY;
  get_busy_poll fd w := Some 20;
  get_prefer_busy_poll fd w := Some 1;
  get_domain fd w := Some 1;
  list_self_fds w := Some ["."; ".."; "0"]%string;
|}.

#[export] Program Instance sim_NlSysLaws : NlSysLaws sim_machine.
Solve Obligations with done.
Next Obligation.
  intros p w. cbn -[sx_fresh]. destruct (sx_fresh_spec w 4 0). rewrite decide_False by lia. by split.
Qed.
Next Obligation.
  intros p w. cbn -[sx_fresh]. destruct (sx_fresh_spec w 4 0). rewrite decide_False by lia. by split.
Qed.
Next Obligation.
  intros fd n w. cbn -[encode_msg take]. exists sim_ack. split; [|done]. split; [done|]. split; [done|]. vm_compute. lia.
Qed.

Definition sim_idle : sim_machine := {| sx_res := {[desc 2]} |}.

Lemma napi_helpers_balanced_witness :
  exists a w', setBusyPoll 8193 2 200000 0 sim_idle = (Done a, w') /\ sx_res w' = {[desc 2]}.
Proof.
  destruct (napi_helpers_balanced (W := sim_machine) "eth0" 8193 2 200000 0 true []) as (Hs & _).
  destruct (Hs {[desc 2]} sim_idle eq_refl) as (a & w' & E & R). exists a, w'. split; [exact E|exact R].
Defined.
