(* ===== verification/AFXDP.v ===== *)
(** * The AF_XDP transport: rings (src/backends/AF_XDP/AFXDP.hpp)

    The data path of the class template [AFXDP].  The ring accessors of libxdp
    (xsk.h) and the system calls are the operations of [XskRx] and [XskTx]; their laws
    speak of a view of the rings that the kernel may advance before every call
    ([rx_kstep], [tx_kstep]).  Module [Rx] shows that the receive side meets the
    contract [RxContract], Module [Tx] that the transmit side meets [TxContract] as long
    as the completions keep up, and what happens when they do not. *)

From S2P Require Import Prelude RingWindow RingConcepts.

Inductive AFXDPMode := RxOnly | TxOnly | RxTx.

#[export] Instance AFXDPMode_eq_dec : EqDecision AFXDPMode.
Proof. solve_decision. Defined.

(** [struct xdp_desc] *)
Record xdp_desc := { d_addr : Z; d_len : Z; d_options : Z }.

(** The members of an [AFXDP] object ([m_umem.umem], [m_xsk.xsk] and [m_xdpProg] are
    handles, 0 when null). *)
Record AFXDP := mk_AFXDP {
  m_interface : string;
  m_queueId : Z;
  m_bpfProgPath : string;
  m_bindMode : string;
  m_umem_umem : Z;
  m_umem_buffer : Z;
  m_xsk_xsk : Z;
  outstanding_tx : Z;
  m_xdpProg : Z;
  m_ifindex : Z;
  m_fd : Z;
  m_copyMode : bool;
  m_customBpf : bool;
  m_enableDeferral : bool;
  m_enableIrqSuspend : bool;
  m_napiDefer : Z;
  m_napiGro : Z;
  m_napiSusp : Z;
  m_pendingRxAddr : Z;
  m_pendingFqIdx : Z;
  m_pendingTxAddr : Z;
  m_pendingTxLen : Z;
  m_txFrameNb : Z;
}.

Definition set_pendingRx (addr : Z) (o : AFXDP) : AFXDP :=
  mk_AFXDP (m_interface o) (m_queueId o) (m_bpfProgPath o) (m_bindMode o) (m_umem_umem o)
    (m_umem_buffer o) (m_xsk_xsk o) (outstanding_tx o) (m_xdpProg o) (m_ifindex o) (m_fd o)
    (m_copyMode o) (m_customBpf o) (m_enableDeferral o) (m_enableIrqSuspend o) (m_napiDefer o)
    (m_napiGro o) (m_napiSusp o) addr (m_pendingFqIdx o) (m_pendingTxAddr o) (m_pendingTxLen o)
    (m_txFrameNb o).

Definition set_pendingFq (idx : Z) (o : AFXDP) : AFXDP :=
  mk_AFXDP (m_interface o) (m_queueId o) (m_bpfProgPath o) (m_bindMode o) (m_umem_umem o)
    (m_umem_buffer o) (m_xsk_xsk o) (outstanding_tx o) (m_xdpProg o) (m_ifindex o) (m_fd o)
    (m_copyMode o) (m_customBpf o) (m_enableDeferral o) (m_enableIrqSuspend o) (m_napiDefer o)
    (m_napiGro o) (m_napiSusp o) (m_pendingRxAddr o) idx (m_pendingTxAddr o) (m_pendingTxLen o)
    (m_txFrameNb o).

Definition set_pendingTx (addr len : Z) (o : AFXDP) : AFXDP :=
  mk_AFXDP (m_interface o) (m_queueId o) (m_bpfProgPath o) (m_bindMode o) (m_umem_umem o)
    (m_umem_buffer o) (m_xsk_xsk o) (outstanding_tx o) (m_xdpProg o) (m_ifindex o) (m_fd o)
    (m_copyMode o) (m_customBpf o) (m_enableDeferral o) (m_enableIrqSuspend o) (m_napiDefer o)
    (m_napiGro o) (m_napiSusp o) (m_pendingRxAddr o) (m_pendingFqIdx o) addr len
    (m_txFrameNb o).

Definition set_txState (outstanding frameNb : Z) (o : AFXDP) : AFXDP :=
  mk_AFXDP (m_interface o) (m_queueId o) (m_bpfProgPath o) (m_bindMode o) (m_umem_umem o)
    (m_umem_buffer o) (m_xsk_xsk o) outstanding (m_xdpProg o) (m_ifindex o) (m_fd o)
    (m_copyMode o) (m_customBpf o) (m_enableDeferral o) (m_enableIrqSuspend o) (m_napiDefer o)
    (m_napiGro o) (m_napiSusp o) (m_pendingRxAddr o) (m_pendingFqIdx o) (m_pendingTxAddr o)
    (m_pendingTxLen o) frameNb.

Definition BATCH_SIZE : Z := 64.

(** ** Receive *)
Module Rx.

(** libxdp's accessors of the RX and FILL rings, [recvfrom] and reads of the UMEM. *)
Class XskRx (W : Type) := {
  rx_peek : Z -> W -> (Z * Z) * W;
  rx_desc : Z -> W -> xdp_desc;
  rx_ring_release : Z -> W -> W;
  fq_reserve : Z -> W -> (Z * Z) * W;
  fq_fill_addr : Z -> Z -> W -> W;
  fq_submit : Z -> W -> W;
  recvfrom : W -> W;
  umem_load : Z -> Z -> W -> option bytes;
}.

(** What program and kernel share: FILL slots the program has reserved (with the
    address written into each), addresses in the FILL ring, chunks the kernel holds for
    reception, descriptors in the RX ring of which [v_peeked] are peeked, the UMEM and
    the frames that ever arrived. *)
Record view := mk_view {
  v_reserved : list (option Z);
  v_fillProd : Z;
  v_fill : list Z;
  v_nic : list Z;
  v_rx : list xdp_desc;
  v_rxCons : Z;
  v_peeked : Z;
  v_umem : bytes;
  v_arrived : list bytes;
}.

Section Laws.
Context (FILL_SIZE RX_SIZE FrameSize : Z).

(** In aligned mode the kernel rounds a FILL address down to its chunk. *)
Definition chunk (a : Z) : Z := a - a mod FrameSize.

(** The kernel takes the oldest FILL address, or delivers a frame into a chunk it holds
    and appends a descriptor to the RX ring if that has room. *)
Inductive rx_kstep : view -> view -> Prop :=
  | rx_take v a fill :
      v_fill v = a :: fill ->
      rx_kstep v (mk_view (v_reserved v) (v_fillProd v) fill (v_nic v ++ [chunk a]) (v_rx v)
                    (v_rxCons v) (v_peeked v) (v_umem v) (v_arrived v))
  | rx_deliver v l1 c l2 off f umem :
      v_nic v = l1 ++ c :: l2 -> Z.of_nat (length (v_rx v)) < RX_SIZE ->
      0 <= off -> f <> [] -> is_bytes f -> off + Z.of_nat (length f) <= FrameSize ->
      length umem = length (v_umem v) ->
      (forall i, ~ (c <= Z.of_nat i < c + FrameSize) -> umem !! i = v_umem v !! i) ->
      slice (Z.to_nat (c + off)) (length f) umem = f ->
      rx_kstep v (mk_view (v_reserved v) (v_fillProd v) (v_fill v) (l1 ++ l2)
                    (v_rx v ++ [{| d_addr := c + off; d_len := Z.of_nat (length f); d_options := 0 |}])
                    (v_rxCons v) (v_peeked v) umem (v_arrived v ++ [f])).

Class XskRxLaws (W : Type) `{XskRx W} := {
  rview : W -> view;
  peek_law n w : 0 <= n -> let '((r, idx), w') := rx_peek n w in
    exists v, rtc rx_kstep (rview w) v /\
      r = Z.min n (Z.of_nat (length (v_rx v)) - v_peeked v) /\
      idx = u32 (v_rxCons v + v_peeked v) /\
      rview w' = mk_view (v_reserved v) (v_fillProd v) (v_fill v) (v_nic v) (v_rx v) (v_rxCons v)
                   (v_peeked v + r) (v_umem v) (v_arrived v);
  desc_law i d w : Z.of_nat i < 2 ^ 32 -> v_rx (rview w) !! i = Some d ->
    rx_desc (u32 (v_rxCons (rview w) + Z.of_nat i)) w = d;
  rx_release_law (n : nat) w : Z.of_nat n <= v_peeked (rview w) ->
    exists v, rtc rx_kstep (rview w) v /\
      rview (rx_ring_release (Z.of_nat n) w) =
        mk_view (v_reserved v) (v_fillProd v) (v_fill v) (v_nic v) (drop n (v_rx v))
          (v_rxCons v + Z.of_nat n) (v_peeked v - Z.of_nat n) (v_umem v) (v_arrived v);
  reserve_law (n : nat) w : let '((r, idx), w') := fq_reserve (Z.of_nat n) w in
    exists v, rtc rx_kstep (rview w) v /\
      (if decide (Z.of_nat (length (v_reserved v) + length (v_fill v) + n) <= FILL_SIZE) then
         r = Z.of_nat n /\ idx = u32 (v_fillProd v + Z.of_nat (length (v_reserved v))) /\
         rview w' = mk_view (v_reserved v ++ replicate n None) (v_fillProd v) (v_fill v) (v_nic v)
                      (v_rx v) (v_rxCons v) (v_peeked v) (v_umem v) (v_arrived v)
       else r = 0 /\ rview w' = v);
  fill_addr_law (i : nat) a w : Z.of_nat i < 2 ^ 32 -> (i < length (v_reserved (rview w)))%nat ->
    exists v, rtc rx_kstep (rview w) v /\
      rview (fq_fill_addr (u32 (v_fillProd (rview w) + Z.of_nat i)) a w) =
        mk_view (<[i := Some a]> (v_reserved v)) (v_fillProd v) (v_fill v) (v_nic v) (v_rx v)
          (v_rxCons v) (v_peeked v) (v_umem v) (v_arrived v);
  submit_law addrs rest w : v_reserved (rview w) = (Some <$> addrs) ++ rest ->
    exists v, rtc rx_kstep (rview w) v /\
      rview (fq_submit (Z.of_nat (length addrs)) w) =
        mk_view rest (v_fillProd v + Z.of_nat (length addrs)) (v_fill v ++ addrs) (v_nic v)
          (v_rx v) (v_rxCons v) (v_peeked v) (v_umem v) (v_arrived v);
  recvfrom_law w : rtc rx_kstep (rview w) (rview (recvfrom w));
  load_law a l w : umem_load a l w = load (Z.to_nat a) (Z.to_nat l) (v_umem (rview w));
}.
End Laws.

Section Operations.
Context {W : Type} `{XskRx W}.
Context (TX_POOL_FRAMES RX_POOL_FRAMES FrameSize : Z).

Abbreviation S := (AFXDP * W)%type.

Definition on_rings {A} (f : W -> A * W) : M S A := fun s => let '(a, w) := f (snd s) in (Done a, (fst s, w)).
Definition rings (f : W -> W) : M S unit := modify (fun s => (fst s, f (snd s))).
Definition set_obj (f : AFXDP -> AFXDP) : M S unit := modify (fun s => (f (fst s), snd s)).

(** [tryReceive] *)
Definition tryReceive : M S bytes :=
  '(rcvd, idx) ← on_rings (rx_peek 1);
  if decide (rcvd = 0) then rings recvfrom ;; mret [] else
  '(got, fqIdx) ← on_rings (fq_reserve 1);
  set_obj (if decide (got = 0) then fun o => o else set_pendingFq fqIdx) ;;
  if decide (got <> rcvd) then raise Abort else
  desc ← gets (fun s => rx_desc idx (snd s));
  set_obj (set_pendingRx (d_addr desc)) ;;
  frame ← gets (fun s => umem_load (d_addr desc) (d_len desc) (snd s));
  match frame with Some f => mret f | None => raise Undef end.

(** [release] *)
Definition release : M S unit :=
  o ← gets fst;
  rings (fq_fill_addr (m_pendingFqIdx o) (m_pendingRxAddr o)) ;;
  rings (fq_submit 1) ;;
  rings (rx_ring_release 1).

(** [xskPopulateFillRing]: every RX chunk goes to the kernel. *)
Fixpoint fill_from (n : nat) (i idx : Z) : M S unit :=
  match n with
  | O => mret tt
  | Datatypes.S n =>
      rings (fq_fill_addr idx ((TX_POOL_FRAMES + i) * FrameSize)) ;;
      fill_from n (i + 1) (u32 (idx + 1))
  end.

Definition xskPopulateFillRing : M S unit :=
  '(got, idx) ← on_rings (fq_reserve RX_POOL_FRAMES);
  if decide (got <> RX_POOL_FRAMES) then raise Abort else
  fill_from (Z.to_nat got) 0 idx ;;
  rings (fq_submit got).

#[export] Instance AFXDP_RxRing : RxRing S := {|
  rx_tryReceive := tryReceive; rx_release := release |}.
End Operations.

(** ** Ownership: every RX chunk is in exactly one place. *)
Section Ownership.
Context (FILL_SIZE RX_SIZE FrameSize : Z) (HFS : 0 < FrameSize).
Abbreviation chunk := (chunk FrameSize).
Abbreviation rx_kstep := (rx_kstep RX_SIZE FrameSize).

(** The chunks of the FILL ring, of the kernel, and of the received descriptors past
    the first [spent] ones, whose chunks have been given back. *)
Definition owned (spent : nat) (v : view) : list Z :=
  (chunk <$> v_fill v) ++ v_nic v ++ ((fun d => chunk (d_addr d)) <$> drop spent (v_rx v)).

Definition frame_at (umem : bytes) (d : xdp_desc) : bytes :=
  slice (Z.to_nat (d_addr d)) (Z.to_nat (d_len d)) umem.
Definition frames (spent : nat) (v : view) : list bytes := frame_at (v_umem v) <$> drop spent (v_rx v).

Definition chunk_ok (umem : bytes) (c : Z) : Prop :=
  0 <= c /\ (FrameSize | c) /\ c + FrameSize <= Z.of_nat (length umem).

Definition desc_ok (d : xdp_desc) : Prop :=
  0 < d_len d /\ chunk (d_addr d) <= d_addr d /\ d_addr d + d_len d <= chunk (d_addr d) + FrameSize.

Record inv (spent : nat) (n : nat) (v : view) : Prop := {
  inv_nodup : NoDup (owned spent v);
  inv_chunks : Forall (chunk_ok (v_umem v)) (owned spent v);
  inv_count : length (owned spent v) = n;
  inv_descs : Forall desc_ok (drop spent (v_rx v));
  inv_frames : Forall is_bytes (frames spent v);
  inv_spent : (spent <= length (v_rx v))%nat;
}.

Lemma chunk_of_offset c off : (FrameSize | c) -> 0 <= off < FrameSize -> chunk (c + off) = c.
Proof.
  intros [k ->] Ho. unfold Rx.chunk. rewrite Z.add_comm, Z_mod_plus_full, Z.mod_small by done. lia.
Qed.

Lemma chunk_aligned a : (FrameSize | chunk a).
Proof. unfold Rx.chunk. exists (a / FrameSize). pose proof (Z.div_mod a FrameSize ltac:(lia)). lia. Qed.

Lemma chunk_chunk a : chunk (chunk a) = chunk a.
Proof.
  rewrite <- (Z.add_0_r (chunk a)) at 1. apply chunk_of_offset; [apply chunk_aligned|lia].
Qed.

(** Two different chunks do not overlap. *)
Lemma chunks_apart c c' i :
  (FrameSize | c) -> (FrameSize | c') -> c <> c' -> c <= i < c + FrameSize -> ~ (c' <= i < c' + FrameSize).
Proof. intros [k ->] [k' ->] Hne Hi Hi'. assert (k = k') by nia. by subst. Qed.

Lemma slice_ext (b b' : bytes) off len :
  (forall i, (off <= i < off + len)%nat -> b !! i = b' !! i) -> slice off len b = slice off len b'.
Proof.
  intros He. unfold slice. apply list_eq. intros i. destruct (decide (i < len)%nat).
  - rewrite !lookup_take_lt, !lookup_drop by done. apply He. lia.
  - by rewrite !lookup_take_ge by lia.
Qed.

Lemma frame_kept umem umem' d c :
  desc_ok d -> 0 <= chunk (d_addr d) -> (FrameSize | c) -> chunk (d_addr d) <> c ->
  (forall i, ~ (c <= Z.of_nat i < c + FrameSize) -> umem' !! i = umem !! i) ->
  frame_at umem' d = frame_at umem d.
Proof.
  intros (Hl & H1 & H2) H0 Hc Hne Hk. apply slice_ext. intros i Hi. apply Hk.
  apply (chunks_apart (chunk (d_addr d))); [apply chunk_aligned|done|done|lia].
Qed.

(** What the kernel leaves alone in a view the program sees. *)
Record advanced (spent : nat) (v v' : view) : Prop := {
  adv_reserved : v_reserved v' = v_reserved v;
  adv_fillProd : v_fillProd v' = v_fillProd v;
  adv_rxCons : v_rxCons v' = v_rxCons v;
  adv_peeked : v_peeked v' = v_peeked v;
  adv_rx : v_rx v `prefix_of` v_rx v';
  adv_frames : exists fs, frames spent v' = frames spent v ++ fs /\ v_arrived v' = v_arrived v ++ fs;
}.

Lemma advanced_refl spent v : advanced spent v v.
Proof. constructor; try done. exists []. by rewrite !app_nil_r. Qed.

Lemma advanced_trans spent v1 v2 v3 : advanced spent v1 v2 -> advanced spent v2 v3 -> advanced spent v1 v3.
Proof.
  intros [? ? ? ? ? (fs1 & E1 & F1)] [? ? ? ? ? (fs2 & E2 & F2)].
  constructor; try congruence; [by etrans|]. exists (fs1 ++ fs2). rewrite E2, E1, F2, F1. by rewrite !app_assoc.
Qed.

Lemma chunk_nic spent n v c : inv spent n v -> c ∈ v_nic v -> chunk_ok (v_umem v) c.
Proof.
  intros Hi Hc. pose proof (inv_chunks _ _ _ Hi) as Hf. rewrite list.Forall_forall in Hf. apply Hf.
  unfold owned. set_solver.
Qed.

Lemma inv_perm spent n v v' :
  inv spent n v -> owned spent v' ≡ₚ owned spent v -> length (v_umem v') = length (v_umem v) ->
  Forall desc_ok (drop spent (v_rx v')) -> Forall is_bytes (frames spent v') ->
  (spent <= length (v_rx v'))%nat -> inv spent n v'.
Proof.
  intros [H1 H2 H3 H4 H5 H6] Hp Hl Hd Hf Hs. constructor; try done.
  - by rewrite Hp.
  - rewrite Hp. unfold chunk_ok in *. by rewrite Hl.
  - by rewrite Hp.
Qed.

Lemma rx_chunk_kstep_inv spent n v v' : rx_kstep v v' -> inv spent n v -> inv spent n v' /\ advanced spent v v'.
Proof.
  intros Hk Hi. pose proof Hi as [H1 H2 H3 H4 H5 H6]. destruct Hk as
    [v a fill Hf|v l1 c l2 off f umem Hn Hroom Ho Hf0 Hfb Hfit Hl Hkeep Hs].
  - split; [|by apply advanced_refl in H6 || (constructor; try done; exists []; by rewrite !app_nil_r)].
    apply (inv_perm spent n v); try done. unfold owned. cbn. rewrite Hf. cbn.
    rewrite <- !app_assoc. cbn. by rewrite <- !Permutation_middle.
  - assert (c ∈ v_nic v) as Hc by (rewrite Hn; set_solver).
    destruct (chunk_nic spent n v c Hi Hc) as (Hc0 & Hca & Hce).
    assert (0 < Z.of_nat (length f)) as Hfl by (destruct f; [done|cbn; lia]).
    assert (frame_at umem {| d_addr := c + off; d_len := Z.of_nat (length f); d_options := 0 |} = f) as Hnew.
    { unfold frame_at. cbn. by rewrite Nat2Z.id. }
    assert (forall d, d ∈ drop spent (v_rx v) -> frame_at umem d = frame_at (v_umem v) d) as Hold.
    { intros d Hd. rewrite list.Forall_forall in H2. rewrite list.Forall_forall in H4. apply (frame_kept _ _ _ c); try done.
      - by apply H4.
      - apply H2. unfold owned. rewrite !elem_of_app. right; right. apply list_elem_of_fmap. by exists d.
      - intros Hcc. unfold owned in H1. apply list.NoDup_app in H1 as (_ & _ & H1). apply list.NoDup_app in H1 as (_ & H1 & _).
        apply (H1 c Hc). apply list_elem_of_fmap. by exists d. }
    assert (frames spent (mk_view (v_reserved v) (v_fillProd v) (v_fill v) (l1 ++ l2)
                    (v_rx v ++ [{| d_addr := c + off; d_len := Z.of_nat (length f); d_options := 0 |}])
                    (v_rxCons v) (v_peeked v) umem (v_arrived v ++ [f])) = frames spent v ++ [f]) as Hfr.
    { unfold frames. cbn. rewrite drop_app_le, fmap_app by done. cbn. rewrite Hnew. f_equal.
      apply list_fmap_ext. intros i d Hd. apply Hold. by eapply list_elem_of_lookup_2. }
    split.
    + apply (inv_perm spent n v); cbn; try done.
      * unfold owned. cbn. rewrite Hn, drop_app_le, fmap_app by done. cbn.
        rewrite (chunk_of_offset c off) by (done || lia). apply Permutation_app; [done|].
        rewrite <- !app_assoc. apply Permutation_app; [done|]. rewrite app_assoc. cbn. symmetry. apply Permutation_cons_append.
      * rewrite drop_app_le by done. apply Forall_app. split; [done|]. apply Forall_singleton.
        unfold desc_ok. cbn. rewrite (chunk_of_offset c off) by (done || lia). lia.
      * rewrite Hfr. apply Forall_app. split; [done|]. by apply Forall_singleton.
      * rewrite length_app. lia.
    + constructor; try done; cbn; [by apply prefix_app_r|]. exists [f]. by rewrite Hfr.
Qed.

Lemma rx_chunk_ksteps_inv spent n v v' : rtc rx_kstep v v' -> inv spent n v -> inv spent n v' /\ advanced spent v v'.
Proof.
  induction 1 as [v|v v1 v2 Hk _ IH]; intros Hi; [split; [done|apply advanced_refl]|].
  destruct (rx_chunk_kstep_inv _ _ _ _ Hk Hi) as [Hi1 Ha1]. destruct (IH Hi1) as [Hi2 Ha2].
  split; [done|]. by eapply advanced_trans.
Qed.
End Ownership.

(** ** The receive contract *)
Section Contract.
Context {W : Type} (FILL_SIZE RX_SIZE FrameSize : Z) `{XskRxLaws FILL_SIZE RX_SIZE FrameSize W}.
Context (HFS : 0 < FrameSize) (n : nat) (Hfill : Z.of_nat n <= FILL_SIZE)
  (Hn32 : Z.of_nat n < 2 ^ 32).
Abbreviation S := (AFXDP * W)%type.
Abbreviation rx_kstep := (rx_kstep RX_SIZE FrameSize).
Abbreviation inv := (inv FrameSize).
Abbreviation rv s := (rview FILL_SIZE RX_SIZE FrameSize (snd s)).

Definition arrived (s : S) : list bytes := v_arrived (rv s).

(** No frame is held; the frames not seen yet are those in the RX ring. *)
Definition idle_view (seen : list bytes) (v : view) : Prop :=
  inv 0 n v /\ v_reserved v = [] /\ v_peeked v = 0 /\ v_arrived v = seen ++ frames 0 v.
Definition idle (seen : list bytes) (s : S) : Prop := idle_view seen (rv s).

(** One descriptor is peeked and one FILL slot reserved for its chunk. *)
Definition held (seen : list bytes) (f : bytes) (s : S) : Prop :=
  let v := rv s in
  inv 0 n v /\ v_reserved v = [None] /\ v_peeked v = 1 /\ v_arrived v = seen ++ frames 0 v /\
  m_pendingFqIdx (fst s) = u32 (v_fillProd v) /\
  exists d rest, v_rx v = d :: rest /\ m_pendingRxAddr (fst s) = d_addr d /\ frame_at (v_umem v) d = f.

Lemma inv_fields sp v v' :
  inv sp n v -> v_fill v' = v_fill v -> v_nic v' = v_nic v -> v_rx v' = v_rx v -> v_umem v' = v_umem v ->
  inv sp n v'.
Proof.
  intros [H1 H2 H3 H4 H5 H6] Hf Hn Hr Hu.
  constructor; unfold owned, frames in *; rewrite ?Hf, ?Hn, ?Hr, ?Hu; done.
Qed.

Lemma desc_load sp v d i :
  inv sp n v -> drop sp (v_rx v) !! i = Some d ->
  load (Z.to_nat (d_addr d)) (Z.to_nat (d_len d)) (v_umem v) = Some (frame_at (v_umem v) d) /\
  frame_at (v_umem v) d <> [].
Proof.
  intros Hi Hd. destruct (Forall_lookup_1 _ _ _ _ (inv_descs _ _ _ _ Hi) Hd) as (Hl & Hd1 & Hd2).
  pose proof (inv_chunks _ _ _ _ Hi) as Hc. rewrite list.Forall_forall in Hc.
  destruct (Hc (chunk FrameSize (d_addr d))) as (Hc0 & _ & He).
  { unfold owned. rewrite !elem_of_app. right; right. apply list_elem_of_fmap. exists d. split; [done|].
    by eapply list_elem_of_lookup_2. }
  assert (Z.to_nat (d_addr d) + Z.to_nat (d_len d) <= length (v_umem v))%nat as Hb by lia.
  split; [unfold load; by rewrite decide_True|]. intros E.
  pose proof (length_slice _ _ _ Hb) as Hs. unfold frame_at in E. rewrite E in Hs. cbn in Hs. lia.
Qed.

Lemma idle_steps seen v v' : rtc rx_kstep v v' -> idle_view seen v -> idle_view seen v'.
Proof.
  intros Hk (Hi & Hr & Hp & Ha). destruct (rx_chunk_ksteps_inv _ _ HFS _ _ _ _ Hk Hi) as [Hi' [E1 _ _ E4 _ (fs & E6 & E7)]].
  split; [done|]. split; [congruence|]. split; [congruence|]. by rewrite E7, E6, Ha, app_assoc.
Qed.

(** A pending descriptor leaves room in the FILL ring. *)
Lemma fill_room v d rest :
  inv 0 n v -> v_reserved v = [] -> v_rx v = d :: rest ->
  Z.of_nat (length (v_reserved v) + length (v_fill v) + 1) <= FILL_SIZE.
Proof.
  intros Hi Hr Hx. pose proof (inv_count _ _ _ _ Hi) as Hc. unfold owned in Hc.
  rewrite !length_app, !length_fmap, Hx in Hc. cbn in Hc. rewrite Hr. cbn. lia.
Qed.

Lemma receive_run seen (s : S) :
  idle seen s ->
  exists f s', tryReceive s = (Done f, s') /\
    match f with [] => idle seen s' | _ => held seen f s' end.
Proof.
  intros Hid. destruct s as [o w]. unfold tryReceive, on_rings.
  unfold mbind at 1, M_bind at 1. cbn [snd fst].
  pose proof (peek_law FILL_SIZE RX_SIZE FrameSize 1 w ltac:(lia)) as Hp. destruct (rx_peek 1 w) as [[r idx] w1].
  destruct Hp as (v & Hk & -> & -> & Hv). apply (idle_steps seen) in Hk; [|exact Hid].
  destruct Hk as (Hi & Hres & Hpk & Har). rewrite Hpk in *. rewrite Z.add_0_r in *.
  destruct (v_rx v) as [|d rest] eqn:Hx; cbn [length].
  { rewrite decide_True by done. eexists [], _. split; [done|]. cbn [snd].
    apply (idle_steps seen (rview _ _ _ w1)); [apply recvfrom_law|]. rewrite Hv.
    split; [|split; [done|]; split; [done|]].
    - by apply (inv_fields 0 v).
    - cbn. rewrite Har. unfold frames. cbn. by rewrite Hx. }
  replace (Z.min 1 (Z.of_nat (Datatypes.S (length rest)) - 0)) with 1 in * by lia.
  rewrite decide_False by done. unfold mbind at 1, M_bind at 1. cbn [snd fst].
  pose proof (reserve_law FILL_SIZE RX_SIZE FrameSize 1 w1) as Hq. change (Z.of_nat 1) with 1 in Hq.
  destruct (fq_reserve 1 w1) as [[got fq] w2].
  destruct Hq as (v2 & Hk2 & Hq).
  assert (inv 0 n (rview FILL_SIZE RX_SIZE FrameSize w1)) as Hi1.
  { rewrite Hv. apply (inv_fields 0 v); try done. }
  destruct (rx_chunk_ksteps_inv _ _ HFS _ _ _ _ Hk2 Hi1) as [Hi2 [E1 E2 E3 E4 [tl E5] (fs & E6 & E7)]].
  rewrite Hv in E1, E2, E3, E4, E5, E6, E7. cbn in E1, E2, E3, E4, E5, E7.
  rewrite decide_True in Hq by (eapply fill_room; [done|by rewrite E1, Hres|by rewrite E5, ?Hx]).
  destruct Hq as (-> & -> & Hv2). rewrite E1, Hres in Hv2. cbn in Hv2.
  unfold set_obj, modify, gets, mbind, M_bind. cbn.
  assert (rx_desc (u32 (v_rxCons v)) w2 = d) as Hd.
  { pose proof (desc_law FILL_SIZE RX_SIZE FrameSize 0 d w2) as Hl. rewrite Hv2 in Hl. cbn in Hl.
    rewrite Z.add_0_r, E3 in Hl. apply Hl; [lia|]. by rewrite E5, ?Hx. }
  rewrite (decide_False (P := 1 = 0)) by done. rewrite decide_False by (intros E; by apply E). cbn. rewrite Hd. rewrite (load_law FILL_SIZE RX_SIZE FrameSize), Hv2. cbn.
  destruct (desc_load 0 v2 d 0 Hi2) as [Hload Hne]; [by rewrite E5, ?Hx|].
  rewrite Hload. eexists _, _. split; [reflexivity|].
  assert (held seen (frame_at (v_umem v2) d)
    (set_pendingRx (d_addr d) (set_pendingFq (u32 (v_fillProd v2 + Z.of_nat (length (v_reserved v2)))) o), w2)) as Hh.
  { unfold held. cbn [snd fst]. rewrite Hv2. cbn -[frames u32].
    split; [by apply (inv_fields 0 v2)|]. split; [done|]. split; [rewrite E4, ?Hpk; lia|].
    split; [rewrite E7, Har, <- app_assoc; f_equal; unfold frames in *; cbn in *; rewrite E6; cbn; by rewrite Hx|].
    split; [rewrite E1, Hres; cbn; by rewrite Z.add_0_r|]. exists d. eexists. split; [by rewrite E5, ?Hx|done]. }
  destruct (frame_at (v_umem v2) d) eqn:Hf; [done|]. exact Hh.
Qed.
(** Handing the peeked chunk back moves it from the RX side to the FILL side. *)
Lemma recycle_inv v d rest a :
  inv 0 n v -> v_rx v = d :: rest -> a = d_addr d ->
  inv 1 n (mk_view [] (v_fillProd v + 1) (v_fill v ++ [a]) (v_nic v) (v_rx v) (v_rxCons v) (v_peeked v)
             (v_umem v) (v_arrived v)).
Proof.
  intros Hi Hx ->. pose proof Hi as [H1' H2' H3' H4' H5' H6'].
  set (v' := mk_view _ _ _ _ _ _ _ _ _).
  assert (owned FrameSize 1 v' ≡ₚ owned FrameSize 0 v) as Hp.
  { unfold owned, v'. cbn. rewrite Hx. cbn. rewrite fmap_app. cbn. rewrite <- app_assoc. cbn.
    apply Permutation_app; [done|]. apply Permutation_middle. }
  unfold frames in H5'. rewrite Hx in H4', H5'. cbn in H4', H5'.
  constructor.
  - by rewrite Hp.
  - by rewrite Hp.
  - by rewrite Hp.
  - unfold v'. cbn. rewrite Hx. by apply list.Forall_cons in H4' as [_ ?].
  - unfold frames, v'. cbn. rewrite Hx. by apply list.Forall_cons in H5' as [_ ?].
  - unfold v'. cbn. rewrite Hx. cbn. lia.
Qed.

Lemma steps_spent sp v v' :
  rtc rx_kstep v v' -> inv sp n v -> inv sp n v' /\ advanced sp v v'.
Proof. intros. by eapply rx_chunk_ksteps_inv. Qed.

Lemma release_run seen f (s : S) :
  held seen f s -> exists s', release s = (Done tt, s') /\ idle (seen ++ [f]) s'.
Proof.
  destruct s as [o w]. intros (Hi & Hr & Hp & Ha & Hfq & d & rest & Hx & Hpa & Hf). cbn [fst snd] in *.
  set (v := rview FILL_SIZE RX_SIZE FrameSize w) in *.
  unfold release, gets, rings, modify, mbind, M_bind. cbn [fst snd]. eexists. split; [reflexivity|].
  set (w1 := fq_fill_addr _ _ w). set (w2 := fq_submit 1 w1).
  destruct (fill_addr_law FILL_SIZE RX_SIZE FrameSize 0 (m_pendingRxAddr o) w) as (v1 & Hk1 & Hv1);
    [lia|fold v; rewrite Hr; cbn; lia|].
  fold v in Hk1, Hv1; rewrite Z.add_0_r, <- Hfq in Hv1. fold w1 in Hv1.
  destruct (steps_spent _ _ _ Hk1 Hi) as [Hi1 [A1 A2 A3 A4 [tl A5] (fs & A6 & A7)]].
  rewrite A1, Hr in Hv1. cbn in Hv1.
  destruct (submit_law FILL_SIZE RX_SIZE FrameSize [m_pendingRxAddr o] [] w1) as (v2 & Hk2 & Hv2);
    [by rewrite Hv1|].
  cbn [length] in Hv2. change (Z.of_nat 1) with 1 in Hv2. fold w2 in Hv2.
  assert (inv 0 n (rview FILL_SIZE RX_SIZE FrameSize w1)) as Hi1'.
  { rewrite Hv1. by apply (inv_fields 0 v1). }
  destruct (steps_spent _ _ _ Hk2 Hi1') as [Hi2 [B1 B2 B3 B4 [tl2 B5] (fs2 & B6 & B7)]].
  rewrite Hv1 in B1, B2, B3, B4, B5, B6, B7. cbn [v_reserved v_fillProd v_rxCons v_peeked v_rx v_arrived] in *.
  assert (v_rx v2 = d :: rest ++ tl ++ tl2) as Hx2.
  { rewrite B5, A5, Hx. cbn. by rewrite <- app_assoc. }
  pose proof (recycle_inv v2 d _ (m_pendingRxAddr o) Hi2 Hx2 Hpa) as Hi3.
  assert (rview FILL_SIZE RX_SIZE FrameSize w2 =
    mk_view [] (v_fillProd v2 + 1) (v_fill v2 ++ [m_pendingRxAddr o]) (v_nic v2) (v_rx v2) (v_rxCons v2)
      (v_peeked v2) (v_umem v2) (v_arrived v2)) as Hv2' by exact Hv2.
  destruct (rx_release_law FILL_SIZE RX_SIZE FrameSize 1 w2) as (v3 & Hk3 & Hv3).
  { rewrite Hv2'. cbn. rewrite B4, A4, Hp. lia. }
  rewrite Hv2' in Hk3. destruct (steps_spent _ _ _ Hk3 Hi3) as [Hi4 [C1 C2 C3 C4 [tl3 C5] (fs3 & C6 & C7)]].
  cbn [v_reserved v_fillProd v_rxCons v_peeked v_rx v_arrived] in *.
  unfold idle, idle_view. cbn [snd]. change (Z.of_nat 1) with 1 in Hv3. rewrite Hv3.
  split; [|split; [exact C1|split; [cbn; rewrite C4, B4, A4, Hp; lia|]]].
  - destruct Hi4 as [I1 I2 I3 I4 I5 I6]. constructor; [exact I1|exact I2|exact I3|exact I4|exact I5|cbn; lia].
  - match goal with |- _ = _ ++ frames 0 ?v' => change (frames 0 v') with (frames 1 v3) end.
    assert (frames 0 v = f :: (frame_at (v_umem v) <$> rest)) as F0 by (unfold frames; rewrite Hx; cbn; by rewrite Hf).
    assert (frames 0 v2 = frame_at (v_umem v2) d :: (frame_at (v_umem v2) <$> rest ++ tl ++ tl2)) as F2
      by (unfold frames; by rewrite Hx2).
    match type of C6 with _ = frames 1 ?v' ++ _ => assert (frames 1 v' = frame_at (v_umem v2) <$> rest ++ tl ++ tl2) as F1
      by (unfold frames; cbn [v_rx v_umem]; by rewrite Hx2) end.
    match type of B6 with _ = frames 0 ?v' ++ _ => change (frames 0 v') with (frames 0 v1) in B6 end.
    rewrite F2, A6, F0 in B6. injection B6 as B6a B6b.
    cbn. rewrite C7, B7, A7, Ha, F0, C6, F1, B6b. rewrite <- !app_assoc. done.
Qed.

#[export] Program Instance AFXDP_RxContract : RxContract S := {|
  rx_arrived := arrived; rx_idle := idle; rx_held := held;
  receive_in_order := receive_run; release_idle := release_run |}.
Next Obligation. intros seen s (Hi & _ & _ & Ha). by exists (frames 0 (rv s)). Qed.
Next Obligation.
  intros seen f s (_ & _ & _ & Ha & _ & d & rest & Hx & _ & Hf).
  exists (frame_at (v_umem (rv s)) <$> rest). etrans; [exact Ha|].
  unfold frames. rewrite Hx. cbn. rewrite Hf. by rewrite <- app_assoc.
Qed.
Next Obligation.
  intros seen f s (Hi & _ & _ & _ & _ & d & rest & Hx & _ & Hf).
  pose proof (inv_frames _ _ _ _ Hi) as Hb. unfold frames in Hb. rewrite Hx in Hb. cbn in Hb.
  apply list.Forall_cons in Hb as [Hb _]. by rewrite <- Hf.
Qed.

(** ** Filling the FILL ring *)

(** Rings right after [xsk_umem__create] and [xsk_socket__create]. *)
Definition fresh (tx : nat) (v : view) : Prop :=
  v_reserved v = [] /\ v_fill v = [] /\ v_nic v = [] /\ v_rx v = [] /\ v_peeked v = 0 /\ v_arrived v = [] /\
  (Z.of_nat tx + Z.of_nat n) * FrameSize <= Z.of_nat (length (v_umem v)).

(** Without a chunk of its own the kernel has nothing to do. *)
Lemma quiescent v v' : rtc rx_kstep v v' -> v_fill v = [] -> v_nic v = [] -> v' = v.
Proof.
  intros Hk Hf Hn. inversion Hk as [|? v1 ? Hs]; [done|]. subst. inversion Hs as [? a fill E|? l1 c l2 ? ? ? E]; subst.
  - by rewrite Hf in E.
  - rewrite Hn in E. by destruct l1.
Qed.

Definition rx_chunks (tx i k : nat) : list Z := (fun j => (Z.of_nat tx + Z.of_nat j) * FrameSize) <$> seq i k.

Lemma fill_from_run tx k i (s : S) l p :
  v_reserved (rv s) = l ++ replicate k None -> length l = i -> v_fill (rv s) = [] -> v_nic (rv s) = [] ->
  p = v_fillProd (rv s) -> Z.of_nat (i + k) <= 2 ^ 32 ->
  exists s', fill_from (Z.of_nat tx) FrameSize k (Z.of_nat i) (u32 (p + Z.of_nat i)) s = (Done tt, s') /\
    fst s' = fst s /\
    rv s' = mk_view (l ++ (Some <$> rx_chunks tx i k)) p [] [] (v_rx (rv s)) (v_rxCons (rv s)) (v_peeked (rv s))
              (v_umem (rv s)) (v_arrived (rv s)).
Proof.
  revert i l s; induction k as [|k IH]; intros i l s Hr Hl Hf Hn Hp Hik.
  { exists s. split; [done|]. split; [done|]. cbn in *. rewrite app_nil_r in *. subst p.
    destruct (rv s). cbn in *. by subst. }
  cbn [fill_from]. unfold rings at 1, modify, mbind, M_bind. cbn [fst snd].
  set (a := (Z.of_nat tx + Z.of_nat i) * FrameSize). set (w1 := fq_fill_addr _ a (snd s)).
  destruct (fill_addr_law FILL_SIZE RX_SIZE FrameSize i a (snd s)) as (v & Hk & Hv).
  { lia. }
  { rewrite Hr, length_app, length_replicate. lia. }
  apply quiescent in Hk as ->; [|done|done]. rewrite <- Hp in Hv. fold w1 in Hv. rewrite Hr in Hv.
  rewrite insert_app_r_alt in Hv by lia. replace (i - length l)%nat with 0%nat in Hv by lia. cbn in Hv.
  rewrite wrap_add_l. replace (p + Z.of_nat i + 1) with (p + Z.of_nat (Datatypes.S i)) by lia.
  replace (Z.of_nat i + 1) with (Z.of_nat (Datatypes.S i)) by lia.
  destruct (IH (Datatypes.S i) (l ++ [Some a]) (fst s, w1)) as (s' & He & Ho & Hv');
    cbn [fst snd]; rewrite ?Hv; cbn.
  - by rewrite <- app_assoc.
  - rewrite length_app. cbn. lia.
  - done.
  - done.
  - done.
  - lia.
  - exists s'. split; [exact He|]. split; [done|]. rewrite Hv', <- app_assoc. cbn [snd]. rewrite Hv. done.
Qed.

(** [xskPopulateFillRing] gives every RX chunk to the kernel and leaves the TX chunks alone. *)
Lemma populate_run tx (s : S) :
  fresh tx (rv s) ->
  exists s', xskPopulateFillRing (Z.of_nat tx) (Z.of_nat n) FrameSize s = (Done tt, s') /\ idle [] s'.
Proof.
  intros (Hr & Hf & Hn & Hx & Hp & Ha & Hu). unfold xskPopulateFillRing, on_rings.
  unfold mbind at 1, M_bind at 1. pose proof (reserve_law FILL_SIZE RX_SIZE FrameSize n (snd s)) as Hq.
  destruct (fq_reserve (Z.of_nat n) (snd s)) as [[got idx] w1].
  destruct Hq as (v & Hk & Hq). apply quiescent in Hk as ->; [|done|done].
  rewrite Hr, Hf in Hq. cbn [length] in Hq. rewrite decide_True in Hq by lia. cbn in Hq.
  destruct Hq as (-> & -> & Hv). rewrite decide_False by (intros E; by apply E). rewrite Nat2Z.id.
  destruct (fill_from_run tx n 0 (fst s, w1) [] (v_fillProd (rv s))) as (s2 & Hs2 & Ho2 & Hv2);
    [cbn [snd]; by rewrite Hv|done|cbn [snd]; by rewrite Hv|cbn [snd]; by rewrite Hv|cbn [snd]; by rewrite Hv|lia|].
  rewrite Z.add_0_r in *. change (Z.of_nat 0) with 0 in Hs2. rewrite (run_bind _ _ _ _ _ Hs2).
  cbn [snd] in Hv2. rewrite Hv in Hv2. cbn [v_rx v_rxCons v_peeked v_umem v_arrived] in Hv2. cbn [app] in Hv2.
  eexists. split; [reflexivity|].
  destruct (submit_law FILL_SIZE RX_SIZE FrameSize (rx_chunks tx 0 n) [] (snd s2)) as (v & Hk & Hv3).
  { rewrite Hv2. cbn. by rewrite app_nil_r. }
  apply quiescent in Hk as ->; [|by rewrite Hv2|by rewrite Hv2].
  assert (length (rx_chunks tx 0 n) = n) as Hlen by (unfold rx_chunks; by rewrite length_fmap, length_seq).
  rewrite Hlen, Hv2 in Hv3. cbn in Hv3. unfold idle, idle_view. cbn [snd fst]. rewrite Hv3. cbn.
  rewrite Hx, Hp, Ha. split; [|done].
  assert (chunk FrameSize <$> rx_chunks tx 0 n = rx_chunks tx 0 n) as Hc.
  { unfold rx_chunks. rewrite <- list_fmap_compose. apply list_fmap_ext. intros i j _. cbn.
    unfold chunk. rewrite Z_mod_mult. lia. }
  constructor; unfold owned, frames; cbn; rewrite ?Hx, ?Hc, ?app_nil_r; cbn; try done; try lia.
  - unfold rx_chunks. apply NoDup_fmap_2_strong; [|apply NoDup_seq]. intros i j _ _ E. nia.
  - unfold rx_chunks. apply list.Forall_forall. intros c Hc'. apply list_elem_of_fmap in Hc' as (j & -> & Hj).
    apply elem_of_seq in Hj. split; [nia|]. split; [by apply Z.divide_factor_r|]. nia.
Qed.
End Contract.

(** ** A simulated kernel: it takes every FILL address and delivers one queued frame
    whenever the program calls [recvfrom]. *)
Record sim_rx := { sr_view : view; sr_pending : list bytes }.

Definition sim_take (FS : Z) (v : view) : view :=
  mk_view (v_reserved v) (v_fillProd v) [] (v_nic v ++ (chunk FS <$> v_fill v)) (v_rx v) (v_rxCons v)
    (v_peeked v) (v_umem v) (v_arrived v).

Definition sim_deliver (RS FS : Z) (f : bytes) (v : view) : view :=
  match v_nic v with
  | c :: nic =>
      if decide (Z.of_nat (length (v_rx v)) < RS /\ f <> [] /\ is_bytes f /\ 256 + Z.of_nat (length f) <= FS /\
                 0 <= c /\ c + FS <= Z.of_nat (length (v_umem v)))
      then mk_view (v_reserved v) (v_fillProd v) (v_fill v) nic
             (v_rx v ++ [{| d_addr := c + 256; d_len := Z.of_nat (length f); d_options := 0 |}])
             (v_rxCons v) (v_peeked v) (list_inserts (Z.to_nat (c + 256)) f (v_umem v)) (v_arrived v ++ [f])
      else v
  | [] => v
  end.

Lemma sim_take_steps RS FS v : rtc (rx_kstep RS FS) v (sim_take FS v).
Proof.
  destruct v as [r p fill nic rx c k u ar]. unfold sim_take. cbn.
  revert nic. induction fill as [|a fill IH]; intros nic; cbn; [rewrite app_nil_r; apply rtc_refl|].
  eapply rtc_l; [by apply (rx_take RS FS (mk_view r p (a :: fill) nic rx c k u ar) a fill)|]. cbn.
  specialize (IH (nic ++ [chunk FS a])). by rewrite <- app_assoc in IH.
Qed.

Lemma sim_deliver_steps RS FS f v : rtc (rx_kstep RS FS) v (sim_deliver RS FS f v).
Proof.
  unfold sim_deliver. destruct (v_nic v) as [|c nic] eqn:Hn; [apply rtc_refl|].
  case_decide as Hd; [|apply rtc_refl]. destruct Hd as (Hr & Hf & Hb & Hl & Hc & Hu).
  assert (Z.to_nat (c + 256) + length f <= length (v_umem v))%nat as Hbd by lia.
  apply rtc_once. apply (rx_deliver RS FS v [] c nic 256 f); try done; try lia.
  - by rewrite length_inserts.
  - intros i Hi. destruct (decide (i < Z.to_nat (c + 256))%nat); [by rewrite list_lookup_inserts_lt by lia|].
    rewrite list_lookup_inserts_ge by lia. done.
  - by apply slice_inserts_eq.
Qed.

Definition sim_idx (base idx : Z) : nat := Z.to_nat (u32 (idx - base)).

Lemma sim_idx_spec base i : 0 <= Z.of_nat i < 2 ^ 32 -> sim_idx base (u32 (base + Z.of_nat i)) = i.
Proof.
  intros Hi. unfold sim_idx. rewrite wrap_sub_l. replace (base + Z.of_nat i - base) with (Z.of_nat i) by lia.
  rewrite wrap_small by done. lia.
Qed.

Definition sim_upd (f : view -> view) (w : sim_rx) : sim_rx :=
  {| sr_view := f (sr_view w); sr_pending := sr_pending w |}.

Section Sim.
Context (FILL_SIZE RX_SIZE FrameSize : Z).

#[export] Instance sim_XskRx : XskRx sim_rx := {|
  rx_peek n w :=
    let v := sr_view w in
    let r := Z.min n (Z.of_nat (length (v_rx v)) - v_peeked v) in
    ((r, u32 (v_rxCons v + v_peeked v)),
     sim_upd (fun v => mk_view (v_reserved v) (v_fillProd v) (v_fill v) (v_nic v) (v_rx v) (v_rxCons v)
                         (v_peeked v + r) (v_umem v) (v_arrived v)) w);
  rx_desc idx w :=
    nth (sim_idx (v_rxCons (sr_view w)) idx) (v_rx (sr_view w)) {| d_addr := 0; d_len := 0; d_options := 0 |};
  rx_ring_release n := sim_upd (fun v => mk_view (v_reserved v) (v_fillProd v) (v_fill v) (v_nic v)
      (drop (Z.to_nat n) (v_rx v)) (v_rxCons v + n) (v_peeked v - n) (v_umem v) (v_arrived v));
  fq_reserve n w :=
    let v := sr_view w in
    if decide (Z.of_nat (length (v_reserved v) + length (v_fill v) + Z.to_nat n) <= FILL_SIZE) then
      ((n, u32 (v_fillProd v + Z.of_nat (length (v_reserved v)))),
       sim_upd (fun v => mk_view (v_reserved v ++ replicate (Z.to_nat n) None) (v_fillProd v) (v_fill v) (v_nic v)
                      (v_rx v) (v_rxCons v) (v_peeked v) (v_umem v) (v_arrived v)) w)
    else ((0, 0), w);
  fq_fill_addr idx a := sim_upd (fun v => mk_view (<[sim_idx (v_fillProd v) idx := Some a]> (v_reserved v))
      (v_fillProd v) (v_fill v) (v_nic v) (v_rx v) (v_rxCons v) (v_peeked v) (v_umem v) (v_arrived v));
  fq_submit n := sim_upd (fun v => mk_view (drop (Z.to_nat n) (v_reserved v)) (v_fillProd v + n)
      (v_fill v ++ omap id (take (Z.to_nat n) (v_reserved v))) (v_nic v) (v_rx v) (v_rxCons v) (v_peeked v)
      (v_umem v) (v_arrived v));
  recvfrom w :=
    match sr_pending w with
    | f :: rest => {| sr_view := sim_deliver RX_SIZE FrameSize f (sim_take FrameSize (sr_view w)); sr_pending := rest |}
    | [] => w
    end;
  umem_load a l w := load (Z.to_nat a) (Z.to_nat l) (v_umem (sr_view w));
|}.

Lemma omap_id_Some {A} (l : list A) : omap id (Some <$> l) = l.
Proof. induction l as [|x l IH]; [done|]. cbn. by rewrite IH. Qed.

#[export] Program Instance sim_XskRxLaws : XskRxLaws FILL_SIZE RX_SIZE FrameSize sim_rx := {| rview := sr_view |}.
Next Obligation. intros n w Hn. cbn. eexists. split; [apply rtc_refl|]. done. Qed.
Next Obligation.
  intros i d w Hi Hd. cbn. rewrite sim_idx_spec by lia. by apply nth_lookup_Some.
Qed.
Next Obligation. intros n w Hn. cbn. eexists. split; [apply rtc_refl|]. by rewrite Nat2Z.id. Qed.
Next Obligation.
  intros n w. cbn. rewrite Nat2Z.id. case_decide as Hd; cbn; eexists; (split; [apply rtc_refl|]); by case_decide.
Qed.
Next Obligation. intros i a w Hi Hl. cbn. eexists. split; [apply rtc_refl|]. rewrite sim_idx_spec by lia. done. Qed.
Next Obligation.
  intros addrs rest w Hr. cbn. eexists. split; [apply rtc_refl|]. rewrite Nat2Z.id, Hr.
  rewrite drop_app_length' by (by rewrite length_fmap). rewrite take_app_length' by (by rewrite length_fmap).
  by rewrite omap_id_Some.
Qed.
Next Obligation.
  intros w. cbn. destruct (sr_pending w); cbn; [apply rtc_refl|].
  etrans; [apply (sim_take_steps RX_SIZE)|apply sim_deliver_steps].
Qed.
Next Obligation. done. Qed.
End Sim.

(** C8: From freshly created rings, filling the FILL ring and polling any number of times
    never aborts, whatever the kernel does in between: the FILL reservation that the code
    guards with an abort cannot fail.  The frames come out in the order in which the
    kernel delivered them, each once, and every RX chunk of the UMEM is always in exactly
    one place: the FILL ring, the kernel, or the RX ring. *)
Theorem afxdp_rx_fifo {W} FILL_SIZE RX_SIZE FrameSize `{XskRxLaws FILL_SIZE RX_SIZE FrameSize W} tx n k (s : AFXDP * W) :
  0 < FrameSize -> Z.of_nat n <= FILL_SIZE -> Z.of_nat n < 2 ^ 32 ->
  fresh FrameSize n tx (rview FILL_SIZE RX_SIZE FrameSize (snd s)) ->
  exists fs s',
    (xskPopulateFillRing (Z.of_nat tx) (Z.of_nat n) FrameSize ;; receive_n k) s = (Done fs, s') /\
    fs `prefix_of` v_arrived (rview FILL_SIZE RX_SIZE FrameSize (snd s')) /\
    NoDup (owned FrameSize 0 (rview FILL_SIZE RX_SIZE FrameSize (snd s'))) /\
    length (owned FrameSize 0 (rview FILL_SIZE RX_SIZE FrameSize (snd s'))) = n.
Proof.
  intros HFS Hfill Hn Hf. destruct (populate_run FILL_SIZE RX_SIZE FrameSize HFS n Hfill Hn tx s Hf) as (s1 & He & Hid).
  rewrite (run_bind _ _ _ _ _ He).
  destruct (receive_n_spec (H0 := AFXDP_RxContract FILL_SIZE RX_SIZE FrameSize HFS n Hfill) k [] s1 Hid) as (fs & s2 & Hr & Hid2).
  exists fs, s2. split; [exact Hr|]. destruct Hid2 as (Hi & _ & _ & Ha).
  split; [exists (frames 0 (rview FILL_SIZE RX_SIZE FrameSize (snd s2))); exact Ha|].
  split; [apply Hi|apply Hi].
Qed.

Definition sim_obj : AFXDP :=
  mk_AFXDP "eth0" 0 "af_xdp_kern.o" "zero-copy" 1 0 1 0 1 2 7 false true false false 0 0 0 0 0 0 0 0.

(** Eight RX chunks of 2048 bytes and no TX pool: the smallest socket of the template. *)
Definition sim_start : AFXDP * sim_rx :=
  (sim_obj, {| sr_view := mk_view [] 0 [] [] [] 0 0 (replicate 16384 0) [];
               sr_pending := [[1;2];[3];[4;5;6]] |}).

Definition sim_fifo : M (AFXDP * sim_rx) (list bytes) :=
  let _ := sim_XskRx 16 8 2048 in xskPopulateFillRing (Z.of_nat 0) (Z.of_nat 8) 2048 ;; receive_n 6.

Lemma afxdp_rx_fifo_witness :
  fst (sim_fifo sim_start) = Done [[1;2];[3];[4;5;6]] /\
  exists fs s', sim_fifo sim_start = (Done fs, s') /\ fs `prefix_of` v_arrived (sr_view (snd s')) /\
    NoDup (owned 2048 0 (sr_view (snd s'))) /\ length (owned 2048 0 (sr_view (snd s'))) = 8%nat.
Proof.
  split; [vm_compute; reflexivity|].
  pose proof (afxdp_rx_fifo (H := sim_XskRx 16 8 2048) (H0 := sim_XskRxLaws 16 8 2048) 16 8 2048 0 8 6 sim_start) as Ht.
  apply Ht; [lia|lia|lia|]. unfold fresh. cbn [sim_start snd sr_view rview sim_XskRxLaws v_reserved v_fill v_nic v_rx v_peeked v_arrived v_umem].
  rewrite length_replicate. by split_and!.
Defined.
End Rx.

(** ** Transmit *)
Module Tx.

Definition ENOBUFS : Z := 105.
Definition EAGAIN : Z := 11.
Definition EBUSY : Z := 16.
Definition ENETDOWN : Z := 100.

(** libxdp's accessors of the TX and COMPLETION rings, [sendto] and stores into the
    UMEM (no result when they would leave the mapping). *)
Class XskTx (W : Type) := {
  tx_reserve : Z -> W -> (Z * Z) * W;
  tx_desc_set : Z -> xdp_desc -> W -> W;
  tx_submit : Z -> W -> W;
  tx_needs_wakeup : W -> bool * W;
  sendto : W -> (Z * Z) * W;
  cq_peek : Z -> W -> (Z * Z) * W;
  cq_release : Z -> W -> W;
  umem_store : Z -> bytes -> W -> option W;
}.

(** Reserved TX slots, descriptors in the TX ring, descriptors the kernel has taken,
    addresses in the COMPLETION ring (the first [t_peeked] of them peeked), the UMEM and
    the frames that left the machine. *)
Record view := mk_view {
  t_reserved : list (option xdp_desc);
  t_txProd : Z;
  t_tx : list xdp_desc;
  t_nic : list xdp_desc;
  t_comp : list Z;
  t_peeked : Z;
  t_umem : bytes;
  t_sent : list bytes;
}.

Definition frame_at (umem : bytes) (d : xdp_desc) : bytes :=
  slice (Z.to_nat (d_addr d)) (Z.to_nat (d_len d)) umem.

(** The kernel takes the oldest TX descriptor, or sends the oldest frame it holds, read
    from the UMEM at that moment, and completes its address. *)
Inductive tx_kstep : view -> view -> Prop :=
  | tx_take v d tx :
      t_tx v = d :: tx ->
      tx_kstep v (mk_view (t_reserved v) (t_txProd v) tx (t_nic v ++ [d]) (t_comp v) (t_peeked v)
                    (t_umem v) (t_sent v))
  | tx_complete v d nic :
      t_nic v = d :: nic ->
      tx_kstep v (mk_view (t_reserved v) (t_txProd v) (t_tx v) nic (t_comp v ++ [d_addr d]) (t_peeked v)
                    (t_umem v) (t_sent v ++ [frame_at (t_umem v) d])).

Class XskTxLaws (TX_SIZE : Z) (W : Type) `{XskTx W} := {
  tview : W -> view;
  reserve_law (n : nat) w : let '((r, idx), w') := tx_reserve (Z.of_nat n) w in
    exists v, rtc tx_kstep (tview w) v /\
      (if decide (Z.of_nat (length (t_reserved v) + length (t_tx v) + n) <= TX_SIZE) then
         r = Z.of_nat n /\ idx = u32 (t_txProd v + Z.of_nat (length (t_reserved v))) /\
         tview w' = mk_view (t_reserved v ++ replicate n None) (t_txProd v) (t_tx v) (t_nic v) (t_comp v)
                      (t_peeked v) (t_umem v) (t_sent v)
       else r = 0 /\ tview w' = v);
  desc_set_law (i : nat) d w : Z.of_nat i < 2 ^ 32 -> (i < length (t_reserved (tview w)))%nat ->
    exists v, rtc tx_kstep (tview w) v /\
      tview (tx_desc_set (u32 (t_txProd (tview w) + Z.of_nat i)) d w) =
        mk_view (<[i := Some d]> (t_reserved v)) (t_txProd v) (t_tx v) (t_nic v) (t_comp v) (t_peeked v)
          (t_umem v) (t_sent v);
  submit_law ds rest w : t_reserved (tview w) = (Some <$> ds) ++ rest ->
    exists v, rtc tx_kstep (tview w) v /\
      tview (tx_submit (Z.of_nat (length ds)) w) =
        mk_view rest (t_txProd v + Z.of_nat (length ds)) (t_tx v ++ ds) (t_nic v) (t_comp v) (t_peeked v)
          (t_umem v) (t_sent v);
  wakeup_law w : rtc tx_kstep (tview w) (tview (snd (tx_needs_wakeup w)));
  sendto_law w : rtc tx_kstep (tview w) (tview (snd (sendto w)));
  cq_peek_law n w : 0 <= n -> let '((r, idx), w') := cq_peek n w in
    exists v, rtc tx_kstep (tview w) v /\
      r = Z.min n (Z.of_nat (length (t_comp v)) - t_peeked v) /\
      tview w' = mk_view (t_reserved v) (t_txProd v) (t_tx v) (t_nic v) (t_comp v) (t_peeked v + r)
                   (t_umem v) (t_sent v);
  cq_release_law (n : nat) w : Z.of_nat n <= t_peeked (tview w) ->
    exists v, rtc tx_kstep (tview w) v /\
      tview (cq_release (Z.of_nat n) w) =
        mk_view (t_reserved v) (t_txProd v) (t_tx v) (t_nic v) (drop n (t_comp v)) (t_peeked v - Z.of_nat n)
          (t_umem v) (t_sent v);
  store_law a src w :
    exists v, rtc tx_kstep (tview w) v /\
      match store (Z.to_nat a) src (t_umem v) with
      | Some u => exists w', umem_store a src w = Some w' /\
          tview w' = mk_view (t_reserved v) (t_txProd v) (t_tx v) (t_nic v) (t_comp v) (t_peeked v) u (t_sent v)
      | None => umem_store a src w = None
      end;
}.

Section Operations.
Context {W : Type} `{XskTx W}.
Context (TX_POOL_FRAMES FrameSize : Z) (NeedWakeup : bool) (fuel : nat).
Abbreviation S := (AFXDP * W)%type.

Definition TX_POOL_MASK : Z := u32 (TX_POOL_FRAMES - 1).

Definition on_rings {A} (f : W -> A * W) : M S A := fun s => let '(a, w) := f (snd s) in (Done a, (fst s, w)).
Definition rings (f : W -> W) : M S unit := modify (fun s => (fst s, f (snd s))).
Definition set_obj (f : AFXDP -> AFXDP) : M S unit := modify (fun s => (f (fst s), snd s)).

(** [acquire]: the next frame of the pool, whatever its state. *)
Definition acquire (frameLen : Z) : M S (option Z) :=
  o ← gets fst;
  let addr := u64 (m_txFrameNb o * FrameSize) in
  set_obj (set_pendingTx addr frameLen) ;;
  mret (Some (m_umem_buffer o + addr)).

(** A [memcpy] into the UMEM. *)
Definition write (p : Z) (src : bytes) : M S unit :=
  fun s => match umem_store (p - m_umem_buffer (fst s)) src (snd s) with
           | Some w => (Done tt, (fst s, w))
           | None => (Undef, s)
           end.

(** [kickTx] *)
Definition kickTx : M S unit :=
  '(ret, errno) ← on_rings sendto;
  if decide (0 <= ret \/ errno = ENOBUFS \/ errno = EAGAIN \/ errno = EBUSY \/ errno = ENETDOWN)
  then mret tt else raise Abort.

(** [completeTx] *)
Definition completeTx : M S unit :=
  o ← gets fst;
  if decide (outstanding_tx o = 0) then mret tt else
  (if NeedWakeup then
     nw ← on_rings tx_needs_wakeup; if (nw : bool) then kickTx else mret tt
   else kickTx) ;;
  '(rcvd, _) ← on_rings (cq_peek BATCH_SIZE);
  if decide (rcvd <> 0) then
    rings (cq_release rcvd) ;;
    set_obj (fun o => set_txState (u32 (outstanding_tx o - rcvd)) (m_txFrameNb o) o)
  else mret tt.

(** [while (xsk_ring_prod__reserve(&m_xsk.tx, 1, &idx) != 1) completeTx();] *)
Fixpoint reserve_loop (n : nat) : M S Z :=
  match n with
  | O => raise NoFuel
  | Datatypes.S n =>
      '(r, idx) ← on_rings (tx_reserve 1);
      if decide (r <> 1) then completeTx ;; reserve_loop n else mret idx
  end.

(** [commit] *)
Definition commit : M S unit :=
  idx ← reserve_loop fuel;
  o ← gets fst;
  rings (tx_desc_set idx {| d_addr := m_pendingTxAddr o; d_len := m_pendingTxLen o; d_options := 0 |}) ;;
  rings (tx_submit 1) ;;
  set_obj (fun o => set_txState (u32 (outstanding_tx o + 1)) (Z.land (u32 (m_txFrameNb o + 1)) TX_POOL_MASK) o) ;;
  completeTx.

(** [send] *)
Definition send (frame : bytes) : M S bool :=
  dst ← acquire (u32 (Z.of_nat (length frame)));
  match dst with
  | None => mret false
  | Some dst => write dst frame ;; commit ;; mret true
  end.

(** [prefillRing] *)
Fixpoint prefill_from (n : nat) (i : Z) (t : bytes) : M S unit :=
  match n with
  | O => mret tt
  | Datatypes.S n =>
      o ← gets fst; write (m_umem_buffer o + i * FrameSize) t ;; prefill_from n (i + 1) t
  end.

Definition prefillRing (t : bytes) : M S unit :=
  if decide (Z.of_nat (length t) > FrameSize) then raise Abort
  else prefill_from (Z.to_nat TX_POOL_FRAMES) 0 t.

#[export] Instance AFXDP_TxRing : TxRing S := {|
  tx_acquire := acquire; tx_write := write; tx_commit := commit;
  tx_send := send; tx_prefillRing := prefillRing |}.
End Operations.

(** ** Frames in flight *)
Section Flight.
Context (N FrameSize : Z).

(** Addresses handed to the kernel and not yet given back, oldest first. *)
Definition inflight (v : view) : list Z := t_comp v ++ (d_addr <$> t_nic v ++ t_tx v).

(** The frames that left the machine, then those on their way out as the UMEM has them. *)
Definition handed (v : view) : list bytes := t_sent v ++ (frame_at (t_umem v) <$> t_nic v ++ t_tx v).

(** What a kernel step leaves alone. *)
Record same (v v' : view) : Prop := {
  same_inflight : inflight v' = inflight v;
  same_handed : handed v' = handed v;
  same_umem : t_umem v' = t_umem v;
  same_reserved : t_reserved v' = t_reserved v;
  same_peeked : t_peeked v' = t_peeked v;
  same_prod : t_txProd v' = t_txProd v;
  same_comp : t_comp v `prefix_of` t_comp v';
  same_descs P : Forall P (t_nic v ++ t_tx v) -> Forall P (t_nic v' ++ t_tx v');
}.

Lemma same_refl v : same v v.
Proof. by constructor. Qed.

Lemma same_trans v1 v2 v3 : same v1 v2 -> same v2 v3 -> same v1 v3.
Proof. intros [] []. constructor; try congruence; [by etrans|]. eauto. Qed.

Lemma kstep_same v v' : tx_kstep v v' -> same v v'.
Proof.
  intros Hk. destruct Hk as [v d tx Ht|v d nic Hn].
  - constructor; try done; unfold inflight, handed; cbn; rewrite ?Ht, <- ?app_assoc; try done.
  - constructor; try done; unfold inflight, handed; cbn; rewrite ?Hn, <- ?app_assoc; try done.
    + by apply prefix_app_r.
    + intros P HP. by apply list.Forall_cons in HP as [_ HP].
Qed.

Lemma ksteps_same v v' : rtc tx_kstep v v' -> same v v'.
Proof.
  induction 1 as [v|v1 v2 v3 Hk _ IH]; [apply same_refl|]. eapply same_trans; [by apply kstep_same|done].
Qed.

(** The ring positions [lo, lo + k) as UMEM addresses. *)
Definition slot_addr (j : Z) : Z := j mod N * FrameSize.
Definition slots (lo k : Z) : list Z := slot_addr <$> seqZ lo k.

Lemma slots_snoc lo k : 0 <= k -> slots lo (k + 1) = slots lo k ++ [slot_addr (lo + k)].
Proof. intros. unfold slots. rewrite seqZ_app by lia. by rewrite fmap_app. Qed.

Lemma slots_drop lo k (r : nat) : Z.of_nat r <= k -> drop r (slots lo k) = slots (lo + Z.of_nat r) (k - Z.of_nat r).
Proof.
  intros Hr. unfold slots. replace k with (Z.of_nat r + (k - Z.of_nat r)) at 1 by lia.
  rewrite seqZ_app by lia. rewrite fmap_app, drop_app_length'; [done|].
  rewrite length_fmap, length_seqZ. lia.
Qed.

Lemma length_slots lo k : 0 <= k -> Z.of_nat (length (slots lo k)) = k.
Proof. intros. unfold slots. rewrite length_fmap, length_seqZ. lia. Qed.

Lemma elem_of_slots a lo k : a ∈ slots lo k <-> exists j, lo <= j < lo + k /\ a = slot_addr j.
Proof.
  unfold slots. rewrite list_elem_of_fmap. split.
  - intros (j & -> & Hj). apply elem_of_seqZ in Hj. by exists j.
  - intros (j & Hj & ->). exists j. split; [done|]. by apply elem_of_seqZ.
Qed.
End Flight.

(** ** The transmit side *)
Section Contract.
Context {W : Type} (N FrameSize : Z) `{XskTxLaws N W}.
Context (NeedWakeup : bool) (fuel : nat).
Context (HN : is_pow2 N) (HN31 : N <= 2 ^ 31) (HFS : 0 < FrameSize <= 4096).
Abbreviation S := (AFXDP * W)%type.
Abbreviation tv s := (tview (snd s)).
Abbreviation slots := (slots N FrameSize).
Abbreviation slot_addr := (slot_addr N FrameSize).

(** The kernel answers a wake-up with success or "busy". *)
Definition benign : Prop := forall w : W, let '((r, e), _) := sendto w in
  0 <= r \/ e = ENOBUFS \/ e = EAGAIN \/ e = EBUSY \/ e = ENETDOWN.

(** Completions keep up: with the whole pool in flight a poll of the COMPLETION ring
    finds at least one frame. *)
Definition keeps_up : Prop := forall w : W,
  t_peeked (tview w) = 0 -> N <= Z.of_nat (length (inflight (tview w))) -> 0 < fst (fst (cq_peek BATCH_SIZE w)).

Definition len_ok (d : xdp_desc) : Prop := 0 <= d_len d <= FrameSize.

(** [k] frames in flight, the youngest at ring position [U - 1]. *)
Record core (U k : Z) (v : view) : Prop := {
  core_range : 0 <= k <= N;
  core_flight : inflight v = slots (U - k) k;
  core_lens : Forall len_ok (t_nic v ++ t_tx v);
  core_umem : N * FrameSize <= Z.of_nat (length (t_umem v));
}.

Definition ready (U : Z) (s : S) : Prop :=
  core U (outstanding_tx (fst s)) (tv s) /\ t_reserved (tv s) = [] /\ t_peeked (tv s) = 0 /\
  m_txFrameNb (fst s) = U mod N.

Lemma N_pos : 0 < N.
Proof. by apply is_pow2_pos. Qed.

Lemma core_same U k v v' : core U k v -> same v v' -> core U k v'.
Proof.
  intros [] []. constructor; try done; try congruence. by apply same_descs0.
Qed.

Lemma core_fields U k v v' :
  core U k v -> inflight v' = inflight v -> t_nic v' = t_nic v -> t_tx v' = t_tx v ->
  length (t_umem v') = length (t_umem v) -> core U k v'.
Proof. intros [] Hf Hn Ht Hu. constructor; rewrite ?Hf, ?Hn, ?Ht, ?Hu; done. Qed.

Lemma ready_steps U o w w' : ready U (o, w) -> rtc tx_kstep (tview w) (tview w') ->
  ready U (o, w') /\ same (tview w) (tview w').
Proof.
  intros (Hc & Hr & Hp & Hn) Hk. apply ksteps_same in Hk. cbn in *. split; [|done].
  destruct Hk. split; [by eapply core_same|]. cbn. split_and!; congruence.
Qed.

Lemma kick_run U o w : benign -> ready U (o, w) ->
  exists w', kickTx (o, w) = (Done tt, (o, w')) /\ ready U (o, w') /\ same (tview w) (tview w').
Proof.
  intros Hb Hr. unfold kickTx, on_rings, mbind, M_bind. cbn [fst snd].
  pose proof (Hb w) as Hw. pose proof (sendto_law w) as Hl. destruct (sendto w) as [[r e] w'].
  cbn [snd] in Hl. destruct (ready_steps U o w w' Hr Hl). rewrite decide_True by done. by exists w'.
Qed.

Lemma wake_run U o w : benign -> ready U (o, w) ->
  exists w', (if NeedWakeup then
     nw ← on_rings tx_needs_wakeup; if (nw : bool) then kickTx else mret tt
   else kickTx) (o, w) = (Done tt, (o, w')) /\ ready U (o, w') /\ same (tview w) (tview w').
Proof.
  intros Hb Hr. destruct NeedWakeup; [|by apply kick_run].
  unfold on_rings at 1, mbind at 1, M_bind at 1. cbn [fst snd].
  pose proof (wakeup_law w) as Hl. destruct (tx_needs_wakeup w) as [nw w1]. cbn [snd] in Hl.
  destruct (ready_steps U o w w1 Hr Hl) as [Hr1 Hs1]. destruct nw; [|by exists w1].
  destruct (kick_run U o w1 Hb Hr1) as (w2 & Hk & Hr2 & Hs2). exists w2. split; [exact Hk|]. split; [done|].
  by eapply same_trans.
Qed.

(** [completeTx] returns; it takes back [r] frames, at least one if the completions keep
    up and the pool is exhausted. *)
Lemma complete_run U (s : S) :
  benign -> ready U s ->
  exists s' r, completeTx NeedWakeup s = (Done tt, s') /\ ready U s' /\
    handed (tv s') = handed (tv s) /\ t_umem (tv s') = t_umem (tv s) /\
    0 <= r <= outstanding_tx (fst s) /\
    fst s' = set_txState (outstanding_tx (fst s) - r) (m_txFrameNb (fst s)) (fst s) /\
    (keeps_up -> outstanding_tx (fst s) = N -> 0 < r).
Proof.
  intros Hb Hrd. destruct s as [o w]. unfold completeTx, gets. unfold mbind at 1, M_bind at 1. cbn [fst snd].
  pose proof N_pos as HNp. case_decide as Hz0.
  { exists (o, w), 0. cbn [fst snd]. split_and!; try done; try lia. destruct o; cbn in *; subst; done. }
  destruct (wake_run U o w Hb Hrd) as (w1 & Hw & Hr1 & Hs1). rewrite (run_bind _ _ _ _ _ Hw).
  unfold on_rings, mbind, M_bind. cbn [fst snd].
  pose proof (cq_peek_law BATCH_SIZE w1 ltac:(unfold BATCH_SIZE; lia)) as Hp.
  assert (keeps_up -> outstanding_tx o = N -> 0 < fst (fst (cq_peek BATCH_SIZE w1))) as Hkeep.
  { intros Hk He. destruct Hr1 as (Hc & _ & Hpk' & _). apply Hk; [exact Hpk'|]. pose proof (core_flight _ _ _ Hc) as Hfl. cbn [fst snd] in Hfl. rewrite Hfl, length_slots; lia. }
  destruct (cq_peek BATCH_SIZE w1) as [[r i] w2]. cbn [fst] in Hkeep. destruct Hp as (v & Hk & Hr & Hv).
  destruct Hr1 as (Hc1 & Hre1 & Hpk1 & Hnb1). cbn [fst snd] in *.
  apply ksteps_same in Hk. pose proof (core_same _ _ _ _ Hc1 Hk) as Hcv. destruct Hk as [K1 K2 K3 K4 K5 K6 K7 K8].
  rewrite K5, Hpk1 in Hr, Hv.
  assert (Z.of_nat (length (t_comp v)) <= outstanding_tx o) as Hcl.
  { pose proof (core_flight _ _ _ Hcv) as Hf. apply (f_equal length) in Hf. unfold inflight in Hf.
    rewrite length_app in Hf. pose proof (length_slots N FrameSize (U - outstanding_tx o) (outstanding_tx o)). 
    destruct (core_range _ _ _ Hcv). lia. }
  assert (core U (outstanding_tx o) (tview w2)) as Hc2.
  { rewrite Hv. by apply (core_fields U _ v). }
  case_decide as Hrz; cbn [negb].
  2: { assert (r = 0) as -> by lia. exists (o, w2), 0. cbn [fst snd].
       split; [done|]. split; [split; [exact Hc2|]; cbn [fst snd]; rewrite Hv; cbn; split_and!; [congruence|lia|done]|].
       split; [rewrite Hv; unfold handed at 1; cbn; fold (handed v); rewrite K2; apply (same_handed _ _ Hs1)|].
       split; [rewrite Hv; cbn; rewrite K3; apply (same_umem _ _ Hs1)|].
       split; [destruct (core_range _ _ _ Hcv); lia|]. split; [rewrite Z.sub_0_r; by destruct o|].
       intros. by apply Hkeep. }
  unfold BATCH_SIZE in Hr. assert (0 < r) as Hrpos by lia. unfold rings, set_obj, modify. cbn [fst snd].
  eexists _, r. split; [reflexivity|]. cbn [fst snd].
  destruct (cq_release_law (Z.to_nat r) w2) as (v3 & Hk3 & Hv3); [rewrite Hv; cbn; lia|].
  rewrite Z2Nat.id in Hv3 by lia. apply ksteps_same in Hk3. pose proof (core_same _ _ _ _ Hc2 Hk3) as Hc3.
  destruct Hk3 as [L1 L2 L3 L4 L5 L6 [tl L7] L8]. rewrite Hv in L2, L3, L4, L5, L6, L7. cbn in L3, L4, L5, L6, L7.
  assert (length (t_comp v) <= length (t_comp v3))%nat as Hlen by (rewrite L7, length_app; lia).
  destruct (core_range _ _ _ Hcv) as [Hk0 HkN].
  assert (u32 (outstanding_tx o - r) = outstanding_tx o - r) as Hu.
  { apply wrap_small. unfold in_u. assert (2 ^ 31 < 2 ^ 32) by lia. lia. }
  rewrite Hu. split.
  { split; [|split; [|split]]; cbn [fst snd]; rewrite ?Hv3; cbn [t_reserved t_peeked]; [|congruence|lia|done].
    destruct Hc3 as [C1 C2 C3 C4]. cbn [outstanding_tx set_txState]. constructor; cbn; try done; [lia|].
    unfold inflight in *. cbn. rewrite <- (Z2Nat.id r) at 3 by lia. rewrite <- (Z2Nat.id r) at 2 by lia.
    replace (U - (outstanding_tx o - Z.of_nat (Z.to_nat r))) with (U - outstanding_tx o + Z.of_nat (Z.to_nat r)) by lia.
    rewrite <- slots_drop by lia. rewrite <- C2. by rewrite drop_app_le by lia. }
  rewrite Hv3. split.
  { unfold handed at 1. cbn. fold (handed v3). rewrite L2. unfold handed at 1. cbn. fold (handed v).
    rewrite K2. apply (same_handed _ _ Hs1). }
  split; [cbn; rewrite L3, K3; apply (same_umem _ _ Hs1)|]. split; [lia|]. split; [done|]. done.
Qed.

(** [commit] with room in the TX ring: the pending frame joins the frames in flight. *)
Lemma commit_run U (s : S) :
  benign -> (0 < fuel)%nat -> ready U s -> outstanding_tx (fst s) < N ->
  m_pendingTxAddr (fst s) = slot_addr U -> 0 <= m_pendingTxLen (fst s) <= FrameSize ->
  exists s' r, commit N NeedWakeup fuel s = (Done tt, s') /\ ready (U + 1) s' /\
    handed (tv s') = handed (tv s) ++
      [slice (Z.to_nat (slot_addr U)) (Z.to_nat (m_pendingTxLen (fst s))) (t_umem (tv s))] /\
    t_umem (tv s') = t_umem (tv s) /\ 0 <= r <= outstanding_tx (fst s) + 1 /\
    fst s' = set_txState (outstanding_tx (fst s) + 1 - r) ((U + 1) mod N) (fst s) /\
    (keeps_up -> outstanding_tx (fst s') < N).
Proof.
  intros Hb Hfu Hrd Hlt Hpa Hpl. destruct s as [o w]. destruct Hrd as (Hc & Hres & Hpk & Hnb). cbn [fst snd] in *.
  pose proof N_pos as HNp. destruct (core_range _ _ _ Hc) as [Hk0 _].
  unfold commit. destruct fuel as [|fu]; [lia|].
  pose proof (reserve_law 1 w) as Hq. change (Z.of_nat 1) with 1 in Hq. destruct (tx_reserve 1 w) as [[r idx] w1] eqn:Hq1.
  destruct Hq as (v & Hk & Hq). apply ksteps_same in Hk. pose proof (core_same _ _ _ _ Hc Hk) as Hcv.
  destruct Hk as [K1 K2 K3 K4 K5 K6 K7 K8].
  assert (Z.of_nat (length (t_tx v)) <= outstanding_tx o) as Htl.
  { pose proof (core_flight _ _ _ Hcv) as Hf. apply (f_equal length) in Hf. unfold inflight in Hf.
    rewrite length_app, length_fmap, length_app in Hf.
    pose proof (length_slots N FrameSize (U - outstanding_tx o) (outstanding_tx o) Hk0). lia. }
  rewrite K4, Hres in Hq. cbn [length] in Hq. rewrite decide_True in Hq by lia. destruct Hq as (-> & -> & Hv1).
  cbn [app replicate] in Hv1.
  assert (reserve_loop NeedWakeup (Datatypes.S fu) (o, w) = (Done (u32 (t_txProd v + Z.of_nat 0)), (o, w1))) as Hres1.
  { cbn [reserve_loop]. unfold on_rings, mbind, M_bind. cbn [fst snd]. rewrite Hq1.
    by rewrite decide_False by (intros E; by apply E). }
  rewrite (run_bind _ _ _ _ _ Hres1).
  unfold gets, rings, mbind, M_bind, modify. cbn [fst snd].
  set (d := {| d_addr := m_pendingTxAddr o; d_len := m_pendingTxLen o; d_options := 0 |}).
  set (w2 := tx_desc_set (u32 (t_txProd v + Z.of_nat 0)) d w1). set (w3 := tx_submit 1 w2). cbn [fst snd].
  assert (core U (outstanding_tx o) (tview w1)) as Hc1 by (rewrite Hv1; by apply (core_fields U _ v)).
  destruct (desc_set_law 0 d w1) as (v2 & Hk2 & Hv2); [lia|rewrite Hv1; cbn; lia|].
  rewrite Hv1 in Hv2. cbn [t_txProd] in Hv2.
  fold w2 in Hv2. apply ksteps_same in Hk2. pose proof (core_same _ _ _ _ Hc1 Hk2) as Hc2.
  rewrite Hv1 in Hk2. destruct Hk2 as [L1 L2 L3 L4 L5 L6 L7 L8]. cbn in L3, L4, L5.
  rewrite L4 in Hv2. cbn in Hv2.
  assert (core U (outstanding_tx o) (tview w2)) as Hc2' by (rewrite Hv2; by apply (core_fields U _ v2)).
  destruct (submit_law [d] [] w2) as (v3 & Hk3 & Hv3); [by rewrite Hv2|].
  cbn [length] in Hv3. change (Z.of_nat 1) with 1 in Hv3. fold w3 in Hv3.
  apply ksteps_same in Hk3. pose proof (core_same _ _ _ _ Hc2' Hk3) as Hc3.
  rewrite Hv2 in Hk3. destruct Hk3 as [P1 P2 P3 P4 P5 P6 P7 P8]. cbn in P3, P4, P5.
  unfold set_obj, modify. cbn [fst snd]. set (o' := set_txState (u32 (outstanding_tx o + 1)) _ o).
  assert (o' = set_txState (outstanding_tx o + 1) ((U + 1) mod N) o) as Ho'.
  { unfold o'. f_equal; [apply wrap_small; unfold in_u; lia|]. unfold TX_POOL_MASK.
    assert (0 <= U mod N < N) by (apply Z.mod_pos_bound; lia).
    rewrite (wrap_small 32 (N - 1)) by (unfold in_u; lia). rewrite Hnb, wrap_small by (unfold in_u; lia).
    rewrite land_mask by done. apply Zplus_mod_idemp_l. }
  assert (ready (U + 1) (o', w3)) as Hr4.
  { rewrite Ho'. split; [|cbn [fst snd]; rewrite Hv3; cbn; split_and!; [done|lia|done]]. cbn [fst snd outstanding_tx set_txState].
    rewrite Hv3. destruct Hc3 as [D1 D2 D3 D4]. constructor; [lia| | |exact D4].
    - unfold inflight in *. cbn. rewrite app_assoc, fmap_app, app_assoc, D2.
      replace (U + 1 - (outstanding_tx o + 1)) with (U - outstanding_tx o) by lia.
      rewrite slots_snoc by lia. f_equal. cbn. unfold d. cbn. rewrite Hpa. f_equal. f_equal. lia.
    - cbn. rewrite app_assoc. apply Forall_app. split; [done|]. by apply Forall_singleton. }
  destruct (complete_run (U + 1) (o', w3) Hb Hr4) as (s' & r & Hrun & Hr5 & Hh & Hu & Hr & Ho & Hkp).
  exists s', r. split; [exact Hrun|]. split; [done|]. cbn [fst snd] in *. rewrite Ho' in *. cbn in Hr, Hkp, Ho.
  split.
  { rewrite Hh, Hv3. unfold handed at 1. cbn. rewrite app_assoc, fmap_app, app_assoc. fold (handed v3).
    rewrite P2. unfold handed at 1. cbn. fold (handed v2). rewrite L2. unfold handed at 1. cbn. fold (handed v).
    rewrite K2. do 2 f_equal. unfold frame_at, d. cbn. by rewrite Hpa, P3, L3, K3. }
  split; [rewrite Hu, Hv3; cbn; by rewrite P3, L3, K3|]. split; [done|]. split; [exact Ho|].
  intros Hkeep. rewrite Ho. cbn. destruct (decide (outstanding_tx o + 1 = N)) as [E|E]; [|lia].
  specialize (Hkp Hkeep E). lia.
Qed.

(** The UMEM chunk of ring position [j]. *)
Definition chunk_bytes (j : Z) (umem : bytes) : bytes :=
  slice (Z.to_nat (slot_addr j)) (Z.to_nat FrameSize) umem.

Lemma slot_addr_bounds j : 0 <= slot_addr j /\ slot_addr j + FrameSize <= N * FrameSize.
Proof. unfold Tx.slot_addr. pose proof (Z.mod_pos_bound j N N_pos). nia. Qed.

Lemma slot_addr_apart i j : slot_addr i <> slot_addr j ->
  slot_addr i + FrameSize <= slot_addr j \/ slot_addr j + FrameSize <= slot_addr i.
Proof.
  unfold Tx.slot_addr. intros Hne. set (a := i mod N) in *. set (b := j mod N) in *.
  destruct (Z.lt_trichotomy a b) as [Hl|[He|Hl]]; [left; nia|by rewrite He in Hne|right; nia].
Qed.

(** Positions less than a lap apart lie in different chunks. *)
Lemma slot_addr_inj i j : - N < i - j < N -> slot_addr i = slot_addr j -> i = j.
Proof.
  intros Hd He. unfold Tx.slot_addr in He. apply (mod_window_inj N); [apply N_pos|nia|done].
Qed.

(** The buffer [acquire] hands out belongs to the next ring position; it is still in
    flight exactly when the whole pool is. *)
Lemma acquire_run U n (s : S) :
  ready U s ->
  exists s', acquire FrameSize n s = (Done (Some (m_umem_buffer (fst s) + slot_addr U)), s') /\
    snd s' = snd s /\ fst s' = set_pendingTx (slot_addr U) n (fst s) /\
    (slot_addr U ∈ inflight (tv s) <-> outstanding_tx (fst s) = N).
Proof.
  intros (Hc & _ & _ & Hnb). pose proof N_pos. unfold acquire, gets, set_obj, modify, mbind, M_bind. cbn [fst snd].
  assert (u64 (m_txFrameNb (fst s) * FrameSize) = slot_addr U) as ->.
  { rewrite Hnb. apply wrap_small. unfold in_u. pose proof (slot_addr_bounds U).
    change (U mod N * FrameSize) with (slot_addr U). assert (N * FrameSize <= 2 ^ 31 * 4096) by nia. lia. }
  eexists. split; [done|]. split; [done|]. split; [done|]. rewrite (core_flight _ _ _ Hc), elem_of_slots.
  destruct (core_range _ _ _ Hc) as [Hk0 HkN]. split.
  - intros (j & Hj & He). destruct (decide (outstanding_tx (fst s) = N)) as [|Hne]; [done|].
    apply slot_addr_inj in He; lia.
  - intros He. exists (U - N). split; [lia|]. unfold Tx.slot_addr. f_equal.
    replace U with (U - N + 1 * N) at 1 by lia. by rewrite Z_mod_plus_full.
Qed.

(** ** The transmit contract *)
Context (Hbenign : benign) (Hkeeps : keeps_up) (Hfuel : (0 < fuel)%nat).

(** Every chunk but that of position [U] starts with the template. *)
Definition stamped_but (U : Z) (h : bytes) (umem : bytes) : Prop :=
  forall j, slot_addr j <> slot_addr U -> h `prefix_of` chunk_bytes j umem.

Definition fresh (s : S) : Prop :=
  ready 0 s /\ outstanding_tx (fst s) = 0 /\ t_sent (tv s) = [].

Definition idle (h : bytes) (sent : list bytes) (s : S) : Prop :=
  exists U, ready U s /\ outstanding_tx (fst s) < N /\ handed (tv s) = sent /\
    forall j, h `prefix_of` chunk_bytes j (t_umem (tv s)).

Definition lent (h : bytes) (sent : list bytes) (p : Z) (b : bytes) (s : S) : Prop :=
  exists U, ready U s /\ outstanding_tx (fst s) < N /\ handed (tv s) = sent /\
    stamped_but U h (t_umem (tv s)) /\
    p = m_umem_buffer (fst s) + slot_addr U /\
    m_pendingTxAddr (fst s) = slot_addr U /\ m_pendingTxLen (fst s) = Z.of_nat (length b) /\
    Z.of_nat (length b) <= FrameSize /\ b = take (length b) (chunk_bytes U (t_umem (tv s))).

Lemma length_chunk j umem : N * FrameSize <= Z.of_nat (length umem) ->
  length (chunk_bytes j umem) = Z.to_nat FrameSize.
Proof. intros Hu. apply length_slice. pose proof (slot_addr_bounds j). lia. Qed.

Lemma take_chunk n j umem : (n <= Z.to_nat FrameSize)%nat ->
  take n (chunk_bytes j umem) = slice (Z.to_nat (slot_addr j)) n umem.
Proof. intros Hn. unfold chunk_bytes, slice. rewrite take_take. f_equal. lia. Qed.

(** A store inside one chunk leaves the other chunks, and every frame in flight, alone. *)
Lemma store_chunk U off src umem umem' :
  N * FrameSize <= Z.of_nat (length umem) -> (off + length src <= Z.to_nat FrameSize)%nat ->
  umem' = list_inserts (Z.to_nat (slot_addr U) + off) src umem ->
  (forall j, slot_addr j <> slot_addr U -> chunk_bytes j umem' = chunk_bytes j umem) /\
  chunk_bytes U umem' = list_inserts off src (chunk_bytes U umem).
Proof.
  intros Hu Ho ->. pose proof (slot_addr_bounds U). split.
  - intros j Hj. pose proof (slot_addr_bounds j). unfold chunk_bytes.
    destruct (slot_addr_apart j U Hj); [apply slice_inserts_before|apply slice_inserts_after]; lia.
  - pose proof (length_chunk U umem Hu) as Hl. unfold chunk_bytes, slice in *.
    set (A := Z.to_nat (slot_addr U)) in *. apply list_eq. intros i.
    destruct (decide (i < Z.to_nat FrameSize)%nat).
    2: { rewrite lookup_take_ge by lia. rewrite lookup_ge_None_2; [done|]. rewrite length_inserts, Hl. lia. }
    rewrite lookup_take_lt, lookup_drop by done. destruct (decide (i < off)%nat).
    { rewrite !list_lookup_inserts_lt by lia. by rewrite lookup_take_lt, lookup_drop. }
    destruct (decide (i < off + length src)%nat).
    { rewrite !list_lookup_inserts by (rewrite ?Hl; lia). f_equal. lia. }
    rewrite !list_lookup_inserts_ge by lia. by rewrite lookup_take_lt, lookup_drop.
Qed.

Lemma in_flight_chunk U k v d :
  core U k v -> d ∈ t_nic v ++ t_tx v -> exists j, U - k <= j < U /\ d_addr d = slot_addr j.
Proof.
  intros Hc Hd. assert (d_addr d ∈ slots (U - k) k) as Hi.
  { rewrite <- (core_flight _ _ _ Hc). unfold inflight. apply elem_of_app. right.
    apply list_elem_of_fmap. by exists d. }
  apply elem_of_slots in Hi as (j & Hj & ->). exists j. split; [lia|done].
Qed.

(** Frames in flight only depend on the chunks they lie in. *)
Lemma handed_umem U k v u :
  core U k v -> k < N -> (forall j, slot_addr j <> slot_addr U -> chunk_bytes j u = chunk_bytes j (t_umem v)) ->
  frame_at u <$> t_nic v ++ t_tx v = frame_at (t_umem v) <$> t_nic v ++ t_tx v.
Proof.
  intros Hc Hk Hu. apply list_fmap_ext. intros i d Hd. pose proof (list_elem_of_lookup_2 _ _ _ Hd) as Hd'.
  destruct (in_flight_chunk U k v d Hc Hd') as (j & Hj & Ha).
  destruct (Forall_lookup_1 _ _ _ _ (core_lens _ _ _ Hc) Hd) as [Hl0 Hl1].
  unfold frame_at. rewrite Ha. rewrite <- !take_chunk by lia. rewrite Hu; [done|].
  intros He. apply slot_addr_inj in He; lia.
Qed.

(** Writing into the lent buffer. *)
Lemma write_run U (s : S) off src b b' p :
  ready U s -> outstanding_tx (fst s) < N -> p = m_umem_buffer (fst s) + slot_addr U ->
  Z.of_nat (length b) <= FrameSize -> b = take (length b) (chunk_bytes U (t_umem (tv s))) ->
  store off src b = Some b' ->
  exists s', write (p + Z.of_nat off) src s = (Done tt, s') /\ ready U s' /\ fst s' = fst s /\
    handed (tv s') = handed (tv s) /\
    (forall j, slot_addr j <> slot_addr U -> chunk_bytes j (t_umem (tv s')) = chunk_bytes j (t_umem (tv s))) /\
    b' = take (length b') (chunk_bytes U (t_umem (tv s'))).
Proof.
  intros Hr Hlt -> Hbl Hb Hs. destruct s as [o w]. cbn [fst snd] in *. unfold write. cbn [fst snd].
  replace (m_umem_buffer o + slot_addr U + Z.of_nat off - m_umem_buffer o) with (slot_addr U + Z.of_nat off) by lia.
  destruct (store_law (slot_addr U + Z.of_nat off) src w) as (v & Hk & Hst).
  destruct Hr as (Hc & Hre & Hpk & Hnb). cbn [fst snd] in *.
  apply ksteps_same in Hk. pose proof (core_same _ _ _ _ Hc Hk) as Hcv. destruct Hk as [K1 K2 K3 K4 K5 K6 K7 K8].
  pose proof (slot_addr_bounds U) as HU. pose proof (core_umem _ _ _ Hcv) as Hum.
  assert (Z.to_nat (slot_addr U + Z.of_nat off) = Z.to_nat (slot_addr U) + off)%nat as HA by lia.
  unfold store in Hs. case_decide as Hfit; [|done]. injection Hs as Hs.
  rewrite HA, store_Some in Hst by lia. destruct Hst as (w' & -> & Hv').
  destruct (store_chunk U off src (t_umem v) _ Hum ltac:(lia) eq_refl) as [Hoth Hself].
  eexists. split; [done|]. cbn [fst snd]. split.
  { split; [|cbn [fst snd]; rewrite Hv'; cbn; split_and!; [congruence|congruence|done]]. cbn [fst snd]. rewrite Hv'.
    apply (core_fields U _ v); try done. cbn. apply length_inserts. }
  split; [done|]. rewrite Hv'. cbn [t_umem]. split.
  { unfold handed at 1. cbn. rewrite (handed_umem U _ v _ Hcv Hlt Hoth). exact K2. }
  split; [intros j Hj; rewrite Hoth by done; by rewrite K3|].
  rewrite Hself, K3. subst b'. rewrite length_inserts. set (c := chunk_bytes U (t_umem (tview w))) in *.
  assert (length b <= length c)%nat as Hlc by (rewrite Hb, length_take; lia).
  rewrite Hb at 1. apply inserts_take; lia.
Qed.

Lemma acquire_lends_run h sent n (s : S) :
  idle h sent s -> Z.of_nat (length h) <= n <= FrameSize ->
  match acquire FrameSize n s with
  | (Done None, s') => idle h sent s'
  | (Done (Some p), s') => exists b, Z.of_nat (length b) = n /\ h `prefix_of` b /\ lent h sent p b s'
  | _ => False
  end.
Proof.
  intros (U & Hr & Hlt & Hh & Hst) Hn. destruct (acquire_run U n s Hr) as (s' & -> & Hsnd & Hfst & _).
  destruct Hr as (Hc & Hre & Hpk & Hnb). pose proof (core_umem _ _ _ Hc) as Hum.
  set (c := chunk_bytes U (t_umem (tv s))). assert (length c = Z.to_nat FrameSize) as Hlc by (by apply length_chunk).
  assert (length (take (Z.to_nat n) c) = Z.to_nat n) as Hlt' by (rewrite length_take; lia).
  exists (take (Z.to_nat n) c). split; [lia|]. split; [apply prefix_take_le; [apply Hst|lia]|].
  exists U. split; [unfold ready; rewrite Hsnd, Hfst; split_and!; done|]. rewrite Hsnd, Hfst. split; [done|]. split; [done|].
  split; [intros j _; apply Hst|]. split; [done|]. split; [done|]. rewrite Hlt'. split; [cbn; lia|]. split; [lia|done].
Qed.

Lemma commit_sends_run h sent p b (s : S) :
  lent h sent p b s -> h `prefix_of` b ->
  match commit N NeedWakeup fuel s with
  | (Done tt, s') => idle h (sent ++ [b]) s'
  | (NoFuel, _) => True
  | _ => False
  end.
Proof.
  intros (U & Hr & Hlt & Hh & Hst & Hp & Hpa & Hpl & Hbl & Hb) Hpre.
  destruct (commit_run U s Hbenign Hfuel Hr Hlt Hpa) as (s' & r & -> & Hr' & Hh' & Hu & Hrr & Ho & Hk); [lia|].
  exists (U + 1). split; [done|]. split; [by apply Hk|]. split.
  - rewrite Hh', Hh, Hpl, Nat2Z.id. do 2 f_equal. rewrite <- take_chunk by lia. done.
  - intros j. rewrite Hu. destruct (decide (slot_addr j = slot_addr U)) as [He|Hne]; [|by apply Hst].
    unfold chunk_bytes. rewrite He. etrans; [exact Hpre|]. rewrite Hb. apply prefix_take.
Qed.

Lemma write_lent_run h sent p b b' off src (s : S) :
  lent h sent p b s -> src <> [] -> store off src b = Some b' ->
  exists s', write (p + Z.of_nat off) src s = (Done tt, s') /\ lent h sent p b' s'.
Proof.
  intros (U & Hr & Hlt & Hh & Hst & Hp & Hpa & Hpl & Hbl & Hb) _ Hs.
  destruct (write_run U s off src b b' p Hr Hlt Hp Hbl Hb Hs) as (s' & -> & Hr' & Hf & Hh' & Hoth & Hb').
  exists s'. split; [done|]. exists U. rewrite Hf. pose proof (length_store _ _ _ _ Hs) as Hl. rewrite Hl in *.
  split_and!; try done; [by rewrite Hh'|]. intros j Hj. rewrite Hoth by done. by apply Hst.
Qed.

(** [prefillRing]: chunk [i] and those after it are stamped. *)
Lemma prefill_run t m i (s : S) :
  Z.of_nat (length t) <= FrameSize -> 0 <= i -> i + Z.of_nat m = N -> ready 0 s -> outstanding_tx (fst s) = 0 ->
  t_sent (tv s) = [] -> (forall j, 0 <= j < i -> t `prefix_of` chunk_bytes j (t_umem (tv s))) ->
  exists s', prefill_from FrameSize m i t s = (Done tt, s') /\ ready 0 s' /\ outstanding_tx (fst s') = 0 /\
    t_sent (tv s') = [] /\ (forall j, 0 <= j < N -> t `prefix_of` chunk_bytes j (t_umem (tv s'))).
Proof.
  intros Ht. revert i s; induction m as [|m IH]; intros i s Hi Hm Hr Ho Hs Hst.
  { exists s. split_and!; try done. intros j Hj. apply Hst. lia. }
  cbn [prefill_from]. unfold gets. unfold mbind at 1, M_bind at 1.
  destruct Hr as (Hc & Hre & Hpk & Hnb). pose proof (core_umem _ _ _ Hc) as Hum.
  assert (slot_addr i = i * FrameSize) as Hsi by (unfold Tx.slot_addr; rewrite Z.mod_small by lia; done).
  destruct s as [o w]. cbn [fst snd] in *. rewrite <- Hsi. unfold write at 1, mbind, M_bind. cbn [fst snd].
  replace (m_umem_buffer o + slot_addr i - m_umem_buffer o) with (slot_addr i) by lia.
  destruct (store_law (slot_addr i) t w) as (v & Hk & Hstore).
  apply ksteps_same in Hk. pose proof (core_same _ _ _ _ Hc Hk) as Hcv. destruct Hk as [K1 K2 K3 K4 K5 K6 K7 K8].
  pose proof (slot_addr_bounds i) as HU. rewrite K3 in Hstore. rewrite store_Some in Hstore by lia.
  destruct Hstore as (w' & -> & Hv').
  assert (handed v = []) as Hhv.
  { rewrite K2. pose proof (core_flight _ _ _ Hc) as Hf. rewrite Ho in Hf. unfold handed. rewrite Hs.
    unfold inflight in Hf. destruct (t_nic (tview w) ++ t_tx (tview w)); [done|]. cbn in Hf.
    destruct (t_comp (tview w)); done. }
  apply app_nil in Hhv as [Hsv _].
  destruct (store_chunk i 0 t (t_umem (tview w)) _ Hum ltac:(lia) eq_refl) as [Hoth Hself]. rewrite Nat.add_0_r in *.
  assert (core 0 (outstanding_tx o) (tview w')) as Hc'.
  { rewrite Hv'. apply (core_fields 0 _ v); try done. cbn. rewrite K3. apply length_inserts. }
  apply IH; cbn [fst snd]; try done; try lia.
  - split; [exact Hc'|]. cbn [fst snd]. rewrite Hv'. cbn. split_and!; [congruence|congruence|done].
  - by rewrite Hv'.
  - intros j Hj. rewrite Hv'. cbn [t_umem]. destruct (decide (j = i)) as [->|Hne].
    + rewrite Hself. rewrite inserts_split by (rewrite length_chunk by done; lia). cbn. rewrite take_0. by eexists.
    + rewrite Hoth; [apply Hst; lia|]. intros He. apply slot_addr_inj in He; lia.
Qed.

Lemma prefill_idle_run t (s : S) :
  fresh s -> Z.of_nat (length t) <= FrameSize ->
  exists s', prefillRing N FrameSize t s = (Done tt, s') /\ idle t [] s'.
Proof.
  intros (Hr & Ho & Hs) Ht. pose proof N_pos. unfold prefillRing. rewrite decide_False by lia.
  destruct (prefill_run t (Z.to_nat N) 0 s Ht ltac:(lia) ltac:(lia) Hr Ho Hs ltac:(lia)) as (s' & -> & Hr' & Ho' & Hs' & Hst).
  exists s'. split; [done|]. exists 0. split; [done|]. split; [lia|]. split.
  - destruct Hr' as (Hc & _). pose proof (core_flight _ _ _ Hc) as Hf. rewrite Ho' in Hf. unfold handed. rewrite Hs'.
    unfold inflight in Hf. destruct (t_nic (tv s') ++ t_tx (tv s')); [done|]. by destruct (t_comp (tv s')).
  - intros j. replace (chunk_bytes j (t_umem (tv s'))) with (chunk_bytes (j mod N) (t_umem (tv s'))).
    + apply Hst. apply Z.mod_pos_bound. lia.
    + unfold chunk_bytes, Tx.slot_addr. by rewrite Zmod_mod.
Qed.

Program Definition AFXDP_TxContract : @TxContract S (AFXDP_TxRing N FrameSize NeedWakeup fuel) :=
  @Build_TxContract S (AFXDP_TxRing N FrameSize NeedWakeup fuel) fresh idle lent FrameSize
    _ prefill_idle_run acquire_lends_run write_lent_run commit_sends_run.
Next Obligation.
  intros h h' sent s (U & Hr & Hlt & Hh & Hst) Hp. exists U. split_and!; try done. intros j. by etrans.
Qed.

(** One [send]: the frame joins those handed over. *)
Lemma send_run sent f (s : S) :
  idle [] sent s -> Z.of_nat (length f) <= FrameSize ->
  exists s', send N FrameSize NeedWakeup fuel f s = (Done true, s') /\ idle [] (sent ++ [f]) s'.
Proof.
  intros Hid Hf. unfold send. assert (u32 (Z.of_nat (length f)) = Z.of_nat (length f)) as ->.
  { apply wrap_small. unfold in_u. lia. }
  pose proof (acquire_lends_run [] sent (Z.of_nat (length f)) s Hid ltac:(cbn; lia)) as Ha.
  unfold mbind at 1, M_bind at 1.
  destruct (acquire FrameSize (Z.of_nat (length f)) s) as [[[p|]| | | |] s1] eqn:Hacq; try done.
  destruct Ha as (b & Hb & _ & U & Hr & Hlt & Hh & Hst & Hp & Hpa & Hpl & Hbl & Hbb).
  assert (store 0 f b = Some f) as Hs.
  { rewrite store_Some by (cbn; lia). f_equal. rewrite inserts_split by (cbn; lia). cbn.
    rewrite take_0, drop_ge by lia. apply app_nil_r. }
  destruct (write_run U s1 0 f b f p Hr Hlt Hp Hbl Hbb Hs) as (s2 & Hw & Hr2 & Hf2 & Hh2 & Hoth & Hb2).
  rewrite Z.add_0_r in Hw. rewrite (run_bind _ _ _ _ _ Hw).
  assert (lent [] sent p f s2) as Hlent.
  { exists U. rewrite Hf2. split_and!; try done; [by rewrite Hh2|intros j _; apply prefix_nil|lia]. }
  pose proof (commit_sends_run [] sent p f s2 Hlent (prefix_nil _)) as Hc.
  destruct (commit_run U s2 Hbenign Hfuel Hr2 ltac:(by rewrite Hf2) ltac:(by rewrite Hf2) ltac:(rewrite Hf2; lia))
    as (s3 & r & Hc3 & _).
  rewrite Hc3 in Hc. rewrite (run_bind _ _ _ _ _ Hc3). by exists s3.
Qed.
End Contract.

(** Send a list of frames, collecting the answers. *)
Fixpoint send_all {W} `{XskTx W} (N FrameSize : Z) (nw : bool) (fuel : nat) (fs : list bytes) : M (AFXDP * W) (list bool) :=
  match fs with
  | [] => mret []
  | f :: fs => ok ← send N FrameSize nw fuel f; oks ← send_all N FrameSize nw fuel fs; mret (ok :: oks)
  end.

(** C9: While the completions keep up and the kernel answers wake-ups with success or
    "busy", every [send] over AF_XDP returns true, and whatever the kernel does in
    between, the frames leave in the order sent, each once and unmodified: those that
    left the machine followed by those in flight, read from the UMEM, are exactly the
    frames sent. *)
Theorem afxdp_tx_fifo {W} N FrameSize `{XskTxLaws N W} NeedWakeup fuel t fs (s : AFXDP * W) :
  is_pow2 N -> N <= 2 ^ 31 -> 0 < FrameSize <= 4096 -> benign (W := W) -> keeps_up (W := W) N -> (0 < fuel)%nat ->
  fresh N FrameSize s -> Forall (fun f => Z.of_nat (length f) <= FrameSize) (t :: fs) ->
  exists s', (prefillRing N FrameSize t ;; send_all N FrameSize NeedWakeup fuel fs) s = (Done ((fun _ => true) <$> fs), s') /\
    handed (tview (snd s')) = fs /\ outstanding_tx (fst s') < N /\
    Z.of_nat (length (inflight (tview (snd s')))) = outstanding_tx (fst s').
Proof.
  intros HN HN31 HFS Hb Hk Hfu Hf Hfs. apply list.Forall_cons in Hfs as [Ht Hfs].
  assert (exists s', prefillRing N FrameSize t s = (Done tt, s') /\ idle N FrameSize t [] s') as (s1 & Hp & Hid)
    by (eapply prefill_idle_run; eauto).
  rewrite (run_bind _ _ _ _ _ Hp).
  assert (idle N FrameSize [] [] s1) as Hid1.
  { destruct Hid as (U & Hr & Hlt & Hh & _). exists U. split_and!; try done. intros. apply prefix_nil. }
  assert (exists s', send_all N FrameSize NeedWakeup fuel fs s1 = (Done ((fun _ => true) <$> fs), s') /\ idle N FrameSize [] ([] ++ fs) s')
    as (s2 & Hs & U & (Hc & _) & Hlt & Hh & _).
  { clear Hid Hp. revert s1 Hid1. generalize (@nil bytes) as sent. induction Hfs as [|f fs Hf1 _ IH]; intros sent s1 Hid1.
    { exists s1. rewrite app_nil_r. by split. }
    cbn [send_all].
    assert (exists s', send N FrameSize NeedWakeup fuel f s1 = (Done true, s') /\ idle N FrameSize [] (sent ++ [f]) s')
      as (s2 & Hs & Hid2) by (eapply send_run; eauto).
    rewrite (run_bind _ _ _ _ _ Hs). destruct (IH (sent ++ [f]) s2 Hid2) as (s3 & Hs3 & Hid3).
    rewrite (run_bind _ _ _ _ _ Hs3). exists s3. rewrite <- app_assoc in Hid3. by split. }
  exists s2. split_and!; try done. rewrite (core_flight _ _ _ _ _ Hc). apply length_slots. apply (core_range _ _ _ _ _ Hc).
Qed.

(** [acquire] never refuses: with the whole pool in flight it lends out the chunk of
    the oldest frame the kernel has not finished with, so that the next write changes a
    frame already handed over; in every other state the lent chunk is free. *)
Theorem afxdp_acquire_in_flight {W} N FrameSize `{XskTxLaws N W} U n (s : AFXDP * W) :
  is_pow2 N -> N <= 2 ^ 31 -> 0 < FrameSize <= 4096 -> ready N FrameSize U s ->
  exists a s', acquire FrameSize n s = (Done (Some (m_umem_buffer (fst s) + a)), s') /\
    (a ∈ inflight (tview (snd s)) <-> outstanding_tx (fst s) = N).
Proof.
  intros HN HN31 HFS Hr. edestruct (acquire_run N FrameSize) as (s' & He & _ & _ & Hi); eauto.
Qed.

(** ** A simulated kernel: polling the COMPLETION ring finishes everything submitted,
    unless the kernel is stalled. *)
Record sim_tx := { st_view : view }.

Definition sim_flush (v : view) : view :=
  mk_view (t_reserved v) (t_txProd v) [] [] (t_comp v ++ (d_addr <$> t_nic v ++ t_tx v)) (t_peeked v) (t_umem v)
    (t_sent v ++ (frame_at (t_umem v) <$> t_nic v ++ t_tx v)).

Lemma sim_flush_steps v : rtc tx_kstep v (sim_flush v).
Proof.
  destruct v as [r p tx nic comp k u sent]. unfold sim_flush. cbn.
  assert (rtc tx_kstep (mk_view r p tx nic comp k u sent) (mk_view r p [] (nic ++ tx) comp k u sent)) as Htake.
  { revert nic. induction tx as [|d tx IH]; intros nic; [rewrite app_nil_r; apply rtc_refl|].
    eapply rtc_l; [by eapply tx_take|]. cbn. specialize (IH (nic ++ [d])). by rewrite <- app_assoc in IH. }
  etrans; [exact Htake|]. clear Htake. generalize (nic ++ tx) as q. intros q. revert comp sent.
  induction q as [|d q IH]; intros comp sent; cbn; [rewrite !app_nil_r; apply rtc_refl|].
  eapply rtc_l; [by eapply tx_complete|]. cbn. specialize (IH (comp ++ [d_addr d]) (sent ++ [frame_at u d])).
  by rewrite <- !app_assoc in IH.
Qed.

Definition sim_settle (stalled : bool) (w : sim_tx) : view := if stalled then st_view w else sim_flush (st_view w).

Lemma sim_settle_steps stalled w : rtc tx_kstep (st_view w) (sim_settle stalled w).
Proof. unfold sim_settle. destruct stalled; [apply rtc_refl|apply sim_flush_steps]. Qed.

Definition sim_put (w : sim_tx) (v : view) : sim_tx := {| st_view := v |}.
Definition sim_idx (base idx : Z) : nat := Z.to_nat (u32 (idx - base)).

Section Sim.
Context (N : Z) (stalled : bool).

#[export] Instance sim_XskTx : XskTx sim_tx := {|
  tx_reserve n w :=
    let v := st_view w in
    if decide (Z.of_nat (length (t_reserved v) + length (t_tx v) + Z.to_nat n) <= N) then
      ((n, u32 (t_txProd v + Z.of_nat (length (t_reserved v)))),
       sim_put w (mk_view (t_reserved v ++ replicate (Z.to_nat n) None) (t_txProd v) (t_tx v) (t_nic v) (t_comp v)
                    (t_peeked v) (t_umem v) (t_sent v)))
    else ((0, 0), w);
  tx_desc_set idx d w :=
    let v := st_view w in
    sim_put w (mk_view (<[sim_idx (t_txProd v) idx := Some d]> (t_reserved v)) (t_txProd v) (t_tx v) (t_nic v)
                 (t_comp v) (t_peeked v) (t_umem v) (t_sent v));
  tx_submit n w :=
    let v := st_view w in
    sim_put w (mk_view (drop (Z.to_nat n) (t_reserved v)) (t_txProd v + n)
                 (t_tx v ++ omap id (take (Z.to_nat n) (t_reserved v))) (t_nic v) (t_comp v) (t_peeked v) (t_umem v) (t_sent v));
  tx_needs_wakeup w := (true, w);
  sendto w := ((-1, EBUSY), w);
  cq_peek n w :=
    let v := sim_settle stalled w in
    let r := Z.min n (Z.of_nat (length (t_comp v)) - t_peeked v) in
    ((r, 0), sim_put w (mk_view (t_reserved v) (t_txProd v) (t_tx v) (t_nic v) (t_comp v) (t_peeked v + r)
                          (t_umem v) (t_sent v)));
  cq_release n w :=
    let v := st_view w in
    sim_put w (mk_view (t_reserved v) (t_txProd v) (t_tx v) (t_nic v) (drop (Z.to_nat n) (t_comp v)) (t_peeked v - n)
                 (t_umem v) (t_sent v));
  umem_store a src w :=
    let v := st_view w in
    u ← store (Z.to_nat a) src (t_umem v);
    Some (sim_put w (mk_view (t_reserved v) (t_txProd v) (t_tx v) (t_nic v) (t_comp v) (t_peeked v) u (t_sent v)));
|}.

#[export] Program Instance sim_XskTxLaws : XskTxLaws N sim_tx := {| tview := st_view |}.
Next Obligation.
  intros n w. cbn. rewrite Nat2Z.id. case_decide as Hd; cbn; eexists; (split; [apply rtc_refl|]); by case_decide.
Qed.
Next Obligation.
  intros i d w Hi Hl. cbn. eexists. split; [apply rtc_refl|]. unfold sim_idx. rewrite wrap_sub_l.
  replace (t_txProd (st_view w) + Z.of_nat i - t_txProd (st_view w)) with (Z.of_nat i) by lia.
  rewrite wrap_small by (unfold in_u; lia). by rewrite Nat2Z.id.
Qed.
Next Obligation.
  intros ds rest w Hr. cbn. eexists. split; [apply rtc_refl|]. rewrite Nat2Z.id, Hr.
  rewrite drop_app_length' by (by rewrite length_fmap). rewrite take_app_length' by (by rewrite length_fmap).
  by rewrite Rx.omap_id_Some.
Qed.
Next Obligation. intros w. apply rtc_refl. Qed.
Next Obligation. intros w. apply rtc_refl. Qed.
Next Obligation. intros n w Hn. cbn. eexists. split; [apply sim_settle_steps|]. done. Qed.
Next Obligation. intros n w Hn. cbn. eexists. split; [apply rtc_refl|]. by rewrite Nat2Z.id. Qed.
Next Obligation.
  intros a src w. cbn. eexists. split; [apply rtc_refl|]. destruct (store _ src _); cbn; [by eexists|done].
Qed.
End Sim.

Definition sim_obj : AFXDP := Rx.sim_obj.
Definition sim_start : AFXDP * sim_tx :=
  (sim_obj, {| st_view := mk_view [] 0 [] [] [] 0 (replicate 16384 0) [] |}).

Lemma sim_benign stalled : @benign sim_tx (sim_XskTx 8 stalled).
Proof. intros w. cbn. right. right. right. by left. Qed.

Lemma sim_keeps_up : @keeps_up sim_tx 8 (sim_XskTx 8 false) (sim_XskTxLaws 8 false).
Proof.
  intros [v] Hp Hl. cbn in *. unfold inflight in Hl. rewrite Hp. rewrite length_app in *. unfold BATCH_SIZE. lia.
Qed.

Lemma sim_fresh stalled : @fresh sim_tx 8 2048 (sim_XskTx 8 stalled) (sim_XskTxLaws 8 stalled) sim_start.
Proof.
  split; [|done]. split; [|done]. constructor; try done.
Qed.

Lemma sim_pow2 : is_pow2 8.
Proof. by exists 3. Qed.

Definition sim_frames : list bytes := (fun i => [Z.of_nat i; 7]) <$> seq 0 20.

(** Twenty frames through a pool of eight. *)
Lemma afxdp_tx_fifo_witness :
  let _ := sim_XskTx 8 false in
  exists s', (prefillRing 8 2048 [1;2;3] ;; send_all 8 2048 true 1 sim_frames) sim_start
      = (Done ((fun _ => true) <$> sim_frames), s') /\
    handed (st_view (snd s')) = sim_frames /\ outstanding_tx (fst s') < 8 /\
    Z.of_nat (length (inflight (st_view (snd s')))) = outstanding_tx (fst s').
Proof.
  cbn zeta.
  pose proof (afxdp_tx_fifo (H := sim_XskTx 8 false) (H0 := sim_XskTxLaws 8 false) 8 2048 true 1 [1;2;3] sim_frames sim_start
    sim_pow2 ltac:(lia) ltac:(lia) (sim_benign false) sim_keeps_up ltac:(lia) (sim_fresh false)) as Ht.
  apply Ht. apply (bool_decide_unpack _). vm_compute. exact I.
Defined.

(** Eight sends to a stalled kernel; the ninth [acquire] returns the first frame's chunk. *)
Definition sim_full : AFXDP * sim_tx :=
  snd ((prefillRing (H := sim_XskTx 8 true) 8 2048 [1] ;;
        send_all (H := sim_XskTx 8 true) 8 2048 true 1 (take 8 sim_frames)) sim_start).

Lemma sim_full_outstanding : outstanding_tx (fst sim_full) = 8.
Proof. vm_compute. reflexivity. Qed.

Lemma sim_full_ready : @ready sim_tx 8 2048 (sim_XskTx 8 true) (sim_XskTxLaws 8 true) 8 sim_full.
Proof.
  pose proof sim_full_outstanding as Ho.
  split; [|split; [|split]]; try (vm_compute; reflexivity). rewrite Ho. constructor; [lia|..].
  - vm_compute. reflexivity.
  - assert (t_nic (st_view (snd sim_full)) ++ t_tx (st_view (snd sim_full)) =
      (fun i => {| d_addr := Z.of_nat i * 2048; d_len := 2; d_options := 0 |}) <$> seq 0 8) as E
      by (vm_compute; reflexivity).
    cbn [tview sim_XskTxLaws]. rewrite E.
    apply Forall_fmap, list.Forall_forall. intros i _. unfold len_ok. cbn. lia.
  - vm_compute. intros E. discriminate E.
Qed.

Lemma afxdp_acquire_in_flight_witness :
  exists s : AFXDP * sim_tx, outstanding_tx (fst s) = 8 /\
  exists a s', acquire (W := sim_tx) 2048 64 s = (Done (Some (m_umem_buffer (fst s) + a)), s') /\
    (a ∈ inflight (tview (XskTxLaws := sim_XskTxLaws 8 true) (snd s)) <-> outstanding_tx (fst s) = 8).
Proof.
  exists sim_full. split; [exact sim_full_outstanding|].
  exact (afxdp_acquire_in_flight (H := sim_XskTx 8 true) (H0 := sim_XskTxLaws 8 true) 8 2048 8 64 sim_full sim_pow2
    ltac:(lia) ltac:(lia) sim_full_ready).
Defined.
End Tx.
