(* ===== verification/AFXDPSetup.v ===== *)
(** * The AF_XDP transport: bring-up and shutdown (src/backends/AF_XDP/AFXDP.hpp)

    [init], [shutdown], the move operations and the steps [init] is made of.  The system
    calls, libxdp and libbpf are the operations of [XdpSys]; [XdpSysLaws] says which
    handles each of them creates and destroys.  The helpers of namespace [napi] are those of
    the file NapiConfig. *)

From S2P Require Import Prelude AFXDP NapiConfig.
Open Scope string_scope.

Definition NAPI_DEFER_HARD_IRQS : Z := kDeferHardIrqs.
Definition NAPI_GRO_FLUSH_NS : Z := kGroFlushTimeoutNs.
Definition NAPI_IRQ_SUSPEND_NS : Z := 20000000.

Definition XDP_COPY : Z := 2.
Definition XDP_ZEROCOPY : Z := 4.
Definition XDP_USE_NEED_WAKEUP : Z := 8.
Definition XSK_LIBXDP_FLAGS__INHIBIT_PROG_LOAD : Z := 1.
Definition MAP_FAILED : Z := 2 ^ 64 - 1.

(** ** The machine *)

Record xsk_umem_config := { fill_size : Z; comp_size : Z; frame_size : Z; frame_headroom : Z }.

Record xsk_socket_config := {
  rx_size : Z; tx_size : Z; libxdp_flags : Z; xdp_flags : Z; bind_flags : Z;
  with_rx : bool; with_tx : bool }.

Class XdpSys (W : Type) := {
  setrlimit_memlock : W -> bool * W;
  nanosleep : Z -> W -> W;
  mmap : Z -> W -> Z * W;
  munmap : Z -> Z -> W -> W;
  xsk_umem_create : Z -> Z -> xsk_umem_config -> W -> (Z * Z) * W;
  xsk_umem_delete : Z -> W -> W;
  xsk_socket_create : string -> Z -> Z -> xsk_socket_config -> W -> (Z * Z) * W;
  xsk_socket_delete : Z -> W -> W;
  xsk_socket_fd : Z -> W -> Z;
  setsockopt : Z -> sockopt -> W -> bool * W;
  xdp_program_open_file : string -> W -> Z * W;
  xdp_program_attach : Z -> Z -> W -> Z * W;
  xdp_program_detach : Z -> Z -> W -> W;
  xdp_program_close : Z -> W -> W;
  find_xsks_map : Z -> W -> option Z;
  bpf_map_update_elem : Z -> Z -> Z -> W -> bool * W;
  bpf_xdp_detach : Z -> Z -> W -> W;
  so_incoming_napi_id : Z -> W -> Z;
}.

(** ** Field updates *)
Section Updates.
Context (o : AFXDP).

Definition set_regime (deferral suspend : bool) (defer gro susp : Z) : AFXDP :=
  mk_AFXDP (m_interface o) (m_queueId o) (m_bpfProgPath o) (m_bindMode o) (m_umem_umem o)
    (m_umem_buffer o) (m_xsk_xsk o) (outstanding_tx o) (m_xdpProg o) (m_ifindex o) (m_fd o)
    (m_copyMode o) (m_customBpf o) deferral suspend defer gro susp (m_pendingRxAddr o)
    (m_pendingFqIdx o) (m_pendingTxAddr o) (m_pendingTxLen o) (m_txFrameNb o).

Definition set_ifindex (i : Z) : AFXDP :=
  mk_AFXDP (m_interface o) (m_queueId o) (m_bpfProgPath o) (m_bindMode o) (m_umem_umem o)
    (m_umem_buffer o) (m_xsk_xsk o) (outstanding_tx o) (m_xdpProg o) i (m_fd o)
    (m_copyMode o) (m_customBpf o) (m_enableDeferral o) (m_enableIrqSuspend o) (m_napiDefer o)
    (m_napiGro o) (m_napiSusp o) (m_pendingRxAddr o) (m_pendingFqIdx o) (m_pendingTxAddr o)
    (m_pendingTxLen o) (m_txFrameNb o).

Definition set_prog (p : Z) (custom : bool) : AFXDP :=
  mk_AFXDP (m_interface o) (m_queueId o) (m_bpfProgPath o) (m_bindMode o) (m_umem_umem o)
    (m_umem_buffer o) (m_xsk_xsk o) (outstanding_tx o) p (m_ifindex o) (m_fd o)
    (m_copyMode o) custom (m_enableDeferral o) (m_enableIrqSuspend o) (m_napiDefer o)
    (m_napiGro o) (m_napiSusp o) (m_pendingRxAddr o) (m_pendingFqIdx o) (m_pendingTxAddr o)
    (m_pendingTxLen o) (m_txFrameNb o).

Definition set_umem (umem buffer : Z) : AFXDP :=
  mk_AFXDP (m_interface o) (m_queueId o) (m_bpfProgPath o) (m_bindMode o) umem
    buffer (m_xsk_xsk o) (outstanding_tx o) (m_xdpProg o) (m_ifindex o) (m_fd o)
    (m_copyMode o) (m_customBpf o) (m_enableDeferral o) (m_enableIrqSuspend o) (m_napiDefer o)
    (m_napiGro o) (m_napiSusp o) (m_pendingRxAddr o) (m_pendingFqIdx o) (m_pendingTxAddr o)
    (m_pendingTxLen o) (m_txFrameNb o).

Definition set_socket (xsk fd : Z) (bindMode : string) (copy : bool) : AFXDP :=
  mk_AFXDP (m_interface o) (m_queueId o) (m_bpfProgPath o) bindMode (m_umem_umem o)
    (m_umem_buffer o) xsk (outstanding_tx o) (m_xdpProg o) (m_ifindex o) fd
    copy (m_customBpf o) (m_enableDeferral o) (m_enableIrqSuspend o) (m_napiDefer o)
    (m_napiGro o) (m_napiSusp o) (m_pendingRxAddr o) (m_pendingFqIdx o) (m_pendingTxAddr o)
    (m_pendingTxLen o) (m_txFrameNb o).
End Updates.

(** The constructor. *)
Definition construct (interface : string) (queueId : Z) (bpfProgPath : string) : AFXDP :=
  mk_AFXDP interface queueId bpfProgPath "" 0 0 0 0 0 0 (-1) false false true false 0 0 0 0 0 0 0 0.

(** [moveFrom]: the new object and what is left in [o]. *)
Definition moveFrom (o : AFXDP) : AFXDP * AFXDP :=
  (o,
   mk_AFXDP (m_interface o) (m_queueId o) (m_bpfProgPath o) "" 0 0 0 (outstanding_tx o) 0 0 (-1)
     (m_copyMode o) (m_customBpf o) (m_enableDeferral o) (m_enableIrqSuspend o) (m_napiDefer o)
     (m_napiGro o) (m_napiSusp o) (m_pendingRxAddr o) (m_pendingFqIdx o) (m_pendingTxAddr o)
     (m_pendingTxLen o) (m_txFrameNb o)).

Section Setup.
Context {W : Type} {XS : XdpSys W} {NS : NlSys W}.
(** The template arguments. *)
Context (mode : AFXDPMode) (NumRxFrames NumTxFrames FrameSize : Z) (NeedWakeup : bool).
Abbreviation S := (AFXDP * W)%type.

Definition HAS_RX : bool := negb (bool_decide (mode = TxOnly)).
Definition HAS_TX : bool := negb (bool_decide (mode = RxOnly)).
Definition TX_POOL_FRAMES : Z := if HAS_TX then NumTxFrames else 0.
Definition RX_POOL_FRAMES : Z := if HAS_RX then NumRxFrames else 0.
Definition NUM_FRAMES : Z := TX_POOL_FRAMES + RX_POOL_FRAMES.
Definition FILL_SIZE : Z := 2 * NumRxFrames.
Definition COMP_SIZE : Z := NumTxFrames.
Definition RX_SIZE : Z := NumRxFrames.
Definition TX_SIZE : Z := NumTxFrames.
Definition umemSize : Z := NUM_FRAMES * FrameSize.

Definition sys {A} (f : W -> A * W) : M S A := fun s => let '(a, w) := f (snd s) in (Done a, (fst s, w)).
Definition act (f : W -> W) : M S unit := modify (fun s => (fst s, f (snd s))).
Definition on_sys {A} (m : M W A) : M S A := zoom snd (fun w s => (fst s, w)) m.
Definition obj : M S AFXDP := gets fst.
Definition upd (f : AFXDP -> AFXDP) : M S unit := modify (fun s => (f (fst s), snd s)).

(** The NAPI regime the two flags of [init] select. *)
Definition resolve_regime (deferral suspend : bool) : Z * Z * Z :=
  if suspend then (NAPI_DEFER_HARD_IRQS, NAPI_GRO_FLUSH_NS, NAPI_IRQ_SUSPEND_NS)
  else if deferral then (NAPI_DEFER_HARD_IRQS, NAPI_GRO_FLUSH_NS, 0)
  else (0, 0, 0).

(** One look at /sys/class/net/<if>/carrier, a path of at most 63 characters. *)
Definition carrier_path (ifname : string) : string :=
  String.substring 0 63 ("/sys/class/net/" ++ ifname ++ "/carrier")%string.
Definition read_carrier (ifname : string) : M W bool :=
  cfd ← sysM (file_open (carrier_path ifname));
  if (cfd <? 0)%Z then mret false else
  c ← sysM (file_read cfd 1);
  modify (nl_close cfd) ;;
  mret (bool_decide (c = Some "1"%string)).

(** [waitForCarrier]: half a second, then at most sixty polls 100 ms apart. *)
Fixpoint carrier_poll (n : nat) : M S unit :=
  match n with
  | O => mret tt
  | Datatypes.S n =>
      o ← obj;
      up ← on_sys (read_carrier (m_interface o));
      if (up : bool) then mret tt
      else act (nanosleep 100000000) ;; carrier_poll n
  end.
Definition waitForCarrier : M S unit := act (nanosleep 500000000) ;; carrier_poll 60.

(** [steerAllTrafficToQueue] *)
Definition steerAllTrafficToQueue : M S unit :=
  o ← obj;
  if decide (m_queueId o <> 0) then mret tt else
  r ← on_sys (ensureCombinedOne (m_interface o));
  if decide (r = Changed) then waitForCarrier else mret tt.

(** [loadXdpProgram] *)
Definition loadXdpProgram (path : string) : M S unit :=
  p ← sys (xdp_program_open_file path);
  if decide (p = 0) then upd (fun o => set_prog o 0 (m_customBpf o)) else
  upd (fun o => set_prog o p (m_customBpf o)) ;;
  o ← obj;
  err ← sys (xdp_program_attach p (m_ifindex o));
  if decide (err <> 0) then
    act (xdp_program_close p) ;; upd (fun o => set_prog o 0 (m_customBpf o))
  else upd (fun o => set_prog o p true).

(** [xskConfigureUmem] *)
Definition xskConfigureUmem : M S unit :=
  buffer ← sys (mmap umemSize);
  if decide (buffer = MAP_FAILED) then upd (fun o => set_umem o (m_umem_umem o) 0) ;; raise Abort else
  upd (fun o => set_umem o (m_umem_umem o) buffer) ;;
  '(ret, umem) ← sys (xsk_umem_create buffer umemSize {| fill_size := FILL_SIZE; comp_size := COMP_SIZE;
      frame_size := FrameSize; frame_headroom := 0 |});
  if decide (ret <> 0) then raise Abort else
  upd (fun o => set_umem o umem (m_umem_buffer o)).

Definition bindFlags : Z := if NeedWakeup then XDP_USE_NEED_WAKEUP else 0.

(** The three bind attempts of [xskConfigureSocket], strongest first. *)
Definition bind_ladder : list (Z * Z * string) :=
  [(XDP_FLAGS_DRV_MODE, XDP_ZEROCOPY, "zero-copy"); (XDP_FLAGS_DRV_MODE, XDP_COPY, "native-copy");
   (XDP_FLAGS_SKB_MODE, XDP_COPY, "generic")].

Definition socket_config (custom : bool) (xdpFlags zc : Z) : xsk_socket_config :=
  {| rx_size := RX_SIZE; tx_size := TX_SIZE;
     libxdp_flags := if custom then XSK_LIBXDP_FLAGS__INHIBIT_PROG_LOAD else 0;
     xdp_flags := xdpFlags; bind_flags := u16 (Z.lor bindFlags zc);
     with_rx := HAS_RX; with_tx := HAS_TX |}.

Fixpoint try_bind (l : list (Z * Z * string)) : M S unit :=
  match l with
  | [] => mret tt
  | (xdpFlags, zc, label) :: l =>
      o ← obj;
      '(ret, xsk) ← sys (xsk_socket_create (m_interface o) (m_queueId o) (m_umem_umem o)
                            (socket_config (m_customBpf o) xdpFlags zc));
      if decide (ret = 0) then
        upd (fun o => set_socket o xsk (m_fd o) label (bool_decide (zc = XDP_COPY)))
      else try_bind l
  end.

Definition xskConfigureSocket : M S unit :=
  upd (fun o => set_socket o (m_xsk_xsk o) (m_fd o) "generic" (m_copyMode o)) ;;
  try_bind bind_ladder ;;
  o ← obj;
  if decide (m_xsk_xsk o = 0) then raise Abort else
  fd ← gets (fun s => xsk_socket_fd (m_xsk_xsk o) (snd s));
  upd (fun o => set_socket o (m_xsk_xsk o) fd (m_bindMode o) (m_copyMode o)).

(** [applySetSockOpt]; the readback only prints. *)
Definition applySetSockOpt : M S unit :=
  o ← obj;
  _ ← sys (setsockopt (m_fd o) (SO_PREFER_BUSY_POLL 1));
  _ ← sys (setsockopt (m_fd o) (SO_BUSY_POLL 20));
  _ ← sys (setsockopt (m_fd o) (SO_BUSY_POLL_BUDGET BATCH_SIZE));
  mret tt.

(** [enterXsksIntoMap] *)
Definition enterXsksIntoMap : M S unit :=
  o ← obj;
  m ← gets (fun s => find_xsks_map (m_xdpProg o) (snd s));
  match m with
  | Some map_fd => _ ← sys (bpf_map_update_elem map_fd (sint 32 (m_queueId o)) (m_fd o)); mret tt
  | None => mret tt
  end.

(** [verifyConfig]: the kernel's zero-copy answer overrides the bind label, and the NAPI
    regime is pushed to the NAPI of the bound queue; the rest prints. *)
Definition verifyConfig : M S unit :=
  o ← obj;
  modes ← gets (fun s => readXskModes (m_fd o) (snd s));
  (if xm_valid modes then
     upd (fun o => set_socket o (m_xsk_xsk o) (m_fd o) (m_bindMode o) (negb (xm_zeroCopy modes)))
   else mret tt) ;;
  napiId ← gets (fun s => so_incoming_napi_id (m_fd o) (snd s));
  if decide (napiId <> 0) then
    ok ← on_sys (setBusyPoll napiId (m_napiDefer o) (m_napiGro o) (m_napiSusp o));
    (if (ok : bool) then _ ← on_sys (getBusyPoll napiId); mret tt else mret tt)
  else mret tt.

(** [xskPopulateFillRing] is the operation of the receive rings (file AFXDP). *)
Context (xskPopulateFillRing : M S unit).

Definition clearXdpProgram (o : AFXDP) : M S unit := on_sys (detachXdpProgram (m_interface o)).
Definition applyNapiDeferralSysfs (o : AFXDP) : M S unit :=
  _ ← on_sys (applyDeferralSysfs (m_interface o) (m_napiDefer o) (m_napiGro o)); mret tt.

(** [init] *)
Definition init (enableDeferral enableIrqSuspend : bool) : M S bool :=
  let '(defer, gro, susp) := resolve_regime enableDeferral enableIrqSuspend in
  upd (fun o => set_regime o enableDeferral enableIrqSuspend defer gro susp) ;;
  _ ← sys setrlimit_memlock;
  o ← obj;
  idx ← sys (nl_nametoindex (m_interface o));
  upd (fun o => set_ifindex o (sint 32 idx)) ;;
  if decide (sint 32 idx = 0) then mret false else
  clearXdpProgram o ;;
  applyNapiDeferralSysfs o ;;
  (if HAS_RX then steerAllTrafficToQueue else mret tt) ;;
  (if (HAS_RX && negb (bool_decide (m_bpfProgPath o = "")))%bool then loadXdpProgram (m_bpfProgPath o) else mret tt) ;;
  xskConfigureUmem ;;
  (if HAS_RX then xskPopulateFillRing else mret tt) ;;
  xskConfigureSocket ;;
  applySetSockOpt ;;
  o ← obj;
  (if (HAS_RX && m_customBpf o && negb (bool_decide (m_xdpProg o = 0)))%bool then enterXsksIntoMap else mret tt) ;;
  verifyConfig ;;
  mret true.

(** [shutdown]; the XDP statistics are only printed. *)
Definition shutdown : M S unit :=
  o ← obj;
  (if decide (m_xsk_xsk o <> 0) then
     act (xsk_socket_delete (m_xsk_xsk o)) ;;
     upd (fun o => set_socket o 0 (-1) (m_bindMode o) (m_copyMode o))
   else mret tt) ;;
  (if decide (m_umem_umem o <> 0) then
     act (xsk_umem_delete (m_umem_umem o)) ;; upd (fun o => set_umem o 0 (m_umem_buffer o))
   else mret tt) ;;
  (if decide (m_umem_buffer o <> 0 /\ m_umem_buffer o <> MAP_FAILED) then
     act (munmap (m_umem_buffer o) umemSize) ;; upd (fun o => set_umem o (m_umem_umem o) 0)
   else mret tt) ;;
  (if decide (m_xdpProg o <> 0) then
     act (xdp_program_detach (m_xdpProg o) (m_ifindex o)) ;;
     act (xdp_program_close (m_xdpProg o)) ;;
     upd (fun o => set_prog o 0 (m_customBpf o))
   else mret tt) ;;
  (if decide (0 < m_ifindex o) then
     act (bpf_xdp_detach (m_ifindex o) XDP_FLAGS_DRV_MODE) ;;
     act (bpf_xdp_detach (m_ifindex o) XDP_FLAGS_SKB_MODE) ;;
     upd (fun o => set_ifindex o 0)
   else mret tt).

(** The destructor, the move constructor (the new object, and what [other] is left with) and
    the move assignment; [same] is [this == &other]. *)
Definition dtor : M S unit := shutdown.
Definition move_ctor (other : AFXDP) : AFXDP * AFXDP := moveFrom other.

Definition move_assign (same : bool) (self other : AFXDP) : M W (AFXDP * AFXDP) := fun w =>
  if same then (Done (self, other), w) else
  let '(r, (_, w')) := shutdown (self, w) in
  (match r with Done _ => Done (moveFrom other) | r => recast r end, w').

(** [fd], [isCopyMode] *)
Definition fd (o : AFXDP) : Z := m_fd o.
Definition isCopyMode (o : AFXDP) : bool := m_copyMode o.
End Setup.

(** ** Resources

    Every live kernel object the transport can own, as (kind, handle, size). *)
Definition mapping (a sz : Z) : Z * Z * Z := (0, a, sz).
Definition umem_res (h : Z) : Z * Z * Z := (1, h, 0).
Definition socket_res (h : Z) : Z * Z * Z := (2, h, 0).
Definition prog_res (h : Z) : Z * Z * Z := (3, h, 0).

Class XdpSysLaws (W : Type) `{XdpSys W, Resources W} := {
  rlimit_law w : res (snd (setrlimit_memlock w)) = res w;
  nanosleep_law t w : res (nanosleep t w) = res w;
  mmap_law sz w : let '(a, w') := mmap sz w in
    if decide (a = MAP_FAILED) then res w' = res w
    else a <> 0 /\ mapping a sz ∉ res w /\ res w' = {[mapping a sz]} ∪ res w;
  munmap_law a sz w : res (munmap a sz w) = res w ∖ {[mapping a sz]};
  umem_create_law b sz c w : let '((r, h), w') := xsk_umem_create b sz c w in
    if decide (r = 0) then h <> 0 /\ umem_res h ∉ res w /\ res w' = {[umem_res h]} ∪ res w
    else res w' = res w;
  umem_delete_law h w : res (xsk_umem_delete h w) = res w ∖ {[umem_res h]};
  socket_create_law i q u c w : let '((r, h), w') := xsk_socket_create i q u c w in
    if decide (r = 0) then h <> 0 /\ socket_res h ∉ res w /\ res w' = {[socket_res h]} ∪ res w
    else res w' = res w;
  socket_delete_law h w : res (xsk_socket_delete h w) = res w ∖ {[socket_res h]};
  setsockopt_law fd o w : res (snd (setsockopt fd o w)) = res w;
  open_file_law p w : let '(h, w') := xdp_program_open_file p w in
    if decide (h = 0) then res w' = res w
    else prog_res h ∉ res w /\ res w' = {[prog_res h]} ∪ res w;
  attach_law h i w : res (snd (xdp_program_attach h i w)) = res w;
  detach_law h i w : res (xdp_program_detach h i w) = res w;
  close_law h w : res (xdp_program_close h w) = res w ∖ {[prog_res h]};
  map_update_law f k v w : res (snd (bpf_map_update_elem f k v w)) = res w;
  xdp_detach_law i f w : res (bpf_xdp_detach i f w) = res w;
}.

Section Lifecycle.
Context {W : Type} {XS : XdpSys W} {RS : Resources W} {XL : XdpSysLaws W} {NS : NlSys W} {NL : NlSysLaws W}.
Context (mode : AFXDPMode) (NumRxFrames NumTxFrames FrameSize : Z) (NeedWakeup : bool).
Abbreviation S := (AFXDP * W)%type.
Abbreviation umemSize := (umemSize mode NumRxFrames NumTxFrames FrameSize).

(** The resources an object's members name. *)
Definition opt_res (h : Z) (r : Z * Z * Z) : gset (Z * Z * Z) := if decide (h = 0) then ∅ else {[r]}.
Definition owned (o : AFXDP) : gset (Z * Z * Z) :=
  opt_res (m_xsk_xsk o) (socket_res (m_xsk_xsk o)) ∪ opt_res (m_umem_umem o) (umem_res (m_umem_umem o)) ∪
  opt_res (m_umem_buffer o) (mapping (m_umem_buffer o) umemSize) ∪ opt_res (m_xdpProg o) (prog_res (m_xdpProg o)).

(** The object owns exactly what has been created since the machine held [R]. *)
Definition holds (R : gset (Z * Z * Z)) (s : S) : Prop :=
  res (snd s) = owned (fst s) ∪ R /\ owned (fst s) ## R /\ m_umem_buffer (fst s) <> MAP_FAILED.

(** [abortable P m Q]: [m] ends normally in [Q] or aborts the process. *)
Definition abortable {A} (P : S -> Prop) (m : M S A) (Q : A -> S -> Prop) : Prop :=
  forall s, P s -> match m s with (Done a, s') => Q a s' | (Abort, _) => True | _ => False end.

Lemma abortable_ret {A} (P : S -> Prop) (a : A) (Q : A -> S -> Prop) :
  (forall s, P s -> Q a s) -> abortable P (mret a) Q.
Proof. intros HQ s. apply HQ. Qed.

Lemma abortable_bind {A B} P (m : M S A) R (f : A -> M S B) Q :
  abortable P m R -> (forall a, abortable (R a) (f a) Q) -> abortable P (m ≫= f) Q.
Proof.
  intros Hm Hf s HP. specialize (Hm s HP). unfold mbind, M_bind. destruct (m s) as [[a| | | |] s']; try done.
  by apply Hf.
Qed.

Lemma abortable_pre {A} (P P' : S -> Prop) (m : M S A) Q : (forall s, P s -> P' s) -> abortable P' m Q -> abortable P m Q.
Proof. intros Hp Hm s HP. by apply Hm, Hp. Qed.

(** Steps that create nothing and leave the handles alone. *)
Definition neutral (P : S -> Prop) : Prop :=
  forall o o' w w', m_xsk_xsk o' = m_xsk_xsk o -> m_umem_umem o' = m_umem_umem o -> m_umem_buffer o' = m_umem_buffer o ->
    m_xdpProg o' = m_xdpProg o -> res w' = res w -> P (o, w) -> P (o', w').

Definition quiet {A} (m : M S A) : Prop := forall P, neutral P -> abortable P m (fun _ => P).

Lemma quiet_ret {A} (a : A) : quiet (mret a).
Proof. intros P _. by apply abortable_ret. Qed.

Lemma quiet_bind {A B} (m : M S A) (f : A -> M S B) : quiet m -> (forall a, quiet (f a)) -> quiet (m ≫= f).
Proof. intros Hm Hf P HP. eapply abortable_bind; [by apply Hm|]. intros a. by apply Hf. Qed.

Lemma quiet_sys {A} (f : W -> A * W) : (forall w, res (snd (f w)) = res w) -> quiet (sys f).
Proof.
  intros Hf P HP [o w] Hs. unfold sys. cbn. pose proof (Hf w). destruct (f w) as [a w'].
  by apply (HP o o w w').
Qed.

Lemma quiet_act (f : W -> W) : (forall w, res (f w) = res w) -> quiet (act f).
Proof. intros Hf P HP [o w] Hs. by apply (HP o o w (f w)). Qed.

Lemma quiet_gets {A} (f : S -> A) : quiet (gets f).
Proof. by intros P HP s Hs. Qed.

Lemma quiet_upd (f : AFXDP -> AFXDP) :
  (forall o, m_xsk_xsk (f o) = m_xsk_xsk o /\ m_umem_umem (f o) = m_umem_umem o /\
             m_umem_buffer (f o) = m_umem_buffer o /\ m_xdpProg (f o) = m_xdpProg o) -> quiet (upd f).
Proof. intros Hf P HP [o w] Hs. destruct (Hf o) as (? & ? & ? & ?). by apply (HP o (f o) w w). Qed.

Lemma quiet_if {A} (b : bool) (m1 m2 : M S A) : quiet m1 -> quiet m2 -> quiet (if b then m1 else m2).
Proof. by destruct b. Qed.

Lemma quiet_decide {A} (P : Prop) `{Decision P} (m1 m2 : M S A) :
  quiet m1 -> quiet m2 -> quiet (if decide P then m1 else m2).
Proof. by destruct (decide P). Qed.

Lemma holds_neutral R : neutral (holds R).
Proof.
  intros o o' w w' E1 E2 E3 E4 E5. unfold holds, owned. cbn. by rewrite E1, E2, E3, E4, E5.
Qed.

Lemma neutral_and P Q : neutral P -> neutral Q -> neutral (fun s => P s /\ Q s).
Proof. intros HP HQ o o' w w' E1 E2 E3 E4 E5 [??]. split; [by eapply HP|by eapply HQ]. Qed.

Lemma neutral_field (f : Z -> Z -> Z -> Z -> Prop) :
  neutral (fun s => f (m_xsk_xsk (fst s)) (m_umem_umem (fst s)) (m_umem_buffer (fst s)) (m_xdpProg (fst s))).
Proof. intros o o' w w' E1 E2 E3 E4 _. cbn. by rewrite E1, E2, E3, E4. Qed.

(** A helper that gives back what it took is quiet for the transport. *)
Lemma quiet_settled {A} (m : M W A) : settled m -> quiet (on_sys m).
Proof.
  intros Hm P HP [o w] Hs. unfold on_sys, zoom. cbn [fst snd]. destruct (Hm (res w) w eq_refl) as (a & w' & -> & Hr).
  by apply (HP o o w w').
Qed.

Lemma carrier_settled i : settled (read_carrier i).
Proof.
  intros X. unfold read_carrier. apply to_acquire; [apply nl_open_law|apply to_ret|]. intros fd Hfd.
  eapply to_bind; [apply to_sys, nl_read_law|]. intros r. apply to_close; [done|apply to_ret].
Qed.

Create HintDb quiet discriminated.
#[local] Hint Resolve quiet_ret quiet_gets rlimit_law nanosleep_law setsockopt_law attach_law
  detach_law map_update_law xdp_detach_law carrier_settled ensureCombinedOne_settled setBusyPoll_settled getBusyPoll_settled
  detachXdpProgram_settled applyDeferralSysfs_settled : quiet.

Ltac quiet_step :=
  first [ apply quiet_bind; [|intros ?] | apply quiet_if | apply quiet_decide | apply quiet_ret | apply quiet_gets
        | apply quiet_upd; intros []; done | apply quiet_settled | apply quiet_sys; intros ? | apply quiet_act; intros ? | case_match
        | solve [auto with quiet] ].

Lemma carrier_quiet n : quiet (carrier_poll n).
Proof. induction n; cbn [carrier_poll]; unfold obj; repeat quiet_step; try done. Qed.

Lemma steer_quiet : quiet (steerAllTrafficToQueue (W := W)).
Proof. unfold steerAllTrafficToQueue, waitForCarrier, obj. repeat (quiet_step || apply carrier_quiet). Qed.

Lemma sockopt_quiet : quiet (applySetSockOpt (W := W)).
Proof. unfold applySetSockOpt, obj. repeat quiet_step. Qed.

Lemma xsks_quiet : quiet (enterXsksIntoMap (W := W)).
Proof. unfold enterXsksIntoMap, obj. repeat quiet_step. Qed.

Lemma verify_quiet : quiet (verifyConfig (W := W)).
Proof. unfold verifyConfig, obj. repeat quiet_step. Qed.

(** [stage R x u p]: the object holds what was created on top of [R]; where a flag is
    false the socket, the UMEM or the program does not exist. *)
Definition stage (R : gset (Z * Z * Z)) (x u p : bool) (s : S) : Prop :=
  holds R s /\ (x = false -> m_xsk_xsk (fst s) = 0) /\
  (u = false -> m_umem_umem (fst s) = 0 /\ m_umem_buffer (fst s) = 0) /\ (p = false -> m_xdpProg (fst s) = 0).

Lemma stage_neutral R x u p : neutral (stage R x u p).
Proof.
  apply neutral_and; [apply holds_neutral|].
  apply (neutral_field (fun a b c d => (x = false -> a = 0) /\ (u = false -> b = 0 /\ c = 0) /\ (p = false -> d = 0))).
Qed.

Lemma stage_mono R x u p (s : S) x' u' p' :
  stage R x u p s -> (x' = false -> x = false) -> (u' = false -> u = false) -> (p' = false -> p = false) ->
  stage R x' u' p' s.
Proof. intros (Hh & Hx & Hu & Hp) ???. split; [done|]. split_and!; auto. Qed.

(** A new resource joins the object's. *)
Lemma holds_new R o o' (w w' : W) r :
  holds R (o, w) -> r ∉ res w -> res w' = {[r]} ∪ res w -> owned o' = {[r]} ∪ owned o -> m_umem_buffer o' <> MAP_FAILED ->
  holds R (o', w').
Proof.
  intros (Hr & Hd & Hm) Hn Hr' Ho Hb. cbn in *. unfold holds. cbn. rewrite Ho, Hr', Hr. rewrite Hr in Hn.
  split; [set_solver|]. split; [set_solver|done].
Qed.

(** A resource the object names is released. *)
Lemma holds_drop R o o' (w w' : W) r :
  holds R (o, w) -> r ∈ owned o -> res w' = res w ∖ {[r]} -> owned o' = owned o ∖ {[r]} -> m_umem_buffer o' <> MAP_FAILED ->
  holds R (o', w').
Proof.
  intros (Hr & Hd & Hm) Hin Hr' Ho Hb. cbn in *. unfold holds. cbn. rewrite Ho, Hr', Hr.
  split; [set_solver|]. split; [set_solver|done].
Qed.

Ltac owned_eq := unfold owned, opt_res, mapping, umem_res, socket_res, prog_res; cbn;
  repeat match goal with
  | H : ?x = 0 |- context [decide (?x = 0)] => rewrite (decide_True (P := x = 0)) by exact H
  | H : ?x <> 0 |- context [decide (?x = 0)] => rewrite (decide_False (P := x = 0)) by exact H
  end; try rewrite (decide_True (P := 0 = 0)) by done; set_solver.

Lemma load_spec R x u path :
  abortable (stage R x u false) (loadXdpProgram (W := W) path) (fun _ => stage R x u true).
Proof.
  intros [o w] (Hh & Hx & Hu & Hp). cbn in Hp. specialize (Hp eq_refl).
  unfold loadXdpProgram, sys, upd, act, obj, gets, modify, mbind, M_bind. cbn [fst snd].
  pose proof (open_file_law path w) as Hl. destruct (xdp_program_open_file path w) as [h w1].
  case_decide as Hz.
  { assert (neutral (stage R x u true)) as Hn by apply stage_neutral.
    by apply (Hn o _ w w1). }
  destruct Hl as [Hfresh Hres]. cbn [fst snd].
  assert (holds R (set_prog o h (m_customBpf o), w1)) as Hh1.
  { apply (holds_new R o _ w w1 (prog_res h)); try done; [|apply Hh]. owned_eq. }
  pose proof (attach_law h (m_ifindex (set_prog o h (m_customBpf o))) w1) as Ha.
  destruct (xdp_program_attach _ _ w1) as [e w2]. cbn [snd] in Ha. case_decide as He; cbn [fst snd].
  - split; [|split_and!; [exact Hx|exact Hu|done]].
    apply (holds_drop R (set_prog o h (m_customBpf o)) _ w1 _ (prog_res h)); [done| | | |apply Hh].
    + owned_eq.
    + by rewrite close_law, Ha.
    + destruct Hh as (Hr & _ & _). cbn in Hr. rewrite Hr in Hfresh. revert Hfresh. owned_eq.
  - assert (neutral (stage R x u true)) as Hn by apply stage_neutral.
    apply (Hn (set_prog o h (m_customBpf o)) _ w1 w2); done.
Qed.

Lemma umem_spec R x p :
  abortable (stage R x false p) (xskConfigureUmem (W := W) mode NumRxFrames NumTxFrames FrameSize) (fun _ => stage R x true p).
Proof.
  intros [o w] (Hh & Hx & Hu & Hp). cbn in Hu. destruct (Hu eq_refl) as [Hu1 Hu2].
  unfold xskConfigureUmem, sys, upd, act, obj, gets, modify, mbind, M_bind. cbn [fst snd].
  pose proof (mmap_law umemSize w) as Hl. destruct (mmap _ w) as [b w1].
  case_decide as Hb; [done|]. destruct Hl as (Hb0 & Hfresh & Hres). cbn [fst snd].
  assert (holds R (set_umem o (m_umem_umem o) b, w1)) as Hh1.
  { apply (holds_new R o _ w w1 (mapping b umemSize)); try done. owned_eq. }
  pose proof (umem_create_law b umemSize {| fill_size := FILL_SIZE NumRxFrames; comp_size := COMP_SIZE NumTxFrames;
      frame_size := FrameSize; frame_headroom := 0 |} w1) as Hc.
  destruct (xsk_umem_create _ _ _ w1) as [[r h] w2]. destruct (decide (r = 0)) as [Hr|Hr]; [|by rewrite decide_True].
  rewrite decide_False by tauto. destruct Hc as (Hh0 & Hf2 & Hres2). cbn [fst snd].
  split; [|split_and!; [exact Hx|done|exact Hp]].
  apply (holds_new R (set_umem o (m_umem_umem o) b) _ w1 w2 (umem_res h)); try done. cbn. owned_eq.
Qed.

Lemma bind_spec R u p l :
  abortable (stage R false u p) (try_bind (W := W) mode NumRxFrames NumTxFrames NeedWakeup l) (fun _ => stage R true u p).
Proof.
  induction l as [|[[xf zc] label] l IH]; cbn [try_bind].
  { apply abortable_ret. intros s Hs. by eapply stage_mono. }
  intros [o w] Hs. pose proof Hs as (Hh & Hx & Hu & Hp). cbn in Hx. specialize (Hx eq_refl).
  unfold sys, upd, obj, gets, modify. unfold mbind at 1 2, M_bind at 1 2. cbn [fst snd].
  match goal with |- context [xsk_socket_create ?i ?q ?um ?c w] =>
    pose proof (socket_create_law i q um c w) as Hl; destruct (xsk_socket_create i q um c w) as [[r h] w1] end.
  destruct (decide (r = 0)) as [Hr|Hr]; cbn [fst snd].
  - destruct Hl as (Hh0 & Hfresh & Hres). split; [|split_and!; [done|exact Hu|exact Hp]].
    apply (holds_new R o _ w w1 (socket_res h)); try done; [|apply Hh]. owned_eq.
  - apply IH. by apply (stage_neutral R false u p o o w w1).
Qed.

Lemma socket_spec R u p :
  abortable (stage R false u p) (xskConfigureSocket (W := W) mode NumRxFrames NumTxFrames NeedWakeup) (fun _ => stage R true u p).
Proof.
  unfold xskConfigureSocket.
  assert (forall f : AFXDP -> AFXDP, (forall o, m_xsk_xsk (f o) = m_xsk_xsk o /\ m_umem_umem (f o) = m_umem_umem o /\
    m_umem_buffer (f o) = m_umem_buffer o /\ m_xdpProg (f o) = m_xdpProg o) ->
    forall x, abortable (stage R x u p) (upd f) (fun _ => stage R x u p)) as Hupd.
  { intros f Hf x. apply (quiet_upd f Hf). apply stage_neutral. }
  eapply (abortable_bind _ _ (fun _ => stage R false u p)); [by apply Hupd|]. intros _.
  eapply (abortable_bind _ _ (fun _ => stage R true u p)); [apply bind_spec|]. intros _.
  eapply (abortable_bind _ _ (fun _ => stage R true u p)); [by apply quiet_gets, stage_neutral|]. intros o.
  destruct (decide (m_xsk_xsk o = 0)); [by intros s _|].
  eapply (abortable_bind _ _ (fun _ => stage R true u p)); [by apply quiet_gets, stage_neutral|]. intros fd.
  by apply Hupd.
Qed.

Lemma quiet_stage {A} R x u p (m : M S A) : quiet m -> abortable (stage R x u p) m (fun _ => stage R x u p).
Proof. intros Hm. apply Hm, stage_neutral. Qed.

Lemma abortable_if {A} P (b : bool) (m1 m2 : M S A) Q : abortable P m1 Q -> abortable P m2 Q -> abortable P (if b then m1 else m2) Q.
Proof. by destruct b. Qed.

(** [init] keeps the books: whatever it created is named by the object. *)
Ltac stage_step R x u p := eapply (abortable_bind _ _ (fun _ => stage R x u p)); [|intros ?].

Lemma init_spec populate R d sp :
  quiet populate ->
  abortable (stage R false false false)
    (init mode NumRxFrames NumTxFrames FrameSize NeedWakeup populate d sp) (fun _ => holds R).
Proof.
  intros Hpop. unfold init. destruct (resolve_regime d sp) as [[defer gro] susp].
  stage_step R false false false. { apply quiet_stage, quiet_upd. by intros []. }
  stage_step R false false false. { apply quiet_stage, quiet_sys. apply rlimit_law. }
  stage_step R false false false. { apply quiet_stage, quiet_gets. }
  stage_step R false false false. { apply quiet_stage, quiet_sys, nl_nametoindex_law. }
  stage_step R false false false. { apply quiet_stage, quiet_upd. by intros []. }
  destruct (decide _). { apply abortable_ret. intros s Hs. apply Hs. }
  stage_step R false false false. { apply quiet_stage, quiet_settled, detachXdpProgram_settled. }
  stage_step R false false false. { apply quiet_stage, quiet_bind; [apply quiet_settled, applyDeferralSysfs_settled|intros _; apply quiet_ret]. }
  stage_step R false false false. { apply quiet_stage, quiet_if; [apply steer_quiet|apply quiet_ret]. }
  stage_step R false false true.
  { apply abortable_if; [apply load_spec|]. apply abortable_ret. intros s Hs. by eapply stage_mono. }
  stage_step R false true true. { apply umem_spec. }
  stage_step R false true true. { apply quiet_stage, quiet_if; [done|apply quiet_ret]. }
  stage_step R true true true. { apply socket_spec. }
  stage_step R true true true. { apply quiet_stage, sockopt_quiet. }
  stage_step R true true true. { apply quiet_stage, quiet_gets. }
  stage_step R true true true. { apply quiet_stage, quiet_if; [apply xsks_quiet|apply quiet_ret]. }
  stage_step R true true true. { apply quiet_stage, verify_quiet. }
  apply abortable_ret. intros s Hs. apply Hs.
Qed.

(** Nothing is left in the object. *)
Definition empty (o : AFXDP) : Prop :=
  m_xsk_xsk o = 0 /\ m_umem_umem o = 0 /\ m_umem_buffer o = 0 /\ m_xdpProg o = 0 /\ m_ifindex o <= 0.

Lemma not_owned R o (w : W) r : holds R (o, w) -> r ∈ owned o -> r ∈ res w.
Proof. intros (Hr & _ & _) Ho. cbn in Hr. rewrite Hr. set_solver. Qed.

Lemma shutdown_step R (f : AFXDP -> AFXDP) (g : W -> W) r o (w : W) :
  holds R (o, w) -> r ∈ owned o -> (forall w, res (g w) = res w ∖ {[r]}) -> owned (f o) = owned o ∖ {[r]} ->
  m_umem_buffer (f o) <> MAP_FAILED -> holds R (f o, g w).
Proof. intros Hh Hin Hg Ho Hm. by apply (holds_drop R o _ w _ r). Qed.

Lemma shutdown_empty o (w : W) :
  empty o -> shutdown mode NumRxFrames NumTxFrames FrameSize (o, w) = (Done tt, (o, w)).
Proof.
  intros (Hx & Hu & Hb & Hp & Hi). unfold shutdown, obj, gets, mbind, M_bind. cbn [fst snd].
  rewrite Hx, Hu, Hb, Hp. rewrite !(decide_False (P := 0 <> 0)) by (intros E; by apply E).
  rewrite (decide_False (P := 0 <> 0 /\ _)) by (intros [E _]; by apply E). cbn.
  by rewrite decide_False by lia.
Qed.

(** The four kinds of resources never coincide. *)
Lemma kinds_apart a b c d sz :
  mapping a sz <> umem_res b /\ mapping a sz <> socket_res c /\ mapping a sz <> prog_res d /\
  umem_res b <> socket_res c /\ umem_res b <> prog_res d /\ socket_res c <> prog_res d.
Proof. by split_and!. Qed.

Lemma opt_res_zero r : opt_res 0 r = ∅.
Proof. done. Qed.
Lemma opt_res_live h r : h <> 0 -> opt_res h r = {[r]}.
Proof. intros. unfold opt_res. by rewrite decide_False. Qed.
Lemma opt_res_or h r : h = 0 /\ opt_res h r = ∅ \/ h <> 0 /\ opt_res h r = {[r]}.
Proof. unfold opt_res. destruct (decide (h = 0)); [by left|by right]. Qed.

Lemma opt_res_notin h r r' : r <> r' -> r ∉ opt_res h r'.
Proof. intros Hr. destruct (opt_res_or h r') as [[_ ->]|[_ ->]]; [apply not_elem_of_empty|by rewrite elem_of_singleton]. Qed.

(** Removing one kind from the union of the four. *)
Lemma drop_1 (r : Z * Z * Z) (b c d : gset _) : r ∉ b -> r ∉ c -> r ∉ d -> ∅ ∪ b ∪ c ∪ d = ({[r]} ∪ b ∪ c ∪ d) ∖ {[r]}.
Proof. set_solver. Qed.
Lemma drop_2 (r : Z * Z * Z) (a c d : gset _) : r ∉ a -> r ∉ c -> r ∉ d -> a ∪ ∅ ∪ c ∪ d = (a ∪ {[r]} ∪ c ∪ d) ∖ {[r]}.
Proof. set_solver. Qed.
Lemma drop_3 (r : Z * Z * Z) (a b d : gset _) : r ∉ a -> r ∉ b -> r ∉ d -> a ∪ b ∪ ∅ ∪ d = (a ∪ b ∪ {[r]} ∪ d) ∖ {[r]}.
Proof. set_solver. Qed.
Lemma drop_4 (r : Z * Z * Z) (a b c : gset _) : r ∉ a -> r ∉ b -> r ∉ c -> a ∪ b ∪ c ∪ ∅ = (a ∪ b ∪ c ∪ {[r]}) ∖ {[r]}.
Proof. set_solver. Qed.

Ltac drop_kind lem h r := unfold owned; cbn; rewrite opt_res_zero, (opt_res_live h r) by congruence;
  apply lem; by apply opt_res_notin.

Lemma shutdown_run R o (w : W) :
  holds R (o, w) ->
  exists o' w', shutdown mode NumRxFrames NumTxFrames FrameSize (o, w) = (Done tt, (o', w')) /\
    holds R (o', w') /\ empty o'.
Proof.
  intros Hh. unfold shutdown, obj.
  set (o1 := if decide (m_xsk_xsk o <> 0) then set_socket o 0 (-1) (m_bindMode o) (m_copyMode o) else o).
  set (w1 := if decide (m_xsk_xsk o <> 0) then xsk_socket_delete (m_xsk_xsk o) w else w).
  set (o2 := if decide (m_umem_umem o <> 0) then set_umem o1 0 (m_umem_buffer o1) else o1).
  set (w2 := if decide (m_umem_umem o <> 0) then xsk_umem_delete (m_umem_umem o) w1 else w1).
  set (o3 := if decide (m_umem_buffer o <> 0 /\ m_umem_buffer o <> MAP_FAILED) then set_umem o2 (m_umem_umem o2) 0 else o2).
  set (w3 := if decide (m_umem_buffer o <> 0 /\ m_umem_buffer o <> MAP_FAILED) then munmap (m_umem_buffer o) umemSize w2 else w2).
  set (o4 := if decide (m_xdpProg o <> 0) then set_prog o3 0 (m_customBpf o3) else o3).
  set (w4 := if decide (m_xdpProg o <> 0) then xdp_program_close (m_xdpProg o) (xdp_program_detach (m_xdpProg o) (m_ifindex o) w3) else w3).
  set (o5 := if decide (0 < m_ifindex o) then set_ifindex o4 0 else o4).
  set (w5 := if decide (0 < m_ifindex o) then bpf_xdp_detach (m_ifindex o) XDP_FLAGS_SKB_MODE
      (bpf_xdp_detach (m_ifindex o) XDP_FLAGS_DRV_MODE w4) else w4).
  pose proof Hh as (Hres0 & Hdis & HMF). cbn in HMF.
  assert (holds R (o1, w1) /\ m_xsk_xsk o1 = 0 /\ m_umem_umem o1 = m_umem_umem o /\ m_umem_buffer o1 = m_umem_buffer o /\
    m_xdpProg o1 = m_xdpProg o /\ m_ifindex o1 = m_ifindex o) as (H1 & X1 & U1 & B1 & P1 & I1).
  { unfold o1, w1. destruct (decide (m_xsk_xsk o <> 0)) as [Hz|Hz]; [|split_and!; try done; lia].
    split; [|by split_and!]. apply (holds_drop R o _ w _ (socket_res (m_xsk_xsk o))); try done; [| |].
    - unfold owned. rewrite (opt_res_live (m_xsk_xsk o)) by done. set_solver.
    - apply socket_delete_law.
    - drop_kind drop_1 (m_xsk_xsk o) (socket_res (m_xsk_xsk o)). }
  assert (holds R (o2, w2) /\ m_xsk_xsk o2 = 0 /\ m_umem_umem o2 = 0 /\ m_umem_buffer o2 = m_umem_buffer o /\
    m_xdpProg o2 = m_xdpProg o /\ m_ifindex o2 = m_ifindex o) as (H2 & X2 & U2 & B2 & P2 & I2).
  { unfold o2, w2. destruct (decide (m_umem_umem o <> 0)) as [Hz|Hz]; [|split_and!; try done; lia].
    split; [|by split_and!]. apply (holds_drop R o1 _ w1 _ (umem_res (m_umem_umem o))); try done; [| | |by rewrite B1].
    - unfold owned. rewrite U1, (opt_res_live (m_umem_umem o)) by done. set_solver.
    - apply umem_delete_law.
    - rewrite <- U1. drop_kind drop_2 (m_umem_umem o1) (umem_res (m_umem_umem o1)). }
  assert (holds R (o3, w3) /\ m_xsk_xsk o3 = 0 /\ m_umem_umem o3 = 0 /\ m_umem_buffer o3 = 0 /\
    m_xdpProg o3 = m_xdpProg o /\ m_ifindex o3 = m_ifindex o) as (H3 & X3 & U3 & B3 & P3 & I3).
  { unfold o3, w3. destruct (decide (m_umem_buffer o <> 0 /\ m_umem_buffer o <> MAP_FAILED)) as [[Hz _]|Hz]; [|split_and!; try done; destruct (decide (m_umem_buffer o = 0)); [congruence|tauto]].
    split; [|by split_and!]. apply (holds_drop R o2 _ w2 _ (mapping (m_umem_buffer o) umemSize)); try done; [| |].
    - unfold owned. rewrite B2, (opt_res_live (m_umem_buffer o)) by done. set_solver.
    - apply munmap_law.
    - rewrite <- B2. drop_kind drop_3 (m_umem_buffer o2) (mapping (m_umem_buffer o2) umemSize). }
  assert (holds R (o4, w4) /\ m_xsk_xsk o4 = 0 /\ m_umem_umem o4 = 0 /\ m_umem_buffer o4 = 0 /\
    m_xdpProg o4 = 0 /\ m_ifindex o4 = m_ifindex o) as (H4 & X4 & U4 & B4 & P4 & I4).
  { unfold o4, w4. destruct (decide (m_xdpProg o <> 0)) as [Hz|Hz]; [|split_and!; try done; lia].
    split; [|by split_and!]. apply (holds_drop R o3 _ w3 _ (prog_res (m_xdpProg o))); try done; [| | |by cbn; rewrite B3].
    - unfold owned. rewrite P3, (opt_res_live (m_xdpProg o)) by done. set_solver.
    - by rewrite close_law, detach_law.
    - rewrite <- P3. drop_kind drop_4 (m_xdpProg o3) (prog_res (m_xdpProg o3)). }
  assert (holds R (o5, w5) /\ empty o5) as (H5 & E5).
  { unfold o5, w5. destruct (decide (0 < m_ifindex o)) as [Hz|Hz].
    - split; [|by split_and!]. apply (holds_neutral R o4 _ w4); try done. by rewrite !xdp_detach_law.
    - split; [done|]. split_and!; try done. lia. }
  exists o5, w5. split; [|done].
  unfold act, upd, modify, gets, mret, M_ret, mbind, M_bind. cbn [fst snd].
  unfold o5, w5, o4, w4, o3, w3, o2, w2, o1, w1.
  repeat (match goal with |- context [decide ?P] => destruct (decide P) end; cbn [fst snd]); try done.
Qed.
End Lifecycle.

(** Moving a socket object neither loses nor duplicates what it owns: the assignment gives
    back what its target owned, the target then owns exactly what the source did, with all
    of its state; the source is empty, so that its destruction does nothing, and destroying
    the target afterwards gives everything back. *)
Theorem afxdp_move_balanced {W} {XS : XdpSys W} {RS : Resources W} {XL : XdpSysLaws W} {NS : NlSys W} {NL : NlSysLaws W} mode nrx ntx fsz R self other (w : W) :
  holds mode nrx ntx fsz (owned mode nrx ntx fsz other ∪ R) (self, w) -> owned mode nrx ntx fsz other ## R -> m_umem_buffer other <> MAP_FAILED ->
  exists left w', move_assign mode nrx ntx fsz false self other w = (Done (other, left), w') /\
    res w' = owned mode nrx ntx fsz other ∪ R /\ owned mode nrx ntx fsz left = ∅ /\
    dtor mode nrx ntx fsz (left, w') = (Done tt, (left, w')) /\
    exists o w'', dtor mode nrx ntx fsz (other, w') = (Done tt, (o, w'')) /\ res w'' = R.
Proof.
  intros Hs Hd Hm. destruct (shutdown_run mode nrx ntx fsz _ self w Hs) as (o1 & w1 & E1 & (Hr & _ & _) & He).
  assert (forall o, empty o -> owned mode nrx ntx fsz o = ∅) as Hempty.
  { intros o (X1 & X2 & X3 & X4 & _). unfold owned. rewrite X1, X2, X3, X4, !opt_res_zero. set_solver. }
  cbn in Hr. rewrite (Hempty o1 He), (left_id_L ∅ (∪)) in Hr.
  assert (empty (snd (moveFrom other))) as Hleft by done.
  exists (snd (moveFrom other)), w1. unfold move_assign. rewrite E1. split; [done|]. split; [done|]. split; [by apply Hempty|]. split; [by apply shutdown_empty|].
  destruct (shutdown_run mode nrx ntx fsz R other w1) as (o2 & w2 & E2 & (Hr2 & _ & _) & He2); [by split_and!|].
  exists o2, w2. split; [exact E2|]. cbn in Hr2. by rewrite Hr2, (Hempty o2 He2), (left_id_L ∅ (∪)).
Qed.

(** C22: The transport gives back what it took: whatever the machine answers, a socket
    object that is constructed, initialised (with success, with failure, any flags) and
    shut down leaves the machine with the mappings, UMEMs, sockets and programs it
    had before, unless [init] aborts the process; a second shutdown does nothing. *)
Theorem afxdp_lifecycle_balanced {W} {XS : XdpSys W} {RS : Resources W} {XL : XdpSysLaws W} {NS : NlSys W} {NL : NlSysLaws W} mode nrx ntx fsz nw populate ifn q path d sp (w : W) :
  quiet populate ->
  match (b ← init mode nrx ntx fsz nw populate d sp; shutdown mode nrx ntx fsz ;; mret b)
          (construct ifn q path, w) with
  | (Done _, s') => (res (snd s') = res w) /\ shutdown mode nrx ntx fsz s' = (Done tt, s')
  | (Abort, _) => True
  | _ => False
  end.
Proof.
  intros Hpop. assert (stage mode nrx ntx fsz (res w) false false false (construct ifn q path, w)) as Hst.
  { split; [|by split_and!]. unfold holds, owned. cbn. split; [set_solver|]. split; [set_solver|done]. }
  pose proof (init_spec mode nrx ntx fsz nw populate (res w) d sp Hpop _ Hst) as Hi.
  unfold mbind, M_bind. destruct (init _ _ _ _ _ _ _ _ _) as [[b| | | |] [o w1]]; try done.
  destruct (shutdown_run mode nrx ntx fsz _ o w1 Hi) as (o' & w' & -> & (Hr & _ & _) & He).
  cbn [snd fst mret M_ret]. split; [|by apply shutdown_empty].
  cbn in Hr. rewrite Hr. destruct He as (E1 & E2 & E3 & E4 & _). unfold owned. rewrite E1, E2, E3, E4. set_solver.
Qed.

Lemma try_bind_first {W} {XS : XdpSys W} {RS : Resources W} {XL : XdpSysLaws W} {NS : NlSys W} {NL : NlSysLaws W} mode nrx ntx nw acc l (s : AFXDP * W) :
  (forall i q u c (w : W), fst (fst (xsk_socket_create i q u c w)) = 0 <-> acc c = true) ->
  m_xsk_xsk (fst s) = 0 ->
  exists s', try_bind mode nrx ntx nw l s = (Done tt, s') /\
    match List.find (fun '(xf, zc, _) => acc (socket_config mode nrx ntx nw (m_customBpf (fst s)) xf zc)) l with
    | Some (xf, zc, label) => m_bindMode (fst s') = label /\ m_copyMode (fst s') = bool_decide (zc = XDP_COPY) /\
        m_xsk_xsk (fst s') <> 0
    | None => fst s' = fst s
    end.
Proof.
  intros Hacc. revert s. induction l as [|[[xf zc] label] l IH]; intros [o w] Hx; [by eexists|].
  cbn [try_bind List.find]. unfold obj, gets, sys. unfold mbind at 1 2, M_bind at 1 2. cbn [fst snd].
  pose proof (Hacc (m_interface o) (m_queueId o) (m_umem_umem o) (socket_config mode nrx ntx nw (m_customBpf o) xf zc) w) as Ha.
  pose proof (socket_create_law (m_interface o) (m_queueId o) (m_umem_umem o) (socket_config mode nrx ntx nw (m_customBpf o) xf zc) w) as Hl.
  destruct (xsk_socket_create _ _ _ _ w) as [[r h] w1]. cbn [fst snd] in *.
  destruct (decide (r = 0)) as [Hr|Hr].
  - rewrite (proj1 Ha Hr). eexists. split; [done|]. cbn. by destruct Hl as [? _].
  - destruct (acc _); [by destruct Hr; apply Ha|]. apply (IH (o, w1) Hx).
Qed.

(** The bind ladder settles on the strongest mode the kernel accepts: zero-copy,
    then native copy, then generic; the label and the copy flag record that mode, and
    the process aborts exactly when the kernel accepts none. *)
Theorem afxdp_bind_ladder {W} {XS : XdpSys W} {RS : Resources W} {XL : XdpSysLaws W} {NS : NlSys W} {NL : NlSysLaws W} mode nrx ntx nw acc (s : AFXDP * W) :
  (forall i q u c (w : W), fst (fst (xsk_socket_create i q u c w)) = 0 <-> acc c = true) ->
  m_xsk_xsk (fst s) = 0 ->
  let best := List.find (fun '(xf, zc, _) => acc (socket_config mode nrx ntx nw (m_customBpf (fst s)) xf zc)) bind_ladder in
  match xskConfigureSocket mode nrx ntx nw s with
  | (Done _, s') => exists xf zc label, best = Some (xf, zc, label) /\ m_bindMode (fst s') = label /\
      m_copyMode (fst s') = bool_decide (label <> "zero-copy") /\ m_xsk_xsk (fst s') <> 0 /\
      m_fd (fst s') = xsk_socket_fd (m_xsk_xsk (fst s')) (snd s')
  | (Abort, _) => best = None
  | _ => False
  end.
Proof.
  intros Hacc Hx. cbn zeta. unfold xskConfigureSocket, upd, modify, obj, gets. unfold mbind at 1, M_bind at 1.
  destruct (try_bind_first mode nrx ntx nw acc bind_ladder
    (set_socket (fst s) (m_xsk_xsk (fst s)) (m_fd (fst s)) "generic" (m_copyMode (fst s)), snd s) Hacc Hx) as ([o w] & Ht & Hf).
  rewrite (run_bind _ _ _ _ _ Ht). cbn [fst m_customBpf set_socket] in Hf. unfold mbind, M_bind. cbn [fst snd].
  destruct (List.find _ bind_ladder) as [[[xf zc] label]|] eqn:Hb.
  - destruct Hf as (Hl & Hc & Hn). rewrite decide_False by done. cbn. exists xf, zc, label.
    split_and!; try done. rewrite Hc. apply List.find_some in Hb as [Hin _].
    repeat (destruct Hin as [Hin|Hin]; [by injection Hin as <- <- <-|]). done.
  - rewrite decide_True by (by rewrite Hf). done.
Qed.

(** ** A simulated machine: handles are handed out in increasing order; bind attempts
    whose copy flag is in [reject] fail. *)
Section Sim.
Context (reject : list Z).

#[export] Instance sim_XdpSys : XdpSys sim_machine := {|
  setrlimit_memlock w := (true, w);
  nanosleep t w := w;
  mmap sz w := if decide (sx_fresh w = MAP_FAILED) then (MAP_FAILED, w)
               else (sx_fresh w, sx_add (mapping (sx_fresh w) sz) w);
  munmap a sz w := sx_del (mapping a sz) w;
  xsk_umem_create b sz c w := ((0, sx_fresh w), sx_add (umem_res (sx_fresh w)) w);
  xsk_umem_delete h w := sx_del (umem_res h) w;
  xsk_socket_create i q u c w :=
    if decide (Z.land (bind_flags c) (Z.lor XDP_COPY XDP_ZEROCOPY) ∈ reject) then ((-22, 0), w)
    else ((0, sx_fresh w), sx_add (socket_res (sx_fresh w)) w);
  xsk_socket_delete h w := sx_del (socket_res h) w;
  xsk_socket_fd h w := h + 100;
  setsockopt fd o w := (true, w);
  xdp_program_open_file p w := (sx_fresh w, sx_add (prog_res (sx_fresh w)) w);
  xdp_program_attach h i w := (0, w);
  xdp_program_detach h i w := w;
  xdp_program_close h w := sx_del (prog_res h) w;
  find_xsks_map h w := Some 9;
  bpf_map_update_elem f k v w := (true, w);
  bpf_xdp_detach i f w := w;
  so_incoming_napi_id fd w := 8193;
|}.

#[export] Program Instance sim_XdpSysLaws : XdpSysLaws sim_machine.
Solve Obligations with try done.
Next Obligation.
  intros sz w. cbn -[sx_fresh MAP_FAILED]. case_decide as Hd; cbn -[sx_fresh MAP_FAILED]; [by rewrite decide_True|].
  rewrite decide_False by done. destruct (sx_fresh_spec w 0 sz). split; [lia|]. by split.
Qed.
Next Obligation. intros b sz c w. cbn -[sx_fresh]. destruct (sx_fresh_spec w 1 0). split; [lia|]. by split. Qed.
Next Obligation.
  intros i q u c w. cbn -[sx_fresh]. case_decide; cbn -[sx_fresh]; [done|]. destruct (sx_fresh_spec w 2 0). split; [lia|]. by split.
Qed.
Next Obligation.
  intros p w. cbn -[sx_fresh]. destruct (sx_fresh_spec w 3 0). rewrite decide_False by lia. by split.
Qed.

End Sim.

Definition sim_start : sim_machine := {| sx_res := {[mapping 4096 8192]} |}.
Definition sim_socket : AFXDP := construct "eth0" 0 "af_xdp_kern.o".

Definition sim_run : outcome bool * (AFXDP * sim_machine) :=
  let _ := sim_XdpSys [XDP_ZEROCOPY] in
  (b ← init RxTx 2048 2048 4096 true (mret tt) true false; shutdown RxTx 2048 2048 4096 ;; mret b)
    (sim_socket, sim_start).

Lemma afxdp_lifecycle_balanced_witness :
  fst sim_run = Done true /\ sx_res (snd (snd sim_run)) = {[mapping 4096 8192]}.
Proof.
  assert (fst sim_run = Done true) as Hf by (vm_compute; reflexivity).
  split; [exact Hf|].
  pose proof (afxdp_lifecycle_balanced (XS := sim_XdpSys [XDP_ZEROCOPY]) RxTx 2048 2048 4096 true (mret tt)
    "eth0" 0 "af_xdp_kern.o" true false sim_start (quiet_ret tt)) as Ht.
  fold sim_socket in Ht. change (match sim_run with
    | (Done _, s') => sx_res (snd s') = sx_res sim_start /\ shutdown (XS := sim_XdpSys [XDP_ZEROCOPY]) RxTx 2048 2048 4096 s' = (Done tt, s')
    | (Abort, _) => True | _ => False end) in Ht.
  revert Ht Hf. generalize sim_run. intros [o s'] Ht Hf. cbn in Hf. subst o. destruct Ht as [Ht _]. exact Ht.
Defined.

(** Zero-copy refused: the socket ends up in native copy mode. *)
Definition sim_acc (c : xsk_socket_config) : bool :=
  bool_decide (Z.land (bind_flags c) (Z.lor XDP_COPY XDP_ZEROCOPY) ∉ [XDP_ZEROCOPY]).

Definition sim_bind : outcome unit * (AFXDP * sim_machine) :=
  xskConfigureSocket (XS := sim_XdpSys [XDP_ZEROCOPY]) RxTx 2048 2048 true (sim_socket, sim_start).

Lemma sim_accepts i q u c (w : sim_machine) :
  fst (fst (xsk_socket_create (XdpSys := sim_XdpSys [XDP_ZEROCOPY]) i q u c w)) = 0 <-> sim_acc c = true.
Proof.
  unfold sim_acc. rewrite bool_decide_eq_true. cbv [xsk_socket_create sim_XdpSys].
  generalize (Z.land (bind_flags c) (Z.lor XDP_COPY XDP_ZEROCOPY)). intros z.
  destruct (decide (z ∈ [XDP_ZEROCOPY])) as [Hz|Hz]; cbn [fst]; split; intros Hx; (done || lia).
Qed.

Lemma afxdp_bind_ladder_witness :
  fst sim_bind = Done tt /\ m_bindMode (fst (snd sim_bind)) = "native-copy" /\ m_copyMode (fst (snd sim_bind)) = true.
Proof.
  pose proof (afxdp_bind_ladder (XS := sim_XdpSys [XDP_ZEROCOPY]) RxTx 2048 2048 true sim_acc (sim_socket, sim_start)) as Ht.
  assert (fst sim_bind = Done tt) as Hf by (vm_compute; reflexivity). split; [exact Hf|].
  specialize (Ht sim_accepts eq_refl). cbn zeta in Ht.
  assert (List.find (fun '(xf, zc, _) => sim_acc (socket_config RxTx 2048 2048 true (m_customBpf (fst (sim_socket, sim_start))) xf zc)) bind_ladder
    = Some (XDP_FLAGS_DRV_MODE, XDP_COPY, "native-copy")) as Hb by (vm_compute; reflexivity).
  rewrite Hb in Ht. fold sim_bind in Ht. revert Ht Hf. generalize sim_bind. intros [o s'] Ht Hf. cbn in Hf. subst o.
  destruct Ht as (xf & zc & label & E & Hl & Hc & _). injection E as <- <- <-. split; [exact Hl|exact Hc].
Defined.
