(* ===== verification/I210.v ===== *)
(** * The Intel I210 user-space driver: descriptor rings (src/backends/IGBCustomPMD/Intel_I210.hpp)

    [Tx] and [Rx] model the hot path of the driver over descriptor rings shared with the
    NIC.  The NIC runs concurrently: before each access of the driver it may take any number
    of the steps of [Tx.nstep] and [Rx.nstep], which state what the datasheet says about an
    advanced descriptor ring: it works from its head up to the tail register, exclusive, and
    an empty ring is head = tail.  [phys] is the bus address of an offset of the packet
    buffer (HugepageBuffer), [virt] its inverse on the bus. *)

From S2P Require Import Prelude RingWindow RingConcepts.

(** The members of [Intel_I210] that the rings and the MAC address use. *)
Record Intel_I210 := mk_I210 {
  m_rxTail : Z;
  m_rxHeld : Z;
  m_txTail : Z;
  m_txCleanHead : Z;
  m_txInFlight : Z;
  m_mac : list Z;
}.

Definition RX_FREE_THRESH : Z := 32.
Definition RXD_STAT_DD : Z := 1.
Definition TXD_STAT_DD : Z := 1.
Definition TXD_CMD_EOP : Z := 16777216.
Definition TXD_CMD_IFCS : Z := 33554432.
Definition TXD_CMD_RS : Z := 134217728.
Definition TXD_CMD_DEXT : Z := 536870912.
Definition TXD_DTYP_DATA : Z := 3145728.
Definition TXD_PAYLEN_SHIFT : Z := 14.

Definition set_tx (tail clean inflight : Z) (o : Intel_I210) : Intel_I210 :=
  mk_I210 (m_rxTail o) (m_rxHeld o) tail clean inflight (m_mac o).
Definition set_rx (tail held : Z) (o : Intel_I210) : Intel_I210 :=
  mk_I210 tail held (m_txTail o) (m_txCleanHead o) (m_txInFlight o) (m_mac o).

(** The move constructor: the new object and the source, whose indices restart at zero. *)
Definition move (other : Intel_I210) : Intel_I210 * Intel_I210 :=
  (other, mk_I210 0 0 0 0 0 (m_mac other)).

(** ** Transmit *)
Module Tx.

(** [union TxDescriptor]: the status of the write-back format overlays [olinfoStatus]. *)
Record TxDescriptor := mk_desc { bufferAddr : Z; cmdTypeLen : Z; olinfoStatus : Z }.

Definition done (d : TxDescriptor) : bool := negb (Z.land (olinfoStatus d) TXD_STAT_DD =? 0).

(** The driver, its ring and buffers, the tail register; the NIC's fetch and write-back
    positions and the frames it put on the wire. *)
Record world (E : Type) := mk_world {
  obj : Intel_I210; descs : list TxDescriptor; bufs : list bytes; tdt : Z;
  n_head : Z; n_done : Z; wire : list bytes; ext : E }.
Arguments mk_world {E}.
Arguments obj {E}.
Arguments descs {E}.
Arguments bufs {E}.
Arguments tdt {E}.
Arguments n_head {E}.
Arguments n_done {E}.
Arguments wire {E}.
Arguments ext {E}.

Section Operations.
Context (NumTxDesc BuffSize : Z) (phys virt : Z -> Z).
Context {E : Type} (env : world E -> world E).
Abbreviation W := (world E).

Definition TX_RING_MASK : Z := NumTxDesc - 1.

Definition set_obj (o : Intel_I210) (w : W) : W :=
  mk_world o (descs w) (bufs w) (tdt w) (n_head w) (n_done w) (wire w) (ext w).
Definition set_desc (i : nat) (d : TxDescriptor) (w : W) : W :=
  mk_world (obj w) (<[i := d]> (descs w)) (bufs w) (tdt w) (n_head w) (n_done w) (wire w) (ext w).
Definition set_buf (i : nat) (b : bytes) (w : W) : W :=
  mk_world (obj w) (descs w) (<[i := b]> (bufs w)) (tdt w) (n_head w) (n_done w) (wire w) (ext w).
Definition set_tdt (t : Z) (w : W) : W :=
  mk_world (obj w) (descs w) (bufs w) t (n_head w) (n_done w) (wire w) (ext w).

(** [m_txRing[i]] *)
Definition desc_at (i : Z) : M W TxDescriptor :=
  fun w => match descs w !! Z.to_nat i with Some d => (Done d, w) | None => (Undef, w) end.

(** [txReclaim] *)
Fixpoint txReclaim (n : nat) : M W unit :=
  o ← gets obj;
  if m_txInFlight o <=? 0 then mret tt else
  match n with
  | O => raise NoFuel
  | S n =>
      modify env ;;
      d ← desc_at (m_txCleanHead o);
      if done d then
        modify (set_desc (Z.to_nat (m_txCleanHead o)) (mk_desc (bufferAddr d) (cmdTypeLen d) 0)) ;;
        modify (set_obj (set_tx (m_txTail o) (Z.land (m_txCleanHead o + 1) TX_RING_MASK) (m_txInFlight o - 1) o)) ;;
        txReclaim n
      else mret tt
  end.

Definition tx_command (frameLen : Z) : Z :=
  Z.lor (Z.lor (Z.lor (Z.lor (Z.lor TXD_CMD_EOP TXD_CMD_IFCS) TXD_CMD_RS) TXD_CMD_DEXT) TXD_DTYP_DATA) frameLen.

(** [acquire]; the result is the offset in the packet buffer. *)
Definition acquire (frameLen : Z) : M W (option Z) :=
  modify env ;;
  o ← gets obj;
  (if NumTxDesc <=? m_txInFlight o then txReclaim (Z.to_nat (m_txInFlight o)) else mret tt) ;;
  o ← gets obj;
  if NumTxDesc <=? m_txInFlight o then mret None else
  _ ← desc_at (m_txTail o);
  modify (set_desc (Z.to_nat (m_txTail o))
    (mk_desc (phys (m_txTail o * BuffSize)) (u32 (tx_command frameLen)) (u32 (Z.shiftl frameLen TXD_PAYLEN_SHIFT)))) ;;
  mret (Some (m_txTail o * BuffSize)).

(** [memcpy] into the packet buffer at an offset, within one buffer. *)
Definition write (p : Z) (src : bytes) : M W unit :=
  modify env ;;
  w ← get;
  let i := Z.to_nat (p / BuffSize) in
  match bufs w !! i with
  | None => raise Undef
  | Some b => match store (Z.to_nat (p mod BuffSize)) src b with
              | Some b => modify (set_buf i b)
              | None => raise Undef
              end
  end.

(** [commit] *)
Definition commit : M W unit :=
  modify env ;;
  o ← gets obj;
  let tail := Z.land (m_txTail o + 1) TX_RING_MASK in
  modify (set_obj (set_tx tail (m_txCleanHead o) (m_txInFlight o + 1) o)) ;;
  modify (set_tdt (u32 tail)).

(** [send] *)
Definition send (frame : bytes) : M W bool :=
  buf ← acquire (u32 (Z.of_nat (length frame)));
  match buf with
  | None => mret false
  | Some p => write p frame ;; commit ;; mret true
  end.

(** [prefillRing] *)
Fixpoint prefill_from (n : nat) (i : Z) (t : bytes) : M W unit :=
  match n with
  | O => mret tt
  | S n => write (i * BuffSize) t ;; prefill_from n (i + 1) t
  end.
Definition prefillRing (t : bytes) : M W unit := prefill_from (Z.to_nat NumTxDesc) 0 t.

#[export] Instance I210_TxRing : TxRing W := {|
  tx_acquire := acquire; tx_write := write; tx_commit := commit; tx_send := send; tx_prefillRing := prefillRing |}.

(** The bytes a descriptor tells the NIC to send. *)
Definition dma_frame (d : TxDescriptor) (bs : list bytes) : bytes :=
  match bs !! Z.to_nat (virt (bufferAddr d) / BuffSize) with
  | Some b => slice (Z.to_nat (virt (bufferAddr d) mod BuffSize)) (Z.to_nat (Z.land (cmdTypeLen d) 65535)) b
  | None => []
  end.

(** What the NIC does: fetch and send the frame at its head while head and tail differ,
    write a sent descriptor back with DD set, or something unrelated. *)
Inductive nstep : W -> W -> Prop :=
  | n_send w d :
      n_head w mod NumTxDesc <> tdt w -> descs w !! pos NumTxDesc (n_head w) = Some d ->
      nstep w (mk_world (obj w) (descs w) (bufs w) (tdt w) (n_head w + 1) (n_done w) (wire w ++ [dma_frame d (bufs w)]) (ext w))
  | n_writeback w d :
      n_done w < n_head w -> done d = true ->
      nstep w (mk_world (obj w) (<[pos NumTxDesc (n_done w) := d]> (descs w)) (bufs w) (tdt w)
        (n_head w) (n_done w + 1) (wire w) (ext w))
  | n_other w e : nstep w (mk_world (obj w) (descs w) (bufs w) (tdt w) (n_head w) (n_done w) (wire w) e).
End Operations.

Section Properties.
Context (N B : Z) (phys virt : Z -> Z) {E : Type} (env : world E -> world E).
Abbreviation W := (world E).
Abbreviation nstep := (nstep N B virt).
Implicit Types (w : W).
Context (Npow : is_pow2 N) (Nmin : 8 <= N < 2 ^ 16) (Bok : 0 < B < 2 ^ 16)
  (bus : forall a, 0 <= a < N * B -> virt (phys a) = a)
  (env_ok : forall w : W, rtc nstep w (env w)).

(** The descriptor at position [j] asks for the frame [f], which its buffer starts with. *)
Definition armed (w : W) (j : Z) (f : bytes) : Prop :=
  exists d b, descs w !! pos N j = Some d /\ bufs w !! pos N j = Some b /\ f `prefix_of` b /\
    virt (bufferAddr d) = (j mod N) * B /\ Z.land (cmdTypeLen d) 65535 = Z.of_nat (length f) /\ done d = false.

(** [H] is the list of frames committed so far, [C] the number reclaimed:
    reclaimed <= written back <= sent <= committed <= reclaimed + N. *)
Record inv (H : list bytes) (C : Z) (w : W) : Prop := {
  inv_descs : Z.of_nat (length (descs w)) = N;
  inv_bufs : Z.of_nat (length (bufs w)) = N;
  inv_size : Forall (fun b => Z.of_nat (length b) = B) (bufs w);
  inv_tail : m_txTail (obj w) = Z.of_nat (length H) mod N;
  inv_clean : m_txCleanHead (obj w) = C mod N;
  inv_flight : m_txInFlight (obj w) = Z.of_nat (length H) - C;
  inv_tdt : tdt w = Z.of_nat (length H) mod N;
  inv_order : 0 <= C <= n_done w /\ n_done w <= n_head w <= Z.of_nat (length H) /\ Z.of_nat (length H) <= C + N;
  inv_done : window (fun d => done d = true) N C (n_done w) (descs w);
  inv_undone : window (fun d => done d = false) N (n_done w) (n_head w) (descs w);
  inv_armed : forall j f, n_head w <= j -> H !! Z.to_nat j = Some f -> armed w j f;
  inv_wire : wire w = take (Z.to_nat (n_head w)) H;
}.

Lemma i210_tx_N_pos : 0 < N.
Proof. lia. Qed.

Lemma pos_mod j : Z.of_nat (pos N j) = j mod N.
Proof. unfold pos. pose proof (Z.mod_pos_bound j N i210_tx_N_pos). lia. Qed.

Lemma pos_self j : Z.to_nat (j mod N) = pos N j.
Proof. done. Qed.

Lemma mask_next j : Z.land (j mod N + 1) (TX_RING_MASK N) = (j + 1) mod N.
Proof. unfold TX_RING_MASK. rewrite land_mask by done. by rewrite Zplus_mod_idemp_l. Qed.

(** What an armed descriptor makes the NIC send. *)
Lemma armed_frame w j f : armed w j f -> forall d, descs w !! pos N j = Some d -> dma_frame B virt d (bufs w) = f.
Proof.
  intros (d' & b & Hd & Hb & [k ->] & Hv & Hl & _) d Hd'. simplify_eq. unfold dma_frame.
  rewrite Hv, Z.div_mul, Z_mod_mult, Hl, Nat2Z.id by lia. change (Z.to_nat (j mod N)) with (pos N j). rewrite Hb.
  unfold slice. change (Z.to_nat 0) with 0%nat. rewrite drop_0. by rewrite take_app_length.
Qed.

(** Descriptors and buffers elsewhere do not matter. *)
Lemma armed_other_desc w j f i d :
  armed w j f -> i <> pos N j -> armed (set_desc i d w) j f.
Proof.
  intros (d' & b & Hd & Hb & Hx) Hi. exists d', b. cbn. by rewrite list_lookup_insert_ne.
Qed.

(** The NIC's steps keep the invariant, the driver's members and the slots it lends. *)
Lemma i210_tx_nstep_inv H C w w' :
  nstep w w' -> inv H C w ->
  inv H C w' /\ obj w' = obj w /\ bufs w' = bufs w /\ n_head w <= n_head w' /\ n_done w <= n_done w' /\
  (forall j, n_head w <= j < C + N -> descs w' !! pos N j = descs w !! pos N j).
Proof.
  intros Hs Hi. pose proof Hi as [Hd Hb Hsz Ht Hc Hf Htd Ho Hdone Hun Har Hw]. pose proof i210_tx_N_pos.
  destruct Hs as [w d Hne Hl|w d Hlt Hdd|w e].
  - rewrite Htd in Hne. assert (n_head w < Z.of_nat (length H)) as Hlt.
    { destruct (decide (n_head w = Z.of_nat (length H))) as [He|]; [by rewrite He in Hne|lia]. }
    destruct (lookup_lt_is_Some_2 H (Z.to_nat (n_head w))) as [f Hf']; [lia|].
    pose proof (Har (n_head w) f ltac:(lia) Hf') as Harm.
    split; [|cbn; split_and!; try done; lia]. constructor; cbn; try done; try lia.
    + apply (window_join _ _ _ (n_head w)); [done|]. intros j Hj. assert (j = n_head w) as -> by lia.
      destruct Harm as (d' & b & Hd' & _ & _ & _ & _ & Hnd). by exists d'.
    + intros j g Hj. apply Har. lia.
    + rewrite (armed_frame _ _ _ Harm d Hl), Hw. replace (Z.to_nat (n_head w + 1)) with (S (Z.to_nat (n_head w))) by lia.
      by rewrite (take_S_r _ _ f).
  - split; [|cbn; split_and!; try done; try lia].
    + constructor; cbn; rewrite ?length_insert; try done; try lia.
      * by apply window_push; [lia| |lia|..].
      * apply window_insert_out; [lia|intros; lia|]. eapply window_mono; [exact Hun|lia..].
      * intros j g Hj Hg. apply lookup_lt_Some in Hg as Hlen. apply armed_other_desc; [by apply Har|]. apply pos_ne; lia.
    + intros j Hj. rewrite list_lookup_insert_ne; [done|]. apply pos_ne; lia.
  - by split; [|cbn; split_and!].
Qed.

Lemma i210_tx_nsteps_inv H C w w' :
  rtc nstep w w' -> inv H C w ->
  inv H C w' /\ obj w' = obj w /\ bufs w' = bufs w /\ n_head w <= n_head w' /\ n_done w <= n_done w' /\
  (forall j, n_head w' <= j < C + N -> descs w' !! pos N j = descs w !! pos N j).
Proof.
  intros Hr. induction Hr as [w|w w1 w2 H1 _ IH]; intros Hi; [split_and!; [done..|lia|lia|done]|].
  destruct (i210_tx_nstep_inv _ _ _ _ H1 Hi) as (Hi1 & Ho1 & Hb1 & Hh1 & Hd1 & Hl1).
  destruct (IH Hi1) as (Hi2 & Ho2 & Hb2 & Hh2 & Hd2 & Hl2).
  split; [done|]. split_and!; [congruence|congruence|lia|lia|].
  intros j Hj. rewrite Hl2 by done. apply Hl1. lia.
Qed.

Lemma desc_at_pos j w : Z.of_nat (length (descs w)) = N -> exists d, descs w !! pos N j = Some d /\ desc_at (j mod N) w = (Done d, w).
Proof.
  intros Hl. destruct (lookup_lt_is_Some_2 (descs w) (pos N j)) as [d Hd]; [by apply pos_lt; [lia|]|].
  exists d. split; [done|]. unfold desc_at. change (Z.to_nat (j mod N)) with (pos N j). by rewrite Hd.
Qed.

(** A descriptor found done is one the NIC wrote back. *)
Lemma done_written H C w d :
  inv H C w -> C < Z.of_nat (length H) -> descs w !! pos N C = Some d -> done d = true -> C < n_done w.
Proof.
  intros [_ _ _ _ _ _ _ Ho _ Hun Har _] HC Hd Hdd. destruct (decide (C < n_done w)); [done|exfalso].
  assert (C = n_done w) as He by lia. destruct (decide (n_done w < n_head w)).
  - destruct (Hun C) as (d' & Hd' & Hn); [lia|]. simplify_eq. congruence.
  - destruct (lookup_lt_is_Some_2 H (Z.to_nat C)) as [f Hf]; [lia|].
    destruct (Har C f ltac:(lia) Hf) as (d' & b & Hd' & _ & _ & _ & _ & Hn). simplify_eq. congruence.
Qed.

(** Reclaiming a written-back descriptor. *)
Lemma reclaim_inv H C w d' :
  inv H C w -> C < n_done w ->
  inv H (C + 1) (set_obj (set_tx (m_txTail (obj w)) (Z.land (m_txCleanHead (obj w) + 1) (TX_RING_MASK N)) (m_txInFlight (obj w) - 1) (obj w))
    (set_desc (pos N C) d' w)).
Proof.
  intros [Hd Hb Hsz Ht Hc Hf Htd Ho Hdone Hun Har Hw] HC. pose proof i210_tx_N_pos.
  constructor; cbn; rewrite ?length_insert; try done; try lia.
  - by rewrite Hc, mask_next.
  - apply window_insert_out; [lia|intros; lia|]. eapply window_mono; [exact Hdone|lia..].
  - apply window_insert_out; [lia|intros; lia|done].
  - intros j f Hj Hf'. apply lookup_lt_Some in Hf' as Hlen. apply (armed_other_desc w); [by apply Har|]. apply pos_ne; lia.
Qed.

Lemma txReclaim_run n : forall H C w,
  inv H C w -> Z.of_nat (length H) - C <= Z.of_nat n ->
  exists C' w', txReclaim N env n w = (Done tt, w') /\ inv H C' w' /\ bufs w' = bufs w /\ C <= C' /\ n_head w <= n_head w'.
Proof.
  induction n as [|n IH]; intros H C w Hi Hn; pose proof Hi as [_ _ _ _ _ Hf _ Ho _ _ _ _]; cbn [txReclaim];
    rewrite run_gets, Hf.
  { rewrite (proj2 (Z.leb_le _ _)) by lia. exists C, w. split_and!; [done..|lia|lia]. }
  destruct (Z.leb_spec (Z.of_nat (length H) - C) 0) as [Hz|Hz]; [exists C, w; split_and!; [done..|lia|lia]|].
  destruct (i210_tx_nsteps_inv H C _ _ (env_ok w) Hi) as (Hi1 & Ho1 & Hb1 & Hh1 & _).
  rewrite run_modify, <- Hb1.
  pose proof (inv_clean _ _ _ Hi1) as Hc. rewrite <- Ho1. rewrite Hc.
  destruct (desc_at_pos C (env w) (inv_descs _ _ _ Hi1)) as (d & Hd & Hat). rewrite (run_bind _ _ _ _ _ Hat).
  destruct (done d) eqn:Hdd; [|exists C, (env w); split_and!; [done..|lia|done]].
  pose proof (done_written H C (env w) d Hi1 ltac:(lia) Hd Hdd) as HC.
  rewrite !run_modify.
  change (Z.to_nat (C mod N)) with (pos N C).
  pose proof (reclaim_inv H C (env w) (mk_desc (bufferAddr d) (cmdTypeLen d) 0) Hi1 HC) as Hi2. rewrite Hc, (inv_flight _ _ _ Hi1) in Hi2.
  destruct (IH H (C + 1) _ Hi2 ltac:(lia)) as (C' & w' & Hr & Hi' & Hb' & HC' & Hh').
  exists C', w'. split; [exact Hr|]. split_and!; [done|by rewrite Hb'|lia|cbn in Hh'; lia].
Qed.

(** ** The contract *)

Definition others (h : bytes) (U : Z) (w : W) : Prop := forall i b, bufs w !! i = Some b -> i <> pos N U -> h `prefix_of` b.

Definition idle (h : bytes) (sent : list bytes) (w : W) : Prop :=
  exists C, inv sent C w /\ (forall i b, bufs w !! i = Some b -> h `prefix_of` b).

Definition lent (h : bytes) (sent : list bytes) (p : Z) (b : bytes) (w : W) : Prop :=
  exists C, inv sent C w /\ Z.of_nat (length sent) < C + N /\ p = (Z.of_nat (length sent) mod N) * B /\
    armed w (Z.of_nat (length sent)) b /\ others h (Z.of_nat (length sent)) w.

Definition fresh (w : W) : Prop := inv [] 0 w.

Lemma i210_tx_env_idle h sent w : idle h sent w -> idle h sent (env w).
Proof.
  intros (C & Hi & Hp). destruct (i210_tx_nsteps_inv _ _ _ _ (env_ok w) Hi) as (Hi1 & _ & Hb & _). exists C. by rewrite Hb.
Qed.

Lemma i210_tx_env_lent h sent p b w : lent h sent p b w -> lent h sent p b (env w).
Proof.
  intros (C & Hi & HU & Hp & (d & bb & Hd & Hb & Hx) & Ho).
  destruct (i210_tx_nsteps_inv _ _ _ _ (env_ok w) Hi) as (Hi1 & _ & Hb1 & Hh & _ & Hd1).
  exists C. split_and!; [done|done|done| |unfold others; by rewrite Hb1].
  exists d, bb. rewrite Hb1, Hd1; [done|]. destruct (inv_order _ _ _ Hi1) as (_ & ? & _). lia.
Qed.

(** The command word's length field and the cleared DD bit. *)
Lemma command_length len : 0 <= len < 2 ^ 16 -> Z.land (u32 (tx_command len)) 65535 = len.
Proof.
  intros Hl. change 65535 with (Z.ones 16). rewrite Z.land_ones by lia. unfold wrap.
  rewrite Z.mod_mod_divide by (exists (2 ^ 16); done). rewrite <- Z.land_ones by lia. unfold tx_command.
  rewrite Z.land_lor_distr_l. rewrite Z.land_ones by lia. rewrite Z.land_ones by lia. rewrite (Z.mod_small len) by done.
  by vm_compute (_ mod _).
Qed.

Lemma paylen_undone a c len : 0 <= len -> done (mk_desc a c (u32 (Z.shiftl len TXD_PAYLEN_SHIFT))) = false.
Proof.
  intros Hl. unfold done. cbn [olinfoStatus]. change TXD_STAT_DD with (Z.ones 1). rewrite Z.land_ones by lia.
  unfold TXD_PAYLEN_SHIFT, wrap. rewrite Z.shiftl_mul_pow2 by lia. rewrite Z.mod_mod_divide by (exists (2 ^ 31); done).
  replace (len * 2 ^ 14) with (len * 2 ^ 13 * 2 ^ 1) by (change (2 ^ 14) with (2 ^ 13 * 2 ^ 1); lia).
  by rewrite Z_mod_mult.
Qed.

(** Arming the descriptor at the tail. *)
Lemma lend_inv h sent C w len :
  inv sent C w -> (forall i b, bufs w !! i = Some b -> h `prefix_of` b) -> Z.of_nat (length sent) < C + N ->
  Z.of_nat (length h) <= len <= B ->
  let U := Z.of_nat (length sent) in
  exists b, Z.of_nat (length b) = len /\ h `prefix_of` b /\
    lent h sent ((U mod N) * B) b (set_desc (pos N U) (mk_desc (phys (U mod N * B)) (u32 (tx_command len)) (u32 (Z.shiftl len TXD_PAYLEN_SHIFT))) w).
Proof.
  intros Hi Hpre HU Hlen U. pose proof Hi as [Hd Hb Hsz Ht Hc Hf Htd Ho Hdone Hun Har Hw]. pose proof i210_tx_N_pos.
  destruct (lookup_lt_is_Some_2 (bufs w) (pos N U)) as [b Hbu]; [by apply pos_lt; [lia|]|].
  pose proof (proj1 (list.Forall_lookup _ _) Hsz _ _ Hbu) as Hbl. cbn in Hbl.
  exists (take (Z.to_nat len) b). split_and!.
  - rewrite length_take. lia.
  - apply prefix_take_le; [by eapply Hpre|lia].
  - exists C. split_and!; [|done|done| |].
    + constructor; cbn; rewrite ?length_insert; try done.
      * apply window_insert_out; [lia|intros; lia|done].
      * apply window_insert_out; [lia|intros; lia|done].
      * intros j f Hj Hf'. apply lookup_lt_Some in Hf' as Hl. apply (armed_other_desc w); [by apply Har|]. apply pos_ne; lia.
    + eexists _, b. cbn. split; [apply list_lookup_insert_eq; apply pos_lt; [lia|done]|]. split; [done|].
      split; [apply prefix_take|]. cbn [bufferAddr cmdTypeLen]. split_and!.
      * rewrite bus; [done|]. fold U. pose proof (Z.mod_pos_bound U N ltac:(lia)). nia.
      * rewrite command_length by lia. rewrite length_take. lia.
      * apply paylen_undone. lia.
    + intros i b' Hb' _. by eapply Hpre.
Qed.

Lemma i210_tx_acquire_run h sent len w :
  idle h sent w -> Z.of_nat (length h) <= len <= B ->
  match acquire N B phys env len w with
  | (Done None, w') => idle h sent w'
  | (Done (Some p), w') => exists b, Z.of_nat (length b) = len /\ h `prefix_of` b /\ lent h sent p b w'
  | _ => False
  end.
Proof.
  intros Hid Hlen. apply i210_tx_env_idle in Hid as (C & Hi & Hpre). unfold acquire.
  rewrite run_modify. revert Hi Hpre. generalize (env w). clear w. intros w Hi Hpre.
  rewrite run_gets.
  assert (exists C' w', (if N <=? m_txInFlight (obj w) then txReclaim N env (Z.to_nat (m_txInFlight (obj w))) else mret tt) w = (Done tt, w') /\
    inv sent C' w' /\ bufs w' = bufs w) as (C' & w' & Hr & Hi' & Hb').
  { destruct (N <=? m_txInFlight (obj w)); [|by exists C, w].
    pose proof (inv_flight _ _ _ Hi) as Hf. pose proof (inv_order _ _ _ Hi).
    destruct (txReclaim_run (Z.to_nat (m_txInFlight (obj w))) sent C w Hi) as (C' & w' & Hr & Hi' & Hb' & _); [lia|].
    by exists C', w'. }
  rewrite (run_bind _ _ _ _ _ Hr). rewrite run_gets.
  rewrite <- Hb' in Hpre. pose proof (inv_flight _ _ _ Hi') as Hf. destruct (Z.leb_spec N (m_txInFlight (obj w'))) as [Hfull|Hroom].
  { by exists C'. }
  rewrite (inv_tail _ _ _ Hi'). destruct (desc_at_pos (Z.of_nat (length sent)) w' (inv_descs _ _ _ Hi')) as (d & _ & Hat).
  rewrite (run_bind _ _ _ _ _ Hat). rewrite run_modify. cbn [mret M_ret].
  rewrite pos_self. apply (lend_inv h sent C' w' len); [done|done|lia|done].
Qed.

(** Writing into a buffer the NIC does not read. *)
Lemma i210_tx_write_run h sent p b b' off src w :
  lent h sent p b w -> src <> [] -> store off src b = Some b' ->
  exists w', write B env (p + Z.of_nat off) src w = (Done tt, w') /\ lent h sent p b' w'.
Proof.
  intros Hl Hsrc Hst. apply i210_tx_env_lent in Hl. unfold write. rewrite run_modify, run_get. revert Hl. generalize (env w). clear w.
  intros w (C & Hi & HU & Hp & (d & bb & Hd & Hb & Hpre & Hv & Hlen & Hdd) & Ho).
  pose proof (proj1 (list.Forall_lookup _ _) (inv_size _ _ _ Hi) _ _ Hb) as Hbl. cbn in Hbl.
  assert (off + length src <= length b)%nat as Hfit by (unfold store in Hst; case_decide; [done|by destruct (store off src b)]).
  pose proof (prefix_length _ _ Hpre). assert (0 < length src)%nat by (destruct src; [done|cbn; lia]).
  set (U := Z.of_nat (length sent)) in *.
  assert ((p + Z.of_nat off) / B = U mod N /\ (p + Z.of_nat off) mod B = Z.of_nat off) as [-> ->].
  { rewrite Hp, (Z.add_comm (_ * B)). split.
    - rewrite Z.div_add, (Z.div_small (Z.of_nat off)) by lia. lia.
    - rewrite Z_mod_plus_full. apply Z.mod_small. lia. }
  change (Z.to_nat (U mod N)) with (pos N U). rewrite Hb, Nat2Z.id.
  destruct (store_prefix _ _ _ _ _ Hst Hpre) as (l' & Hst' & Hpre' & Hll). rewrite Hst'.
  eexists. split; [done|]. pose proof (length_store _ _ _ _ Hst) as Hlb.
  destruct Hi as [Hds Hbs Hsz Ht Hc Hf Htd Hor Hdone Hun Har Hw].
  exists C. split_and!; [|done|done| |].
  - constructor; cbn; rewrite ?length_insert; try done.
    + apply Forall_insert; [done|]. lia.
    + intros j f Hj Hf'. apply lookup_lt_Some in Hf' as Hlt. destruct (Har j f Hj Hf') as (d' & b2 & Hd' & Hb2 & Hx).
      exists d', b2. cbn. rewrite list_lookup_insert_ne; [done|]. apply pos_ne; lia.
  - exists d, l'. cbn. split; [done|]. split; [apply list_lookup_insert_eq; by eapply lookup_lt_Some|].
    split_and!; [done|done|by rewrite Hlb|done].
  - intros i b2 Hb2 Hne. cbn in Hb2. rewrite list_lookup_insert_ne in Hb2 by done. by eapply Ho.
Qed.

Lemma i210_tx_commit_run h sent p b w :
  lent h sent p b w -> h `prefix_of` b -> exists w', commit N env w = (Done tt, w') /\ idle h (sent ++ [b]) w'.
Proof.
  intros Hl Hpre. apply i210_tx_env_lent in Hl. unfold commit. rewrite run_modify. revert Hl. generalize (env w). clear w.
  intros w (C & Hi & HU & Hp & Harm & Ho). rewrite run_gets, run_modify. eexists. split; [done|].
  pose proof Harm as (d & bb & Hd & Hb & Hpb & _ & _ & Hdd).
  destruct Hi as [Hds Hbs Hsz Ht Hc Hf Htd Hor Hdone Hun Har Hw]. pose proof i210_tx_N_pos.
  exists C. split.
  - constructor; cbn; rewrite ?length_app; cbn [length]; try done; try lia.
    + rewrite Ht, mask_next. f_equal. lia.
    + rewrite Ht, mask_next. rewrite wrap_small; [f_equal; lia|].
      pose proof (Z.mod_pos_bound (Z.of_nat (length sent) + 1) N ltac:(lia)). unfold in_u. change (2 ^ 32) with 4294967296. change (2 ^ 16) with 65536 in Nmin. lia.
    + intros j f Hj Hf'. destruct (decide (j = Z.of_nat (length sent))) as [->|Hne].
      * rewrite Nat2Z.id, lookup_app_r, Nat.sub_diag in Hf' by lia. injection Hf' as <-. exact Harm.
      * apply Har; [done|]. apply lookup_lt_Some in Hf' as Hlt. rewrite length_app in Hlt. cbn in Hlt.
        by rewrite lookup_app_l in Hf' by lia.
    + rewrite take_app_le by lia. done.
  - intros i b2 Hb2. cbn in Hb2. destruct (decide (i = pos N (Z.of_nat (length sent)))) as [->|Hne]; [|by eapply Ho].
    simplify_eq. by etrans.
Qed.

Lemma i210_tx_prefill_run t m : forall i w,
  inv [] 0 w -> Z.of_nat (length t) <= B -> Z.of_nat i + Z.of_nat m = N ->
  (forall j b, (j < i)%nat -> bufs w !! j = Some b -> t `prefix_of` b) ->
  exists w', prefill_from B env m (Z.of_nat i) t w = (Done tt, w') /\ idle t [] w'.
Proof.
  induction m as [|m IH]; intros i w Hi Ht Hm Hst.
  { exists w. split; [done|]. exists 0. split; [done|]. intros j b Hj. eapply Hst; [|done].
    apply lookup_lt_Some in Hj. pose proof (inv_bufs _ _ _ Hi). lia. }
  cbn [prefill_from]. destruct (i210_tx_nsteps_inv _ _ _ _ (env_ok w) Hi) as (Hi1 & _ & Hb1 & _).
  rewrite <- Hb1 in Hst. unfold write at 1. unfold mbind at 1, M_bind at 1. rewrite run_modify, run_get.
  assert (Z.of_nat i * B / B = Z.of_nat i /\ (Z.of_nat i * B) mod B = 0) as [-> ->]
    by (rewrite Z.div_mul, Z_mod_mult by lia; done).
  rewrite Nat2Z.id. destruct (lookup_lt_is_Some_2 (bufs (env w)) i) as [b Hb]; [pose proof (inv_bufs _ _ _ Hi1); lia|].
  rewrite Hb. pose proof (proj1 (list.Forall_lookup _ _) (inv_size _ _ _ Hi1) _ _ Hb) as Hbl. cbn in Hbl.
  rewrite store_Some by (cbn; lia). replace (Z.of_nat i + 1) with (Z.of_nat (S i)) by lia. unfold modify.
  destruct Hi1 as [Hds Hbs Hsz Htl Hc Hf Htd Hor Hdone Hun Har Hw]. apply IH; try done; try lia.
  - constructor; cbn; rewrite ?length_insert; try done. apply Forall_insert; [done|]. by rewrite length_inserts.
  - intros j b' Hj Hb'. cbn in Hb'. apply list_lookup_insert_Some in Hb' as [(<- & <- & _)|[Hne Hb']].
    + rewrite inserts_split by (cbn; lia). cbn. rewrite take_0. by eexists.
    + eapply Hst; [|done]. lia.
Qed.

#[export] Program Instance I210_TxContract : @TxContract W (I210_TxRing N B phys env) := {|
  tx_fresh := fresh; tx_idle := idle; tx_lent := lent; tx_room := B |}.
Next Obligation. intros h h' sent w (C & Hi & Hp) Hpre. exists C. split; [done|]. intros i b Hb. etrans; [done|]. by eapply Hp. Qed.
Next Obligation.
  intros t w Hw Ht. apply (i210_tx_prefill_run t (Z.to_nat N) 0 w Hw Ht); [lia|]. intros j b Hj. lia.
Qed.
Next Obligation. intros h sent n w Hid Hn. by apply i210_tx_acquire_run. Qed.
Next Obligation. intros. by eapply i210_tx_write_run. Qed.
Next Obligation. intros h sent p b w Hl Hpre. cbn. by destruct (i210_tx_commit_run h sent p b w Hl Hpre) as (w' & -> & Hid). Qed.

#[export] Instance I210_SendsByCopy : @SendsByCopy W (I210_TxRing N B phys env) I210_TxContract.
Proof. constructor. done. Qed.

Lemma commit_never_loops sent p b (w : W) : lent [] sent p b w -> fst (commit N env w) <> NoFuel.
Proof. done. Qed.

Lemma send_all_inv fs oks (w w' : W) :
  fresh w -> Forall (fun f => f <> [] /\ Z.of_nat (length f) <= B) fs ->
  @tx_send_all _ (I210_TxRing N B phys env) fs w = (Done oks, w') -> exists C, inv (accepted fs oks) C w'.
Proof.
  intros Hw Hfs Hr. destruct (send_all_spec (H0 := I210_TxContract) ltac:(cbn; lia) commit_never_loops fs [] w Hfs) as (oks' & w2 & Hr' & _ & C & Hi & _).
  { exists 0. split; [exact Hw|]. intros. apply prefix_nil. }
  rewrite Hr in Hr'. injection Hr' as <- <-. by exists C.
Qed.

(** Every descriptor committed and none sent: the tail register has come round to the
    NIC's head, which the NIC reads as an empty ring. *)
Definition stalled (w : W) : Prop := exists H C, inv H C w /\ Z.of_nat (length H) = n_head w + N.

Lemma stalled_steps w w' : stalled w -> rtc nstep w w' -> stalled w' /\ wire w' = wire w.
Proof.
  intros Hst Hr. induction Hr as [w|w w1 w2 H1 _ IH]; [done|].
  assert (stalled w1 /\ wire w1 = wire w) as [Hst1 Hw1]; [|destruct (IH Hst1) as [? ?]; split; [done|congruence]].
  destruct Hst as (H & C & Hi & Hf). destruct (i210_tx_nstep_inv _ _ _ _ H1 Hi) as (Hi1 & _).
  destruct H1 as [w d Hne Hl|w d Hlt Hdd|w e]; cbn in *.
  - destruct Hne. rewrite (inv_tdt _ _ _ Hi), Hf. replace (n_head w + N) with (n_head w + 1 * N) by lia. by rewrite Z_mod_plus_full.
  - exfalso. destruct (inv_order _ _ _ Hi) as (? & ? & ?). cbn in *. lia.
  - split; [|done]. by exists H, C.
Qed.

Lemma reclaim_stalled n w : stalled w -> txReclaim N env (S n) w = (Done tt, env w).
Proof.
  intros Hst. destruct (stalled_steps _ _ Hst (env_ok w)) as [(H & C & Hi & Hf) _]. pose proof Hst as (H0 & C0 & Hi0 & Hf0).
  pose proof (inv_order _ _ _ Hi0). cbn [txReclaim]. rewrite run_gets, (inv_flight _ _ _ Hi0), (proj2 (Z.leb_gt _ _)), run_modify by lia.
  destruct (i210_tx_nsteps_inv _ _ _ _ (env_ok w) Hi0) as (_ & Ho & _). rewrite <- Ho, (inv_clean _ _ _ Hi).
  destruct (desc_at_pos C (env w) (inv_descs _ _ _ Hi)) as (d & Hd & Hat). rewrite (run_bind _ _ _ _ _ Hat).
  destruct (done d) eqn:Hdd; [|done]. exfalso. pose proof (inv_order _ _ _ Hi).
  pose proof (done_written H C (env w) d Hi ltac:(lia) Hd Hdd). lia.
Qed.

(** From then on every [acquire] refuses and nothing reaches the wire. *)
Lemma acquire_stalled len w : stalled w -> exists w', acquire N B phys env len w = (Done None, w') /\ stalled w' /\ wire w' = wire w.
Proof.
  intros Hst. destruct (stalled_steps _ _ Hst (env_ok w)) as [Hst1 Hw1]. unfold acquire. rewrite run_modify.
  destruct (stalled_steps _ _ Hst1 (env_ok _)) as [Hst2 Hw2]. rewrite <- Hw1, <- Hw2.
  clear Hst Hw1 Hw2. revert Hst1 Hst2. generalize (env w). clear w. intros w Hst Hst2.
  pose proof Hst as (H & C & Hi & Hf). rewrite run_gets. pose proof (inv_flight _ _ _ Hi) as Hfl.
  pose proof (inv_order _ _ _ Hi) as Ho. rewrite (proj2 (Z.leb_le _ _)) by lia.
  replace (Z.to_nat (m_txInFlight (obj w))) with (S (Z.to_nat (m_txInFlight (obj w) - 1))) by lia.
  rewrite (run_bind _ _ _ _ _ (reclaim_stalled _ w Hst)), run_gets.
  destruct Hst2 as (H2 & C2 & Hi2 & Hf2). pose proof (inv_order _ _ _ Hi2).
  rewrite (inv_flight _ _ _ Hi2), (proj2 (Z.leb_le _ _)) by lia. exists (env w). split; [done|]. split; [by exists H2, C2|done].
Qed.
End Properties.

(** C6: Frames sent through the I210 leave in the order in which [send] accepted them, each
    once and with its bytes unchanged: after a prefill and any list of sends, at any later
    moment the frames on the wire are the first [n_head] accepted frames. *)
Theorem i210_tx_fifo {E} N B phys virt (env : world E -> world E) t fs w :
  is_pow2 N -> 8 <= N < 2 ^ 16 -> 0 < B < 2 ^ 16 -> (forall a, 0 <= a < N * B -> virt (phys a) = a) ->
  (forall w, rtc (nstep N B virt) w (env w)) -> fresh N B virt w -> Z.of_nat (length t) <= B ->
  Forall (fun f => f <> [] /\ Z.of_nat (length f) <= B) fs ->
  exists oks w', (prefillRing N B env t ;; @tx_send_all _ (I210_TxRing N B phys env) fs) w = (Done oks, w') /\
    length oks = length fs /\ m_txInFlight (obj w') <= N /\
    forall w'', rtc (nstep N B virt) w' w'' ->
      wire w'' = take (Z.to_nat (n_head w'')) (accepted fs oks) /\ 0 <= n_head w'' <= Z.of_nat (length (accepted fs oks)).
Proof.
  intros HN HN8 HB Hbus Henv Hf Ht Hfs.
  destruct (prefill_send_spec (H0 := I210_TxContract N B phys virt env HN HN8 HB Hbus Henv)
    (SendsByCopy0 := I210_SendsByCopy N B phys virt env HN HN8 HB Hbus Henv) ltac:(cbn; lia) (commit_never_loops N B virt env) t fs w Hf Ht Hfs)
    as (oks & w' & Hr & Hl & C & Hi & _).
  exists oks, w'. split; [exact Hr|]. split; [done|]. split.
  { rewrite (inv_flight _ _ _ _ _ _ Hi). destruct (inv_order _ _ _ _ _ _ Hi) as (_ & _ & ?). lia. }
  intros w'' Hs. destruct (i210_tx_nsteps_inv N B virt HN8 HB _ _ _ _ Hs Hi) as (Hi' & _).
  split; [apply (inv_wire _ _ _ _ _ _ Hi')|]. destruct (inv_order _ _ _ _ _ _ Hi') as (? & ? & _). lia.
Qed.

(** C38: A full ring stops for good: [acquire] admits N frames in flight, and once N frames
    are committed that the NIC has not started on, the tail register equals the head, so the
    NIC takes the ring for empty: it never sends another frame and every later [send]
    fails, whatever happens. *)
Theorem i210_full_ring_stalls {E} N B phys virt (env : world E -> world E) H C w :
  is_pow2 N -> 8 <= N < 2 ^ 16 -> 0 < B < 2 ^ 16 ->
  (forall w, rtc (nstep N B virt) w (env w)) -> inv N B virt H C w -> Z.of_nat (length H) = n_head w + N ->
  tdt w = n_head w mod N /\
  forall w', rtc (nstep N B virt) w w' -> wire w' = wire w /\
    forall fs, exists w'', @tx_send_all _ (I210_TxRing N B phys env) fs w' = (Done (replicate (length fs) false), w'') /\
      wire w'' = wire w.
Proof.
  intros HN HN8 HB Henv Hi Hf. split.
  { rewrite (inv_tdt _ _ _ _ _ _ Hi), Hf. replace (n_head w + N) with (n_head w + 1 * N) by lia. apply Z_mod_plus_full. }
  intros w' Hr. assert (stalled N B virt w) as Hst by (by exists H, C).
  destruct (stalled_steps N B virt HN8 HB w w' Hst Hr) as [Hst' Hw']. split; [done|].
  intros fs. rewrite <- Hw'. clear w Hi Hf Hr Hst Hw'. revert w' Hst'.
  induction fs as [|f fs IH]; intros w Hst; [by exists w|]. cbn [tx_send_all].
  destruct (acquire_stalled N B phys virt env HN8 HB Henv (u32 (Z.of_nat (length f))) w Hst) as (w1 & Ha & Hst1 & Hw1).
  assert (@tx_send _ (I210_TxRing N B phys env) f w = (Done false, w1)) as Hs
    by (cbn [tx_send I210_TxRing]; unfold send; by rewrite (run_bind _ _ _ _ _ Ha)).
  rewrite (run_bind (@tx_send _ (I210_TxRing N B phys env) f) _ _ _ _ Hs). destruct (IH w1 Hst1) as (w2 & Hr2 & Hw2). rewrite (run_bind _ _ _ _ _ Hr2).
  exists w2. split; [done|congruence].
Qed.

(** ** A simulated NIC: eight descriptors of 256 bytes on an identity-mapped bus. *)
Definition sim_send (w : world unit) : world unit :=
  match descs w !! pos 8 (n_head w) with
  | Some d => if decide (n_head w mod 8 = tdt w) then w
              else mk_world (obj w) (descs w) (bufs w) (tdt w) (n_head w + 1) (n_done w) (wire w ++ [dma_frame 256 id d (bufs w)]) (ext w)
  | None => w
  end.
Definition sim_writeback (w : world unit) : world unit :=
  if decide (n_done w < n_head w)
  then mk_world (obj w) (<[pos 8 (n_done w) := mk_desc 0 0 1]> (descs w)) (bufs w) (tdt w) (n_head w) (n_done w + 1) (wire w) (ext w)
  else w.
Definition sim_nic (w : world unit) : world unit := sim_writeback (sim_send w).

Lemma sim_nic_ok w : rtc (nstep 8 256 id) w (sim_nic w).
Proof.
  etrans; [|instantiate (1 := sim_send w)].
  - unfold sim_send. destruct (descs w !! pos 8 (n_head w)) as [d|] eqn:Hd; [|done]. case_decide; [done|].
    apply rtc_once. by eapply n_send.
  - unfold sim_nic, sim_writeback. case_decide; [|done]. apply rtc_once. by apply n_writeback.
Qed.

Definition sim_start : world unit :=
  mk_world (mk_I210 0 0 0 0 0 []) (replicate 8 (mk_desc 0 0 0)) (replicate 8 (replicate 256 0)) 0 0 0 [] tt.

Lemma i210_tx_sim_fresh : fresh 8 256 id sim_start.
Proof.
  constructor; try done; try (by apply window_empty). by repeat (apply list.Forall_cons; split; [done|]).
Qed.

Definition sim_frames (n : nat) : list bytes := (fun i => [Z.of_nat i; 7]) <$> List.seq 0 n.

Lemma i210_tx_sim_pow2 : is_pow2 8.
Proof. exists 3. split; [lia|done]. Qed.

Lemma sim_N : 8 <= 8 < 2 ^ 16.
Proof. done. Qed.
Lemma sim_B : 0 < 256 < 2 ^ 16.
Proof. done. Qed.
Lemma sim_bus a : 0 <= a < 8 * 256 -> id (id a) = a.
Proof. done. Qed.
Lemma sim_idle_ok (w : world unit) : rtc (nstep 8 256 id) w (id w).
Proof. apply rtc_refl. Qed.

Lemma sim_frames_ok n : Forall (fun f : bytes => f <> [] /\ Z.of_nat (length f) <= 256) (sim_frames n).
Proof. unfold sim_frames. apply Forall_fmap, Forall_true. intros i. split; [done|cbn; lia]. Qed.

Lemma i210_tx_fifo_witness :
  exists w', (prefillRing 8 256 sim_nic [9] ;; @tx_send_all _ (I210_TxRing 8 256 id sim_nic) (sim_frames 20)) sim_start
    = (Done (replicate 20 true), w') /\ m_txInFlight (obj w') <= 8 /\ wire w' = take (Z.to_nat (n_head w')) (sim_frames 20).
Proof.
  destruct (i210_tx_fifo 8 256 id id sim_nic [9] (sim_frames 20) sim_start i210_tx_sim_pow2 sim_N sim_B sim_bus
    sim_nic_ok i210_tx_sim_fresh ltac:(done) (sim_frames_ok 20)) as (oks & w' & Hr & Hl & Hf & Hw).
  assert (oks = replicate 20 true) as ->.
  { assert (fst ((prefillRing 8 256 sim_nic [9] ;; @tx_send_all _ (I210_TxRing 8 256 id sim_nic) (sim_frames 20)) sim_start)
      = Done (replicate 20 true)) as Hc by (vm_compute; reflexivity). rewrite Hr in Hc. by injection Hc. }
  exists w'. split; [exact Hr|]. split; [exact Hf|]. exact (proj1 (Hw w' (rtc_refl _ _))).
Defined.

(** The NIC does not run (link down) while eight frames are sent. *)
Definition sim_full : outcome (list bool) * world unit := @tx_send_all _ (I210_TxRing 8 256 id id) (sim_frames 8) sim_start.

Lemma sim_full_done : fst sim_full = Done (replicate 8 true).
Proof. vm_compute. reflexivity. Qed.

Lemma sim_full_head : Z.of_nat (length (sim_frames 8)) = n_head (snd sim_full) + 8.
Proof. vm_compute. reflexivity. Qed.

Lemma sim_full_idle : n_head (snd sim_full) mod 8 = 0.
Proof. vm_compute. reflexivity. Qed.

Lemma sim_full_wire : wire (snd sim_full) = [].
Proof. vm_compute. reflexivity. Qed.

Lemma sim_accepted : accepted (sim_frames 8) (replicate 8 true) = sim_frames 8.
Proof. reflexivity. Qed.

Lemma sim_full_inv : exists C, inv 8 256 id (sim_frames 8) C (snd sim_full).
Proof.
  pose proof (surjective_pairing sim_full) as He. rewrite sim_full_done in He.
  rewrite <- sim_accepted. revert He. unfold sim_full at 1. generalize (snd sim_full). intros w' He.
  eapply (send_all_inv 8 256 id id id i210_tx_sim_pow2 sim_N sim_B sim_bus sim_idle_ok); [exact i210_tx_sim_fresh|apply sim_frames_ok|exact He].
Qed.

Lemma i210_full_ring_stalls_witness :
  exists C, inv 8 256 id (sim_frames 8) C (snd sim_full) /\ tdt (snd sim_full) = 0 /\
    exists w'', @tx_send_all _ (I210_TxRing 8 256 id sim_nic) (sim_frames 2) (snd sim_full) = (Done [false; false], w'') /\ wire w'' = [].
Proof.
  destruct sim_full_inv as [C Hi]. exists C. split; [exact Hi|].
  destruct (i210_full_ring_stalls 8 256 id id sim_nic _ _ _ i210_tx_sim_pow2 sim_N sim_B sim_nic_ok Hi sim_full_head) as [Ht Hs].
  destruct (Hs _ (rtc_refl _ _)) as [_ Hsend]. destruct (Hsend (sim_frames 2)) as (w'' & E1 & E2).
  split; [rewrite Ht; exact sim_full_idle|]. exists w''. split; [exact E1|]. rewrite E2. exact sim_full_wire.
Defined.
End Tx.

(** ** Receive *)
Module Rx.

(** [union RxDescriptor]: two 64-bit words; written back, the upper one holds
    [statusError], [length] and [vlan]. *)
Record RxDescriptor := mk_desc { pktAddr : Z; hdrAddr : Z }.
Definition statusError (d : RxDescriptor) : Z := Z.land (hdrAddr d) 4294967295.
Definition wb_length (d : RxDescriptor) : Z := Z.land (Z.shiftr (hdrAddr d) 32) 65535.
Definition done (d : RxDescriptor) : bool := negb (Z.land (statusError d) RXD_STAT_DD =? 0).

(** The driver, its ring and buffers, the tail register, and the frames the NIC wrote. *)
Record world (E : Type) := mk_world {
  obj : Intel_I210; descs : list RxDescriptor; bufs : list bytes; rdt : Z; arrived : list bytes; ext : E }.
Arguments mk_world {E}.
Arguments obj {E}.
Arguments descs {E}.
Arguments bufs {E}.
Arguments rdt {E}.
Arguments arrived {E}.
Arguments ext {E}.

Section Operations.
Context (NumRxDesc BuffSize : Z) (phys virt : Z -> Z).
Context {E : Type} (env : world E -> world E).
Abbreviation W := (world E).

Definition RX_RING_MASK : Z := NumRxDesc - 1.

Definition set_obj (o : Intel_I210) (w : W) : W := mk_world o (descs w) (bufs w) (rdt w) (arrived w) (ext w).
Definition set_desc (i : nat) (d : RxDescriptor) (w : W) : W :=
  mk_world (obj w) (<[i := d]> (descs w)) (bufs w) (rdt w) (arrived w) (ext w).
Definition set_rdt (t : Z) (w : W) : W := mk_world (obj w) (descs w) (bufs w) t (arrived w) (ext w).

Definition desc_at (i : Z) : M W RxDescriptor :=
  fun w => match descs w !! Z.to_nat i with Some d => (Done d, w) | None => (Undef, w) end.

(** The bytes of a span into buffer [i]. *)
Definition frame_at (i len : Z) : M W bytes :=
  fun w => match bufs w !! Z.to_nat i with
           | Some b => match load 0 (Z.to_nat len) b with Some f => (Done f, w) | None => (Undef, w) end
           | None => (Undef, w)
           end.

(** [tryReceive] *)
Definition tryReceive : M W bytes :=
  modify env ;;
  o ← gets obj;
  d ← desc_at (m_rxTail o);
  if negb (done d) then mret [] else
  modify env ;;
  d ← desc_at (m_rxTail o);
  frame_at (m_rxTail o) (wb_length d).

(** [release] *)
Definition release : M W unit :=
  modify env ;;
  o ← gets obj;
  _ ← desc_at (m_rxTail o);
  modify (set_desc (Z.to_nat (m_rxTail o)) (mk_desc (phys (m_rxTail o * BuffSize)) 0)) ;;
  let tail := Z.land (m_rxTail o + 1) RX_RING_MASK in
  let held := u32 (m_rxHeld o + 1) in
  if RX_FREE_THRESH <=? held then
    modify (set_rdt (u32 (Z.land (u64 (tail - 1)) RX_RING_MASK))) ;; modify (set_obj (set_rx tail 0 o))
  else modify (set_obj (set_rx tail held o)).

#[export] Instance I210_RxRing : RxRing W := {| rx_tryReceive := tryReceive; rx_release := release |}.

(** What the NIC does: write the next frame through the descriptor at its head while head
    and tail differ and write the descriptor back, or something unrelated. *)
Inductive nstep : W -> W -> Prop :=
  | n_deliver w d f b d' :
      Z.of_nat (length (arrived w)) mod NumRxDesc <> rdt w ->
      descs w !! pos NumRxDesc (Z.of_nat (length (arrived w))) = Some d ->
      bufs w !! Z.to_nat (virt (pktAddr d) / BuffSize) = Some b ->
      virt (pktAddr d) mod BuffSize = 0 -> f <> [] -> is_bytes f -> Z.of_nat (length f) <= BuffSize ->
      done d' = true -> wb_length d' = Z.of_nat (length f) ->
      nstep w (mk_world (obj w) (<[pos NumRxDesc (Z.of_nat (length (arrived w))) := d']> (descs w))
        (<[Z.to_nat (virt (pktAddr d) / BuffSize) := list_inserts 0 f b]> (bufs w)) (rdt w) (arrived w ++ [f]) (ext w))
  | n_other w e : nstep w (mk_world (obj w) (descs w) (bufs w) (rdt w) (arrived w) e).
End Operations.

Section Properties.
Context (N B : Z) (phys virt : Z -> Z) {E : Type} (env : world E -> world E).
Abbreviation W := (world E).
Abbreviation nstep := (nstep N B virt).
Implicit Types (w : W).
Context (Npow : is_pow2 N) (Nmin : 8 <= N < 2 ^ 16) (Bok : 0 < B < 2 ^ 16)
  (bus : forall a, 0 <= a < N * B -> virt (phys a) = a)
  (env_ok : forall w : W, rtc nstep w (env w)).

(** The frame at position [j] is in its buffer and its descriptor says so. *)
Definition holds (w : W) (j : Z) (f : bytes) : Prop :=
  exists d b, descs w !! pos N j = Some d /\ bufs w !! pos N j = Some b /\ done d = true /\
    wb_length d = Z.of_nat (length f) /\ f `prefix_of` b.

(** The descriptor at position [j] is the NIC's to fill. *)
Definition empty_at (w : W) (j : Z) : Prop :=
  exists d, descs w !! pos N j = Some d /\ done d = false /\ virt (pktAddr d) = (j mod N) * B.

(** [T] frames were released, [F] of them at the last write of the tail register. *)
Record inv (T F : Z) (w : W) : Prop := {
  inv_descs : Z.of_nat (length (descs w)) = N;
  inv_bufs : Z.of_nat (length (bufs w)) = N;
  inv_size : Forall (fun b => Z.of_nat (length b) = B) (bufs w);
  inv_tail : m_rxTail (obj w) = T mod N;
  inv_held : m_rxHeld (obj w) = T - F;
  inv_rdt : rdt w = (F - 1) mod N;
  inv_order : 0 <= F <= T /\ T < F + RX_FREE_THRESH /\ T <= Z.of_nat (length (arrived w)) <= F + N - 1;
  inv_full : forall j f, T <= j -> arrived w !! Z.to_nat j = Some f -> holds w j f;
  inv_free : forall j, Z.of_nat (length (arrived w)) <= j < T + N -> empty_at w j;
  inv_bytes : Forall is_bytes (arrived w);
  inv_nonempty : Forall (fun f => f <> []) (arrived w);
  inv_small : N <= RX_FREE_THRESH -> F = 0;
}.

Lemma i210_rx_N_pos : 0 < N.
Proof. lia. Qed.

Lemma i210_rx_nstep_inv T F w w' :
  nstep w w' -> inv T F w ->
  inv T F w' /\ obj w' = obj w /\ arrived w `prefix_of` arrived w' /\
  (forall j f, T <= j -> arrived w !! Z.to_nat j = Some f -> descs w' !! pos N j = descs w !! pos N j).
Proof.
  intros Hs Hi. pose proof Hi as [Hd Hb Hsz Ht Hh Hr Ho Hfull Hfree Hby Hne Hsm]. pose proof i210_rx_N_pos.
  destruct Hs as [w d f b d' Hgo Hl Hbu Hoff Hnf Hbf Hlf Hdd Hwl|w e]; [|by split; [|cbn; split_and!]].
  set (R := Z.of_nat (length (arrived w))) in *. unfold RX_FREE_THRESH in *.
  assert (R < F + N - 1) as HR.
  { rewrite Hr in Hgo. destruct (decide (R = F + N - 1)) as [He|]; [|lia]. destruct Hgo. rewrite He.
    replace (F + N - 1) with (F - 1 + 1 * N) by lia. apply Z_mod_plus_full. }
  destruct (Hfree R ltac:(lia)) as (d0 & Hd0 & _ & Hv). simplify_eq.
  assert (Z.to_nat (virt (pktAddr d) / B) = pos N R) as Hp by (rewrite Hv, Z.div_mul by lia; done). rewrite Hp in *.
  split; [|cbn; split; [done|split]].
  - assert (Z.of_nat (length (arrived w ++ [f])) = R + 1) as Hlen by (rewrite length_app; cbn; lia).
    constructor; unfold RX_FREE_THRESH; cbn [descs bufs rdt arrived obj]; rewrite ?length_insert, ?Hlen; try done; try lia.
    + apply Forall_insert; [done|]. rewrite length_inserts. exact (proj1 (list.Forall_lookup _ _) Hsz _ _ Hbu).
    + intros j g Hj Hg. destruct (decide (j = R)) as [->|Hjne].
      * unfold R in Hg. rewrite Nat2Z.id, lookup_app_r, Nat.sub_diag in Hg by lia. injection Hg as <-.
        pose proof (proj1 (list.Forall_lookup _ _) Hsz _ _ Hbu) as Hbl. cbn in Hbl.
        exists d', (list_inserts 0 f b). cbn. rewrite !list_lookup_insert_eq by (eapply lookup_lt_Some; done).
        split_and!; try done. rewrite inserts_split by (cbn; lia). cbn. rewrite take_0. by eexists.
      * assert (j < R) by (apply lookup_lt_Some in Hg; rewrite length_app in Hg; cbn in Hg; lia).
        rewrite lookup_app_l in Hg by lia. destruct (Hfull j g Hj Hg) as (d1 & b1 & H1 & H2 & H3).
        exists d1, b1. cbn. rewrite !list_lookup_insert_ne by (apply pos_ne; lia). done.
    + intros j Hj. destruct (Hfree j ltac:(lia)) as (d1 & H1 & H2). exists d1. cbn.
      rewrite list_lookup_insert_ne by (apply pos_ne; lia). done.
    + apply Forall_app. split; [done|]. by apply Forall_singleton.
    + apply Forall_app. split; [done|]. by apply Forall_singleton.
  - by eexists.
  - intros j g Hj Hg. rewrite list_lookup_insert_ne; [done|]. apply lookup_lt_Some in Hg. apply pos_ne; lia.
Qed.

Lemma i210_rx_nsteps_inv T F w w' :
  rtc nstep w w' -> inv T F w -> inv T F w' /\ obj w' = obj w /\ arrived w `prefix_of` arrived w'.
Proof.
  intros Hr. induction Hr as [w|w w1 w2 H1 _ IH]; intros Hi; [done|].
  destruct (i210_rx_nstep_inv _ _ _ _ H1 Hi) as (Hi1 & Ho1 & Ha1 & _). destruct (IH Hi1) as (Hi2 & Ho2 & Ha2).
  split_and!; [done|congruence|by etrans].
Qed.

Lemma desc_at_tail j w :
  Z.of_nat (length (descs w)) = N -> exists d, descs w !! pos N j = Some d /\ desc_at (j mod N) w = (Done d, w).
Proof.
  intros Hl. destruct (lookup_lt_is_Some_2 (descs w) (pos N j)) as [d Hd].
  { pose proof (Z.mod_pos_bound j N i210_rx_N_pos). unfold pos. lia. }
  exists d. split; [done|]. unfold desc_at. by rewrite <- (eq_refl : pos N j = Z.to_nat (j mod N)), Hd.
Qed.

Definition idle (seen : list bytes) (w : W) : Prop := exists T F, inv T F w /\ seen = take (Z.to_nat T) (arrived w).
Definition held (seen : list bytes) (f : bytes) (w : W) : Prop :=
  exists T F, inv T F w /\ seen = take (Z.to_nat T) (arrived w) /\ arrived w !! Z.to_nat T = Some f.
Definition fresh (w : W) : Prop := inv 0 0 w /\ arrived w = [].

Lemma take_arrived T (w w' : W) :
  0 <= T <= Z.of_nat (length (arrived w)) -> arrived w `prefix_of` arrived w' ->
  take (Z.to_nat T) (arrived w') = take (Z.to_nat T) (arrived w).
Proof. intros ? [k ->]. rewrite take_app_le by lia. done. Qed.

Lemma i210_rx_env_idle seen w : idle seen w -> idle seen (env w).
Proof.
  intros (T & F & Hi & ->). destruct (i210_rx_nsteps_inv _ _ _ _ (env_ok w) Hi) as (Hi' & _ & Hp).
  exists T, F. split; [done|]. symmetry. apply take_arrived; [|done]. destruct (inv_order _ _ _ Hi) as (? & ? & ?). lia.
Qed.

Lemma env_held seen f w : held seen f w -> held seen f (env w).
Proof.
  intros (T & F & Hi & -> & Hf). destruct (i210_rx_nsteps_inv _ _ _ _ (env_ok w) Hi) as (Hi' & _ & Hp).
  exists T, F. split; [done|]. destruct (inv_order _ _ _ Hi) as (? & ? & ?). split; [|by eapply prefix_lookup_Some].
  symmetry. apply take_arrived; [lia|done].
Qed.

Lemma i210_rx_receive_run seen w :
  idle seen w -> exists f w', tryReceive env w = (Done f, w') /\ match f with [] => idle seen w' | _ => held seen f w' end.
Proof.
  intros Hid. apply i210_rx_env_idle in Hid. unfold tryReceive. rewrite run_modify. revert Hid. generalize (env w). clear w.
  intros w Hid. pose proof Hid as (T & F & Hi & Hs). rewrite run_gets, (inv_tail _ _ _ Hi).
  destruct (desc_at_tail T w (inv_descs _ _ _ Hi)) as (d & Hd & Hat). rewrite (run_bind _ _ _ _ _ Hat).
  destruct (done d) eqn:Hdd; [|by exists [], w].
  pose proof (inv_order _ _ _ Hi) as (? & ? & HTR). cbn [negb]. rewrite run_modify.
  destruct (lookup_lt_is_Some_2 (arrived w) (Z.to_nat T)) as [f Hf].
  { destruct (decide (T < Z.of_nat (length (arrived w)))) as [|Hge]; [lia|].
    destruct (inv_free _ _ _ Hi T ltac:(lia)) as (d2 & Hd2 & Hn & _). congruence. }
  destruct (env_held seen f w) as (T1 & F1 & Hi1 & Hs1 & Hf1); [by exists T, F|].
  destruct (i210_rx_nsteps_inv _ _ _ _ (env_ok w) Hi) as (Hi' & Ho & Hpre).
  destruct (desc_at_tail T (env w) (inv_descs _ _ _ Hi')) as (d1 & Hd1 & Hat1). rewrite (run_bind _ _ _ _ _ Hat1).
  destruct (inv_full _ _ _ Hi' T f ltac:(lia) ltac:(by eapply prefix_lookup_Some)) as (d2 & b & Hd2 & Hb & _ & Hl & Hp). simplify_eq.
  exists f, (env w). split.
  - unfold frame_at. rewrite <- (eq_refl : pos N T = Z.to_nat (T mod N)), Hb, Hl, Nat2Z.id. destruct Hp as [k ->].
    unfold load, slice. rewrite decide_True by (rewrite length_app; lia). by rewrite drop_0, take_app_length.
  - assert (f <> []) as Hne by (exact (proj1 (list.Forall_lookup _ _) (inv_nonempty _ _ _ Hi) _ _ Hf)).
    destruct f; [done|]. by exists T1, F1.
Qed.

(** Giving the frame at [T] back, with or without the write of the tail register. *)
Lemma refill T F w d o r :
  inv T F w -> T < Z.of_nat (length (arrived w)) -> done d = false -> virt (pktAddr d) = (T mod N) * B ->
  let w' := mk_world o (<[pos N T := d]> (descs w)) (bufs w) r (arrived w) (ext w) in
  (forall j f, T + 1 <= j -> arrived w !! Z.to_nat j = Some f -> holds w' j f) /\
  (forall j, Z.of_nat (length (arrived w)) <= j < T + 1 + N -> empty_at w' j).
Proof.
  intros Hi HT Hdd Hv w'. pose proof i210_rx_N_pos. pose proof (inv_order _ _ _ Hi) as (? & ? & ?). unfold RX_FREE_THRESH in *. split.
  - intros j f Hj Hf. destruct (inv_full _ _ _ Hi j f ltac:(lia) Hf) as (d1 & b1 & H3). exists d1, b1. cbn.
    rewrite list_lookup_insert_ne; [done|]. apply lookup_lt_Some in Hf. apply pos_ne; lia.
  - intros j Hj. destruct (decide (j = T + N)) as [->|].
    + exists d. cbn. rewrite pos_add_n by done. split; [|split; [done|rewrite Hv]].
      * apply list_lookup_insert_eq, (pos_lt N); [done|]. pose proof (inv_descs _ _ _ Hi). lia.
      * f_equal. rewrite <- (Z_mod_plus_full T 1 N). f_equal. lia.
    + destruct (inv_free _ _ _ Hi j ltac:(lia)) as (d1 & H3). exists d1. cbn.
      rewrite list_lookup_insert_ne; [done|]. apply pos_ne; lia.
Qed.

Lemma release_inv T F w (flush : bool) d :
  inv T F w -> T < Z.of_nat (length (arrived w)) -> done d = false -> virt (pktAddr d) = (T mod N) * B ->
  flush = (RX_FREE_THRESH <=? T + 1 - F) ->
  inv (T + 1) (if flush then T + 1 else F)
    (mk_world (set_rx ((T + 1) mod N) (if flush then 0 else T + 1 - F) (obj w)) (<[pos N T := d]> (descs w)) (bufs w)
       (if flush then T mod N else rdt w) (arrived w) (ext w)).
Proof.
  intros Hi HT Hdd Hv ->. pose proof (fun o r => refill T F w d o r Hi HT Hdd Hv) as Hre. cbn in Hre.
  destruct Hi as [Hd Hb Hsz Ht Hh Hr Ho _ _ Hby Hne Hsm]. pose proof i210_rx_N_pos. unfold RX_FREE_THRESH in *.
  destruct (Z.leb_spec 32 (T + 1 - F)) as [Hle|Hlt]; constructor; unfold RX_FREE_THRESH;
    cbn [descs bufs rdt arrived obj set_rx m_rxTail m_rxHeld]; rewrite ?length_insert; try done; try lia; try apply Hre.
  by rewrite Z.add_simpl_r.
Qed.

Lemma i210_rx_release_run seen f w : held seen f w -> exists w', release N B phys env w = (Done tt, w') /\ idle (seen ++ [f]) w'.
Proof.
  intros Hh. apply env_held in Hh. unfold release. rewrite run_modify. revert Hh. generalize (env w). clear w.
  intros w (T & F & Hi & -> & Hf). pose proof i210_rx_N_pos. pose proof (inv_order _ _ _ Hi) as (? & ? & ?). pose proof (lookup_lt_Some _ _ _ Hf).
  rewrite run_gets, (inv_tail _ _ _ Hi), (inv_held _ _ _ Hi).
  destruct (desc_at_tail T w (inv_descs _ _ _ Hi)) as (d & _ & Hat). rewrite (run_bind _ _ _ _ _ Hat), run_modify.
  assert (Z.land (T mod N + 1) (RX_RING_MASK N) = (T + 1) mod N) as ->
    by (unfold RX_RING_MASK; rewrite land_mask by done; apply Zplus_mod_idemp_l).
  assert (u32 (T - F + 1) = T + 1 - F) as ->
    by (rewrite wrap_small; [lia|unfold in_u, RX_FREE_THRESH in *; change (2 ^ 32) with 4294967296; lia]).
  assert (u32 (Z.land (u64 ((T + 1) mod N - 1)) (RX_RING_MASK N)) = T mod N) as ->.
  { unfold RX_RING_MASK. rewrite mask_wrap by (try done; lia). rewrite Zminus_mod_idemp_l, Z.add_simpl_r.
    apply wrap_small. pose proof (Z.mod_pos_bound T N ltac:(lia)). unfold in_u. change (2 ^ 32) with 4294967296. lia. }
  pose proof (release_inv T F w _ (mk_desc (phys (T mod N * B)) 0) Hi ltac:(lia) ltac:(done)
    ltac:(apply bus; pose proof (Z.mod_pos_bound T N ltac:(lia)); nia) eq_refl) as Hi'.
  assert (take (Z.to_nat T) (arrived w) ++ [f] = take (Z.to_nat (T + 1)) (arrived w)) as ->
    by (rewrite Z2Nat.inj_add by lia; rewrite Nat.add_1_r; symmetry; by apply take_S_r).
  destruct (RX_FREE_THRESH <=? T + 1 - F); [rewrite run_modify|]; (eexists; split; [done|]; exists (T + 1); eexists; split; [exact Hi'|done]).
Qed.

#[export] Program Instance I210_RxContract : @RxContract W (I210_RxRing N B phys env) := {|
  rx_arrived := arrived; rx_idle := idle; rx_held := held |}.
Next Obligation. intros seen w (T & F & _ & ->). cbn. apply prefix_take. Qed.
Next Obligation.
  intros seen f w (T & F & _ & -> & Hf). cbn. rewrite <- (take_S_r _ _ _ Hf). apply prefix_take.
Qed.
Next Obligation. intros seen f w (T & F & Hi & _ & Hf). exact (proj1 (list.Forall_lookup _ _) (inv_bytes _ _ _ Hi) _ _ Hf). Qed.
Next Obligation. intros. by apply i210_rx_receive_run. Qed.
Next Obligation. intros. by apply i210_rx_release_run. Qed.
End Properties.

(** C7: Frames arrive through the I210 in order, each once and intact: however often an
    application polls a fresh ring and releases what it finds, the frames it collected are a
    prefix of those the NIC delivered, and with more than 32 descriptors the NIC still owns a
    descriptor when everything delivered was consumed, so reception never stalls. *)
Theorem i210_rx_fifo {E} N B phys virt (env : world E -> world E) k w :
  is_pow2 N -> 8 <= N < 2 ^ 16 -> 0 < B < 2 ^ 16 -> (forall a, 0 <= a < N * B -> virt (phys a) = a) ->
  (forall w, rtc (nstep N B virt) w (env w)) -> fresh N B virt w ->
  exists fs w', @receive_n _ (I210_RxRing N B phys env) k w = (Done fs, w') /\ fs `prefix_of` arrived w' /\
    (RX_FREE_THRESH < N -> fs = arrived w' -> Z.of_nat (length (arrived w')) mod N <> rdt w').
Proof.
  intros HN HN8 HB Hbus Henv [Hi0 Ha0].
  destruct (receive_n_spec (H0 := I210_RxContract N B phys virt env HN HN8 HB Hbus Henv) k [] w) as (fs & w' & Hr & T & F & Hi & Hfs).
  { exists 0, 0. split; [exact Hi0|]. by rewrite Ha0. }
  exists fs, w'. split; [exact Hr|]. cbn in Hfs. rewrite Hfs. split; [apply prefix_take|]. intros Hth Hall.
  destruct (inv_order _ _ _ _ _ _ Hi) as (? & ? & ? & ?). unfold RX_FREE_THRESH in *. rewrite (inv_rdt _ _ _ _ _ _ Hi).
  apply (f_equal length) in Hall. rewrite length_take in Hall.
  intros He. assert (Z.of_nat (length (arrived w')) = T) as HT by lia. rewrite HT in He.
  rewrite <- (Z_mod_plus_full (F - 1) 1 N) in He. apply mod_window_inj in He; lia.
Qed.

(** A ring of at most 32 descriptors, which the static assertions admit (8, 16, 32), goes
    deaf: the tail register is written back only after 32 releases, which need 32 frames,
    and the NIC was given N - 1 descriptors; so however often the application polls, no more
    than N - 1 frames are ever delivered. *)
Theorem i210_small_ring_stalls {E} N B phys virt (env : world E -> world E) k w :
  is_pow2 N -> 8 <= N <= RX_FREE_THRESH -> 0 < B < 2 ^ 16 -> (forall a, 0 <= a < N * B -> virt (phys a) = a) ->
  (forall w, rtc (nstep N B virt) w (env w)) -> fresh N B virt w ->
  exists fs w', @receive_n _ (I210_RxRing N B phys env) k w = (Done fs, w') /\
    rdt w' = N - 1 /\ Z.of_nat (length fs) <= N - 1 /\
    forall w'', rtc (nstep N B virt) w' w'' -> Z.of_nat (length (arrived w'')) <= N - 1.
Proof.
  intros HN HN8 HB Hbus Henv [Hi0 Ha0]. assert (8 <= N < 2 ^ 16) as HN16 by (unfold RX_FREE_THRESH in *; lia).
  destruct (receive_n_spec (H0 := I210_RxContract N B phys virt env HN HN16 HB Hbus Henv) k [] w) as (fs & w' & Hr & T & F & Hi & Hfs).
  { exists 0, 0. split; [exact Hi0|]. by rewrite Ha0. }
  cbn in Hfs. assert (F = 0) as -> by (apply (inv_small _ _ _ _ _ _ Hi); lia).
  exists fs, w'. split; [exact Hr|]. destruct (inv_order _ _ _ _ _ _ Hi) as (? & ? & ? & ?). split_and!.
  - rewrite (inv_rdt _ _ _ _ _ _ Hi). replace (0 - 1) with (N - 1 + (-1) * N) by lia. rewrite Z_mod_plus_full. apply Z.mod_small. lia.
  - rewrite Hfs, length_take. lia.
  - intros w'' Hs. destruct (i210_rx_nsteps_inv N B virt HN16 HB _ _ _ _ Hs Hi) as (Hi' & _).
    destruct (inv_order _ _ _ _ _ _ Hi') as (? & ? & ? & ?). lia.
Qed.

(** ** A simulated NIC: before each access it delivers a frame [[k; 5]] if it may. *)
Definition sim_deliver (N B : Z) (w : world unit) : world unit :=
  let k := Z.of_nat (length (arrived w)) in
  match descs w !! pos N k with
  | Some d =>
      match bufs w !! Z.to_nat (id (pktAddr d) / B) with
      | Some b =>
          if decide (k mod N <> rdt w /\ id (pktAddr d) mod B = 0)
          then mk_world (obj w) (<[pos N k := mk_desc 0 8589934593]> (descs w))
                 (<[Z.to_nat (id (pktAddr d) / B) := list_inserts 0 [u8 k; 5] b]> (bufs w)) (rdt w) (arrived w ++ [[u8 k; 5]]) (ext w)
          else w
      | None => w
      end
  | None => w
  end.

Lemma sim_deliver_ok N B (w : world unit) : 2 <= B -> rtc (nstep N B id) w (sim_deliver N B w).
Proof.
  intros HB. unfold sim_deliver. destruct (descs w !! _) as [d|] eqn:Hd; [|done].
  destruct (bufs w !! _) as [b|] eqn:Hb; [|done]. case_decide as Hc; [|done]. destruct Hc. apply rtc_once.
  eapply n_deliver; [assumption|exact Hd|exact Hb|assumption|congruence| |cbn; lia|reflexivity|reflexivity].
  apply list.Forall_cons; split; [by apply wrap_range|]. apply list.Forall_cons. split; [by vm_compute|constructor].
Qed.

Definition sim_start (n : nat) (B : Z) : world unit :=
  mk_world (mk_I210 0 0 0 0 0 []) ((fun i => mk_desc (Z.of_nat i * B) 0) <$> List.seq 0 n)
    (replicate n (replicate (Z.to_nat B) 0)) (Z.of_nat n - 1) [] tt.

Lemma sim_start_fresh n B : 0 < B -> (8 <= n)%nat -> fresh (Z.of_nat n) B id (sim_start n B).
Proof.
  intros HB Hn. split; [|done]. constructor; cbn; rewrite ?length_fmap, ?length_seq, ?length_replicate; try done; try lia.
  - apply Forall_replicate. rewrite length_replicate. lia.
  - apply (Z.mod_unique _ _ (-1)); lia.
  - unfold RX_FREE_THRESH. lia.
  - intros j Hj. exists (mk_desc (Z.of_nat (Z.to_nat j) * B) 0). unfold pos. rewrite Z.mod_small by lia. cbn.
    rewrite list_lookup_fmap, lookup_seq_lt by lia. cbn.
    split; [done|]. split; [done|]. unfold id. by rewrite Z2Nat.id by lia.
Qed.

Lemma i210_rx_sim_pow2 n k : 0 <= k -> n = 2 ^ k -> is_pow2 n.
Proof. intros. by exists k. Qed.

Lemma i210_rx_fifo_witness :
  exists fs w', @receive_n _ (I210_RxRing 64 256 id (sim_deliver 64 256)) 150 (sim_start 64 256) = (Done fs, w') /\
    fs `prefix_of` arrived w' /\ length fs = 150%nat.
Proof.
  destruct (i210_rx_fifo 64 256 id id (sim_deliver 64 256) 150 (sim_start 64 256) (i210_rx_sim_pow2 64 6 ltac:(lia) eq_refl)
    ltac:(lia) ltac:(lia) (fun a _ => eq_refl) (fun w => sim_deliver_ok 64 256 w ltac:(lia))
    (sim_start_fresh 64 256 ltac:(lia) ltac:(lia))) as (fs & w' & Hr & Hp & _).
  exists fs, w'. split; [exact Hr|]. split; [exact Hp|].
  assert (match fst (@receive_n _ (I210_RxRing 64 256 id (sim_deliver 64 256)) 150 (sim_start 64 256)) with
          Done l => Nat.eqb (length l) 150 | _ => false end = true) as Hc by (vm_compute; reflexivity).
  rewrite Hr in Hc. by apply Nat.eqb_eq in Hc.
Defined.

Lemma i210_small_ring_stalls_witness :
  exists fs w', @receive_n _ (I210_RxRing 32 256 id (sim_deliver 32 256)) 100 (sim_start 32 256) = (Done fs, w') /\
    rdt w' = 31 /\ length fs = 31%nat.
Proof.
  destruct (i210_small_ring_stalls 32 256 id id (sim_deliver 32 256) 100 (sim_start 32 256) (i210_rx_sim_pow2 32 5 ltac:(lia) eq_refl)
    ltac:(unfold RX_FREE_THRESH; lia) ltac:(lia) (fun a _ => eq_refl) (fun w => sim_deliver_ok 32 256 w ltac:(lia))
    (sim_start_fresh 32 256 ltac:(lia) ltac:(lia))) as (fs & w' & Hr & Ht & _).
  exists fs, w'. split; [exact Hr|]. split; [exact Ht|].
  assert (match fst (@receive_n _ (I210_RxRing 32 256 id (sim_deliver 32 256)) 100 (sim_start 32 256)) with
          Done l => Nat.eqb (length l) 31 | _ => false end = true) as Hc by (vm_compute; reflexivity).
  rewrite Hr in Hc. by apply Nat.eqb_eq in Hc.
Defined.
End Rx.
