(* ===== verification/I210Setup.v ===== *)
(** * The Intel I210 user-space driver: bring-up (src/backends/IGBCustomPMD/Intel_I210.hpp)

    [init], [shutdown] and everything they call, over the device's registers: every access
    is one operation of the device and is recorded in a trace.  The PCIe back end, the
    descriptor rings and the hugepage buffers come from a submodule, the file of the
    configuration space from the kernel: they are operations of the class [Device].  Waits and
    messages are left out, the counts the messages depend on are kept. *)

From S2P Require Import Prelude I210.

Inductive DriverMode := RxOnly | TxOnly | RxTx.
Definition HAS_RX (M : DriverMode) : bool := match M with TxOnly => false | _ => true end.
Definition HAS_TX (M : DriverMode) : bool := match M with RxOnly => false | _ => true end.

(** Registers (I210Registers.hpp and the constants local to the functions). *)
Definition CTRL : Z := 0.
Definition STATUS : Z := 8.
Definition CTRL_EXT : Z := 24.
Definition MDIC : Z := 32.
Definition WUC : Z := 48.
Definition RCTL : Z := 256.
Definition TCTL : Z := 1024.
Definition TIPG : Z := 1040.
Definition EEER : Z := 3632.
Definition IPCNFG : Z := 3640.
Definition ICR : Z := 5376.
Definition IMC : Z := 5388.
Definition EIMC : Z := 5416.
Definition EICR : Z := 5504.
Definition EITR0 : Z := 5760.
Definition DMACR : Z := 9480.
Definition DMCTLX : Z := 9492.
Definition TQAVCTRL : Z := 13680.
Definition MTA_BASE : Z := 20992.
Definition RAL0 : Z := 21504.
Definition RAH0 : Z := 21508.
Definition PCIEMISC : Z := 23480.
Definition RDBAL0 : Z := 49152.
Definition RDBAH0 : Z := 49156.
Definition RDLEN0 : Z := 49160.
Definition SRRCTL0 : Z := 49164.
Definition RDT0 : Z := 49176.
Definition RXDCTL0 : Z := 49192.
Definition DVMOLR0 : Z := 49208.
Definition TDBAL0 : Z := 57344.
Definition TDBAH0 : Z := 57348.
Definition TDLEN0 : Z := 57352.
Definition TDT0 : Z := 57368.
Definition TXDCTL0 : Z := 57384.
Definition PHY_POWER_MGMT : Z := 59476.

Definition CTRL_SLU : Z := 64.
Definition CTRL_FRCSPD : Z := 2048.
Definition CTRL_FRCDPLX : Z := 4096.
Definition CTRL_RFCE : Z := 134217728.
Definition CTRL_TFCE : Z := 268435456.
Definition CTRL_DEV_RST : Z := 536870912.
Definition STATUS_LU : Z := 2.
Definition STATUS_SPEED_SHIFT : Z := 6.
Definition STATUS_SPEED_MASK : Z := 192.
Definition PF_RST_DONE : Z := 2097152.
Definition RCTL_RXEN : Z := 2.
Definition RCTL_BAM : Z := 32768.
Definition RCTL_BSIZE_2048 : Z := 0.
Definition RCTL_BSIZE_1024 : Z := 65536.
Definition RCTL_BSIZE_512 : Z := 131072.
Definition RCTL_BSIZE_256 : Z := 196608.
Definition RCTL_SECRC : Z := 67108864.
Definition RXDCTL_ENABLE : Z := 33554432.
Definition SRRCTL_BSIZEPACKET_SHIFT : Z := 0.
Definition SRRCTL_DESCTYPE_ADV_ONE : Z := 33554432.
Definition SRRCTL_DROP_EN : Z := 2147483648.
Definition DVMOLR_STRCRC : Z := 2147483648.
Definition TXDCTL_ENABLE : Z := 33554432.
Definition TCTL_EN : Z := 2.
Definition TCTL_PSP : Z := 8.
Definition TCTL_CT_IEEE : Z := 240.
Definition TCTL_BST_DEF : Z := 262144.
Definition TCTL_RTLC : Z := 16777216.
Definition TIPG_DEFAULT : Z := Z.lor (Z.lor 8 (Z.shiftl 8 10)) (Z.shiftl 6 20).
Definition IRQ_DISABLE_ALL : Z := 4294967295.
Definition MDIC_DATA_MASK : Z := 65535.
Definition MDIC_REGADD_SHIFT : Z := 16.
Definition MDIC_OP_WRITE : Z := 67108864.
Definition MDIC_OP_READ : Z := 134217728.
Definition MDIC_READY : Z := 268435456.
Definition MDIC_ERROR : Z := 1073741824.
Definition PHY_BMCR : Z := 0.
Definition PHY_ANAR : Z := 4.
Definition PHY_GBCR : Z := 9.
Definition BMCR_RESET : Z := 32768.
Definition BMCR_ANE : Z := 4096.
Definition BMCR_RESTART_AN : Z := 512.
Definition ANAR_10_HD : Z := 32.
Definition ANAR_10_FD : Z := 64.
Definition ANAR_100_HD : Z := 128.
Definition ANAR_100_FD : Z := 256.
Definition ANAR_SELECTOR : Z := 1.
Definition GBCR_1000_FD : Z := 512.

Definition rctlBsize (BuffSize : Z) : Z :=
  if BuffSize =? 256 then RCTL_BSIZE_256 else if BuffSize =? 512 then RCTL_BSIZE_512
  else if BuffSize =? 1024 then RCTL_BSIZE_1024 else RCTL_BSIZE_2048.

(** What the driver uses of the PCIe back end, the DMA rings and buffers, and of the
    configuration-space file ([pread] returns the bytes it read, none on error). *)
Class Device (D : Type) := {
  #[global] device_mmio :: Mmio D;
  bus_open : D -> bool * D;
  bus_isOpen : D -> bool;
  ring_allocate : bool -> Z -> D -> bool * D;
  buffer_allocate : bool -> Z -> D -> bool * D;
  ring_base : bool -> D -> Z;
  ring_bytes : bool -> D -> Z;
  buffer_phys : bool -> Z -> D -> Z;
  cfg_open : D -> Z * D;
  cfg_pread : Z -> Z -> Z -> D -> bytes * D;
  cfg_pwrite : Z -> bytes -> Z -> D -> Z * D;
  cfg_close : Z -> D -> D;
}.

(** One register access: the value read, or written. *)
Inductive event := Rd (off v : Z) | Wr (off v : Z).

#[export] Instance event_eq_dec : EqDecision event.
Proof. solve_decision. Defined.

(** The driver object, its receive descriptors, the accesses so far, and the device. *)
Record world (D : Type) := mk_world { obj : Intel_I210; rxd : list Rx.RxDescriptor; trace : list event; dev : D }.
Arguments mk_world {D}.
Arguments obj {D}.
Arguments rxd {D}.
Arguments trace {D}.
Arguments dev {D}.

Section Operations.
Context {D : Type} {DV : Device D} (M : DriverMode) (NumRxDesc NumTxDesc BuffSize : Z).
Abbreviation W := (world D).

(** An operation of the device that is not a register access. *)
Definition sys {A} (f : D -> A * D) : Prelude.M W A :=
  fun w => let '(a, d) := f (dev w) in (Done a, mk_world (obj w) (rxd w) (trace w) d).
Definition set_obj (o : Intel_I210) (w : W) : W := mk_world o (rxd w) (trace w) (dev w).
Definition set_rxd (l : list Rx.RxDescriptor) (w : W) : W := mk_world (obj w) l (trace w) (dev w).

Definition writeReg (offset value : Z) : Prelude.M W unit :=
  fun w => (Done tt, mk_world (obj w) (rxd w) (trace w ++ [Wr offset value]) (reg_write offset value (dev w))).
Definition readReg (offset : Z) : Prelude.M W Z :=
  fun w => let '(v, d) := reg_read offset (dev w) in (Done v, mk_world (obj w) (rxd w) (trace w ++ [Rd offset v]) d).

(** [reg & ~mask] of 32-bit words. *)
Definition clear (v mask : Z) : Z := Z.land v (Z.lxor mask 4294967295).
Definition isset (v mask : Z) : bool := negb (Z.land v mask =? 0).

(** [disableASPM]: [fuel] bounds the steps of the capability walk. *)
Fixpoint capability_walk (fuel : nat) (fd capPtr : Z) : Prelude.M W unit :=
  if capPtr =? 0 then mret tt else
  match fuel with
  | O => raise NoFuel
  | S fuel =>
      r ← sys (cfg_pread fd 1 capPtr);
      match r with
      | [capId] =>
          if capId =? 16 then
            l ← sys (cfg_pread fd 2 (capPtr + 16));
            if Z.of_nat (length l) =? 2 then
              _ ← sys (cfg_pwrite fd (le_encode 2 (Z.land (le_decode l) 65532)) (capPtr + 16)); mret tt
            else mret tt
          else
            n ← sys (cfg_pread fd 1 (capPtr + 1));
            match n with [next] => capability_walk fuel fd next | _ => mret tt end
      | _ => mret tt
      end
  end.

Definition disableASPM (fuel : nat) : Prelude.M W unit :=
  fd ← sys cfg_open;
  if fd <? 0 then mret tt else
  r ← sys (cfg_pread fd 1 52);
  match r with
  | [capPtr] => capability_walk fuel fd capPtr ;; sys (fun d => (tt, cfg_close fd d))
  | _ => sys (fun d => (tt, cfg_close fd d))
  end.

(** [reset]: true when the device reported completion within the hundred polls. *)
Definition reset : Prelude.M W bool :=
  c ← readReg CTRL;
  writeReg CTRL (Z.lor c CTRL_DEV_RST) ;;
  r ← poll 100 0 (fun _ => s ← readReg STATUS; mret (if isset s PF_RST_DONE then Some tt else None));
  mret (match r with Some _ => true | None => false end).

Definition disableInterrupts : Prelude.M W unit :=
  writeReg IMC IRQ_DISABLE_ALL ;;
  writeReg EIMC IRQ_DISABLE_ALL ;;
  _ ← readReg ICR;
  _ ← readReg EICR;
  for_loop 5 0 (fun i => writeReg (EITR0 + 4 * i) 65535) ;;
  writeReg WUC 0.

Definition disableEEE : Prelude.M W unit :=
  eeer ← readReg EEER;
  writeReg EEER (clear eeer 458752) ;;
  ipcnfg ← readReg IPCNFG;
  writeReg IPCNFG (clear ipcnfg 12) ;;
  writeReg DMACR 0 ;;
  writeReg DMCTLX 0 ;;
  pciemisc ← readReg PCIEMISC;
  writeReg PCIEMISC (clear pciemisc 128) ;;
  ctrlExt ← readReg CTRL_EXT;
  writeReg CTRL_EXT (clear ctrlExt 3145728).

Definition clearPhyLinkDown : Prelude.M W unit :=
  phpm ← readReg PHY_POWER_MGMT;
  writeReg PHY_POWER_MGMT (clear phpm 1).

Definition zeroMulticastTable : Prelude.M W unit := for_loop 128 0 (fun i => writeReg (MTA_BASE + i * 4) 0).

(** Wait for the MDIO transaction: the word with [MDIC_READY], or nothing after 100 polls. *)
Definition mdic_wait : Prelude.M W (option Z) :=
  poll 100 0 (fun _ => mdic ← readReg MDIC; mret (if isset mdic MDIC_READY then Some mdic else None)).

Definition writePhy (reg value : Z) : Prelude.M W bool :=
  writeReg MDIC (Z.lor (Z.lor value (Z.shiftl reg MDIC_REGADD_SHIFT)) MDIC_OP_WRITE) ;;
  r ← mdic_wait;
  mret (match r with Some mdic => negb (isset mdic MDIC_ERROR) | None => false end).

Definition readPhy (reg : Z) : Prelude.M W Z :=
  writeReg MDIC (Z.lor (Z.shiftl reg MDIC_REGADD_SHIFT) MDIC_OP_READ) ;;
  r ← mdic_wait;
  mret (match r with
        | Some mdic => if isset mdic MDIC_ERROR then 0 else u16 (Z.land mdic MDIC_DATA_MASK)
        | None => 0
        end).

Definition initPhy : Prelude.M W bool :=
  ok ← writePhy PHY_BMCR BMCR_RESET;
  if negb ok then mret false else
  _ ← poll 100 0 (fun _ => b ← readPhy PHY_BMCR; mret (if isset b BMCR_RESET then None else Some tt));
  _ ← writePhy PHY_ANAR (Z.lor (Z.lor (Z.lor (Z.lor ANAR_SELECTOR ANAR_10_HD) ANAR_10_FD) ANAR_100_HD) ANAR_100_FD);
  _ ← writePhy PHY_GBCR GBCR_1000_FD;
  _ ← writePhy PHY_BMCR (Z.lor BMCR_ANE BMCR_RESTART_AN);
  mret true.

Definition set_mac (m : list Z) (o : Intel_I210) : Intel_I210 :=
  mk_I210 (m_rxTail o) (m_rxHeld o) (m_txTail o) (m_txCleanHead o) (m_txInFlight o) m.

Definition mac_of (ral rah : Z) : list Z :=
  [Z.land ral 255; Z.land (Z.shiftr ral 8) 255; Z.land (Z.shiftr ral 16) 255; Z.land (Z.shiftr ral 24) 255;
   Z.land rah 255; Z.land (Z.shiftr rah 8) 255].

Definition readMacAddress : Prelude.M W unit :=
  ral ← readReg RAL0;
  rah ← readReg RAH0;
  modify (fun w => set_obj (set_mac (mac_of ral rah) (obj w)) w).

Definition initRx : Prelude.M W bool :=
  ok ← sys (ring_allocate true NumRxDesc);
  if negb ok then mret false else
  ok ← sys (buffer_allocate true (NumRxDesc * BuffSize));
  if negb ok then mret false else
  modify (fun w => set_rxd ((fun i => Rx.mk_desc (buffer_phys true (Z.of_nat i * BuffSize) (dev w)) 0) <$> List.seq 0 (Z.to_nat NumRxDesc)) w) ;;
  rxBase ← gets (fun w => ring_base true (dev w));
  writeReg RDBAL0 (Z.land rxBase 4294967295) ;;
  writeReg RDBAH0 (u32 (Z.shiftr rxBase 32)) ;;
  bytes ← gets (fun w => ring_bytes true (dev w));
  writeReg RDLEN0 (u32 bytes) ;;
  writeReg SRRCTL0 (Z.lor (Z.lor (Z.shiftl (BuffSize / 1024) SRRCTL_BSIZEPACKET_SHIFT) SRRCTL_DESCTYPE_ADV_ONE) SRRCTL_DROP_EN) ;;
  writeReg RCTL (Z.lor (Z.lor (Z.lor RCTL_RXEN RCTL_BAM) RCTL_SECRC) (rctlBsize BuffSize)) ;;
  writeReg RXDCTL0 0 ;;
  writeReg RDT0 0 ;;
  writeReg RXDCTL0 (Z.lor (Z.lor (Z.lor (Z.shiftl 8 0) (Z.shiftl 4 8)) (Z.shiftl 0 16)) RXDCTL_ENABLE) ;;
  r ← poll 100 0 (fun _ => v ← readReg RXDCTL0; mret (if isset v RXDCTL_ENABLE then Some tt else None));
  match r with
  | None => _ ← readReg RXDCTL0; mret false
  | Some _ =>
      modify (fun w => set_obj (set_rx 0 (m_rxHeld (obj w)) (obj w)) w) ;;
      writeReg RDT0 (u32 (NumRxDesc - 1)) ;;
      dvmolr ← readReg DVMOLR0;
      writeReg DVMOLR0 (Z.lor dvmolr DVMOLR_STRCRC) ;;
      mret true
  end.

Definition initTx : Prelude.M W bool :=
  ok ← sys (ring_allocate false NumTxDesc);
  if negb ok then mret false else
  ok ← sys (buffer_allocate false (NumTxDesc * BuffSize));
  if negb ok then mret false else
  txBase ← gets (fun w => ring_base false (dev w));
  writeReg TDBAL0 (Z.land txBase 4294967295) ;;
  writeReg TDBAH0 (u32 (Z.shiftr txBase 32)) ;;
  bytes ← gets (fun w => ring_bytes false (dev w));
  writeReg TDLEN0 (u32 bytes) ;;
  writeReg TXDCTL0 0 ;;
  v ← readReg TXDCTL0;
  writeReg TXDCTL0 (Z.lor v TXDCTL_ENABLE) ;;
  r ← poll 100 0 (fun _ => v ← readReg TXDCTL0; mret (if isset v TXDCTL_ENABLE then Some tt else None));
  match r with
  | None => mret false
  | Some _ =>
      writeReg TIPG TIPG_DEFAULT ;;
      writeReg TCTL (Z.lor (Z.lor (Z.lor (Z.lor TCTL_EN TCTL_PSP) TCTL_CT_IEEE) TCTL_BST_DEF) TCTL_RTLC) ;;
      modify (fun w => set_obj (set_tx 0 0 0 (obj w)) w) ;;
      mret true
  end.

(** [check] of [verifyLowLatencyConfig]: one more warning or not. *)
Definition check (reg mask : Z) (expectClear : bool) : Z := if Bool.eqb (isset reg mask) expectClear then 1 else 0.

(** The PHY's energy-efficient-ethernet advertisement, through the MMD registers. *)
Definition phyEeeAdv : Prelude.M W Z :=
  _ ← writePhy 13 7;
  _ ← writePhy 14 60;
  _ ← writePhy 13 (Z.lor 16384 7);
  eeeAdv ← readPhy 14;
  _ ← writePhy 13 0;
  mret eeeAdv.

(** [verifyLowLatencyConfig]: the number of warnings. *)
Definition verifyLowLatencyConfig : Prelude.M W Z :=
  eeer ← readReg EEER;
  ipcnfg ← readReg IPCNFG;
  dmacr ← readReg DMACR;
  pciemisc ← readReg PCIEMISC;
  ctrlExt ← readReg CTRL_EXT;
  tqavctrl ← readReg TQAVCTRL;
  rxdctl ← readReg RXDCTL0;
  txdctl ← readReg TXDCTL0;
  eitr ← readReg EITR0;
  eeeAdv ← phyEeeAdv;
  ctrl ← readReg CTRL;
  dvmolr ← readReg DVMOLR0;
  mret (check eeer 458752 true + check ipcnfg 12 true + (if isset eeeAdv 6 then 1 else 0) +
    check dmacr 2147483648 true + check pciemisc 128 true +
    check ctrlExt 1048576 true + check ctrlExt 2097152 true + check tqavctrl 1 true +
    check ctrl CTRL_RFCE true + check ctrl CTRL_TFCE true +
    (if negb (eitr =? 65535) && negb (eitr =? 65532) then 1 else 0) +
    check dvmolr 2147483648 false + check rxdctl RXDCTL_ENABLE false + check txdctl TXDCTL_ENABLE false).

Definition isLinkUp : Prelude.M W bool := s ← readReg STATUS; mret (isset s STATUS_LU).

Definition linkSpeedMbps : Prelude.M W Z :=
  s ← readReg STATUS;
  mret (default 0 ([10; 100; 1000; 1000] !! Z.to_nat (Z.shiftr (Z.land s STATUS_SPEED_MASK) STATUS_SPEED_SHIFT))).

(** What [init] reports besides its result: the link speed, when the link came up within
    the five polls, and the warnings of the final check. *)
Record report := mk_report { link : option Z; warnings : Z }.

Definition bring_up_tail : Prelude.M W report :=
  l ← poll 5 0 (fun _ => up ← isLinkUp; if (up : bool) then s ← linkSpeedMbps; mret (Some s) else mret None);
  n ← verifyLowLatencyConfig;
  mret (mk_report l n).

(** [init] *)
Definition init (fuel : nat) : Prelude.M W (option report) :=
  ok ← sys bus_open;
  if negb ok then mret None else
  disableASPM fuel ;;
  _ ← reset;
  disableInterrupts ;;
  disableEEE ;;
  clearPhyLinkDown ;;
  zeroMulticastTable ;;
  readMacAddress ;;
  ok ← initPhy;
  if negb ok then mret None else
  ctrl ← readReg CTRL;
  writeReg CTRL (clear (Z.lor ctrl CTRL_SLU) (Z.lor (Z.lor (Z.lor CTRL_FRCSPD CTRL_FRCDPLX) CTRL_RFCE) CTRL_TFCE)) ;;
  ok ← (if HAS_RX M then initRx else mret true);
  if negb ok then mret None else
  ok ← (if HAS_TX M then initTx else mret true);
  if negb ok then mret None else
  r ← bring_up_tail; mret (Some r).

(** [shutdown] *)
Definition shutdown : Prelude.M W unit :=
  open ← gets (fun w => bus_isOpen (dev w));
  if negb open then mret tt else
  (if HAS_RX M then v ← readReg RCTL; writeReg RCTL (clear v RCTL_RXEN) else mret tt) ;;
  (if HAS_TX M then v ← readReg TCTL; writeReg TCTL (clear v TCTL_EN) else mret tt) ;;
  disableInterrupts.

(** Move assignment ([same]: from itself): what is left of [other]. *)
Definition assign (same : bool) (other : Intel_I210) : Prelude.M W Intel_I210 :=
  if same then mret other else
  shutdown ;;
  modify (set_obj other) ;;
  mret (mk_I210 0 0 0 0 0 (replicate 6 0)).

Definition dtor : Prelude.M W unit := shutdown.
End Operations.

(** ** What an operation may write *)
Section Trace.
Context {D : Type} {DV : Device D}.
Abbreviation W := (world D).
Implicit Types (w : W) (P : Z -> Prop).

(** Anything the driver does to the device short of writing register [r] or resetting it. *)
Inductive dstep (r : Z) : D -> D -> Prop :=
  | d_read off d : dstep r d (snd (reg_read off d))
  | d_write off v d : off <> r -> (off = CTRL -> isset v CTRL_DEV_RST = false) -> dstep r d (reg_write off v d)
  | d_open d : dstep r d (snd (bus_open d))
  | d_ring rx n d : dstep r d (snd (ring_allocate rx n d))
  | d_buffer rx n d : dstep r d (snd (buffer_allocate rx n d))
  | d_cfg_open d : dstep r d (snd (cfg_open d))
  | d_cfg_pread fd n off d : dstep r d (snd (cfg_pread fd n off d))
  | d_cfg_pwrite fd bs off d : dstep r d (snd (cfg_pwrite fd bs off d))
  | d_cfg_close fd d : dstep r d (cfg_close fd d).

Definition wrote P (e : event) : Prop := match e with Rd _ _ => True | Wr off _ => P off end.

(** [m] appends its accesses to the trace and writes registers of [P] only. *)
Definition emits {A} P (m : Prelude.M W A) : Prop :=
  forall w, exists log, trace (snd (m w)) = trace w ++ log /\ Forall (wrote P) log /\
    forall r, ~ P r -> ~ P CTRL -> rtc (dstep r) (dev w) (dev (snd (m w))).

Lemma emits_ret {A} P (a : A) : emits P (mret a).
Proof. intros w. exists []. cbn. rewrite app_nil_r. split; [done|]. split; [done|]. intros; apply rtc_refl. Qed.

Lemma emits_raise {A} P (o : outcome A) : emits P (raise o).
Proof. intros w. exists []. cbn. rewrite app_nil_r. split; [done|]. split; [done|]. intros; apply rtc_refl. Qed.

Lemma emits_bind {A B} P (m : Prelude.M W A) (f : A -> Prelude.M W B) : emits P m -> (forall a, emits P (f a)) -> emits P (m ≫= f).
Proof.
  intros Hm Hf w. destruct (Hm w) as (l1 & H1 & F1 & S1). unfold mbind, M_bind.
  destruct (m w) as [[a| | | |] w1] eqn:Em; cbn in *; try (exists l1; by rewrite H1).
  destruct (Hf a w1) as (l2 & H2 & F2 & S2). exists (l1 ++ l2). rewrite H2, H1, app_assoc.
  split; [done|]. split; [by apply Forall_app|]. intros r Hr Hc. etrans; [by apply S1|by apply S2].
Qed.

Lemma emits_gets {A} P (f : W -> A) : emits P (gets f).
Proof. intros w. exists []. cbn. rewrite app_nil_r. split; [done|]. split; [done|]. intros; apply rtc_refl. Qed.

Lemma emits_modify P (f : W -> W) : (forall w, trace (f w) = trace w /\ dev (f w) = dev w) -> emits P (modify f).
Proof.
  intros Hf w. destruct (Hf w) as [Ht Hd]. exists []. cbn. rewrite app_nil_r, Ht, Hd.
  split; [done|]. split; [done|]. intros; apply rtc_refl.
Qed.

Lemma emits_sys {A} P (f : D -> A * D) : (forall r d, dstep r d (snd (f d))) -> emits P (sys f).
Proof.
  intros Hf w. exists []. unfold sys. pose proof (fun r => Hf r (dev w)) as Hs. destruct (f (dev w)) as [a d]. cbn in *.
  rewrite app_nil_r. split; [done|]. split; [done|]. intros. by apply rtc_once.
Qed.

Lemma emits_write P off v : P off -> emits P (writeReg off v).
Proof.
  intros HP w. exists [Wr off v]. cbn. split; [done|]. split; [by repeat constructor|]. intros r Hr Hc. apply rtc_once, d_write.
  - by intros ->.
  - by intros ->.
Qed.

Lemma emits_read P off : emits P (readReg off).
Proof.
  intros w. unfold readReg. pose proof (fun r => d_read r off (dev w)) as Hs. destruct (reg_read off (dev w)) as [v d]. cbn in *.
  exists [Rd off v]. split; [done|]. split; [by repeat constructor|]. intros. by apply rtc_once.
Qed.

Lemma emits_poll {A} P n : forall i (body : Z -> Prelude.M W (option A)), (forall i, emits P (body i)) -> emits P (poll n i body).
Proof.
  induction n as [|n IH]; intros i body Hb; [apply emits_ret|]. cbn [poll]. apply emits_bind; [apply Hb|].
  intros [a|]; [apply emits_ret|by apply IH].
Qed.

Lemma emits_for P n : forall i (body : Z -> Prelude.M W unit),
  (forall j, i <= j < i + Z.of_nat n -> emits P (body j)) -> emits P (for_loop n i body).
Proof.
  induction n as [|n IH]; intros i body Hb; [apply emits_ret|]. cbn [for_loop]. apply emits_bind; [apply Hb; lia|].
  intros _. apply IH. intros j Hj. apply Hb. lia.
Qed.

(** ** Order of accesses: nothing [t] recognises happens before something [q] recognises. *)
Fixpoint ordered (t q : event -> bool) (seen : bool) (log : list event) : bool :=
  match log with
  | [] => true
  | e :: log => implb (t e) seen && ordered t q (seen || q e) log
  end.

Definition precedes (q t : event -> bool) (log : list event) : Prop :=
  forall pre e post, log = pre ++ e :: post -> t e = true -> exists e', e' ∈ pre /\ q e' = true.

Lemma ordered_app t q s l1 l2 : ordered t q s (l1 ++ l2) = ordered t q s l1 && ordered t q (s || existsb q l1) l2.
Proof.
  revert s; induction l1 as [|e l1 IH]; intros s; cbn; [by rewrite orb_false_r|]. by rewrite IH, andb_assoc, orb_assoc.
Qed.

Lemma ordered_precedes t q log : ordered t q false log = true -> precedes q t log.
Proof.
  intros Ho pre e post -> Ht. rewrite ordered_app in Ho. apply andb_prop in Ho as [_ Ho]. cbn in Ho. rewrite Ht in Ho.
  apply andb_prop in Ho as [Ho _]. cbn in Ho. apply existsb_exists in Ho as (e' & Hin & Hq). exists e'. split; [|done].
  by apply list_elem_of_In.
Qed.

Lemma ordered_quiet t q s log : Forall (fun e => t e = false) log -> ordered t q s log = true.
Proof. intros Hf. revert s; induction Hf as [|e l He _ IH]; intros s; cbn; [done|]. by rewrite He, IH. Qed.

Lemma ordered_seen t q log : ordered t q true log = true.
Proof. induction log as [|e l IH]; cbn; [done|]. rewrite IH. by destruct (t e). Qed.

(** [m] keeps the order when [seen] says whether the required access has happened already. *)
Definition wp {A} (t q : event -> bool) (seen : bool) (m : Prelude.M W A) (Q : A -> bool -> Prop) : Prop :=
  forall w, exists log, trace (snd (m w)) = trace w ++ log /\ ordered t q seen log = true /\
    match fst (m w) with Done a => Q a (seen || existsb q log) | _ => True end.

Lemma wp_ret {A} t q s (a : A) (Q : A -> bool -> Prop) : Q a s -> wp t q s (mret a) Q.
Proof. intros HQ w. exists []. cbn. by rewrite app_nil_r, orb_false_r. Qed.

Lemma wp_bind {A B} t q s (m : Prelude.M W A) (f : A -> Prelude.M W B) Q :
  wp t q s m (fun a s' => wp t q s' (f a) Q) -> wp t q s (m ≫= f) Q.
Proof.
  intros Hm w. destruct (Hm w) as (l1 & H1 & O1 & P1). unfold mbind, M_bind.
  destruct (m w) as [[a| | | |] w1] eqn:Em; cbn in *; try (exists l1; by rewrite H1).
  destruct (P1 w1) as (l2 & H2 & O2 & P2). exists (l1 ++ l2). rewrite H2, H1, app_assoc.
  split; [done|]. rewrite ordered_app, O1, O2. split; [done|]. by rewrite existsb_app, orb_assoc.
Qed.

Lemma wp_read t q s off (Q : Z -> bool -> Prop) :
  (forall v, t (Rd off v) = false) -> (forall v, Q v (s || q (Rd off v))) -> wp t q s (readReg off) Q.
Proof.
  intros Ht HQ w. unfold readReg. destruct (reg_read off (dev w)) as [v d]. cbn. exists [Rd off v]. split; [done|].
  cbn. rewrite Ht, orb_false_r. split; [done|]. apply HQ.
Qed.

Lemma wp_write t q s off v (Q : unit -> bool -> Prop) :
  implb (t (Wr off v)) s = true -> Q tt (s || q (Wr off v)) -> wp t q s (writeReg off v) Q.
Proof. intros Ht HQ w. exists [Wr off v]. cbn. rewrite Ht, orb_false_r. done. Qed.

(** A part that writes registers of [P] only, none of which trigger. *)
Lemma wp_quiet {A} t q s P (m : Prelude.M W A) (Q : A -> bool -> Prop) :
  emits P m -> (forall e, wrote P e -> t e = false) -> (forall a s', implb s s' = true -> Q a s') -> wp t q s m Q.
Proof.
  intros Hm Ht HQ w. destruct (Hm w) as (log & Hl & Hf & _). exists log. split; [done|]. split.
  - apply ordered_quiet. eapply list.Forall_impl; [exact Hf|exact Ht].
  - destruct (fst (m w)); try done. by apply HQ; destruct s, (existsb q log).
Qed.

(** Once the required access has happened nothing can go wrong. *)
Lemma wp_seen {A} t q (m : Prelude.M W A) (Q : A -> bool -> Prop) : emits (fun _ => True) m -> (forall a, Q a true) -> wp t q true m Q.
Proof.
  intros Hm HQ w. destruct (Hm w) as (log & Hl & _). exists log. split; [done|]. split; [apply ordered_seen|].
  by destruct (fst (m w)).
Qed.

(** Polling a register: an answer means the bit was read as set. *)
Lemma wp_poll_bit {A} t q s n off mask (x : A) (Q : option A -> bool -> Prop) :
  (forall v, t (Rd off v) = false) -> (forall s', implb s s' = true -> Q None s') ->
  (forall s' v, implb s s' = true -> isset v mask = true -> Q (Some x) (s' || q (Rd off v))) ->
  forall i, wp t q s (poll n i (fun _ => v ← readReg off; mret (if isset v mask then Some x else None))) Q.
Proof.
  intros Ht HN HS. revert s HN HS. induction n as [|n IH]; intros s HN HS i.
  { apply wp_ret, HN. by destruct s. }
  cbn [poll]. apply wp_bind, wp_bind, wp_read; [done|]. intros v. apply wp_ret.
  destruct (isset v mask) eqn:Hv; [apply wp_ret, HS; [by destruct s|done]|].
  apply IH; intros s' Hs; [|intros ?]; [apply HN|apply HS]; destruct s, (q (Rd off v)), s'; done.
Qed.
End Trace.

(** One structural step of a proof that [emits] or a quiet part holds. *)
Ltac emit :=
  match goal with
  | |- emits _ (_ ≫= _) => apply emits_bind; [|intros ?]
  | |- emits _ (mret _) => apply emits_ret
  | |- emits _ (raise _) => apply emits_raise
  | |- emits _ (gets _) => apply emits_gets
  | |- emits _ (modify _) => apply emits_modify; intros ?; done
  | |- emits _ (readReg _) => apply emits_read
  | |- emits _ (writeReg _ _) => apply emits_write
  | |- emits _ (sys _) => apply emits_sys; intros ? ?; constructor
  | |- emits _ (poll _ _ _) => apply emits_poll; intros ?
  | |- emits _ (for_loop _ _ _) => apply emits_for; intros ? ?
  | |- emits _ (match ?x with _ => _ end) => destruct x
  | |- emits _ (if ?x then _ else _) => destruct x
  | |- emits _ _ => by auto with abt
  end.
Ltac emit_all := repeat emit; try done.

Section Writes.
Context {D : Type} {DV : Device D} (P : Z -> Prop).
Abbreviation emits := (emits (D := D) P).

Lemma walk_emits fuel fd p : emits (capability_walk fuel fd p).
Proof. revert p; induction fuel as [|fuel IH]; intros p; cbn [capability_walk]; emit_all. Qed.

Lemma aspm_emits fuel : emits (disableASPM fuel).
Proof. pose proof (walk_emits fuel). unfold disableASPM. emit_all. Qed.

Lemma reset_emits : P CTRL -> emits reset.
Proof. intros. unfold reset. emit_all. Qed.

Lemma interrupts_emits : P IMC -> P EIMC -> P WUC -> (forall i, 0 <= i < 5 -> P (EITR0 + 4 * i)) -> emits disableInterrupts.
Proof. intros ?? ? HE. unfold disableInterrupts. emit_all. apply HE. lia. Qed.

Lemma eee_emits : P EEER -> P IPCNFG -> P DMACR -> P DMCTLX -> P PCIEMISC -> P CTRL_EXT -> emits disableEEE.
Proof. intros. unfold disableEEE. emit_all. Qed.

Lemma linkdown_emits : P PHY_POWER_MGMT -> emits clearPhyLinkDown.
Proof. intros. unfold clearPhyLinkDown. emit_all. Qed.

Lemma multicast_emits : (forall i, 0 <= i < 128 -> P (MTA_BASE + i * 4)) -> emits zeroMulticastTable.
Proof. intros HM. unfold zeroMulticastTable. emit_all. apply HM. lia. Qed.

Lemma mac_emits : emits readMacAddress.
Proof. unfold readMacAddress. emit_all. Qed.

Lemma writePhy_emits r v : P MDIC -> emits (writePhy r v).
Proof. intros. unfold writePhy, mdic_wait. emit_all. Qed.

Lemma readPhy_emits r : P MDIC -> emits (readPhy r).
Proof. intros. unfold readPhy, mdic_wait. emit_all. Qed.

Lemma initPhy_emits : P MDIC -> emits initPhy.
Proof. intros. pose proof writePhy_emits. pose proof readPhy_emits. unfold initPhy. emit_all. Qed.

Lemma verify_emits : P MDIC -> emits verifyLowLatencyConfig.
Proof. intros. pose proof writePhy_emits. pose proof readPhy_emits. unfold verifyLowLatencyConfig, phyEeeAdv. emit_all. Qed.

Lemma tail_emits : P MDIC -> emits bring_up_tail.
Proof. intros. pose proof verify_emits. unfold bring_up_tail, isLinkUp, linkSpeedMbps. emit_all. Qed.

Lemma initRx_emits n b : P RDBAL0 -> P RDBAH0 -> P RDLEN0 -> P SRRCTL0 -> P RCTL -> P RXDCTL0 -> P RDT0 -> P DVMOLR0 -> emits (initRx n b).
Proof. intros. unfold initRx. emit_all. Qed.

Lemma initTx_emits n b : P TDBAL0 -> P TDBAH0 -> P TDLEN0 -> P TXDCTL0 -> P TIPG -> P TCTL -> emits (initTx n b).
Proof. intros. unfold initTx. emit_all. Qed.
End Writes.

(** ** The order of the accesses of [init] *)

(** Giving descriptors to the receiver; the receive queue read back as enabled. *)
Definition bumps_rdt (e : event) : bool := match e with Wr off v => (off =? RDT0) && negb (v =? 0) | _ => false end.
Definition rx_queue_on (e : event) : bool := match e with Rd off v => (off =? RXDCTL0) && isset v RXDCTL_ENABLE | _ => false end.
(** Starting an engine; masking all interrupts; telling the NIC the ring's length. *)
Definition starts_rx (e : event) : bool := match e with Wr off v => (off =? RCTL) && isset v RCTL_RXEN | _ => false end.
Definition starts_tx (e : event) : bool := match e with Wr off v => (off =? TCTL) && isset v TCTL_EN | _ => false end.
Definition starts (e : event) : bool := starts_rx e || starts_tx e.
Definition masks_irqs (e : event) : bool := match e with Wr off v => (off =? EIMC) && (v =? IRQ_DISABLE_ALL) | _ => false end.
Definition sets_rdlen (e : event) : bool := match e with Wr off _ => off =? RDLEN0 | _ => false end.
Definition tx_queue_on (e : event) : bool := match e with Rd off v => (off =? TXDCTL0) && isset v TXDCTL_ENABLE | _ => false end.

(** Registers whose writes start nothing. *)
Definition early (off : Z) : Prop := off <> RDT0 /\ off <> RCTL /\ off <> TCTL.
Definition silent (t : event -> bool) : Prop := forall e, wrote early e -> t e = false.

Ltac prove_silent := let e := fresh in intros e; destruct e as [?off ?v|?off ?v]; cbn; [done|]; intros (? & ? & ?);
  unfold starts, starts_rx, starts_tx, bumps_rdt; cbn; rewrite ?(proj2 (Z.eqb_neq _ _)) by done; done.

Lemma bumps_silent : silent bumps_rdt.
Proof. prove_silent. Qed.
Lemma starts_silent : silent starts.
Proof. prove_silent. Qed.
Lemma starts_rx_silent : silent starts_rx.
Proof. prove_silent. Qed.
Lemma starts_tx_silent : silent starts_tx.
Proof. prove_silent. Qed.

Section Order.
Context {D : Type} {DV : Device D} (M : DriverMode) (Nr Nt B : Z).
Abbreviation W := (world D).

Ltac is_early := intros; unfold early, RDT0, RCTL, TCTL, MTA_BASE, EITR0, IMC, EIMC, WUC; lia.

Lemma early_interrupts : emits (D := D) early disableInterrupts.
Proof. apply interrupts_emits; is_early. Qed.
Lemma early_eee : emits (D := D) early disableEEE.
Proof. apply eee_emits; done. Qed.
Lemma early_linkdown : emits (D := D) early clearPhyLinkDown.
Proof. by apply linkdown_emits. Qed.
Lemma early_multicast : emits (D := D) early zeroMulticastTable.
Proof. apply multicast_emits. is_early. Qed.
Lemma early_reset : emits (D := D) early reset.
Proof. by apply reset_emits. Qed.
Lemma early_phy : emits (D := D) early initPhy.
Proof. by apply initPhy_emits. Qed.
Lemma early_tail : emits (D := D) early bring_up_tail.
Proof. by apply tail_emits. Qed.

Create HintDb early.
#[local] Hint Resolve early_interrupts early_eee early_linkdown early_multicast early_reset early_phy early_tail
  aspm_emits mac_emits bumps_silent starts_silent starts_rx_silent starts_tx_silent : early.

(** Step over a part that starts nothing. *)
Ltac skip := apply wp_bind; eapply (wp_quiet _ _ _ early);
  [first [by auto with early | emit_all] | by auto with early | intros ? ? _; cbn [negb]].
Ltac skip_ret := apply wp_ret; done.
Ltac branch := match goal with |- context [if negb ?b then _ else _] => destruct b; cbn [negb]; [|skip_ret] end.

Definition any {A} (a : A) (s : bool) : Prop := True.

Lemma wp_any {A} t q s (m : Prelude.M W A) (Q : A -> bool -> Prop) : wp t q s m any -> (forall a s', Q a s') -> wp t q s m Q.
Proof.
  intros Hm HQ w. destruct (Hm w) as (log & Hl & Ho & _). exists log. split; [done|]. split; [done|]. by destruct (fst (m w)).
Qed.

(** [init], for an access pair that [initRx] and [initTx] keep in order. *)
Lemma init_wp t q fuel :
  silent t -> (forall s, wp t q s (initRx (D := D) Nr B) any) -> (forall s, wp t q s (initTx (D := D) Nt B) any) ->
  wp t q false (init M Nr Nt B fuel) any.
Proof.
  intros Ht HR HT. unfold init. skip. branch. do 7 skip. skip. branch. do 2 skip.
  apply wp_bind, wp_any; [destruct (HAS_RX M); [apply HR|by apply wp_ret]|]. intros ok s1. branch.
  apply wp_bind, wp_any; [destruct (HAS_TX M); [apply HT|by apply wp_ret]|]. intros ok s2. branch.
  skip. by apply wp_ret.
Qed.

(** A part that starts nothing keeps every pair in order. *)
Lemma wp_early {A} t q s (m : Prelude.M W A) : silent t -> emits early m -> wp t q s m any.
Proof. intros. by eapply (wp_quiet _ _ _ early). Qed.

Lemma initTx_bumps s : wp bumps_rdt rx_queue_on s (initTx (D := D) Nt B) any.
Proof.
  apply (wp_quiet _ _ _ (fun off => off <> RDT0)); [by apply initTx_emits| |done].
  intros [off v|off v] Hw; cbn in *; [done|]. by rewrite (proj2 (Z.eqb_neq _ _)).
Qed.

Lemma initRx_bumps s : wp bumps_rdt rx_queue_on s (initRx (D := D) Nr B) any.
Proof.
  unfold initRx. skip. branch. skip. branch. do 3 skip. do 2 skip. skip. skip.
  apply wp_bind, wp_write; [done|]. skip. apply wp_bind, wp_write; [done|]. skip.
  apply wp_bind, wp_poll_bit; [done| |].
  - intros sp _. skip. skip_ret.
  - intros sp x _ Hv. assert (rx_queue_on (Rd RXDCTL0 x) = true) as -> by exact Hv. rewrite orb_true_r.
    apply wp_seen; [emit_all|done].
Qed.

Lemma initRx_rdlen s : wp starts_rx sets_rdlen s (initRx (D := D) Nr B) any.
Proof.
  unfold initRx. skip. branch. skip. branch. do 5 skip.
  apply wp_bind, wp_write; [done|]. rewrite orb_true_r. apply wp_seen; [emit_all|done].
Qed.

Lemma initTx_rdlen s : wp starts_rx sets_rdlen s (initTx (D := D) Nt B) any.
Proof.
  apply (wp_quiet _ _ _ (fun off => off <> RCTL)); [by apply initTx_emits| |done].
  intros [off v|off v] Hw; cbn in *; [done|]. by rewrite (proj2 (Z.eqb_neq _ _)).
Qed.

Lemma initRx_txon s : wp starts_tx tx_queue_on s (initRx (D := D) Nr B) any.
Proof.
  apply (wp_quiet _ _ _ (fun off => off <> TCTL)); [by apply initRx_emits| |done].
  intros [off v|off v] Hw; cbn in *; [done|]. by rewrite (proj2 (Z.eqb_neq _ _)).
Qed.

Lemma initTx_txon s : wp starts_tx tx_queue_on s (initTx (D := D) Nt B) any.
Proof.
  unfold initTx. skip. branch. skip. branch. do 8 skip.
  apply wp_bind, wp_poll_bit; [done| |].
  - intros sp _. skip_ret.
  - intros sp x _ Hv. assert (tx_queue_on (Rd TXDCTL0 x) = true) as -> by exact Hv. rewrite orb_true_r.
    apply wp_seen; [emit_all|done].
Qed.

Lemma init_masked fuel : wp starts masks_irqs false (init M Nr Nt B fuel) any.
Proof.
  unfold init. skip. branch. do 2 skip. unfold disableInterrupts at 1. apply wp_bind, wp_bind, wp_write; [done|].
  apply wp_bind, wp_write; [done|]. cbn [orb masks_irqs]. rewrite orb_true_r.
  apply wp_seen; [emit_all|]. intros _. apply wp_seen; [|done].
  pose proof (initPhy_emits (D := D) (fun _ => True) I). pose proof (tail_emits (D := D) (fun _ => True) I).
  unfold disableEEE, clearPhyLinkDown, zeroMulticastTable, readMacAddress, initRx, initTx. emit_all.
Qed.
End Order.

Lemma wp_precedes {D} `{Device D} {A} t q (m : Prelude.M (world D) A) w :
  wp t q false m any -> trace w = [] -> precedes q t (trace (snd (m w))).
Proof. intros Hm Ht. destruct (Hm w) as (log & Hl & Ho & _). rewrite Hl, Ht. by apply ordered_precedes. Qed.

(** C20: Whatever the device answers and wherever bring-up stops, [init] touches the registers
    in the order the data sheet asks for: receive descriptors are handed over only after
    the receive queue was read back as enabled, no engine is started before all interrupts
    are masked, the receiver only after the ring's length was programmed, the transmitter
    only after its queue was read back as enabled. *)
Theorem i210_init_order {D} `{Device D} M Nr Nt B fuel (w : world D) :
  trace w = [] ->
  let log := trace (snd (init M Nr Nt B fuel w)) in
  precedes rx_queue_on bumps_rdt log /\ precedes masks_irqs starts log /\
  precedes sets_rdlen starts_rx log /\ precedes tx_queue_on starts_tx log.
Proof.
  intros Hw log. split_and!; apply wp_precedes; try done.
  - apply init_wp; [apply bumps_silent|intros; apply initRx_bumps|intros; apply initTx_bumps].
  - apply init_masked.
  - apply init_wp; [apply starts_rx_silent|intros; apply initRx_rdlen|intros; apply initTx_rdlen].
  - apply init_wp; [apply starts_tx_silent|intros; apply initRx_txon|intros; apply initTx_txon].
Qed.

(** ** What the registers hold after bring-up *)
Section Settled.
Context {D : Type} {DV : Device D}.
Abbreviation W := (world D).
Implicit Types (w : W) (Q : Z -> Prop).

(** From now on, until software writes it or resets the device, register [r] reads as [Q]. *)
Definition settled (r : Z) Q (d : D) : Prop := forall d', rtc (dstep r) d d' -> Q (fst (reg_read r d')).

Definition away (r off : Z) : Prop := off <> r /\ off <> CTRL.

Lemma bind_inv {A B} (m : Prelude.M W A) (f : A -> Prelude.M W B) w b w' :
  (m ≫= f) w = (Done b, w') -> exists a w1, m w = (Done a, w1) /\ f a w1 = (Done b, w').
Proof. unfold mbind, M_bind. destruct (m w) as [[a| | | |] w1]; intros; simplify_eq. eauto. Qed.

Lemma kept {A} r Q (m : Prelude.M W A) w o w1 : m w = (o, w1) -> emits (away r) m -> settled r Q (dev w) -> settled r Q (dev w1).
Proof.
  intros Hr Hm Hs d' Hd. destruct (Hm w) as (_ & _ & _ & Hst). rewrite Hr in Hst. apply Hs. etrans; [|exact Hd].
  apply Hst; unfold away; tauto.
Qed.

Lemma settled_mono r Q Q' d : (forall x, Q x -> Q' x) -> settled r Q d -> settled r Q' d.
Proof. intros HQ Hs d' Hd. apply HQ, Hs, Hd. Qed.

Lemma settled_read r Q w v w1 : settled r Q (dev w) -> readReg r w = (Done v, w1) -> Q v.
Proof.
  intros Hs Hr. unfold readReg in Hr. specialize (Hs (dev w) (rtc_refl _ _)). destruct (reg_read r (dev w)). by simplify_eq.
Qed.

(** When [m] answers something [ok], register [r] is settled. *)
Definition settles {A} r Q (m : Prelude.M W A) (ok : A -> Prop) : Prop :=
  forall w a w1, m w = (Done a, w1) -> ok a -> settled r Q (dev w1).

Lemma settles_bind {A B} r Q (m : Prelude.M W A) (f : A -> Prelude.M W B) ok0 ok :
  settles r Q m ok0 -> (forall a, {ok0 a} + {~ ok0 a}) -> (forall a, ~ ok0 a -> settles r Q (f a) ok) ->
  (forall a, ok0 a -> emits (away r) (f a)) -> settles r Q (m ≫= f) ok.
Proof.
  intros Hm Hdec Hn Hy w b w2 Hr Hok. apply bind_inv in Hr as (a & w1 & H1 & H2).
  destruct (Hdec a) as [Ha|Ha]; [|by eapply (Hn a Ha)]. eapply kept; [exact H2|by apply Hy|by eapply Hm].
Qed.

Lemma settles_l {A B} r Q (m : Prelude.M W A) (f : A -> Prelude.M W B) ok :
  settles r Q m (fun _ => True) -> (forall a, emits (away r) (f a)) -> settles r Q (m ≫= f) ok.
Proof. intros Hm Hf. apply (settles_bind _ _ _ _ (fun _ => True)); [exact Hm|by left|tauto|intros a _; apply Hf]. Qed.

Lemma settles_r {A B} r Q (m : Prelude.M W A) (f : A -> Prelude.M W B) ok :
  (forall a, settles r Q (f a) ok) -> settles r Q (m ≫= f) ok.
Proof. intros Hf w b w2 Hr Hok. apply bind_inv in Hr as (a & w1 & _ & H2). by eapply Hf. Qed.

Lemma settles_not {A} r Q (a : A) (ok : A -> Prop) : ~ ok a -> settles r Q (mret a) ok.
Proof. intros Hn w b w1 Hr Hok. by injection Hr as -> ->. Qed.

(** What the driver relies on in the device: the registers it programs keep the bits written,
    the throttle register may drop its two low bits, a queue once read as enabled stays
    enabled, a reset clears its own request and leaves the Qav mode off. *)
Definition plain : list (Z * Z) :=
  [(EEER, 458752); (IPCNFG, 12); (DMACR, 2147483648); (PCIEMISC, 128); (CTRL_EXT, 3145728);
   (CTRL, Z.lor CTRL_RFCE CTRL_TFCE); (DVMOLR0, DVMOLR_STRCRC)].
Class I210Laws := {
  plain_law r mask v d : (r, mask) ∈ plain -> (r = CTRL -> isset v CTRL_DEV_RST = false) ->
    settled r (fun x => Z.land x mask = Z.land v mask) (reg_write r v d);
  eitr_law d : settled EITR0 (fun x => x = 65535 \/ x = 65532) (reg_write EITR0 65535 d);
  queue_law q d : q = RXDCTL0 \/ q = TXDCTL0 -> isset (fst (reg_read q d)) RXDCTL_ENABLE = true ->
    settled q (fun x => isset x RXDCTL_ENABLE = true) (snd (reg_read q d));
  qav_law d : isset (fst (reg_read TQAVCTRL d)) 1 = false;
  reset_law d : isset (fst (reg_read CTRL d)) CTRL_DEV_RST = false;
}.

Context `{!I210Laws}.

Lemma settles_write r mask v : (r, mask) ∈ plain -> (r = CTRL -> isset v CTRL_DEV_RST = false) ->
  settles r (fun x => Z.land x mask = Z.land v mask) (writeReg r v) (fun _ => True).
Proof. intros Hp Hc w a w1 Hr _. injection Hr as <- <-. by apply plain_law. Qed.

Lemma clear_mask v m : 0 <= m < 2 ^ 32 -> Z.land (clear v m) m = 0.
Proof.
  intros Hm. unfold clear. apply Z.bits_inj'. intros i Hi. rewrite !Z.land_spec, Z.lxor_spec, Z.bits_0.
  destruct (Z.testbit m i) eqn:Hb; [|by rewrite andb_false_r].
  destruct (decide (i < 32)).
  - change 4294967295 with (Z.ones 32). rewrite Z.ones_spec_low by lia. by rewrite andb_false_r.
  - exfalso. rewrite Z.bits_above_log2 in Hb; [done|lia|]. destruct (decide (m = 0)) as [->|]; [cbn; lia|].
    assert (Z.log2 m < 32) by (apply Z.log2_lt_pow2; lia). lia.
Qed.

Lemma clear_land v m n : 0 <= m < 2 ^ 32 -> Z.land m n = 0 -> 0 <= n < 2 ^ 32 -> Z.land (clear v m) n = Z.land v n.
Proof.
  intros Hm Hmn Hn. unfold clear. apply Z.bits_inj'. intros i Hi. rewrite !Z.land_spec, Z.lxor_spec.
  assert (Z.testbit m i && Z.testbit n i = false) as Hb by (rewrite <- Z.land_spec, Hmn; apply Z.bits_0).
  destruct (Z.testbit n i) eqn:Hni; [|by rewrite !andb_false_r]. rewrite andb_true_r in Hb. rewrite Hb.
  destruct (decide (i < 32)).
  - change 4294967295 with (Z.ones 32). rewrite Z.ones_spec_low by lia. by rewrite !andb_true_r.
  - exfalso. rewrite Z.bits_above_log2 in Hni; [done|lia|]. destruct (decide (n = 0)) as [->|]; [cbn; lia|].
    assert (Z.log2 n < 32) by (apply Z.log2_lt_pow2; lia). lia.
Qed.

Definition off_bits (mask x : Z) : Prop := Z.land x mask = 0.

Lemma settles_clear r mask v : (r, mask) ∈ plain -> r <> CTRL -> 0 <= mask < 2 ^ 32 ->
  settles r (off_bits mask) (writeReg r (clear v mask)) (fun _ => True).
Proof.
  intros Hp Hc Hm w a w1 Hr Hok. eapply settled_mono; [|by eapply (settles_write r mask (clear v mask) Hp)].
  intros x Hx. unfold off_bits. cbv beta in Hx. by rewrite clear_mask in Hx.
Qed.

Lemma settles_poll q n i (ok : option unit -> Prop) : q = RXDCTL0 \/ q = TXDCTL0 -> (ok None -> False) ->
  settles q (fun x => isset x RXDCTL_ENABLE = true)
    (poll n i (fun _ => v ← readReg q; mret (if isset v RXDCTL_ENABLE then Some tt else None))) ok.
Proof.
  intros Hq Hn. revert i; induction n as [|n IH]; intros i; [by apply settles_not|].
  intros w a w1 Hr Hok. cbn [poll] in Hr. apply bind_inv in Hr as (r & w2 & H1 & H2).
  apply bind_inv in H1 as (v & w3 & H3 & H4). injection H4 as <- <-.
  destruct (isset v RXDCTL_ENABLE) eqn:Hv; [|by eapply (IH (i + 1))]. injection H2 as <- <-.
  unfold readReg in H3. pose proof (queue_law q (dev w) Hq) as Hl. destruct (reg_read q (dev w)) as [v' d']. cbn in *.
  injection H3 as -> <-. by apply Hl.
Qed.
End Settled.
Arguments I210Laws D {DV}.

Ltac away := unfold away, MTA_BASE, EITR0, RXDCTL0, TXDCTL0, CTRL, EEER, IPCNFG, DMACR, PCIEMISC, CTRL_EXT, DVMOLR0, IMC, EIMC, WUC,
  DMCTLX, PHY_POWER_MGMT, MDIC, RDBAL0, RDBAH0, RDLEN0, SRRCTL0, RCTL, RDT0, TDBAL0, TDBAH0, TDLEN0, TIPG, TCTL in *; lia.
(** Step through a run that ended well, keeping what is settled. *)
Ltac step H := apply bind_inv in H as (?x & ?w & ?E & H); cbv beta in H.
Ltac keep_by E tac := match type of E with ?m ?w = (_, ?w1) =>
  repeat match goal with Hs : settled ?r ?Q (dev w) |- _ => apply (kept r Q _ _ _ _ E) in Hs; [|solve [tac; away]] end end.

Lemma ret_inv {W A} (a b : A) (w w' : W) : (mret a : Prelude.M W A) w = (Done b, w') -> a = b.
Proof. by intros [= ->]. Qed.

Section LowLatency.
Context {D : Type} {DV : Device D} {DL : I210Laws D}.
Abbreviation W := (world D).

Ltac emit_away := repeat emit; away.

Definition eitr_ok (x : Z) : Prop := x = 65535 \/ x = 65532.
Definition on (x : Z) : Prop := isset x RXDCTL_ENABLE = true.
Definition strcrc (x : Z) : Prop := isset x DVMOLR_STRCRC = true.

Lemma interrupts_settle : settles (D := D) EITR0 eitr_ok disableInterrupts (fun _ => True).
Proof.
  unfold disableInterrupts. do 4 (apply settles_r; intros ?). apply settles_l; [|intros ?; emit_away].
  cbn [for_loop]. apply settles_l; [|intros ?; emit_away]. intros w x w1 Hr _. injection Hr as <- <-. apply eitr_law.
Qed.

Ltac clears := apply settles_l; [apply settles_clear; [by repeat constructor|done|done]|intros ?; emit_away].

Lemma eee_settles r mask : (r, mask) ∈ [(EEER, 458752); (IPCNFG, 12); (DMACR, 2147483648); (PCIEMISC, 128); (CTRL_EXT, 3145728)] ->
  settles (D := D) r (off_bits mask) disableEEE (fun _ => True).
Proof.
  intros Hin. unfold disableEEE. apply settles_r; intros eeer.
  rewrite !elem_of_cons in Hin. destruct Hin as [[= -> ->]|[[= -> ->]|[[= -> ->]|[[= -> ->]|[[= -> ->]|Hin]]]]];
    [..|by apply not_elem_of_nil in Hin].
  - clears.
  - do 2 (apply settles_r; intros ?). clears.
  - do 3 (apply settles_r; intros ?). apply settles_l; [|intros ?; emit_away].
    intros w x w1 Hr _. eapply settled_mono; [|exact (settles_write DMACR 2147483648 0 ltac:(by repeat constructor) ltac:(done) w x w1 Hr I)]. done.
  - do 6 (apply settles_r; intros ?). clears.
  - do 8 (apply settles_r; intros ?). apply settles_clear; [by repeat constructor|done|done].
Qed.

Lemma initRx_settles n b : settles (D := D) RXDCTL0 on (initRx n b) (fun ok => ok = true).
Proof.
  unfold initRx. apply settles_r; intros ok. destruct ok; [cbn [negb]|by apply settles_not].
  apply settles_r; intros ok. destruct ok; [cbn [negb]|by apply settles_not]. do 11 (apply settles_r; intros ?).
  apply (settles_bind _ _ _ _ (fun o => o <> None)); [apply settles_poll; [by left|done]|solve_decision| |].
  - intros [u|] Hn; [by destruct Hn|]. apply settles_r; intros ?. by apply settles_not.
  - intros [u|] Hn; [emit_away|done].
Qed.

Lemma initRx_strcrc n b : settles (D := D) DVMOLR0 strcrc (initRx n b) (fun ok => ok = true).
Proof.
  unfold initRx. apply settles_r; intros ok. destruct ok; [cbn [negb]|by apply settles_not].
  apply settles_r; intros ok. destruct ok; [cbn [negb]|by apply settles_not]. do 11 (apply settles_r; intros ?).
  apply settles_r; intros [u|]; [|apply settles_r; intros ?; by apply settles_not]. do 3 (apply settles_r; intros ?).
  apply settles_l; [|intros ?; emit_away]. intros w x w1 Hr _.
  eapply settled_mono; [|exact (settles_write DVMOLR0 DVMOLR_STRCRC _ ltac:(by repeat constructor) ltac:(done) w x w1 Hr I)].
  intros y Hy. cbv beta in Hy. unfold strcrc, isset. rewrite Hy, Z.land_lor_distr_l.
  change (Z.land DVMOLR_STRCRC DVMOLR_STRCRC) with DVMOLR_STRCRC. apply negb_true_iff, Z.eqb_neq. intros He.
  apply Z.lor_eq_0_iff in He as [_ He]. done.
Qed.

Lemma initTx_settles n b : settles (D := D) TXDCTL0 on (initTx n b) (fun ok => ok = true).
Proof.
  unfold initTx. apply settles_r; intros ok. destruct ok; [cbn [negb]|by apply settles_not].
  apply settles_r; intros ok. destruct ok; [cbn [negb]|by apply settles_not]. do 8 (apply settles_r; intros ?).
  apply (settles_bind _ _ _ _ (fun o => o <> None)); [apply settles_poll; [by right|done]|solve_decision| |].
  - intros [u|] Hn; [by destruct Hn|]. by apply settles_not.
  - intros [u|] Hn; [emit_away|done].
Qed.

Lemma check_off reg mask sub : off_bits mask reg -> Z.land sub mask = sub -> check reg sub true = 0.
Proof.
  intros Ho Hs. unfold check, isset. rewrite <- Hs, (Z.land_comm sub), Z.land_assoc. unfold off_bits in Ho. by rewrite Ho.
Qed.

Ltac keep E := keep_by E ltac:(repeat emit).
Ltac peek E := match type of E with readReg ?r ?w = (Done ?v, _) =>
  lazymatch goal with Hs : settled r ?Q (dev w) |- _ => pose proof (settled_read r Q w v _ Hs E) end; keep E end.

Definition configured (d : D) : Prop :=
  (settled EEER (off_bits 458752) d /\ settled IPCNFG (off_bits 12) d /\ settled DMACR (off_bits 2147483648) d /\
   settled PCIEMISC (off_bits 128) d /\ settled CTRL_EXT (off_bits 3145728) d) /\
  settled EITR0 eitr_ok d /\ settled CTRL (off_bits (Z.lor CTRL_RFCE CTRL_TFCE)) d /\
  settled RXDCTL0 on d /\ settled DVMOLR0 strcrc d /\ settled TXDCTL0 on d.

Lemma phyEeeAdv_emits r : emits (D := D) (away r) phyEeeAdv \/ r = MDIC.
Proof.
  destruct (decide (r = MDIC)) as [|Hr]; [by right|]. left. pose proof (writePhy_emits (D := D) (away r)). pose proof (readPhy_emits (D := D) (away r)).
  unfold phyEeeAdv. assert (away r MDIC) by (split; [congruence|done]). emit_all.
Qed.

Lemma verify_configured (w : W) n w' : configured (dev w) -> verifyLowLatencyConfig w = (Done n, w') ->
  exists w1 adv w2, phyEeeAdv w1 = (Done adv, w2) /\ n = (if isset adv 6 then 1 else 0).
Proof.
  intros [(H1 & H2 & H3 & H4 & H5) (H6 & H7 & H8 & H9 & H10)] Hv. unfold verifyLowLatencyConfig in Hv.
  step Hv. peek E. step Hv. peek E0. step Hv. peek E1. step Hv. peek E2. step Hv. peek E3. step Hv. keep E4.
  assert (isset x4 1 = false) as Hq.
  { unfold readReg in E4. pose proof (qav_law (dev w4)) as Hq. destruct (reg_read TQAVCTRL (dev w4)). by injection E4 as -> _. }
  step Hv. peek E5. step Hv. peek E6. step Hv. peek E7. step Hv.
  repeat match goal with Hs : settled ?r ?Q (dev w8) |- _ =>
    apply (kept r Q _ _ _ _ E8) in Hs; [|destruct (phyEeeAdv_emits r) as [He|He]; [exact He|discriminate He]] end.
  step Hv. peek E9. step Hv. peek E10. apply ret_inv in Hv as <-.
  exists w8, x8, w9. split; [exact E8|].
  rewrite (check_off x 458752 458752), (check_off x0 12 12), (check_off x1 2147483648 2147483648), (check_off x2 128 128),
    (check_off x3 3145728 1048576), (check_off x3 3145728 2097152), (check_off x9 (Z.lor CTRL_RFCE CTRL_TFCE) CTRL_RFCE),
    (check_off x9 (Z.lor CTRL_RFCE CTRL_TFCE) CTRL_TFCE) by done.
  change TXDCTL_ENABLE with RXDCTL_ENABLE. unfold check. rewrite Hq. repeat match goal with H : on _ |- _ => unfold on in H; rewrite H end.
  unfold strcrc in *. match goal with H : isset x10 _ = true |- _ => unfold DVMOLR_STRCRC in H; rewrite H end.
  match goal with H : eitr_ok _ |- _ => destruct H as [-> | ->] end; cbn; destruct (isset x8 6); done.
Qed.
End LowLatency.

Lemma clear_part v m n : 0 <= m < 2 ^ 32 -> Z.land n m = n -> Z.land (clear v m) n = 0.
Proof. intros Hm <-. by rewrite (Z.land_comm n), Z.land_assoc, clear_mask. Qed.

(** The value [init] writes to the control register. *)
Definition ctrl_mask : Z := Z.lor (Z.lor (Z.lor CTRL_FRCSPD CTRL_FRCDPLX) CTRL_RFCE) CTRL_TFCE.

Lemma ctrl_no_reset c : isset c CTRL_DEV_RST = false -> isset (clear (Z.lor c CTRL_SLU) ctrl_mask) CTRL_DEV_RST = false.
Proof.
  unfold isset. intros Hc. apply negb_false_iff, Z.eqb_eq in Hc. apply negb_false_iff, Z.eqb_eq.
  rewrite (clear_land _ ctrl_mask CTRL_DEV_RST); [|split; [by vm_compute|by vm_compute]|reflexivity|split; by vm_compute].
  rewrite Z.land_lor_distr_l, Hc. reflexivity.
Qed.

Lemma ctrl_no_pause c : Z.land (clear c ctrl_mask) (Z.lor CTRL_RFCE CTRL_TFCE) = 0.
Proof. apply clear_part; [split; by vm_compute|reflexivity]. Qed.

Section Bringup.
Context {D : Type} {DV : Device D} {DL : I210Laws D}.
Abbreviation W := (world D).

Lemma ctrl_write_kept r Q v (w : W) u w1 :
  writeReg CTRL v w = (Done u, w1) -> isset v CTRL_DEV_RST = false -> r <> CTRL -> settled r Q (dev w) -> settled r Q (dev w1).
Proof.
  intros Hr Hv Hne Hs d' Hd. injection Hr as _ <-. apply Hs. etrans; [|exact Hd]. apply rtc_once, d_write; [congruence|done].
Qed.


Lemma init_configured Nr Nt B fuel (w : W) rep w' :
  init RxTx Nr Nt B fuel w = (Done (Some rep), w') -> exists w0, configured (dev w0) /\ bring_up_tail w0 = (Done rep, w').
Proof.
  intros Hr. unfold init in Hr. step Hr. destruct x; [cbn [negb] in Hr|discriminate Hr].
  step Hr. step Hr. step Hr. pose proof (interrupts_settle _ _ _ E2 I) as S1.
  step Hr. keep_by E3 ltac:(apply eee_emits).
  assert (forall r m, (r, m) ∈ [(EEER, 458752); (IPCNFG, 12); (DMACR, 2147483648); (PCIEMISC, 128); (CTRL_EXT, 3145728)] -> settled r (off_bits m) (dev w4)) as Se
    by (intros r m Hin; exact (eee_settles r m Hin _ _ _ E3 I)).
  pose proof (Se EEER 458752 ltac:(by repeat constructor)). pose proof (Se IPCNFG 12 ltac:(by repeat constructor)).
  pose proof (Se DMACR 2147483648 ltac:(by repeat constructor)). pose proof (Se PCIEMISC 128 ltac:(by repeat constructor)).
  pose proof (Se CTRL_EXT 3145728 ltac:(by repeat constructor)). clear Se.
  step Hr. keep_by E4 ltac:(apply linkdown_emits). step Hr. keep_by E5 ltac:(apply multicast_emits; intros).
  step Hr. keep_by E6 ltac:(apply mac_emits). step Hr. keep_by E7 ltac:(apply initPhy_emits).
  destruct x6; [cbn [negb] in Hr|discriminate Hr]. step Hr.
  assert (isset x6 CTRL_DEV_RST = false) as Hrst
    by (unfold readReg in E8; pose proof (reset_law (dev w8)) as Hq; destruct (reg_read CTRL (dev w8)); by injection E8 as -> _).
  keep_by E8 ltac:(apply emits_read). step Hr.
  change (Z.lor (Z.lor (Z.lor CTRL_FRCSPD CTRL_FRCDPLX) CTRL_RFCE) CTRL_TFCE) with ctrl_mask in E9. set (cv := clear _ _) in E9. assert (isset cv CTRL_DEV_RST = false) as Hcv by (exact (ctrl_no_reset x6 Hrst)).
  assert (settled CTRL (off_bits (Z.lor CTRL_RFCE CTRL_TFCE)) (dev w10)) as Sc.
  { eapply settled_mono; [|exact (settles_write CTRL _ cv ltac:(by repeat constructor) (fun _ => Hcv) _ _ _ E9 I)].
    intros y Hy. cbv beta in Hy. unfold off_bits. rewrite Hy. apply ctrl_no_pause. }
  repeat match goal with Hs : settled ?r ?Q (dev w9) |- _ => apply (ctrl_write_kept r Q _ _ _ _ E9 Hcv) in Hs; [|done] end.
  cbn [HAS_RX HAS_TX] in Hr. step Hr. destruct x8; [cbn [negb] in Hr|discriminate Hr].
  pose proof (initRx_settles _ _ _ _ _ E10 eq_refl). pose proof (initRx_strcrc _ _ _ _ _ E10 eq_refl).
  keep_by E10 ltac:(apply initRx_emits). step Hr. destruct x8; [cbn [negb] in Hr|discriminate Hr].
  pose proof (initTx_settles _ _ _ _ _ E11 eq_refl). keep_by E11 ltac:(apply initTx_emits).
  step Hr. injection Hr as <- <-. exists w12. split; [|exact E12]. unfold configured. by split_and!.
Qed.

Lemma tail_configured (w : W) rep w' : configured (dev w) -> bring_up_tail w = (Done rep, w') ->
  exists w1, configured (dev w1) /\ verifyLowLatencyConfig w1 = (Done (warnings rep), w').
Proof.
  intros [(H1 & H2 & H3 & H4 & H5) (H6 & H7 & H8 & H9 & H10)] Hr. unfold bring_up_tail in Hr. step Hr.
  keep_by E ltac:(unfold isLinkUp, linkSpeedMbps; emit_all). step Hr. injection Hr as <- <-.
  exists w0. split; [by split_and!|exact E0].
Qed.
End Bringup.


(** ** The capability walk of [disableASPM] *)

(** The configuration space behind the file, and the descriptors that are open. *)
Class ConfigSpace (D : Type) `{Device D} := {
  cfg : D -> bytes;
  fds : D -> gset Z;
  cfg_open_law d : let '(fd, d') := cfg_open d in
    cfg d' = cfg d /\ ((fd < 0 /\ fds d' = fds d) \/ (0 <= fd /\ fd ∉ fds d /\ fds d' = {[fd]} ∪ fds d));
  cfg_pread_law fd n off d : fd ∈ fds d -> 0 <= n -> 0 <= off ->
    cfg_pread fd n off d = (slice (Z.to_nat off) (Z.to_nat n) (cfg d), d);
  cfg_pwrite_law fd bs off d : fd ∈ fds d -> 0 <= off -> off + Z.of_nat (length bs) <= Z.of_nat (length (cfg d)) ->
    let '(_, d') := cfg_pwrite fd bs off d in
    fds d' = fds d /\ (cfg d' = cfg d \/ cfg d' = list_inserts (Z.to_nat off) bs (cfg d));
  cfg_close_law fd d : cfg (cfg_close fd d) = cfg d /\ fds (cfg_close fd d) = fds d ∖ {[fd]};
}.

(** Following the list from [p]: [None] when it does not end within [n] capabilities, else the
    offset of the first PCIe capability, if there is one. *)
Fixpoint pcie_capability (n : nat) (c : bytes) (p : Z) : option (option Z) :=
  if p =? 0 then Some None else
  match n with
  | O => None
  | S n =>
      match c !! Z.to_nat p with
      | Some 16 => Some (Some p)
      | Some _ => match c !! Z.to_nat (p + 1) with Some next => pcie_capability n c next | None => Some None end
      | None => Some None
      end
  end.

Definition link_control (c : bytes) (p : Z) : Z := le_decode (slice (Z.to_nat (p + 16)) 2 c).

Section Aspm.
Context {D : Type} `{ConfigSpace D}.
Abbreviation W := (world D).

Lemma slice_1 (c : bytes) i : slice i 1 c = match c !! i with Some b => [b] | None => [] end.
Proof.
  unfold slice. destruct (c !! i) as [b|] eqn:Hb; [by rewrite (drop_S _ _ _ Hb)|].
  rewrite drop_ge; [done|]. by apply lookup_ge_None.
Qed.

(** Only the link control word of the capability found may change. *)
Definition aspm_effect (r : option Z) (c c' : bytes) : Prop :=
  c' = c \/ exists p, r = Some p /\ p + 16 + 2 <= Z.of_nat (length c) /\
    c' = list_inserts (Z.to_nat (p + 16)) (le_encode 2 (Z.land (link_control c p) 65532)) c.

Lemma run_sys {A B} (f : D -> A * D) (k : A -> Prelude.M W B) w a d :
  f (dev w) = (a, d) -> (sys f ≫= k) w = k a (mk_world (obj w) (rxd w) (trace w) d).
Proof. intros Hf. unfold mbind, M_bind, sys. by rewrite Hf. Qed.

Lemma aspm_walk_run fd n : forall p (w : W), fd ∈ fds (dev w) -> is_bytes (cfg (dev w)) -> 0 <= p ->
  match pcie_capability n (cfg (dev w)) p with
  | None => fst (capability_walk n fd p w) = NoFuel
  | Some r => exists w', capability_walk n fd p w = (Done tt, w') /\ fds (dev w') = fds (dev w) /\ aspm_effect r (cfg (dev w)) (cfg (dev w'))
  end.
Proof.
  induction n as [|n IH]; intros p w Hfd Hc Hp; cbn [pcie_capability capability_walk].
  { destruct (p =? 0); [|done]. exists w. split; [done|]. split; [done|by left]. }
  destruct (p =? 0); [exists w; split; [done|]; split; [done|by left]|].
  assert (forall d, d = mk_world (obj w) (rxd w) (trace w) (dev w) -> d = w) as Hw by (intros ? ->; by destruct w).
  rewrite (run_sys _ _ _ _ _ (cfg_pread_law fd 1 p (dev w) Hfd ltac:(lia) Hp)), (Hw _ eq_refl), slice_1.
  destruct (cfg (dev w) !! Z.to_nat p) as [id|] eqn:Hid; [|exists w; split; [done|]; split; [done|by left]].
  destruct (Z.eqb_spec id 16) as [->|Hne].
  - rewrite (run_sys _ _ _ _ _ (cfg_pread_law fd 2 (p + 16) (dev w) Hfd ltac:(lia) ltac:(lia))), (Hw _ eq_refl).
    destruct (Z.eqb_spec (Z.of_nat (length (slice (Z.to_nat (p + 16)) (Z.to_nat 2) (cfg (dev w))))) 2) as [Hl|Hl];
      [|exists w; split; [done|]; split; [done|by left]].
    unfold slice in Hl. rewrite length_take, length_drop in Hl. fold (link_control (cfg (dev w)) p).
    pose proof (cfg_pwrite_law fd (le_encode 2 (Z.land (link_control (cfg (dev w)) p) 65532)) (p + 16) (dev w) Hfd ltac:(lia)
      ltac:(rewrite length_le_encode; lia)) as Hlaw.
    destruct (cfg_pwrite fd _ _ (dev w)) as [r d] eqn:Ew. rewrite (run_sys _ _ _ _ _ Ew). destruct Hlaw as [Hf He].
    eexists. split; [done|]. split; [exact Hf|]. cbn. destruct He as [He|He]; [by left|]. right. exists p. split; [done|]. split; [lia|exact He].
  - rewrite (run_sys _ _ _ _ _ (cfg_pread_law fd 1 (p + 1) (dev w) Hfd ltac:(lia) ltac:(lia))), (Hw _ eq_refl), slice_1.
    assert (match id with 16 => Some (Some p) | _ => match cfg (dev w) !! Z.to_nat (p + 1) with Some next => pcie_capability n (cfg (dev w)) next | None => Some None end end
      = match cfg (dev w) !! Z.to_nat (p + 1) with Some next => pcie_capability n (cfg (dev w)) next | None => Some None end) as Hm.
    { destruct id as [|q|q]; try done. do 5 (destruct q as [q|q|]; try done). }
    rewrite Hm. destruct (cfg (dev w) !! Z.to_nat (p + 1)) as [nx|] eqn:Hn; [|exists w; split; [done|]; split; [done|by left]].
    apply IH; [done|done|]. pose proof (proj1 (list.Forall_lookup _ _) Hc _ _ Hn) as Hb. cbv beta in Hb. unfold in_u in Hb. lia.
Qed.
End Aspm.

Lemma link_control_written c p x : 0 <= p -> p + 16 + 2 <= Z.of_nat (length c) ->
  link_control (list_inserts (Z.to_nat (p + 16)) (le_encode 2 x) c) p = x mod 2 ^ 16.
Proof.
  intros Hp Hl. unfold link_control. rewrite <- (length_le_encode 2 x) at 1. rewrite slice_inserts_eq by (rewrite length_le_encode; lia).
  apply le_decode_encode.
Qed.

Lemma land_no_aspm x : Z.land (Z.land x 65532 mod 2 ^ 16) 3 = 0.
Proof.
  rewrite <- Z.land_ones by lia. rewrite <- !Z.land_assoc. change (Z.land 65532 (Z.land (Z.ones 16) 3)) with 0. apply Z.land_0_r.
Qed.

Lemma pcie_capability_nonneg n c : forall p q, is_bytes c -> 0 <= p -> pcie_capability n c p = Some (Some q) -> 0 <= q.
Proof.
  induction n as [|n IH]; intros p q Hc Hp; cbn [pcie_capability]; destruct (p =? 0); try done.
  destruct (c !! Z.to_nat p) as [id|]; [|done].
  assert (forall o, match id with 16 => Some (Some p) | _ => o end = Some (Some q) -> p = q \/ o = Some (Some q)) as Hm.
  { intros o Ho. destruct id as [|z|z]; try by right. do 5 (destruct z as [z|z|]; try by right). left. by injection Ho. }
  intros Hr. apply Hm in Hr as [<-|Hr]; [done|]. destruct (c !! Z.to_nat (p + 1)) as [nx|] eqn:Hn; [|done].
  eapply IH; [done| |exact Hr]. pose proof (proj1 (list.Forall_lookup _ _) Hc _ _ Hn) as Hb. cbv beta in Hb. unfold in_u in Hb. lia.
Qed.

(** [disableASPM] follows the capability list of the configuration space: when the list
    ends, with or without a PCIe capability, it returns with no descriptor left open, having
    changed nothing but the two ASPM bits of that capability's link control word; while the
    list has not ended it keeps reading, so a list with a cycle before any PCIe capability
    keeps it forever. *)
Theorem i210_aspm_walk {D} `{ConfigSpace D} n (w : world D) h :
  0 <= fst (cfg_open (dev w)) -> is_bytes (cfg (dev w)) -> cfg (dev w) !! 52%nat = Some h ->
  match pcie_capability n (cfg (dev w)) h with
  | Some r => exists w', disableASPM n w = (Done tt, w') /\ fds (dev w') = fds (dev w) /\ aspm_effect r (cfg (dev w)) (cfg (dev w')) /\
      forall p, r = Some p -> cfg (dev w') = cfg (dev w) \/ Z.land (link_control (cfg (dev w')) p) 3 = 0
  | None => fst (disableASPM n w) = NoFuel
  end.
Proof.
  intros Hopen Hc Hh. unfold disableASPM. pose proof (cfg_open_law (dev w)) as Ho. destruct (cfg_open (dev w)) as [fd d] eqn:Eo.
  cbn in Hopen. destruct Ho as [Hcd [[? _]|(_ & Hnew & Hfds)]]; [lia|].
  assert (fd ∈ fds d) as Hfd by (rewrite Hfds; set_solver). rewrite (run_sys _ _ _ _ _ Eo), (proj2 (Z.ltb_ge _ _)) by lia. cbv beta iota.
  rewrite (run_sys (cfg_pread fd 1 52) _ (mk_world (obj w) (rxd w) (trace w) d) _ _ (cfg_pread_law fd 1 52 d Hfd ltac:(lia) ltac:(lia))).
  cbn [dev obj rxd trace].
  rewrite slice_1, Hcd. change (Z.to_nat 52) with 52%nat. rewrite Hh.
  assert (0 <= h) as Hh0 by (pose proof (proj1 (list.Forall_lookup _ _) Hc _ _ Hh) as Hb; cbv beta in Hb; unfold in_u in Hb; lia).
  pose proof (aspm_walk_run fd n h (mk_world (obj w) (rxd w) (trace w) d) Hfd ltac:(cbn; by rewrite Hcd) Hh0) as Hw. cbn [dev] in Hw.
  rewrite Hcd in Hw. destruct (pcie_capability n (cfg (dev w)) h) as [r|] eqn:Er.
  - destruct Hw as (w1 & Ew & Hf & He). rewrite (run_bind _ _ _ _ _ Ew). eexists. split; [done|]. cbn.
    destruct (cfg_close_law fd (dev w1)) as [Hc1 Hf1]. rewrite Hc1, Hf1, Hf, Hfds. split; [clear - Hnew; set_solver|]. split; [exact He|].
    intros p ->. destruct He as [He|(p' & [= <-] & Hl & ->)]; [by left|]. right.
    rewrite link_control_written; [apply land_no_aspm| |exact Hl]. by eapply pcie_capability_nonneg in Er.
  - unfold mbind, M_bind. destruct (capability_walk n fd h _) as [[| | | |] w1]; try done.
Qed.

(** ** A simulated device: a register file behind a 256-byte configuration space whose
    list is 0x40 -> 0x50 -> 0xa0 (PCIe). *)
Record sim := mk_sim { s_regs : gmap Z Z; s_cfg : bytes; s_fds : gset Z }.

Definition sim_read (off : Z) (d : sim) : Z :=
  if off =? STATUS then 2097282
  else if off =? MDIC then MDIC_READY
  else if off =? TQAVCTRL then 0
  else let v := default 0 (s_regs d !! off) in
    if off =? CTRL then clear v CTRL_DEV_RST else v.

Definition sim_write (off v : Z) (d : sim) : sim :=
  if (off =? CTRL) && isset v CTRL_DEV_RST then mk_sim ∅ (s_cfg d) (s_fds d)
  else mk_sim (<[off := v]> (s_regs d)) (s_cfg d) (s_fds d).

#[export] Instance sim_Mmio : Mmio sim := {| reg_read off d := (sim_read off d, d); reg_write := sim_write |}.

#[export] Instance sim_device : Device sim := {|
  device_mmio := sim_Mmio;
  bus_open d := (true, d);
  bus_isOpen d := true;
  ring_allocate _ _ d := (true, d);
  buffer_allocate _ _ d := (true, d);
  ring_base rx d := if rx then 4294971392 else 8192;
  ring_bytes rx d := 4096;
  buffer_phys rx off d := 1048576 + off;
  cfg_open d := if decide (3 ∈ s_fds d) then (-1, d) else (3, mk_sim (s_regs d) (s_cfg d) ({[3]} ∪ s_fds d));
  cfg_pread fd n off d := (slice (Z.to_nat off) (Z.to_nat n) (s_cfg d), d);
  cfg_pwrite fd bs off d := (Z.of_nat (length bs), mk_sim (s_regs d) (list_inserts (Z.to_nat off) bs (s_cfg d)) (s_fds d));
  cfg_close fd d := mk_sim (s_regs d) (s_cfg d) (s_fds d ∖ {[fd]});
|}.

Lemma sim_step r d d' : dstep r d d' -> sim_read r d' = sim_read r d.
Proof.
  destruct 1 as [off d|off v d Hne Hrst|d|rx n d|rx n d|d|fd n off d|fd bs off d|fd d]; try done.
  - cbn. unfold sim_write. destruct ((off =? CTRL) && isset v CTRL_DEV_RST) eqn:Hr.
    + apply andb_prop in Hr as [Hc%Z.eqb_eq Hv]. by rewrite Hrst in Hv.
    + unfold sim_read. cbn. by rewrite lookup_insert_ne.
  - cbn. by case_decide.
Qed.

Lemma sim_settled r Q d : Q (sim_read r d) -> settled (D := sim) r Q d.
Proof.
  intros HQ d' Hd. change (fst (reg_read r d')) with (sim_read r d'). revert HQ.
  induction Hd as [|d d1 d2 H1 _ IH]; [done|]. intros HQ. apply IH. by rewrite (sim_step _ _ _ H1).
Qed.

Lemma sim_read_write r v d : r <> STATUS -> r <> MDIC -> r <> TQAVCTRL -> (r = CTRL -> isset v CTRL_DEV_RST = false) ->
  sim_read r (sim_write r v d) = if r =? CTRL then clear v CTRL_DEV_RST else v.
Proof.
  intros H1 H2 H3 Hc. unfold sim_write. destruct ((r =? CTRL) && isset v CTRL_DEV_RST) eqn:Hr.
  { apply andb_prop in Hr as [Hr%Z.eqb_eq Hv]. by rewrite Hc in Hv. }
  unfold sim_read. rewrite !(proj2 (Z.eqb_neq _ _)) by done. cbn. by rewrite lookup_insert_eq.
Qed.

#[export] Instance sim_laws : I210Laws sim.
Proof.
  constructor.
  - intros r mask v d Hp Hc. apply sim_settled. change (reg_write r v d) with (sim_write r v d).
    unfold plain in Hp. rewrite !elem_of_cons in Hp.
    destruct Hp as [[= -> ->]|[[= -> ->]|[[= -> ->]|[[= -> ->]|[[= -> ->]|[[= -> ->]|[[= -> ->]|Hp]]]]]]];
      [..|by apply not_elem_of_nil in Hp]; rewrite sim_read_write by done; try done.
    cbn. rewrite clear_land; [done|split; by vm_compute|reflexivity|split; by vm_compute].
  - intros d. apply sim_settled. left.
    change (reg_write EITR0 65535 d) with (sim_write EITR0 65535 d). by rewrite sim_read_write.
  - intros q d _ Hq. apply sim_settled. exact Hq.
  - done.
  - intros d. change (fst (reg_read CTRL d)) with (clear (default 0 (s_regs d !! CTRL)) CTRL_DEV_RST).
    unfold isset. rewrite clear_mask; [done|split; by vm_compute].
Qed.

#[export] Program Instance sim_config : ConfigSpace sim := {| cfg := s_cfg; fds := s_fds |}.
Next Obligation. intros d. cbn. case_decide; cbn; [split; [done|left; done]|]. split; [done|]. right. by split_and!. Qed.
Next Obligation. done. Qed.
Next Obligation. intros fd bs off d Hfd Ho Hl. cbn. split; [done|by right]. Qed.
Next Obligation. done. Qed.

Definition sim_space (pcie next : Z) : bytes :=
  <[52%nat := 64]> (<[64%nat := 1]> (<[65%nat := 80]> (<[80%nat := 5]> (<[81%nat := next]>
    (<[160%nat := pcie]> (<[161%nat := 0]> (<[176%nat := 67]> (replicate 256 0)))))))).

Definition sim_start : world sim := mk_world (mk_I210 0 0 0 0 0 []) [] [] (mk_sim ∅ (sim_space 16 160) ∅).

Definition sim_brought_up : outcome (option report) * world sim := init RxTx 256 256 2048 300 sim_start.

Lemma sim_brought_up_ok : fst sim_brought_up = Done (Some (mk_report (Some 1000) 0)).
Proof. vm_compute. reflexivity. Qed.

Lemma i210_init_order_witness :
  length (filter (fun e => bumps_rdt e = true) (trace (snd sim_brought_up))) = 1%nat /\
  precedes rx_queue_on bumps_rdt (trace (snd sim_brought_up)).
Proof.
  pose proof (i210_init_order RxTx 256 256 2048 300 sim_start eq_refl) as (Ho & _).
  split; [vm_compute; reflexivity|exact Ho].
Defined.


Lemma sim_opens (d : sim) : s_fds d = ∅ -> 0 <= fst (cfg_open d).
Proof. intros Hd. cbn. rewrite Hd. by vm_compute. Qed.

(** The link control word at 0xb0 is 0x43 before and 0x40 after; with the list bent back to
    its start the walk never ends. *)
Lemma i210_aspm_walk_witness :
  (exists w', disableASPM 3 sim_start = (Done tt, w') /\ s_fds (dev w') = ∅) /\
  fst (disableASPM 1000 (mk_world (mk_I210 0 0 0 0 0 []) [] [] (mk_sim ∅ (sim_space 16 64) ∅))) = NoFuel.
Proof.
  split.
  - destruct (i210_aspm_walk 3 sim_start 64 (sim_opens (dev sim_start) eq_refl) ltac:(apply (bool_decide_unpack _); vm_compute; exact I) eq_refl) as (w' & E & Hf & _).
    by exists w'.
  - exact (i210_aspm_walk 1000 (mk_world (mk_I210 0 0 0 0 0 []) [] [] (mk_sim ∅ (sim_space 16 64) ∅)) 64 (sim_opens (mk_sim ∅ (sim_space 16 64) ∅) eq_refl)
      ltac:(apply (bool_decide_unpack _); vm_compute; exact I) eq_refl).
Defined.

(** The simulated walk really clears the two bits, and the MAC address is read little-endian. *)
Lemma sim_aspm_cleared : link_control (s_cfg (dev (snd (disableASPM 3 sim_start)))) 160 = 64.
Proof. vm_compute. reflexivity. Qed.

Lemma sim_mac : mac_of 1432778632 26214 = [136; 119; 102; 85; 102; 102].
Proof. vm_compute. reflexivity. Qed.
