(* ===== verification/Verbs.v ===== *)
(** * The RDMA verbs transport (src/backends/Verbs/Verbs.hpp)

    [Tx]: one reused frame slot whose bytes [ibv_post_send] copies into the send queue, and
    the lazy reaping of the completions of every [SignalEvery]-th send.  [Rx]: the receive
    queue and the completion queue of an mlx5 device driven directly, without the library,
    by their raw entries, indices and doorbell records.  [Setup]: [init] and [shutdown]. *)

From S2P Require Import Prelude RingWindow RingConcepts.

(** ** Transmit *)
Module Tx.

(** The members the transmit side uses; the frame slot is the start of [m_buf]. *)
Record Verbs := mk_verbs {
  m_maxInline : Z;
  m_txLen : Z;
  m_txCount : Z;
  m_unreaped : Z;
  m_buf : bytes;
}.

Definition set_txLen (n : Z) (o : Verbs) : Verbs := mk_verbs (m_maxInline o) n (m_txCount o) (m_unreaped o) (m_buf o).
Definition set_buf (b : bytes) (o : Verbs) : Verbs := mk_verbs (m_maxInline o) (m_txLen o) (m_txCount o) (m_unreaped o) b.
Definition set_count (c u : Z) (o : Verbs) : Verbs := mk_verbs (m_maxInline o) (m_txLen o) c u (m_buf o).

(** [ibv_post_send] of one inline send, signalled or not, and [ibv_poll_cq(m_sendCq, 1)]. *)
Class SendQueue (L : Type) := {
  ibv_post_send : bytes -> bool -> L -> Z * L;
  ibv_poll_cq : L -> Z * L;
}.

Section Operations.
Context {L : Type} {SQ : SendQueue L} (SqDepth SignalEvery MaxFrame : Z) (fuel : nat).
Abbreviation W := (Verbs * L)%type.

Definition set_obj (f : Verbs -> Verbs) : M W unit := modify (fun w => (f (fst w), snd w)).
Definition on_queue {A} (f : L -> A * L) : M W A := fun w => let '(a, l) := f (snd w) in (Done a, (fst w, l)).

(** [acquire]; the result is the offset of the slot in [m_buf]. *)
Definition acquire (frameLen : Z) : M W (option Z) := set_obj (set_txLen frameLen) ;; mret (Some 0).

Definition write (p : Z) (src : bytes) : M W unit :=
  o ← gets fst;
  match store (Z.to_nat p) src (m_buf o) with
  | Some b => set_obj (set_buf b)
  | None => raise Undef
  end.

(** [while (m_unreaped >= SqDepth / SignalEvery - 1) if (ibv_poll_cq(...) > 0) --m_unreaped;] *)
Fixpoint reap_loop (n : nat) : M W unit :=
  o ← gets fst;
  if m_unreaped o <? SqDepth / SignalEvery - 1 then mret tt else
  match n with
  | O => raise NoFuel
  | S n =>
      r ← on_queue ibv_poll_cq;
      (if 0 <? r then set_obj (fun o => set_count (m_txCount o) (m_unreaped o - 1) o) else mret tt) ;;
      reap_loop n
  end.

(** [commit] *)
Definition commit : M W unit :=
  o ← gets fst;
  let count := u64 (m_txCount o + 1) in
  let signaled := Z.land count (SignalEvery - 1) =? 0 in
  let unreaped := if signaled then u32 (m_unreaped o + 1) else m_unreaped o in
  set_obj (set_count count unreaped) ;;
  match load 0 (Z.to_nat (m_txLen o)) (m_buf o) with
  | None => raise Undef
  | Some frame =>
      _ ← on_queue (ibv_post_send frame signaled);
      if 2 <=? unreaped then
        r ← on_queue ibv_poll_cq;
        (if 0 <? r then set_obj (fun o => set_count (m_txCount o) (m_unreaped o - 1) o) else mret tt) ;;
        reap_loop fuel
      else mret tt
  end.

(** [send] *)
Definition send (frame : bytes) : M W bool :=
  o ← gets fst;
  if (m_maxInline o <? Z.of_nat (length frame)) || (MaxFrame <? Z.of_nat (length frame)) then mret false else
  dst ← acquire (u32 (Z.of_nat (length frame)));
  match dst with None => mret false | Some p => write p frame ;; commit ;; mret true end.

(** [prefillRing] *)
Definition prefillRing (t : bytes) : M W unit := write 0 (take (Z.to_nat (Z.min (Z.of_nat (length t)) MaxFrame)) t).

#[export] Instance Verbs_TxRing : TxRing W := {|
  tx_acquire := acquire; tx_write := write; tx_commit := commit; tx_send := send; tx_prefillRing := prefillRing |}.
End Operations.

(** What is in the send queue: everything posted, how much of it the NIC has sent, and how
    many entries the provider has taken back. *)
Record view := mk_view { v_posted : list (bytes * bool); v_sent : Z; v_tail : Z }.

Inductive kstep : view -> view -> Prop :=
  | k_send v : v_sent v < Z.of_nat (length (v_posted v)) -> kstep v (mk_view (v_posted v) (v_sent v + 1) (v_tail v)).

(** A signalled entry at position [p] with none before it that is not taken back yet. *)
Definition next_signal (v : view) (p : Z) : Prop :=
  v_tail v <= p /\ (exists f, v_posted v !! Z.to_nat p = Some (f, true)) /\
  forall j f, v_tail v <= j < p -> v_posted v !! Z.to_nat j <> Some (f, true).

(** The documented behaviour: a post succeeds when the frame fits the inline limit and
    the queue has room, and takes the bytes at once; a poll returns the completion of the
    next signalled entry that was sent and frees the entries up to it, and comes back empty a
    bounded number of times in a row while one is outstanding. *)
Class SendQueueLaws (SqDepth maxInline : Z) (L : Type) `{SendQueue L} := {
  sview : L -> view;
  patience : L -> nat;
  max_patience : nat;
  patience_bound l : (patience l <= max_patience)%nat;
  post_law f sig l : let '(r, l') := ibv_post_send f sig l in
    exists v, rtc kstep (sview l) v /\
      if decide (Z.of_nat (length f) <= maxInline /\ Z.of_nat (length (v_posted v)) - v_tail v < SqDepth)
      then r = 0 /\ sview l' = mk_view (v_posted v ++ [(f, sig)]) (v_sent v) (v_tail v)
      else r <> 0 /\ sview l' = v;
  poll_law l : let '(r, l') := ibv_poll_cq l in
    exists v, rtc kstep (sview l) v /\
      ((r = 1 /\ exists p, next_signal v p /\ p < v_sent v /\ sview l' = mk_view (v_posted v) (v_sent v) (p + 1)) \/
       (r = 0 /\ sview l' = v /\ ((exists p, next_signal v p) -> (patience l' < patience l)%nat)));
}.

Section Properties.
Context {L : Type} {SQ : SendQueue L} (SD SE MF MI room : Z) (fuel : nat) {SL : SendQueueLaws SD MI L}.
Abbreviation W := (Verbs * L)%type.
Implicit Types (w : W).
Context (SEpow : is_pow2 SE) (SDmin : SE * 4 <= SD) (SDmax : SD < 2 ^ 16).

Definition entries (sent : list bytes) : list (bytes * bool) :=
  imap (fun i f => (f, (Z.of_nat i + 1) mod SE =? 0)) sent.

(** The first [k] signalled entries are taken back. *)
Definition queued (sent : list bytes) (k : Z) (v : view) : Prop :=
  v_posted v = entries sent /\ v_tail v = SE * k /\ 0 <= k /\ SE * k <= v_sent v <= Z.of_nat (length sent).

Lemma SE_pos : 0 < SE.
Proof. by apply is_pow2_pos. Qed.

Lemma entries_snoc sent f : entries (sent ++ [f]) = entries sent ++ [(f, (Z.of_nat (length sent) + 1) mod SE =? 0)].
Proof. unfold entries. rewrite imap_app. cbn. by rewrite Nat.add_0_r. Qed.

Lemma entries_length sent : length (entries sent) = length sent.
Proof. apply length_imap. Qed.

Lemma queued_steps sent k v v' : rtc kstep v v' -> queued sent k v -> queued sent k v'.
Proof.
  intros Hr. induction Hr as [v|v v1 v2 [v0 Hlt] _ IH]; [done|]. intros (Hp & Ht & Hk & Hs). apply IH.
  split_and!; cbn; try done; try lia. rewrite Hp, entries_length in Hlt. lia.
Qed.

Lemma entry_signal sent p f b : 0 <= p -> entries sent !! Z.to_nat p = Some (f, b) -> b = ((p + 1) mod SE =? 0) /\ p < Z.of_nat (length sent).
Proof.
  intros Hp He. unfold entries in He. rewrite list_lookup_imap in He. destruct (sent !! Z.to_nat p) as [g|] eqn:Hg; [|done].
  injection He as <- <-. apply lookup_lt_Some in Hg. rewrite Z2Nat.id by done. split; [done|lia].
Qed.

(** The next completion is the one that ends the [k]-th period. *)
Lemma next_signal_at sent k v p : queued sent k v -> next_signal v p -> p = SE * k + SE - 1 /\ SE * (k + 1) <= Z.of_nat (length sent).
Proof.
  intros (Hp & Ht & Hk & Hs) (Hlo & (f & Hf) & Hno). pose proof SE_pos. rewrite Hp in Hf.
  destruct (entry_signal sent p f true ltac:(nia) Hf) as [Hb Hlt]. symmetry in Hb. apply Z.eqb_eq in Hb.
  assert (SE * k + SE - 1 <= p).
  { destruct (decide (SE * k + SE - 1 <= p)) as [|Hn]; [done|]. exfalso.
    assert ((p + 1) mod SE = p + 1 - SE * k) as Hm; [|lia]. symmetry. apply (Z.mod_unique _ _ k); lia. }
  assert (p = SE * k + SE - 1) as ->; [|split; [done|lia]].
  destruct (decide (p = SE * k + SE - 1)) as [|Hne]; [done|]. exfalso.
  destruct (lookup_lt_is_Some_2 sent (Z.to_nat (SE * k + SE - 1))) as [g Hg]; [lia|].
  apply (Hno (SE * k + SE - 1) g); [lia|]. rewrite Hp. unfold entries. rewrite list_lookup_imap, Hg. cbn. do 2 f_equal.
  rewrite Z2Nat.id by lia. apply Z.eqb_eq. replace (SE * k + SE - 1 + 1) with ((k + 1) * SE) by lia. apply Z_mod_mult.
Qed.

Lemma next_signal_exists sent k v : queued sent k v -> SE * (k + 1) <= Z.of_nat (length sent) -> exists p, next_signal v p.
Proof.
  intros (Hp & Ht & Hk & Hs) Hle. pose proof SE_pos. exists (SE * k + SE - 1). split; [lia|]. split.
  - destruct (lookup_lt_is_Some_2 sent (Z.to_nat (SE * k + SE - 1))) as [g Hg]; [lia|]. exists g.
    rewrite Hp. unfold entries. rewrite list_lookup_imap, Hg. cbn. do 2 f_equal. rewrite Z2Nat.id by lia. apply Z.eqb_eq.
    replace (SE * k + SE - 1 + 1) with ((k + 1) * SE) by lia. apply Z_mod_mult.
  - intros j f Hj He. rewrite Hp in He. destruct (entry_signal sent j f true ltac:(nia) He) as [Hb _]. symmetry in Hb. apply Z.eqb_eq in Hb.
    assert ((j + 1) mod SE = j + 1 - SE * k) as Hm; [|lia]. symmetry. apply (Z.mod_unique _ _ k); lia.
Qed.

Lemma poll_queued sent k (l : L) : queued sent k (sview l) ->
  let '(r, l') := ibv_poll_cq l in
  (r = 1 /\ queued sent (k + 1) (sview l') /\ SE * (k + 1) <= Z.of_nat (length sent)) \/
  (r = 0 /\ queued sent k (sview l') /\ (SE * (k + 1) <= Z.of_nat (length sent) -> (patience l' < patience l)%nat)).
Proof.
  intros Hq. pose proof (poll_law l) as Hl. destruct (ibv_poll_cq l) as [r l']. destruct Hl as (v & Hr & Hc).
  pose proof (queued_steps _ _ _ _ Hr Hq) as Hv. destruct Hc as [(-> & p & Hn & Hs & ->)|(-> & -> & Hd)].
  - left. destruct (next_signal_at _ _ _ _ Hv Hn) as [-> Hle]. split; [done|]. split; [|done].
    destruct Hv as (Hp & Ht & Hk & Hb). split_and!; cbn; try done; lia.
  - right. split; [done|]. split; [done|]. intros Hle. apply Hd. by eapply next_signal_exists.
Qed.

(** The members agree with the queue: [n] frames sent, [k] periods reaped. *)
Definition inv (sent : list bytes) (k : Z) w : Prop :=
  queued sent k (sview (snd w)) /\ m_txCount (fst w) = u64 (Z.of_nat (length sent)) /\
  m_unreaped (fst w) = Z.of_nat (length sent) / SE - k /\ m_maxInline (fst w) = MI /\ MF <= Z.of_nat (length (m_buf (fst w))).

Definition idle (h : bytes) (sent : list bytes) w : Prop :=
  (exists k, inv sent k w) /\ m_unreaped (fst w) < SD / SE - 1 /\ h `prefix_of` m_buf (fst w).
Definition lent (h : bytes) (sent : list bytes) (p : Z) (b : bytes) w : Prop :=
  (exists k, inv sent k w) /\ m_unreaped (fst w) < SD / SE - 1 /\
  p = 0 /\ Z.of_nat (length b) <= room /\ m_txLen (fst w) = Z.of_nat (length b) /\ b `prefix_of` m_buf (fst w).
Definition fresh w : Prop := inv [] 0 w.

Lemma periods : 4 <= SD / SE.
Proof. apply Z.div_le_lower_bound; [apply SE_pos|lia]. Qed.

Lemma run_set {A} f (K : unit -> M W A) o (l : L) : (set_obj f ≫= K) (o, l) = K tt (f o, l).
Proof. done. Qed.

Lemma run_queue {A B} (f : L -> A * L) (K : A -> M W B) o (l : L) a l' : f l = (a, l') -> (on_queue f ≫= K) (o, l) = K a (o, l').
Proof. intros Hf. unfold mbind, M_bind, on_queue. cbn. by rewrite Hf. Qed.

(** Answering a completion. *)
Lemma reap_one sent k o (l l' : L) : inv sent k (o, l) -> queued sent (k + 1) (sview l') -> inv sent (k + 1) (set_count (m_txCount o) (m_unreaped o - 1) o, l').
Proof. intros (Hq & Hc & Hu & Hm & Hb) Hq'. split_and!; cbn in *; try done. lia. Qed.

Lemma reap_loop_run sent n : forall k w,
  inv sent k w -> m_unreaped (fst w) <= SD / SE - 1 -> (patience (snd w) < n)%nat ->
  exists w' k', reap_loop SD SE n w = (Done tt, w') /\ inv sent k' w' /\ m_unreaped (fst w') < SD / SE - 1 /\
    m_buf (fst w') = m_buf (fst w) /\ m_txLen (fst w') = m_txLen (fst w).
Proof.
  induction n as [|n IH]; intros k [o l] Hi Hu Hp; [lia|]. pose proof periods. pose proof SE_pos. cbn [reap_loop]. rewrite run_gets. cbn [fst].
  destruct (Z.ltb_spec (m_unreaped o) (SD / SE - 1)) as [Hlt|Hge]; [by exists (o, l), k|].
  pose proof Hi as (Hq & Hc & Hun & Hm & Hb). cbn in Hun, Hq, Hp, Hu. pose proof (poll_queued sent k l Hq) as Hl.
  destruct (ibv_poll_cq l) as [r l'] eqn:Epoll. rewrite (run_queue _ _ _ _ _ _ Epoll).
  destruct Hl as [(-> & Hq' & _)|(-> & Hq' & Hpat)]; cbn [Z.ltb Z.compare].
  - rewrite run_set.
    exists (set_count (m_txCount o) (m_unreaped o - 1) o, l'), (k + 1). split.
    + destruct n; cbn [reap_loop]; rewrite run_gets; cbn [fst m_unreaped set_count]; rewrite (proj2 (Z.ltb_lt _ _)) by lia; done.
    + split; [by eapply reap_one|]. split; [cbn; lia|done].
  - rewrite bind_ret_l. assert (SE * (k + 1) <= Z.of_nat (length sent)) as Hout.
    { assert (k + 1 <= Z.of_nat (length sent) / SE) as Hk by lia. pose proof (Z.mul_div_le (Z.of_nat (length sent)) SE ltac:(lia)). nia. }
    specialize (Hpat Hout). apply (IH k (o, l')); [|done|cbn; lia]. split_and!; try done.
Qed.

Lemma count_signal n : Z.land (u64 (u64 n + 1)) (SE - 1) = (n + 1) mod SE.
Proof.
  rewrite wrap_add_l. apply mask_wrap; [done| |lia]. pose proof SE_pos. change (2 ^ 64) with 18446744073709551616. change (2 ^ 16) with 65536 in SDmax. lia.
Qed.

Lemma div_succ n : 0 <= n -> (n + 1) / SE = n / SE + (if (n + 1) mod SE =? 0 then 1 else 0).
Proof. intros Hn. pose proof SE_pos. destruct (Z.eqb_spec ((n + 1) mod SE) 0); Z.div_mod_to_equations; nia. Qed.

(** The queue has room whenever no more periods are outstanding than the backstop allows. *)
Lemma room_left n k : 0 <= n -> n / SE - k < SD / SE - 1 -> n - SE * k < SD - SE.
Proof. intros Hn Hu. pose proof SE_pos. Z.div_mod_to_equations. nia. Qed.

(** ** Frames longer than the inline limit *)

(** Nothing is queued, [j] sends have failed. *)
Definition failing (len j : Z) w : Prop :=
  v_posted (sview (snd w)) = [] /\ m_txCount (fst w) = u64 j /\ m_unreaped (fst w) = j / SE /\
  len <= Z.of_nat (length (m_buf (fst w))).

Lemma empty_steps v v' : rtc kstep v v' -> v_posted v = [] -> v_posted v' = [].
Proof. intros Hr. induction Hr as [|v v1 v2 [v0 Hlt] _ IH]; [done|]. intros He. apply IH. done. Qed.

Lemma poll_empty (l : L) : v_posted (sview l) = [] -> exists l', ibv_poll_cq l = (0, l') /\ v_posted (sview l') = [].
Proof.
  intros He. pose proof (poll_law l) as Hl. destruct (ibv_poll_cq l) as [r l']. destruct Hl as (v & Hr & Hc).
  pose proof (empty_steps _ _ Hr He) as Hv. destruct Hc as [(_ & p & (_ & (f & Hf) & _) & _)|(-> & Hl & _)].
  - by rewrite Hv in Hf.
  - exists l'. by rewrite Hl.
Qed.

Lemma reap_loop_stuck n o (l : L) : v_posted (sview l) = [] -> SD / SE - 1 <= m_unreaped o -> fst (reap_loop SD SE n (o, l)) = NoFuel.
Proof.
  revert l; induction n as [|n IH]; intros l He Hu; cbn [reap_loop]; rewrite run_gets; cbn [fst]; rewrite (proj2 (Z.ltb_ge _ _)) by lia; [done|].
  destruct (poll_empty l He) as (l' & Ep & He'). rewrite (run_queue _ _ _ _ _ _ Ep). cbn [Z.ltb Z.compare]. rewrite bind_ret_l. by apply IH.
Qed.

Lemma failing_commit len j w : MI < len -> 0 <= j -> j + 1 <= SE * (SD / SE - 1) -> failing len j w ->
  if decide (j + 1 = SE * (SD / SE - 1)) then fst ((_ ← acquire len; commit SD SE fuel) w) = NoFuel
  else exists w', (_ ← acquire len; commit SD SE fuel) w = (Done tt, w') /\ failing len (j + 1) w'.
Proof.
  intros Hlen Hj Hmax (He & Hc & Hu & Hb). destruct w as [o l]. cbn [fst snd] in *. pose proof SE_pos. pose proof periods.
  unfold acquire. rewrite bind_assoc, run_set, bind_ret_l. unfold commit. rewrite run_gets, run_set. cbn [fst].
  assert (load 0 (Z.to_nat len) (m_buf o) = Some (take (Z.to_nat len) (m_buf o))) as Hload.
  { unfold load, slice. rewrite decide_True by lia. by rewrite drop_0. }
  cbn [set_txLen m_buf m_txLen m_txCount m_unreaped set_count]. rewrite Hload, Hc, count_signal.
  set (f := take (Z.to_nat len) (m_buf o)).
  pose proof (post_law f ((j + 1) mod SE =? 0) l) as Hp. destruct (ibv_post_send f ((j + 1) mod SE =? 0) l) as [r l1] eqn:Epost.
  rewrite (run_queue _ _ _ _ _ _ Epost). destruct Hp as (v & Hs & Hp).
  rewrite decide_False in Hp by (unfold f; rewrite length_take; lia). destruct Hp as [_ Hv].
  assert (v_posted (sview l1) = []) as He1 by (rewrite Hv; by eapply empty_steps).
  pose proof (div_succ j Hj) as Hdiv.
  set (un := if (j + 1) mod SE =? 0 then u32 (m_unreaped o + 1) else m_unreaped o).
  assert (0 <= j / SE /\ (j + 1) / SE <= SD / SE - 1) as [Hd0 Hd1].
  { split; [apply Z.div_pos; lia|]. apply Z.div_le_upper_bound; lia. }
  assert (SD / SE < 2 ^ 16) by (apply Z.div_lt_upper_bound; nia).
  assert (un = (j + 1) / SE) as Hun.
  { unfold un. rewrite Hdiv in *. destruct ((j + 1) mod SE =? 0); [|lia]. rewrite Hu, wrap_small; [done|].
    unfold in_u. change (2 ^ 32) with 4294967296. change (2 ^ 16) with 65536 in *. lia. }
  case_decide as Hend.
  - assert (un = SD / SE - 1) as Hfull by (rewrite Hun, Hend, Z.mul_comm; apply Z.div_mul; lia).
    rewrite (proj2 (Z.leb_le _ _)) by lia. destruct (poll_empty l1 He1) as (l2 & Ep & He2). rewrite (run_queue _ _ _ _ _ _ Ep).
    cbn [Z.ltb Z.compare]. rewrite bind_ret_l. apply reap_loop_stuck; [done|cbn; lia].
  - assert (un < SD / SE - 1) as Hlt.
    { rewrite Hun. apply Z.div_lt_upper_bound; lia. }
    assert (forall l', v_posted (sview l') = [] -> failing len (j + 1) (set_count (u64 (u64 j + 1)) un (set_txLen len o), l')) as Hfail.
    { intros l' Hl'. split_and!; cbn; try done. apply wrap_add_l. }
    destruct (Z.leb_spec 2 un) as [H2|H2]; [|eexists; split; [done|by apply Hfail]].
    destruct (poll_empty l1 He1) as (l2 & Ep & He2). rewrite (run_queue _ _ _ _ _ _ Ep). cbn [Z.ltb Z.compare]. rewrite bind_ret_l.
    eexists. split; [|by apply Hfail]. destruct fuel; cbn [reap_loop]; rewrite run_gets; cbn [fst m_unreaped set_count];
      rewrite (proj2 (Z.ltb_lt _ _)) by lia; done.
Qed.

Context (roomok : 0 < room <= MF) (MFmax : MF < 2 ^ 16) (roomMI : room <= MI) (enough : (max_patience < fuel)%nat).

Lemma prefix_load (b buf : bytes) : b `prefix_of` buf -> load 0 (length b) buf = Some b.
Proof.
  intros [k ->]. unfold load, slice. rewrite decide_True by (rewrite length_app; lia). by rewrite drop_0, take_app_length.
Qed.

(** Posting the next frame. *)
Lemma post_run sent k b (l : L) :
  queued sent k (sview l) -> Z.of_nat (length b) <= room -> Z.of_nat (length sent) / SE - k < SD / SE - 1 ->
  let '(r, l') := ibv_post_send b ((Z.of_nat (length sent) + 1) mod SE =? 0) l in r = 0 /\ queued (sent ++ [b]) k (sview l').
Proof.
  intros Hq Hb Hu. pose proof (post_law b ((Z.of_nat (length sent) + 1) mod SE =? 0) l) as Hl.
  destruct (ibv_post_send _ _ l) as [r l']. destruct Hl as (v & Hs & Hr). pose proof (queued_steps _ _ _ _ Hs Hq) as (Hp & Ht & Hk & Hv).
  rewrite decide_True in Hr.
  - destruct Hr as [-> ->]. split; [done|]. split_and!; cbn; try done; rewrite ?length_app; cbn; try lia. by rewrite Hp, entries_snoc.
  - split; [lia|]. rewrite Hp, Ht, entries_length. pose proof SE_pos. pose proof (room_left (Z.of_nat (length sent)) k ltac:(lia) Hu). lia.
Qed.

Lemma verbs_commit_run h sent p b w :
  lent h sent p b w -> h `prefix_of` b -> exists w', commit SD SE fuel w = (Done tt, w') /\ idle h (sent ++ [b]) w'.
Proof.
  intros ([k Hi] & Hu & -> & Hb & Hlen & Hpre) Hh. destruct w as [o l]. pose proof Hi as (Hq & Hc & Hun & Hm & Hbuf).
  cbn [fst snd] in *. pose proof periods. pose proof SE_pos. unfold commit. rewrite run_gets, run_set. cbn [fst].
  rewrite Hc, count_signal, Hlen, Nat2Z.id, (prefix_load _ _ Hpre).
  pose proof (post_run sent k b l Hq Hb ltac:(lia)) as Hpost.
  destruct (ibv_post_send _ _ l) as [r l1] eqn:Epost. destruct Hpost as [_ Hq1]. rewrite (run_queue _ _ _ _ _ _ Epost).
  set (n := Z.of_nat (length sent)) in *. pose proof (div_succ n ltac:(lia)) as Hdiv.
  set (un := if (n + 1) mod SE =? 0 then u32 (m_unreaped o + 1) else m_unreaped o).
  assert (Hk : un = (n + 1) / SE - k).
  { unfold un. rewrite Hdiv. destruct ((n + 1) mod SE =? 0); [|lia]. rewrite wrap_small; [lia|].
    assert (SD / SE < 2 ^ 16) by (apply Z.div_lt_upper_bound; nia). assert (0 <= m_unreaped o).
    { rewrite Hun. assert (k <= n / SE); [|lia]. apply Z.div_le_lower_bound; [lia|]. destruct Hq as (_ & _ & _ & Hv). lia. }
    unfold in_u. change (2 ^ 32) with 4294967296. change (2 ^ 16) with 65536 in *. lia. }
  assert (un <= SD / SE - 1) as Hmax by (rewrite Hk, Hdiv; destruct ((n + 1) mod SE =? 0); lia).
  set (o1 := set_count (u64 (u64 n + 1)) un o).
  assert (inv (sent ++ [b]) k (o1, l1)) as Hi1.
  { split; [exact Hq1|]. cbn. rewrite length_app. cbn. rewrite Nat2Z.inj_add. change (Z.of_nat 1) with 1. fold n. split_and!; try done. apply wrap_add_l. }
  assert (h `prefix_of` m_buf o) as Hhb by (by etrans).
  destruct (Z.leb_spec 2 un) as [H2|H2].
  2:{ exists (o1, l1). split; [done|]. split; [by exists k|]. split; [cbn; lia|done]. }
  pose proof (poll_queued (sent ++ [b]) k l1 Hq1) as Hl.
  destruct (ibv_poll_cq l1) as [r1 l2] eqn:Epoll. rewrite (run_queue _ _ _ _ _ _ Epoll). destruct Hl as [(-> & Hq2 & _)|(-> & Hq2 & _)]; cbn [Z.ltb Z.compare].
  - rewrite run_set. pose proof (reap_one _ _ _ _ l2 Hi1 Hq2) as Hi2.
    destruct (reap_loop_run (sent ++ [b]) fuel _ _ Hi2 ltac:(cbn; lia) ltac:(pose proof (patience_bound l2); cbn; lia)) as (w' & k' & Hr & Hi3 & Hu3 & Hb3 & _).
    exists w'. split; [exact Hr|]. split; [by exists k'|]. split; [done|]. by rewrite Hb3.
  - rewrite bind_ret_l. assert (inv (sent ++ [b]) k (o1, l2)) as Hi2 by (destruct Hi1 as (_ & Hrest); by split).
    destruct (reap_loop_run (sent ++ [b]) fuel _ _ Hi2 Hmax ltac:(pose proof (patience_bound l2); cbn; lia)) as (w' & k' & Hr & Hi3 & Hu3 & Hb3 & _).
    exists w'. split; [exact Hr|]. split; [by exists k'|]. split; [done|]. by rewrite Hb3.
Qed.

Lemma verbs_write_run h sent p b b' off src w :
  lent h sent p b w -> store off src b = Some b' ->
  exists w', write (p + Z.of_nat off) src w = (Done tt, w') /\ lent h sent p b' w'.
Proof.
  intros ([k (Hq & Hc & Hun & Hm & Hbuf)] & Hu & -> & Hb & Hlen & Hpre) Hs. destruct w as [o l]. unfold write. rewrite run_gets.
  replace (Z.to_nat (0 + Z.of_nat off)) with off by lia. cbn [fst] in *.
  destruct (store_prefix off src b b' (m_buf o) Hs Hpre) as (buf & -> & Hp' & Hl). eexists. split; [done|].
  pose proof (length_store _ _ _ _ Hs). split; [exists k; split_and!; cbn; try done; lia|]. split_and!; cbn; try done; lia.
Qed.

Lemma verbs_acquire_run h sent n w : idle h sent w -> Z.of_nat (length h) <= n <= room ->
  exists w' b, acquire n w = (Done (Some 0), w') /\ Z.of_nat (length b) = n /\ h `prefix_of` b /\ lent h sent 0 b w'.
Proof.
  intros ([k (Hq & Hc & Hun & Hm & Hbuf)] & Hu & Hh) Hn. destruct w as [o l]. cbn [fst] in *.
  exists (set_txLen n o, l), (take (Z.to_nat n) (m_buf o)).
  assert (Z.of_nat (length (take (Z.to_nat n) (m_buf o))) = n) as Hl by (rewrite length_take; lia).
  split; [done|]. split; [done|]. split; [apply prefix_take_le; [done|lia]|].
  split; [by exists k|]. split_and!; cbn; try done; [lia|apply prefix_take].
Qed.

#[export] Program Instance Verbs_TxContract : @TxContract W (Verbs_TxRing SD SE MF fuel) := {|
  tx_fresh := fresh; tx_idle := idle; tx_lent := lent; tx_room := room |}.
Next Obligation. intros h h' sent w (Hk & Hu & Hh) Hp. split_and!; try done. by etrans. Qed.
Next Obligation.
  intros t [o l] (Hq & Hc & Hun & Hm & Hbuf) Ht. cbn. unfold prefillRing, write. rewrite run_gets. cbn [fst] in *.
  rewrite Z.min_l, Nat2Z.id, firstn_all by lia. rewrite store_Some by lia. eexists. split; [done|].
  pose proof periods. pose proof SE_pos. split.
  - exists 0. split_and!; cbn; try done. by rewrite length_inserts.
  - change (Z.of_nat (length (@nil bytes))) with 0 in Hun. rewrite Z.div_0_l in Hun by lia.
    split; [cbn; lia|]. cbn. rewrite inserts_split by lia. cbn. rewrite take_0. by eexists.
Qed.
Next Obligation.
  intros h sent n w Hid Hn. destruct (verbs_acquire_run h sent n w Hid Hn) as (w' & b & Ha & Hl & Hh & Hlent). cbn. rewrite Ha. by exists b.
Qed.
Next Obligation. intros. by eapply verbs_write_run. Qed.
Next Obligation. intros h sent p b w Hl Hh. cbn. by destruct (verbs_commit_run h sent p b w Hl Hh) as (w' & -> & Hid). Qed.

#[export] Instance Verbs_SendsByCopy : @SendsByCopy W (Verbs_TxRing SD SE MF fuel) Verbs_TxContract.
Proof.
  constructor. intros f sent [o l] ([k (_ & _ & _ & Hm & _)] & _) Hl. cbn in *. unfold send. rewrite run_gets. cbn [fst].
  rewrite Hm, (proj2 (Z.ltb_ge _ _)), (proj2 (Z.ltb_ge _ _)) by lia. done.
Qed.

Lemma commit_ends_lent sent p b w : lent [] sent p b w -> fst (commit SD SE fuel w) <> NoFuel.
Proof. intros Hl. by destruct (verbs_commit_run [] sent p b w Hl (prefix_nil _)) as (w' & -> & _). Qed.

Lemma send_all_true fs : forall sent w,
  Forall (fun f => f <> [] /\ Z.of_nat (length f) <= room) fs -> idle [] sent w ->
  exists w', @tx_send_all _ (Verbs_TxRing SD SE MF fuel) fs w = (Done (replicate (length fs) true), w') /\ idle [] (sent ++ fs) w'.
Proof.
  induction fs as [|f fs IH]; intros sent w Hfs Hid.
  { exists w. split; [done|]. by rewrite app_nil_r. }
  apply Forall_cons_1 in Hfs as [Hf Hfs]. cbn [tx_send_all].
  destruct (send_copies (H0 := Verbs_TxContract) ltac:(cbn; lia) commit_ends_lent f sent w Hf Hid) as (ok & w1 & E1 & Hid1).
  assert (ok = true) as ->.
  { pose proof E1 as E2. rewrite (@send_is_copy W _ Verbs_TxContract Verbs_SendsByCopy f sent w Hid (proj2 Hf)) in E2. cbn [tx_acquire Verbs_TxRing] in E2.
    unfold acquire in E2. rewrite bind_assoc in E2. destruct w as [o l]. rewrite run_set, bind_ret_l in E2.
    unfold mbind, M_bind in E2. destruct (tx_write 0 f _) as [[[]| | | |] w2]; try done.
    destruct (tx_commit w2) as [[[]| | | |] w3]; try done. by injection E2. }
  rewrite (run_bind _ _ _ _ _ E1). destruct (IH (sent ++ [f]) w1 Hfs Hid1) as (w2 & E2 & Hid2).
  rewrite (run_bind _ _ _ _ _ E2). exists w2. split; [done|]. by rewrite <- app_assoc in Hid2.
Qed.

End Properties.

(** C10: Frames sent over verbs are posted in order, each once and intact, and the send queue
    never overflows: after a prefill and any list of frames within the inline limit every
    [send] has succeeded and returned, the queue has been given exactly those frames, and
    fewer than [SignalEvery * (SqDepth / SignalEvery - 1)] of them are not taken back yet. *)
Theorem verbs_tx_fifo {L} SD SE MF MI room fuel `{SendQueueLaws SD MI L} t fs (w : Verbs * L) :
  is_pow2 SE -> SE * 4 <= SD -> SD < 2 ^ 16 -> 0 < room <= MF -> MF < 2 ^ 16 -> room <= MI -> (max_patience < fuel)%nat ->
  fresh SD SE MF MI w -> Z.of_nat (length t) <= room ->
  Forall (fun f => f <> [] /\ Z.of_nat (length f) <= room) fs ->
  exists w', (prefillRing MF t ;; @tx_send_all _ (Verbs_TxRing SD SE MF fuel) fs) w = (Done (replicate (length fs) true), w') /\
    fst <$> v_posted (sview (snd w')) = fs /\
    Z.of_nat (length fs) - v_tail (sview (snd w')) < SE * (SD / SE - 1) /\ SE * (SD / SE - 1) <= SD - SE.
Proof.
  intros HSE HSD HSDm Hr HMF HMI Hfuel Hf Ht Hfs.
  destruct (prefill_idle (TxContract := Verbs_TxContract SD SE MF MI room fuel HSE HSD HSDm Hr HMI Hfuel) t w Hf Ht) as (w1 & E1 & Hid1).
  rewrite (run_bind (prefillRing MF t) _ _ _ _ E1).
  assert (idle SD SE MF MI [] [] w1) as Hid by (destruct Hid1 as (? & ? & ?); split_and!; try done; apply prefix_nil).
  destruct (send_all_true SD SE MF MI room fuel HSE HSD HSDm Hr HMF HMI Hfuel fs [] w1 Hfs Hid) as (w2 & E2 & [k Hi] & Hu & _).
  exists w2. split; [exact E2|]. cbn [app] in *. destruct Hi as ((Hp & Htl & Hk & Hs) & _ & Hun & _).
  rewrite Hp, Htl. unfold entries. rewrite fmap_imap. split.
  { clear. induction fs as [|f fs IH] using rev_ind; [done|]. rewrite imap_app, IH. done. }
  rewrite Hun in Hu. pose proof (SE_pos SE HSE). split; Z.div_mod_to_equations; nia.
Qed.

Lemma bind_stuck {W A B} (m : M W A) (K : A -> M W B) w : fst (m w) = NoFuel -> fst ((m ≫= K) w) = NoFuel.
Proof. unfold mbind, M_bind. by destruct (m w) as [[] w']. Qed.

(** Frames longer than the granted inline size go wrong silently, then for good:
    applications fill frames through [acquire] and [commit], which do not check the size as [send] does;
    every post fails, but its completion is waited for all the same, so commit number
    [SignalEvery * (SqDepth / SignalEvery - 1)] never returns. *)
Theorem verbs_oversized_hangs {L} SD SE MF MI fuel `{SendQueueLaws SD MI L} len (w : Verbs * L) :
  is_pow2 SE -> SE * 4 <= SD -> SD < 2 ^ 16 -> fresh SD SE MF MI w -> MI < len <= MF ->
  fst (for_loop (Z.to_nat (SE * (SD / SE - 1))) 0 (fun _ => _ ← acquire len; commit SD SE fuel) w) = NoFuel /\
  forall j, 0 <= j < SE * (SD / SE - 1) -> exists w', for_loop (Z.to_nat j) 0 (fun _ => _ ← acquire len; commit SD SE fuel) w = (Done tt, w') /\
    v_posted (sview (snd w')) = [].
Proof.
  intros HSE HSD HSDm ((Hp & _ & _ & _) & Hc & Hun & _ & Hb) Hlen. cbn in Hp.
  assert (failing SD SE MI len 0 w) as Hf0.
  { change (Z.of_nat (length (@nil bytes))) with 0 in *. split_and!; try done; lia. }
  pose proof (SE_pos SE HSE) as Hpos. pose proof (periods SD SE HSE HSD).
  set (K := SE * (SD / SE - 1)) in *. assert (0 < K) by (unfold K; nia).
  assert (forall n i j w, failing SD SE MI len j w -> 0 <= j -> j + Z.of_nat n <= K -> n <> O ->
    if decide (j + Z.of_nat n = K) then fst (for_loop n i (fun _ => _ ← acquire len; commit SD SE fuel) w) = NoFuel
    else exists w', for_loop n i (fun _ => _ ← acquire len; commit SD SE fuel) w = (Done tt, w') /\ failing SD SE MI len (j + Z.of_nat n) w') as Hloop.
  { clear w Hp Hc Hun Hb Hf0. induction n as [|n IH]; intros i j w Hf Hj Hmax Hn; [done|]. cbn [for_loop].
    pose proof (failing_commit SD SE MI fuel HSE HSD HSDm len j w ltac:(lia) Hj ltac:(fold K; lia) Hf) as Hs. fold K in Hs.
    case_decide as He.
    - assert (n = O) as -> by lia. rewrite decide_True by lia. by apply bind_stuck.
    - destruct Hs as (w1 & E1 & Hf1). rewrite (run_bind _ _ _ _ _ E1). destruct n as [|n].
      + rewrite decide_False by lia. exists w1. split; [done|]. exact Hf1.
      + specialize (IH (i + 1) (j + 1) w1 Hf1 ltac:(lia) ltac:(lia) ltac:(done)). replace (j + Z.of_nat (S (S n))) with (j + 1 + Z.of_nat (S n)) by lia. exact IH. }
  split.
  - pose proof (Hloop (Z.to_nat K) 0 0 w Hf0 ltac:(lia) ltac:(lia) ltac:(lia)) as Hk. by rewrite decide_True in Hk by lia.
  - intros j Hj. destruct (decide (j = 0)) as [->|]; [exists w; split; [done|]; exact Hp|].
    pose proof (Hloop (Z.to_nat j) 0 0 w Hf0 ltac:(lia) ltac:(lia) ltac:(lia)) as Hk. rewrite decide_False in Hk by lia.
    destruct Hk as (w' & E & Hf & _). by exists w'.
Qed.

(** ** A simulated send queue that keeps a completion back for two polls. *)
Record sim_queue := mk_queue { q_posted : list (bytes * bool); q_sent : nat; q_tail : nat; q_wait : nat }.

Definition q_signal (q : sim_queue) : option nat := fst <$> list_find (fun e : bytes * bool => snd e = true) (drop (q_tail q) (q_posted q)).

Definition backoff (q : sim_queue) : nat := Nat.min 2 (q_wait q).
Arguments backoff : simpl never.

#[export] Instance sim_SendQueue (SD MI : Z) : SendQueue sim_queue := {|
  ibv_post_send f sig q :=
    if decide (Z.of_nat (length f) <= MI /\ Z.of_nat (length (q_posted q)) - Z.of_nat (q_tail q) < SD)
    then (0, mk_queue (q_posted q ++ [(f, sig)]) (q_sent q) (q_tail q) (q_wait q)) else (12, q);
  ibv_poll_cq q :=
    match q_signal q with
    | None => (0, q)
    | Some i =>
        match backoff q with
        | S n => (0, mk_queue (q_posted q) (q_sent q) (q_tail q) n)
        | O => (1, mk_queue (q_posted q) (Nat.max (q_sent q) (length (q_posted q))) (q_tail q + i + 1) 2)
        end
    end |}.

Definition q_view (q : sim_queue) : view := mk_view (q_posted q) (Z.of_nat (q_sent q)) (Z.of_nat (q_tail q)).

Lemma sim_send_all post tail n m : (n + m <= length post)%nat ->
  rtc kstep (mk_view post (Z.of_nat n) tail) (mk_view post (Z.of_nat (n + m)) tail).
Proof.
  revert n; induction m as [|m IH]; intros n Hn; [by rewrite Nat.add_0_r|].
  eapply rtc_l; [apply k_send; cbn; lia|]. cbn. replace (Z.of_nat n + 1) with (Z.of_nat (S n)) by lia.
  rewrite <- Nat.add_succ_comm. apply IH. lia.
Qed.

Lemma q_signal_next q i : q_signal q = Some i -> next_signal (q_view q) (Z.of_nat (q_tail q + i)) /\ (q_tail q + i < length (q_posted q))%nat.
Proof.
  unfold q_signal. destruct (list_find _ _) as [[j e]|] eqn:Hl; [|done]. intros [= ->].
  apply list_find_Some in Hl as (Hj & He & Hno). destruct e as [f b]. cbn in He. subst b. rewrite lookup_drop in Hj.
  split; [|by eapply lookup_lt_Some]. split; [cbn; lia|]. split; [exists f; cbn; by rewrite Nat2Z.id|].
  intros k g Hk Hg. cbn in Hk, Hg. apply (Hno (Z.to_nat k - q_tail q)%nat (g, true)); [|lia|done].
  rewrite lookup_drop. by replace (q_tail q + (Z.to_nat k - q_tail q))%nat with (Z.to_nat k) by lia.
Qed.

Lemma q_signal_none q p : q_signal q = None -> ~ next_signal (q_view q) p.
Proof.
  unfold q_signal. destruct (list_find _ _) as [[j e]|] eqn:Hl; [done|]. intros _ (Hlo & (f & Hf) & _). cbn in Hlo, Hf.
  apply list_find_None in Hl. apply (proj1 (list.Forall_lookup _ _) Hl (Z.to_nat p - q_tail q)%nat (f, true)); [|done].
  rewrite lookup_drop. by replace (q_tail q + (Z.to_nat p - q_tail q))%nat with (Z.to_nat p) by lia.
Qed.

#[export] Program Instance sim_SendQueueLaws (SD MI : Z) : @SendQueueLaws SD MI sim_queue (sim_SendQueue SD MI) := {|
  sview := q_view; patience := backoff; max_patience := 2 |}.
Next Obligation. intros SD MI q. change (backoff q <= 2)%nat. unfold backoff. lia. Qed.
Next Obligation.
  intros SD MI f sig q. cbn. case_decide as Hd; exists (q_view q); (split; [done|]); cbn.
  - rewrite decide_True by done. done.
  - rewrite decide_False by done. done.
Qed.
Next Obligation.
  intros SD MI q. cbn. destruct (q_signal q) as [i|] eqn:Hs.
  - destruct (q_signal_next q i Hs) as [Hn Hlt]. destruct (backoff q) as [|n] eqn:Hw.
    + exists (mk_view (q_posted q) (Z.of_nat (Nat.max (q_sent q) (length (q_posted q)))) (Z.of_nat (q_tail q))). split.
      * destruct (decide (q_sent q <= length (q_posted q))%nat) as [Hle|Hgt].
        -- replace (Nat.max (q_sent q) (length (q_posted q))) with (q_sent q + (length (q_posted q) - q_sent q))%nat by lia.
           apply sim_send_all. lia.
        -- by replace (Nat.max (q_sent q) (length (q_posted q))) with (q_sent q) by lia.
      * left. split; [done|]. exists (Z.of_nat (q_tail q + i)). split; [exact Hn|]. split; [cbn; lia|].
        unfold q_view. cbn. f_equal. lia.
    + exists (q_view q). split; [done|]. right. split; [done|]. split; [done|]. intros _. unfold backoff in *. cbn [q_wait]. lia.
  - exists (q_view q). split; [done|]. right. split; [done|]. split; [done|]. intros [p Hp]. by apply q_signal_none in Hp.
Qed.

(** Sixteen entries, every fourth signalled, a slot of 64 bytes. *)
Definition sim_start : Verbs * sim_queue := (mk_verbs 32 0 0 0 (replicate 64 0), mk_queue [] 0 0 0).
Definition sim_frames (n : nat) : list bytes := (fun i => [Z.of_nat i; 3]) <$> List.seq 0 n.

Lemma verbs_sim_start_fresh : fresh (SQ := sim_SendQueue 16 32) 16 4 32 32 sim_start.
Proof. by vm_compute. Qed.

Lemma verbs_sim_frames_ok n : Forall (fun f : bytes => f <> [] /\ Z.of_nat (length f) <= 32) (sim_frames n).
Proof. unfold sim_frames. apply Forall_fmap, Forall_true. intros i. split; [done|cbn; lia]. Qed.

Lemma sim_enough : (@max_patience 16 32 _ _ (sim_SendQueueLaws 16 32) < 3)%nat.
Proof. by vm_compute; repeat constructor. Qed.

Lemma pow2_4 : is_pow2 4.
Proof. by exists 2. Qed.

Lemma verbs_tx_fifo_witness :
  exists w', (prefillRing 32 [9] ;; @tx_send_all _ (Verbs_TxRing (SQ := sim_SendQueue 16 32) 16 4 32 3) (sim_frames 50)) sim_start
    = (Done (replicate 50 true), w') /\ fst <$> q_posted (snd w') = sim_frames 50.
Proof.
  destruct (verbs_tx_fifo (H := sim_SendQueue 16 32) 16 4 32 32 32 3 [9] (sim_frames 50) sim_start pow2_4 ltac:(lia) ltac:(lia) ltac:(lia) ltac:(lia) ltac:(lia)
    sim_enough verbs_sim_start_fresh ltac:(cbn; lia) (verbs_sim_frames_ok 50)) as (w' & Hr & Hp & _).
  exists w'. split; [exact Hr|exact Hp].
Defined.

(** With completions that come late 9 frames, more than two signal periods, are outstanding. *)
Lemma sim_outstanding :
  let w := snd ((prefillRing 32 [9] ;; @tx_send_all _ (Verbs_TxRing (SQ := sim_SendQueue 16 32) 16 4 32 3) (sim_frames 9))
    (mk_verbs 32 0 0 0 (replicate 64 0), mk_queue [] 0 0 9)) in
  Z.of_nat (length (q_posted (snd w))) - Z.of_nat (q_tail (snd w)) = 9.
Proof. vm_compute. reflexivity. Qed.

Lemma verbs_oversized_hangs_witness :
  fst (for_loop 12 0 (fun _ => _ ← acquire 64; @commit _ (sim_SendQueue 16 32) 16 4 3) (mk_verbs 32 0 0 0 (replicate 64 0), mk_queue [] 0 0 0)) = NoFuel.
Proof.
  assert (fresh (SQ := sim_SendQueue 16 32) 16 4 64 32 (mk_verbs 32 0 0 0 (replicate 64 0), mk_queue [] 0 0 0)) as Hf by (by vm_compute).
  destruct (verbs_oversized_hangs (H := sim_SendQueue 16 32) 16 4 64 32 3 64 _ pow2_4 ltac:(lia) ltac:(lia) Hf ltac:(lia)) as [Hh _].
  exact Hh.
Defined.
End Tx.

(** ** Receive *)
Module Rx.

Definition MLX5_CQE_RESP_SEND : Z := 2.
Definition MLX5_CQE_INVALID : Z := 15.
Definition MLX5_CQE_OWNER_MASK : Z := 1.

(** The fields of a [mlx5_cqe64] and of a receive WQE's data segment as they are in
    memory: multi-byte numbers are big-endian. *)
Record cqe := mk_cqe { op_own : Z; wqe_counter : Z; byte_cnt : Z }.
Record DataSeg := mk_seg { byteCount : Z; lkey : Z; addr : Z }.

(** The members the receive side uses. *)
Record Verbs := mk_verbs {
  m_cqeCnt : Z;
  m_cqCi : Z;
  m_rqWqeCnt : Z;
  m_rqHead : Z;
  m_lastSlot : Z;
}.

Definition set_head (h ci : Z) (o : Verbs) : Verbs := mk_verbs (m_cqeCnt o) ci (m_rqWqeCnt o) h (m_lastSlot o).
Definition set_slot (s : Z) (o : Verbs) : Verbs := mk_verbs (m_cqeCnt o) (m_cqCi o) (m_rqWqeCnt o) (m_rqHead o) s.

(** The object, the completion queue, the receive queue, their doorbell records, the
    registered buffer, and what the NIC completed so far: a frame or an error each. *)
Record world (E : Type) := mk_world {
  obj : Verbs; cq : list cqe; rq : list DataSeg; m_cqDbrec : Z; m_rqDbrec : Z; mem : bytes;
  comps : list (option bytes); ext : E }.
Arguments mk_world {E}.
Arguments obj {E}.
Arguments cq {E}.
Arguments rq {E}.
Arguments m_cqDbrec {E}.
Arguments m_rqDbrec {E}.
Arguments mem {E}.
Arguments comps {E}.
Arguments ext {E}.

Section Operations.
Context (RqDepth MaxFrame m_buf m_lkey : Z) {E : Type} (env : world E -> world E).
Abbreviation W := (world E).

Definition set_obj (o : Verbs) (w : W) : W := mk_world o (cq w) (rq w) (m_cqDbrec w) (m_rqDbrec w) (mem w) (comps w) (ext w).
Definition set_rq (l : list DataSeg) (w : W) : W := mk_world (obj w) (cq w) l (m_cqDbrec w) (m_rqDbrec w) (mem w) (comps w) (ext w).
Definition set_rqDb (d : Z) (w : W) : W := mk_world (obj w) (cq w) (rq w) (m_cqDbrec w) d (mem w) (comps w) (ext w).
Definition set_cqDb (d : Z) (w : W) : W := mk_world (obj w) (cq w) (rq w) d (m_rqDbrec w) (mem w) (comps w) (ext w).

(** [rxSlot]: the offset of slot [s] in [m_buf]. *)
Definition rxSlot (s : Z) : Z := MaxFrame * (1 + s).

(** [prewriteRq] *)
Definition data_seg (p : Z) : DataSeg :=
  mk_seg (bswap 4 MaxFrame) (bswap 4 m_lkey) (bswap 8 (u64 (m_buf + rxSlot (u16 (Z.land p (RqDepth - 1)))))).

Definition prewriteRq : M W unit :=
  o ← gets obj;
  for_loop (Z.to_nat (m_rqWqeCnt o)) 0 (fun p => modify env ;;
    w ← get;
    match rq w !! Z.to_nat p with
    | Some _ => modify (set_rq (<[Z.to_nat p := data_seg p]> (rq w)))
    | None => raise Undef
    end).

(** The receive part of [init] once the rings are exported: identity mapping, then the
    doorbell. *)
Definition start_rx : M W unit :=
  prewriteRq ;;
  modify (fun w => set_obj (set_head RqDepth (m_cqCi (obj w)) (obj w)) w) ;;
  modify env ;;
  modify (fun w => set_rqDb (bswap 4 (Z.land (m_rqHead (obj w)) 65535)) w).

Definition cqe_at (i : Z) : M W cqe :=
  fun w => match cq w !! Z.to_nat i with Some c => (Done c, w) | None => (Undef, w) end.
Definition span (off len : Z) : M W bytes :=
  fun w => match load (Z.to_nat off) (Z.to_nat len) (mem w) with Some f => (Done f, w) | None => (Undef, w) end.

(** [release]: one more receive WQE posted, one more CQE consumed. *)
Definition release : M W unit :=
  modify env ;;
  o ← gets obj;
  let head := u32 (m_rqHead o + 1) in
  modify (set_rqDb (bswap 4 (Z.land head 65535))) ;;
  modify env ;;
  let ci := u32 (m_cqCi o + 1) in
  modify (set_cqDb (bswap 4 (Z.land ci 16777215))) ;;
  modify (set_obj (set_head head ci o)).

(** [tryReceive] *)
Definition tryReceive : M W bytes :=
  modify env ;;
  o ← gets obj;
  c ← cqe_at (Z.land (m_cqCi o) (m_cqeCnt o - 1));
  let opcode := Z.shiftr (op_own c) 4 in
  let owner := if Z.land (m_cqCi o) (m_cqeCnt o) =? 0 then 0 else 1 in
  if (opcode =? MLX5_CQE_INVALID) || negb (Z.land (op_own c) MLX5_CQE_OWNER_MASK =? owner) then mret [] else
  modify env ;;
  c ← cqe_at (Z.land (m_cqCi o) (m_cqeCnt o - 1));
  let slot := Z.land (bswap 2 (wqe_counter c)) (RqDepth - 1) in
  if negb (opcode =? MLX5_CQE_RESP_SEND) then release ;; mret [] else
  modify (set_obj (set_slot slot o)) ;;
  span (rxSlot slot) (bswap 4 (byte_cnt c)).

#[export] Instance Verbs_RxRing : RxRing W := {| rx_tryReceive := tryReceive; rx_release := release |}.

(** What an mlx5 device does: while the doorbell record shows posted receive WQEs, write the
    next frame where the next WQE points to and a completion, owned by the current
    pass over the queue, with the WQE's number; or complete it with an error. *)
Definition owner_bit (C j : Z) : Z := (j / C) mod 2.

Definition may_complete (w : W) : Prop :=
  bswap 4 (m_rqDbrec w) <> Z.of_nat (length (comps w)) mod 2 ^ 16.

Definition complete (c : cqe) (off : Z) (f : bytes) (r : option bytes) (w : W) : W :=
  mk_world (obj w) (<[pos (m_cqeCnt (obj w)) (Z.of_nat (length (comps w))) := c]> (cq w)) (rq w) (m_cqDbrec w) (m_rqDbrec w)
    (list_inserts (Z.to_nat off) f (mem w)) (comps w ++ [r]) (ext w).

Inductive nstep : W -> W -> Prop :=
  | n_complete w seg c f r :
      may_complete w -> rq w !! pos (m_rqWqeCnt (obj w)) (Z.of_nat (length (comps w))) = Some seg ->
      Z.of_nat (length f) <= bswap 4 (byteCount seg) -> is_bytes f ->
      Z.land (op_own c) 1 = owner_bit (m_cqeCnt (obj w)) (Z.of_nat (length (comps w))) ->
      bswap 2 (wqe_counter c) = Z.of_nat (length (comps w)) mod 2 ^ 16 ->
      match r with
      | Some g => g = f /\ f <> [] /\ Z.shiftr (op_own c) 4 = MLX5_CQE_RESP_SEND /\ bswap 4 (byte_cnt c) = Z.of_nat (length f)
      | None => Z.shiftr (op_own c) 4 <> MLX5_CQE_RESP_SEND /\ Z.shiftr (op_own c) 4 <> MLX5_CQE_INVALID
      end ->
      nstep w (complete c (bswap 8 (addr seg) - m_buf) f r w)
  | n_other w e : nstep w (mk_world (obj w) (cq w) (rq w) (m_cqDbrec w) (m_rqDbrec w) (mem w) (comps w) e).
End Operations.

Section Properties.
Context (RD MF base lk C Q : Z) {E : Type} (env : world E -> world E).
Abbreviation W := (world E).
Abbreviation nstep := (nstep base).
Implicit Types (w : W).
Context (RDpow : is_pow2 RD) (RDmax : RD < 2 ^ 16) (Cpow : is_pow2 C) (Cok : RD <= C <= 2 ^ 31)
  (Qpow : is_pow2 Q) (Qok : RD <= Q <= 2 ^ 16) (MFok : 0 < MF < 2 ^ 16) (baseok : 0 <= base) (bufok : base + MF * (1 + RD) <= 2 ^ 64)
  (env_ok : forall w : W, rtc nstep w (env w)).

Lemma RD_pos : 0 < RD.
Proof. by apply is_pow2_pos. Qed.

Lemma pow2_divide a b : is_pow2 a -> is_pow2 b -> a <= b -> (a | b).
Proof. intros Ha [k [Hk ->]] Hle. by apply is_pow2_divide_2pow. Qed.

(** The owner bit the code computes from the wrapped index. *)
Lemma owner_code T : (if Z.land (u32 T) C =? 0 then 0 else 1) = owner_bit C T.
Proof.
  destruct Cpow as [k [Hk HC]]. unfold owner_bit. rewrite HC, <- Z.testbit_spec' by done.
  assert (k < 32) as Hk32 by (destruct (Z_lt_le_dec k 32) as [|Hge]; [done|]; pose proof (Z.pow_le_mono_r 2 32 k ltac:(lia) Hge); lia).
  assert (Z.testbit (u32 T) k = Z.testbit T k) as <- by (unfold wrap; apply Z.mod_pow2_bits_low; lia).
  assert (forall i, Z.testbit (Z.land (u32 T) (2 ^ k)) i = (Z.testbit (u32 T) k && (i =? k))) as Hb.
  { intros i. rewrite Z.land_spec, Z.pow2_bits_eqb, (Z.eqb_sym k i) by done. destruct (Z.eqb_spec i k) as [->|]; [done|]. by rewrite !andb_false_r. }
  destruct (Z.testbit (u32 T) k) eqn:Ht.
  - assert (Z.land (u32 T) (2 ^ k) <> 0) as Hne; [|by rewrite (proj2 (Z.eqb_neq _ _))].
    intros He. specialize (Hb k). rewrite He, Z.bits_0, Z.eqb_refl in Hb. done.
  - assert (Z.land (u32 T) (2 ^ k) = 0) as ->; [|done]. apply Z.bits_inj'. intros i Hi. by rewrite Hb, Z.bits_0.
Qed.

Lemma owner_flips j : owner_bit C (j + C) <> owner_bit C j.
Proof.
  unfold owner_bit. pose proof (is_pow2_pos _ Cpow). replace (j + C) with (j + 1 * C) by lia. rewrite Z.div_add by lia.
  Z.div_mod_to_equations. lia.
Qed.

Lemma index_code T : Z.to_nat (Z.land (u32 T) (C - 1)) = pos C T.
Proof. unfold pos. rewrite mask_wrap; [done|done|lia|lia]. Qed.

Lemma slot_of_seg p : 0 <= p < Q -> bswap 8 (addr (data_seg RD MF base lk p)) - base = rxSlot MF (p mod RD).
Proof.
  intros Hp. pose proof RD_pos. unfold data_seg. cbn [addr]. rewrite land_mask by done. pose proof (Z.mod_pos_bound p RD ltac:(lia)).
  assert (u16 (p mod RD) = p mod RD) as -> by (apply wrap_small; split; lia).
  unfold rxSlot in *. rewrite wrap_small by (split; nia). rewrite bswap_involutive; [lia|].
  change (2 ^ (8 * Z.of_nat 8)) with (2 ^ 64). nia.
Qed.

(** The completion of position [j] is in its place and says [r]. *)
Definition holds w (j : Z) (r : option bytes) : Prop :=
  exists c, cq w !! pos C j = Some c /\ Z.land (op_own c) 1 = owner_bit C j /\ bswap 2 (wqe_counter c) = j mod 2 ^ 16 /\
    match r with
    | Some g => Z.shiftr (op_own c) 4 = MLX5_CQE_RESP_SEND /\ bswap 4 (byte_cnt c) = Z.of_nat (length g) /\ g <> [] /\ is_bytes g /\
        Z.of_nat (length g) <= MF /\ slice (Z.to_nat (rxSlot MF (j mod RD))) (length g) (mem w) = g
    | None => Z.shiftr (op_own c) 4 <> MLX5_CQE_RESP_SEND /\ Z.shiftr (op_own c) 4 <> MLX5_CQE_INVALID
    end.

(** The entry of position [j] is not (yet) a completion of this pass. *)
Definition stale w (j : Z) : Prop :=
  exists c, cq w !! pos C j = Some c /\ (Z.shiftr (op_own c) 4 = MLX5_CQE_INVALID \/ Z.land (op_own c) 1 <> owner_bit C j).

(** [T] completions are consumed and their receive WQEs posted again. *)
Record core (T : Z) w : Prop := {
  c_cnt : m_cqeCnt (obj w) = C /\ m_rqWqeCnt (obj w) = Q;
  c_cq : Z.of_nat (length (cq w)) = C;
  c_mem : Z.of_nat (length (mem w)) = MF * (1 + RD);
  c_rq : forall p, 0 <= p < Q -> rq w !! Z.to_nat p = Some (data_seg RD MF base lk p);
  c_db : m_rqDbrec w = bswap 4 ((RD + T) mod 2 ^ 16);
  c_range : 0 <= T /\ T <= Z.of_nat (length (comps w)) <= T + RD;
  c_full : forall j r, T <= j -> comps w !! Z.to_nat j = Some r -> holds w j r;
  c_stale : forall j, Z.of_nat (length (comps w)) <= j < T + C -> stale w j;
}.

(** Two receive slots in use at the same time do not overlap. *)
Lemma slots_apart i j len : - RD < i - j < RD -> i <> j -> 0 <= len <= MF ->
  (Z.to_nat (rxSlot MF (i mod RD)) + Z.to_nat len <= Z.to_nat (rxSlot MF (j mod RD)))%nat \/
  (Z.to_nat (rxSlot MF (j mod RD)) + Z.to_nat MF <= Z.to_nat (rxSlot MF (i mod RD)))%nat.
Proof.
  intros Hd Hne Hl. pose proof RD_pos. assert (i mod RD <> j mod RD) as Hm by (intros He; by apply mod_window_inj in He; [|lia|lia]).
  pose proof (Z.mod_pos_bound i RD ltac:(lia)). pose proof (Z.mod_pos_bound j RD ltac:(lia)). unfold rxSlot.
  destruct (Z_lt_le_dec (i mod RD) (j mod RD)); [left|right]; nia.
Qed.

Lemma C_pos : 0 < C.
Proof. pose proof RD_pos. lia. Qed.

(** A completion at position [R] leaves the entries of the other positions in use alone. *)
Lemma complete_other T w R seg c f r j :
  core T w -> R = Z.of_nat (length (comps w)) -> R < T + RD -> T <= j < T + C -> j <> R ->
  cq (complete c seg f r w) !! pos C j = cq w !! pos C j.
Proof.
  intros Hc HR Hlt Hj Hne. destruct (c_cnt _ _ Hc) as [HC _]. pose proof (c_range _ _ Hc). pose proof C_pos. unfold complete. cbn. rewrite HC, <- HR.
  apply list_lookup_insert_ne, pos_ne; lia.
Qed.

Lemma nstep_core T w w' : nstep w w' -> core T w -> core T w' /\ obj w' = obj w /\ comps w `prefix_of` comps w'.
Proof.
  intros Hs Hc. destruct Hs as [w seg c f r Hgo Hseg Hlen Hby Hown Hwqe Hr|w e]; [|destruct Hc; by split].
  pose proof C_pos as HCp. pose proof RD_pos as HRp. pose proof (c_range _ _ Hc) as Hrng. destruct (c_cnt _ _ Hc) as [HC HQ].
  set (R := Z.of_nat (length (comps w))) in *. rewrite HC in Hown. rewrite HQ in Hseg.
  assert (R < T + RD) as HR.
  { unfold may_complete in Hgo. rewrite (c_db _ _ Hc) in Hgo. fold R in Hgo. pose proof (Z.mod_pos_bound (RD + T) (2 ^ 16) ltac:(lia)).
    rewrite bswap_involutive in Hgo by (change (2 ^ (8 * Z.of_nat 4)) with (2 ^ 32); lia).
    destruct (decide (R = T + RD)) as [He|]; [|lia]. destruct Hgo. by rewrite He, Z.add_comm. }
  pose proof (Z.mod_pos_bound R Q ltac:(lia)) as HRQ.
  unfold pos in Hseg. rewrite (c_rq _ _ Hc _ HRQ) in Hseg. injection Hseg as <-.
  assert (bswap 8 (addr (data_seg RD MF base lk (R mod Q))) - base = rxSlot MF (R mod RD)) as Hoff.
  { rewrite slot_of_seg by done. by rewrite Z.mod_mod_divide by (apply pow2_divide; [done|done|lia]). }
  assert (bswap 4 (byteCount (data_seg RD MF base lk (R mod Q))) = MF) as Hbc
    by (unfold data_seg; cbn [byteCount]; apply bswap_involutive; change (2 ^ (8 * Z.of_nat 4)) with (2 ^ 32); lia).
  rewrite Hbc in Hlen. rewrite Hoff. pose proof (Z.mod_pos_bound R RD ltac:(lia)) as HRm.
  assert (Z.to_nat (rxSlot MF (R mod RD)) + length f <= length (mem w))%nat as Hfit
    by (pose proof (c_mem _ _ Hc); unfold rxSlot; nia).
  pose proof (fun j => complete_other T w R (rxSlot MF (R mod RD)) c f r j Hc eq_refl HR) as Hoth.
  assert (cq (complete c (rxSlot MF (R mod RD)) f r w) !! pos C R = Some c) as Hnew.
  { unfold complete. cbn. rewrite HC. apply list_lookup_insert_eq. apply pos_lt; [done|]. by rewrite (c_cq _ _ Hc). }
  split; [|split; [done|by eexists]].
  constructor; try (apply Hc); unfold complete; cbn [cq mem comps]; rewrite ?length_insert, ?length_inserts, ?length_app; try apply Hc.
  - cbn. lia.
  - intros j x Hj Hx. destruct (decide (j = R)) as [->|Hne].
    + unfold R in Hx. rewrite Nat2Z.id, lookup_app_r, Nat.sub_diag in Hx by lia. injection Hx as <-.
      exists c. split; [exact Hnew|]. split; [done|]. split; [done|]. destruct r as [g|]; [|done].
      destruct Hr as (-> & Hne & Hop & Hbn). split_and!; try done. cbn. by apply slice_inserts_eq.
    + assert (j < R) as HjR by (apply lookup_lt_Some in Hx; rewrite length_app in Hx; cbn in Hx; lia).
      rewrite lookup_app_l in Hx by lia. destruct (c_full _ _ Hc j x Hj Hx) as (c' & Hl & Ho & Hw & Hg).
      exists c'. split; [rewrite <- Hl; apply Hoth; lia|]. split; [done|]. split; [done|]. destruct x as [g|]; [|done].
      destruct Hg as (Hop & Hbn & Hn & Hb & Hgl & Hsl). split_and!; try done. cbn.
      destruct (slots_apart R j (Z.of_nat (length f))) as [Hap|Hap]; [lia|done|lia| |]; rewrite Nat2Z.id in Hap || idtac.
      * rewrite slice_inserts_after; [done|done|lia].
      * rewrite slice_inserts_before; [done|done|lia].
  - intros j Hj. cbn in Hj. destruct (c_stale _ _ Hc j ltac:(lia)) as (c' & Hl & Hst). exists c'. split; [|done].
    rewrite <- Hl. apply Hoth; lia.
Qed.

Lemma nsteps_core T w w' : rtc nstep w w' -> core T w -> core T w' /\ obj w' = obj w /\ comps w `prefix_of` comps w'.
Proof.
  intros Hr. induction Hr as [w|w w1 w2 H1 _ IH]; intros Hi; [done|].
  destruct (nstep_core _ _ _ H1 Hi) as (Hi1 & Ho1 & Ha1). destruct (IH Hi1) as (Hi2 & Ho2 & Ha2).
  split_and!; [done|congruence|by etrans].
Qed.

(** Consuming position [T]: its receive WQE is posted again. *)
Lemma core_repost T w : core T w -> T < Z.of_nat (length (comps w)) -> core (T + 1) (set_rqDb (bswap 4 ((RD + (T + 1)) mod 2 ^ 16)) w).
Proof.
  intros Hc HT. pose proof (c_range _ _ Hc). pose proof C_pos. constructor; try (apply Hc); cbn [set_rqDb comps m_rqDbrec cq mem obj]; try done; try lia.
  - intros j r Hj Hr. apply (c_full _ _ Hc j r ltac:(lia) Hr).
  - intros j Hj. destruct (decide (j = T + C)) as [->|]; [|apply (c_stale _ _ Hc); lia].
    destruct (lookup_lt_is_Some_2 (comps w) (Z.to_nat T)) as [r Hr]; [lia|].
    destruct (c_full _ _ Hc T r ltac:(lia) Hr) as (c & Hl & Ho & _). exists c. cbn. rewrite pos_add_n by done. split; [done|].
    right. rewrite Ho. apply not_eq_sym, owner_flips.
Qed.

Definition inv (T : Z) w : Prop := core T w /\ m_cqCi (obj w) = u32 T /\ m_rqHead (obj w) = u32 (RD + T).

Lemma env_inv T w : inv T w -> inv T (env w) /\ comps w `prefix_of` comps (env w).
Proof.
  intros (Hc & Hci & Hh). destruct (nsteps_core _ _ _ (env_ok w) Hc) as (Hc' & Ho & Hp). unfold inv. by rewrite Ho.
Qed.

Lemma verbs_release_inv T w : inv T w -> T < Z.of_nat (length (comps w)) ->
  exists w', release env w = (Done tt, w') /\ inv (T + 1) w' /\ comps w `prefix_of` comps w'.
Proof.
  intros Hi HT. destruct (env_inv _ _ Hi) as [(Hc & Hci & Hh) Hp]. unfold release. rewrite run_modify, run_gets, run_modify.
  apply prefix_length in Hp as Hl. rewrite Hci, Hh.
  assert (Z.land (u32 (u32 (RD + T) + 1)) 65535 = (RD + (T + 1)) mod 2 ^ 16) as ->.
  { rewrite wrap_add_l. rewrite <- Z.add_assoc. apply (mask_wrap (2 ^ 16)); [by exists 16|lia|lia]. }
  pose proof (core_repost T (env w) Hc ltac:(lia)) as Hc1. set (w1 := set_rqDb _ (env w)) in *.
  rewrite run_modify. destruct (nsteps_core _ _ _ (env_ok w1) Hc1) as (Hc2 & Ho2 & Hp2). rewrite run_modify.
  eexists. split; [done|]. split; [|by etrans]. split; [|split; cbn].
  - destruct Hc2 as [Hcnt H2 H3 H4 H5 H6 H7 H8]. rewrite Ho2 in Hcnt. by constructor.
  - apply wrap_add_l.
  - rewrite wrap_add_l. f_equal. lia.
Qed.

Definition good (cs : list (option bytes)) : list bytes := omap id cs.

Definition idle (seen : list bytes) w : Prop := exists T, inv T w /\ seen = good (take (Z.to_nat T) (comps w)).
Definition held (seen : list bytes) (f : bytes) w : Prop :=
  exists T, inv T w /\ seen = good (take (Z.to_nat T) (comps w)) /\ comps w !! Z.to_nat T = Some (Some f).

Lemma take_comps T w w' : 0 <= T <= Z.of_nat (length (comps w)) -> comps w `prefix_of` comps w' ->
  take (Z.to_nat T) (comps w') = take (Z.to_nat T) (comps w).
Proof. intros ? [k ->]. by rewrite take_app_le by lia. Qed.

Lemma take_next T w r : 0 <= T -> comps w !! Z.to_nat T = Some r ->
  good (take (Z.to_nat (T + 1)) (comps w)) = good (take (Z.to_nat T) (comps w)) ++ option_list r.
Proof.
  intros HT Hr. rewrite Z2Nat.inj_add, Nat.add_1_r by lia. rewrite (take_S_r _ _ _ Hr). unfold good. rewrite omap_app. by destruct r.
Qed.

Lemma verbs_release_run seen f w : held seen f w -> exists w', release env w = (Done tt, w') /\ idle (seen ++ [f]) w'.
Proof.
  intros (T & Hi & -> & Hf). pose proof (lookup_lt_Some _ _ _ Hf). pose proof (c_range _ _ (proj1 Hi)).
  destruct (verbs_release_inv T w Hi ltac:(lia)) as (w' & Hr & Hi' & Hp). exists w'. split; [done|]. exists (T + 1). split; [done|].
  rewrite (take_comps (T + 1) w w') by (try done; lia). by rewrite (take_next T w (Some f)) by (try done; lia).
Qed.

Lemma cqe_at_pos T w c : cq w !! pos C T = Some c -> cqe_at (Z.land (u32 T) (C - 1)) w = (Done c, w).
Proof. intros Hl. unfold cqe_at. by rewrite index_code, Hl. Qed.

Lemma verbs_receive_run seen w : idle seen w ->
  exists f w', tryReceive RD MF env w = (Done f, w') /\ match f with [] => idle seen w' | _ => held seen f w' end.
Proof.
  intros (T & Hi & ->). destruct (env_inv _ _ Hi) as [Hi1 Hp1]. pose proof (c_range _ _ (proj1 Hi)) as Hrng.
  unfold tryReceive. rewrite run_modify, <- (take_comps T w (env w)) by (try done; lia). clear Hp1 Hrng. revert Hi1. generalize (env w). clear w Hi.
  intros w Hi. pose proof Hi as (Hc & Hci & Hh). pose proof (c_range _ _ Hc) as Hrng. destruct (c_cnt _ _ Hc) as [HC HQ]. pose proof C_pos. pose proof RD_pos.
  rewrite run_gets, Hci, HC. destruct (decide (T < Z.of_nat (length (comps w)))) as [Hlt|Hge].
  2: { destruct (c_stale _ _ Hc T ltac:(lia)) as (c & Hl & Hst). rewrite (run_bind _ _ _ _ _ (cqe_at_pos T w c Hl)). rewrite owner_code.
       assert ((Z.shiftr (op_own c) 4 =? MLX5_CQE_INVALID) || negb (Z.land (op_own c) MLX5_CQE_OWNER_MASK =? owner_bit C T) = true) as ->.
       { destruct Hst as [->|Hne]; [done|]. change MLX5_CQE_OWNER_MASK with 1. rewrite (proj2 (Z.eqb_neq _ _) Hne). apply orb_true_r. }
       exists [], w. split; [done|]. by exists T. }
  destruct (lookup_lt_is_Some_2 (comps w) (Z.to_nat T)) as [r Hr]; [lia|].
  destruct (c_full _ _ Hc T r ltac:(lia) Hr) as (c & Hl & Hown & Hwqe & Hrest). rewrite (run_bind _ _ _ _ _ (cqe_at_pos T w c Hl)).
  rewrite owner_code. change MLX5_CQE_OWNER_MASK with 1. rewrite Hown, Z.eqb_refl.
  assert ((Z.shiftr (op_own c) 4 =? MLX5_CQE_INVALID) = false) as -> by (apply Z.eqb_neq; destruct r; [destruct Hrest as (-> & _); done|apply Hrest]).
  cbn [orb negb]. rewrite run_modify. destruct (env_inv _ _ Hi) as [Hi2 Hp2]. pose proof Hi2 as (Hc2 & Hci2 & _). destruct (c_cnt _ _ Hc2) as [HC2 _].
  assert (comps (env w) !! Z.to_nat T = Some r) as Hr2 by (by eapply prefix_lookup_Some).
  assert (obj (env w) = obj w) as Ho by (apply (nsteps_core _ _ _ (env_ok w) Hc)).
  destruct (c_full _ _ Hc2 T r ltac:(lia) Hr2) as (c2 & Hl2 & Hown2 & Hwqe2 & Hrest2).
  rewrite (run_bind _ _ _ _ _ (cqe_at_pos T (env w) c2 Hl2)). rewrite Hwqe2.
  assert (Z.land (T mod 2 ^ 16) (RD - 1) = T mod RD) as ->.
  { rewrite land_mask by done. apply Z.mod_mod_divide. apply is_pow2_divide_2pow; [done|lia|lia]. }
  apply prefix_length in Hp2 as Hpl. destruct r as [g|].
  - destruct Hrest as (-> & _), Hrest2 as (_ & Hbn & Hne & Hby & Hgl & Hsl). cbn [Z.eqb Pos.eqb MLX5_CQE_RESP_SEND negb]. rewrite run_modify.
    eexists g, _. split.
    + unfold span, set_obj. cbn [mem]. rewrite Hbn, Nat2Z.id. unfold load. rewrite Hsl. rewrite decide_True; [done|].
      pose proof (Z.mod_pos_bound T RD ltac:(lia)). pose proof (c_mem _ _ Hc2). unfold rxSlot. nia.
    + destruct g; [done|]. exists T. split; [|split; [|done]].
      * destruct Hc2 as [K1 K2 K3 K4 K5 K6 K7 K8]. split; [|split; cbn; [done|by rewrite Hh]]. constructor; cbn; try done.
      * cbn. f_equal. symmetry. by apply take_comps; [lia|].
  - rewrite (proj2 (Z.eqb_neq _ _) (proj1 Hrest)). cbn [negb]. destruct (verbs_release_inv T (env w) Hi2 ltac:(lia)) as (w' & Hrl & Hi' & Hp').
    rewrite (run_bind _ _ _ _ _ Hrl). exists [], w'. split; [done|]. exists (T + 1). split; [done|].
    rewrite (take_comps (T + 1) (env w) w') by (try done; lia). rewrite (take_next T (env w) None) by (try done; lia). cbn. rewrite app_nil_r.
    f_equal. symmetry. apply take_comps; [lia|done].
Qed.

#[export] Program Instance Verbs_RxContract : @RxContract W (Verbs_RxRing RD MF env) := {|
  rx_arrived w := good (comps w); rx_idle := idle; rx_held := held |}.
Next Obligation.
  intros seen w (T & _ & ->). cbn. exists (good (drop (Z.to_nat T) (comps w))). unfold good. by rewrite <- omap_app, take_drop.
Qed.
Next Obligation.
  intros seen f w (T & Hi & -> & Hf). cbn. pose proof (c_range _ _ (proj1 Hi)).
  change [f] with (option_list (Some f)). rewrite <- (take_next T w (Some f)) by (try done; lia).
  exists (good (drop (Z.to_nat (T + 1)) (comps w))). unfold good. by rewrite <- omap_app, take_drop.
Qed.
Next Obligation.
  intros seen f w (T & Hi & _ & Hf). destruct (c_full _ _ (proj1 Hi) T (Some f) ltac:(lia) Hf) as (c & _ & _ & _ & _ & _ & _ & Hb & _). done.
Qed.
Next Obligation. intros. by apply verbs_receive_run. Qed.
Next Obligation. intros. by apply verbs_release_run. Qed.

(** The rings as the provider exports them: nothing posted, nothing completed. *)
Record raw w : Prop := {
  r_obj : m_cqeCnt (obj w) = C /\ m_rqWqeCnt (obj w) = Q /\ m_cqCi (obj w) = 0;
  r_cq : Z.of_nat (length (cq w)) = C;
  r_inv : Forall (fun c => Z.shiftr (op_own c) 4 = MLX5_CQE_INVALID) (cq w);
  r_rq : Z.of_nat (length (rq w)) = Q;
  r_mem : Z.of_nat (length (mem w)) = MF * (1 + RD);
  r_db : m_rqDbrec w = 0;
  r_comps : comps w = [];
}.

Lemma raw_steps w w' : rtc nstep w w' -> raw w -> raw w' /\ obj w' = obj w /\ rq w' = rq w.
Proof.
  intros Hr. induction Hr as [w|w w1 w2 H1 _ IH]; intros Hw; [done|].
  assert (raw w1 /\ obj w1 = obj w /\ rq w1 = rq w) as (Hw1 & Ho1 & Hq1).
  { destruct H1 as [w seg c f r Hgo|w e]; [|destruct Hw; by split_and!].
    destruct Hgo. rewrite (r_db _ Hw), (r_comps _ Hw). done. }
  destruct (IH Hw1) as (? & ? & ?). split_and!; [done|congruence|congruence].
Qed.

Lemma prewrite_run n : forall i w, raw w -> 0 <= i -> i + Z.of_nat n = Q ->
  (forall p, 0 <= p < i -> rq w !! Z.to_nat p = Some (data_seg RD MF base lk p)) ->
  exists w', for_loop n i (fun p => modify env ;; w ← get;
      match rq w !! Z.to_nat p with
      | Some _ => modify (set_rq (<[Z.to_nat p := data_seg RD MF base lk p]> (rq w)))
      | None => raise Undef
      end) w = (Done tt, w') /\
    raw w' /\ forall p, 0 <= p < Q -> rq w' !! Z.to_nat p = Some (data_seg RD MF base lk p).
Proof.
  induction n as [|n IH]; intros i w Hw Hi Hn Hpre.
  { exists w. split; [done|]. split; [done|]. intros p Hp. apply Hpre. lia. }
  cbn [for_loop]. rewrite bind_assoc, run_modify. destruct (raw_steps _ _ (env_ok w) Hw) as (Hw1 & _ & Hq). rewrite bind_assoc, run_get, Hq.
  destruct (lookup_lt_is_Some_2 (rq w) (Z.to_nat i)) as [sg Hsg]; [pose proof (r_rq _ Hw); lia|]. rewrite Hsg, run_modify.
  apply IH; [|lia|lia|].
  - destruct Hw1. constructor; cbn; try done. rewrite length_insert. apply Hw.
  - intros p Hp. cbn. destruct (decide (p = i)) as [->|Hne].
    + apply list_lookup_insert_eq. by eapply lookup_lt_Some.
    + rewrite list_lookup_insert_ne by lia. apply Hpre. lia.
Qed.

Lemma start_run w : raw w -> exists w', start_rx RD MF base lk env w = (Done tt, w') /\ inv 0 w' /\ comps w' = [].
Proof.
  intros Hw. pose proof C_pos. pose proof RD_pos. unfold start_rx, prewriteRq. rewrite bind_assoc, run_gets. destruct (r_obj _ Hw) as (_ & HQ & _). rewrite HQ.
  destruct (prewrite_run (Z.to_nat Q) 0 w Hw ltac:(lia) ltac:(lia) ltac:(lia)) as (w1 & E1 & Hw1 & Hrq).
  rewrite (run_bind _ _ _ _ _ E1), run_modify. set (w2 := set_obj _ w1). rewrite run_modify.
  assert (raw w2) as Hw2 by (destruct Hw1; by constructor).
  destruct (raw_steps _ _ (env_ok w2) Hw2) as ([[HC [HQ3 Hci]] K2 K3 K4 K5 K6 K7] & Ho & Hrq3).
  eexists. split; [done|]. split; [|cbn; exact K7]. split; [|split; cbn; [exact Hci|]].
  - constructor; cbn [set_rqDb obj cq rq mem comps m_rqDbrec]; rewrite ?K7; try done; try (cbn; lia).
    + rewrite Hrq3. exact Hrq.
    + f_equal. rewrite Ho. cbn [w2 set_obj obj set_head m_rqHead]. rewrite Z.add_0_r. apply (land_mask (2 ^ 16)). by exists 16.
    + intros j Hj. destruct (lookup_lt_is_Some_2 (cq (env w2)) (pos C j)) as [c Hc]; [apply pos_lt; [done|by rewrite K2]|].
      exists c. cbn. split; [done|]. left. exact (proj1 (list.Forall_lookup _ _) K3 _ _ Hc).
  - rewrite Ho. cbn. rewrite Z.add_0_r. symmetry. apply wrap_small. split; lia.
Qed.
End Properties.


(** ** A simulated device: four slots of 16 bytes, a receive queue of 8 entries and a
    completion queue of 4; before each access it completes the next WQE, every fifth one with an error. *)
Definition sim_frame (n : Z) : bytes := [u8 n; u8 (n / 256); 9].

Definition sim_device (w : world unit) : world unit :=
  let n := Z.of_nat (length (comps w)) in
  match rq w !! pos (m_rqWqeCnt (obj w)) n with
  | Some seg =>
      if decide (bswap 4 (m_rqDbrec w) <> n mod 2 ^ 16 /\ 3 <= bswap 4 (byteCount seg)) then
        let bad := n mod 5 =? 4 in
        complete (mk_cqe ((if bad then 208 else 32) + owner_bit (m_cqeCnt (obj w)) n) (bswap 2 (n mod 2 ^ 16)) (bswap 4 3))
          (bswap 8 (addr seg) - 4096) (sim_frame n) (if bad then None else Some (sim_frame n)) w
      else w
  | None => w
  end.

Lemma sim_op_own (bad : bool) C n : let o := (if bad then 208 else 32) + owner_bit C n in
  Z.land o 1 = owner_bit C n /\ Z.shiftr o 4 = if bad then 13 else 2.
Proof.
  unfold owner_bit. pose proof (Z.mod_pos_bound (n / C) 2 ltac:(lia)) as Hb. set (x := (n / C) mod 2) in *.
  assert (x = 0 \/ x = 1) as [-> | ->] by lia; by destruct bad.
Qed.

Lemma sim_device_ok w : rtc (nstep 4096) w (sim_device w).
Proof.
  unfold sim_device. destruct (rq w !! _) as [seg|] eqn:Hseg; [|done]. case_decide as Hd; [|done]. destruct Hd as [Hgo Hlen]. apply rtc_once.
  set (n := Z.of_nat (length (comps w))) in *. set (bad := n mod 5 =? 4).
  destruct (sim_op_own bad (m_cqeCnt (obj w)) n) as [Ho1 Ho2].
  eapply n_complete; [exact Hgo|exact Hseg|exact Hlen| |exact Ho1| |].
  - repeat (apply list.Forall_cons; split; [first [by apply wrap_range|by vm_compute]|]). constructor.
  - unfold wqe_counter. apply bswap_involutive. apply (Z.mod_pos_bound n (2 ^ 16)). lia.
  - cbn [op_own byte_cnt]. rewrite Ho2. destruct bad; [done|]. split_and!; try done.
Qed.

Definition sim_raw : world unit :=
  mk_world (mk_verbs 4 0 8 0 0) (replicate 4 (mk_cqe 240 0 0)) (replicate 8 (mk_seg 0 0 0)) 0 0 (replicate 80 0) [] tt.

Lemma sim_raw_ok : raw 4 16 4 8 sim_raw.
Proof. constructor; try done. by repeat (apply list.Forall_cons; split; [done|]). Qed.

Lemma pow2_ex k : 0 <= k -> is_pow2 (2 ^ k).
Proof. by exists k. Qed.

End Rx.
