(* ===== verification/Resources.v ===== *)
(** * Objects of a library that depend on each other

    The set-up code of several transports takes objects from a library and gives them back in
    an order in which none is refused.  Here is what is live ([resources]), what a request
    and a release do to it, and the simulated library of the witnesses. *)

From S2P Require Import Prelude.

(** What is live, as (kind, handle), and which object depends on which. *)
Definition key : Type := Z * Z.
Definition resources : Type := gset key * gset (key * key).


(** A new object, or nothing and a null handle. *)
Definition obtained (k h : Z) (parents : list key) (r r' : resources) : Prop :=
  (h = 0 /\ r' = r) \/
  (h <> 0 /\ (k, h) ∉ r.1 /\ r' = ({[(k, h)]} ∪ r.1, list_to_set (pair (k, h) <$> parents) ∪ r.2)).

(** An object is destroyed if nothing depends on it, else the request is refused. *)
Definition released (x : key) (r r' : resources) : Prop :=
  ((forall c, (c, x) ∉ r.2) /\ r' = (r.1 ∖ {[x]}, filter (fun e => e.1 <> x) r.2)) \/
  ((exists c, (c, x) ∈ r.2) /\ r' = r).

Section Live.
Implicit Types (base r : resources) (l : list (key * list key)).

Definition opt (k h : Z) (ps : list key) : list (key * list key) := if h =? 0 then [] else [((k, h), ps)].
Definition keys l : gset key := list_to_set (fst <$> l).
Definition deps l : gset (key * key) := list_to_set (l ≫= fun e => pair e.1 <$> e.2).

(** On top of [base] exactly the objects of [l] are live. *)
Definition holds base l r : Prop :=
  r = (keys l ∪ base.1, deps l ∪ base.2) /\ NoDup (fst <$> l) /\ (forall x, x ∈ l.*1 -> x ∉ base.1).

Definition closed base : Prop := forall c p, (c, p) ∈ base.2 -> c ∈ base.1 /\ p ∈ base.1.

Lemma keys_app l1 l2 : keys (l1 ++ l2) = keys l1 ∪ keys l2.
Proof. unfold keys. by rewrite fmap_app, list_to_set_app_L. Qed.

Lemma deps_app l1 l2 : deps (l1 ++ l2) = deps l1 ∪ deps l2.
Proof. unfold deps. by rewrite bind_app, list_to_set_app_L. Qed.

Lemma elem_of_deps l c p : (c, p) ∈ deps l <-> exists ps, (c, ps) ∈ l /\ p ∈ ps.
Proof.
  unfold deps. rewrite elem_of_list_to_set, list_elem_of_bind. split.
  - intros ([x ps] & Hin & He). apply list_elem_of_fmap in Hin as (q & [= -> ->] & Hq). by exists ps.
  - intros (ps & Hin & Hp). exists (c, ps). split; [|done]. apply list_elem_of_fmap. by exists p.
Qed.

Lemma holds_nil r : holds r [] r.
Proof. split; [|split; [constructor|intros x Hx; by apply not_elem_of_nil in Hx]]. cbn. by rewrite !union_empty_l_L, <- surjective_pairing. Qed.

(** A request that answers with a status, and a new object when it succeeds. *)
Definition granted (ok : bool) (k h : Z) (parents : list key) (r r' : resources) : Prop :=
  if ok then (k, h) ∉ r.1 /\ r' = ({[(k, h)]} ∪ r.1, list_to_set (pair (k, h) <$> parents) ∪ r.2) else r' = r.

Definition opt_if (ok : bool) (k h : Z) (ps : list key) : list (key * list key) := if ok then [((k, h), ps)] else [].

Lemma grow_if base l r r' ok k h ps : holds base l r -> granted ok k h ps r r' -> holds base (l ++ opt_if ok k h ps) r'.
Proof.
  intros (Hr & Hnd & Hb) Ho. destruct ok; cbn in Ho |- *. 2: { rewrite app_nil_r. by subst r'. }
  destruct Ho as [Hn He]. rewrite Hr in Hn, He. cbn [fst snd] in Hn, He.
  apply not_elem_of_union in Hn as [Hn1 Hn2]. unfold keys in Hn1. rewrite elem_of_list_to_set in Hn1.
  split; [|split].
  - rewrite He, keys_app, deps_app. f_equal; [unfold keys at 2; cbn; set_solver|]. unfold deps at 3. cbn. rewrite app_nil_r. set_solver.
  - rewrite fmap_app. apply list.NoDup_app. split; [done|]. split; [|apply list.NoDup_singleton].
    intros x Hx Hx2. apply list_elem_of_singleton in Hx2 as ->. done.
  - intros x Hx. rewrite fmap_app in Hx. apply elem_of_app in Hx as [Hx|Hx]; [by apply Hb|]. by apply list_elem_of_singleton in Hx as ->.
Qed.

Lemma obtained_granted k h ps r r' : obtained k h ps r r' -> granted (negb (h =? 0)) k h ps r r'.
Proof. intros [[-> ->]|(Hh & Hn & ->)]; [done|]. by rewrite (proj2 (Z.eqb_neq _ _)) by done. Qed.

Lemma grow base l r r' k h ps : holds base l r -> obtained k h ps r r' -> holds base (l ++ opt k h ps) r'.
Proof. intros Hl Ho. pose proof (grow_if _ _ _ _ _ _ _ _ Hl (obtained_granted _ _ _ _ _ Ho)) as Hg. unfold opt, opt_if in *. by destruct (h =? 0). Qed.

(** What is taken and given back at once leaves no trace. *)
Lemma scoped k h r r1 r2 : closed r -> granted true k h [] r r1 -> released (k, h) r1 r2 -> r2 = r.
Proof.
  intros Hcl [Hn ->] Hr. cbn in Hr. rewrite union_empty_l_L in Hr. cbn [fst snd] in Hr.
  assert (forall e, e ∈ r.2 -> e.1 <> (k, h) /\ e.2 <> (k, h)) as Hno.
  { intros [c p] Hin. destruct (Hcl _ _ Hin). cbn. split; congruence. }
  destruct Hr as [[_ ->]|[[c Hc] _]]; [|by destruct (Hno _ Hc)]. destruct r as [ks ds]. cbn [fst snd] in *. f_equal; [set_solver|].
  apply set_eq. intros e. rewrite elem_of_filter. split; [tauto|]. intros He. split; [apply (Hno e He)|done].
Qed.

Lemma shrink base l r r' x ps :
  closed base -> holds base (l ++ [(x, ps)]) r -> (forall e, e ∈ l -> x ∉ e.2) -> x ∉ ps ->
  released x r r' -> holds base l r'.
Proof.
  intros Hcl (Hr & Hnd & Hb) Hl Hps Hrel. rewrite fmap_app in Hnd, Hb. apply list.NoDup_app in Hnd as (Hnd & Hdis & _).
  assert (x ∉ base.1) as Hx by (apply Hb, elem_of_app; right; by apply list_elem_of_singleton).
  assert (x ∉ l.*1) as Hxl by (intros Hin; apply (Hdis x Hin); by apply list_elem_of_singleton).
  assert (forall c, (c, x) ∉ r.2) as Hno.
  { intros c Hc. rewrite Hr in Hc. cbn in Hc. apply elem_of_union in Hc as [Hc|Hc]; [|by destruct (Hcl _ _ Hc)].
    apply elem_of_deps in Hc as (qs & Hin & Hq). apply elem_of_app in Hin as [Hin|Hin]; [exact (Hl _ Hin Hq)|].
    apply list_elem_of_singleton in Hin as [= -> ->]. done. }
  destruct Hrel as [[_ He]|[[c Hc] _]]; [|by destruct (Hno c)]. split; [|split; [done|]].
  - rewrite He, Hr, keys_app, deps_app. cbn [fst snd]. f_equal.
    + unfold keys at 2. cbn. assert (x ∉ keys l) by (unfold keys; by rewrite elem_of_list_to_set). set_solver.
    + apply set_eq. intros [c p]. rewrite elem_of_filter, !elem_of_union. cbn [fst snd]. split.
      * intros [Hne [[Hin|Hin]|Hin]]; [by left| |by right]. apply elem_of_deps in Hin as (qs & Hin & _).
        by apply list_elem_of_singleton in Hin as [= -> ->].
      * intros [Hin|Hin]; (split; [|tauto]); intros ->.
        -- apply Hxl. apply elem_of_deps in Hin as (qs & Hin & _). apply list_elem_of_fmap. by exists (x, qs).
        -- by destruct (Hcl _ _ Hin).
  - intros y Hy. apply Hb, elem_of_app. by left.
Qed.

Lemma holds_perm base l l' r : l ≡ₚ l' -> holds base l r -> holds base l' r.
Proof.
  intros Hp (Hr & Hnd & Hb). assert (fst <$> l ≡ₚ fst <$> l') as Hf by by rewrite Hp. split; [|split].
  - rewrite Hr. f_equal; f_equal; unfold keys, deps; apply set_eq; intros x; rewrite !elem_of_list_to_set; [by rewrite Hf|].
    by rewrite Hp.
  - by rewrite <- Hf.
  - intros x. rewrite <- Hf. apply Hb.
Qed.

(** No parent is of kind [k]. *)
Definition apart (k : Z) (e : key * list key) : Prop := forall p, p ∈ e.2 -> p.1 <> k.

Lemma opt_apart k k' h ps : apart k ((k', h), ps) -> Forall (apart k) (opt k' h ps).
Proof. intros Ha. unfold opt. by destruct (h =? 0); repeat constructor. Qed.

Lemma apart_nil k x : apart k (x, []).
Proof. by intros p ?%not_elem_of_nil. Qed.

Lemma apart_cons k x p ps : p.1 <> k -> apart k (x, ps) -> apart k (x, p :: ps).
Proof. by intros Hp Ha q [->|Hq]%elem_of_cons; [|apply Ha]. Qed.

Lemma apart_notin k h l e : Forall (apart k) l -> e ∈ l -> (k, h) ∉ e.2.
Proof. intros Ha Hin Hk. rewrite list.Forall_forall in Ha. by apply (Ha e Hin _ Hk). Qed.

Lemma opt_0 k ps : opt k 0 ps = [].
Proof. done. Qed.

End Live.

(** ** Programs over an object [O] and a machine [W] *)
Section Pair.
Context {O W : Type}.

Definition sys {A} (f : W -> A * W) : M (O * W) A := fun s => let '(a, w) := f (snd s) in (Done a, (fst s, w)).
Definition act (f : W -> W) : M (O * W) unit := fun s => (Done tt, (fst s, f (snd s))).
Definition upd (f : O -> O) : M (O * W) unit := fun s => (Done tt, (f (fst s), snd s)).

(** [m] ends, in a state with [Q]. *)
Definition ends {A} (m : M (O * W) A) (Q : A -> O * W -> Prop) (s : O * W) : Prop :=
  match m s with (Done a, s') => Q a s' | _ => False end.

Lemma ends_bind {A B} (m : M (O * W) A) (f : A -> M (O * W) B) Q s : ends m (fun a => ends (f a) Q) s -> ends (m ≫= f) Q s.
Proof. unfold ends, mbind, M_bind. by destruct (m s) as [[] ?]. Qed.

Lemma ends_mono {A} (m : M (O * W) A) (P Q : A -> O * W -> Prop) s : ends m P s -> (forall a s', P a s' -> Q a s') -> ends m Q s.
Proof. unfold ends. destruct (m s) as [[] ?]; auto. Qed.

Lemma ends_sys {A B} (f : W -> A * W) (k : A -> M (O * W) B) Q (o : O) (w : W) :
  ends (k (fst (f w))) Q (o, snd (f w)) -> ends (sys f ≫= k) Q (o, w).
Proof. intros H. apply ends_bind. unfold ends at 1, sys. cbn. by destruct (f w). Qed.

Lemma ends_act {B} (f : W -> W) (k : unit -> M (O * W) B) Q (o : O) (w : W) : ends (k tt) Q (o, f w) -> ends (act f ≫= k) Q (o, w).
Proof. done. Qed.

Lemma ends_upd {B} (f : O -> O) (k : unit -> M (O * W) B) Q (o : O) (w : W) : ends (k tt) Q (f o, w) -> ends (upd f ≫= k) Q (o, w).
Proof. done. Qed.

Lemma ends_gets {A B} (f : O * W -> A) (k : A -> M (O * W) B) Q s : ends (k (f s)) Q s -> ends (gets f ≫= k) Q s.
Proof. done. Qed.

Lemma ends_ret {A} (a : A) (Q : A -> O * W -> Prop) s : Q a s -> ends (mret a) Q s.
Proof. done. Qed.


Lemma ends_triple {A} P (m : M (O * W) A) (Q : A -> O * W -> Prop) s : triple P m Q -> P s -> ends m Q s.
Proof. intros Hm Hs. destruct (Hm s Hs) as (a & s' & E & Ha). unfold ends. by rewrite E. Qed.

(** [m] ends and leaves [f] of the state as it was. *)
Definition fixes {A X} (f : O * W -> X) (m : M (O * W) A) : Prop := forall s, ends m (fun _ s' => f s' = f s) s.

Lemma fixes_ret {A X} (f : O * W -> X) (a : A) : fixes f (mret a).
Proof. done. Qed.

Lemma fixes_bind {A B X} (f : O * W -> X) (m : M (O * W) A) (k : A -> M (O * W) B) : fixes f m -> (forall a, fixes f (k a)) -> fixes f (m ≫= k).
Proof.
  intros Hm Hk s. apply ends_bind. eapply ends_mono; [apply Hm|]. cbn beta. intros a s1 He. eapply ends_mono; [apply Hk|]. cbn beta. intros _ s2 He2. by rewrite He2.
Qed.

Lemma fixes_gets {A X} (f : O * W -> X) (g : O * W -> A) : fixes f (gets g).
Proof. done. Qed.

Lemma fixes_sys {A X} (f : O * W -> X) (g : W -> A * W) : (forall o w, f (o, snd (g w)) = f (o, w)) -> fixes f (sys g).
Proof. intros Hf [o w]. specialize (Hf o w). unfold ends, sys. cbn. by destruct (g w). Qed.

Lemma fixes_act {X} (f : O * W -> X) (g : W -> W) : (forall o w, f (o, g w) = f (o, w)) -> fixes f (act g).
Proof. intros Hf [o w]. apply Hf. Qed.

Lemma fixes_upd {X} (f : O * W -> X) (g : O -> O) : (forall o w, f (g o, w) = f (o, w)) -> fixes f (upd g).
Proof. intros Hf [o w]. apply Hf. Qed.

Lemma fixes_if {A X} (f : O * W -> X) (b : bool) (m n : M (O * W) A) : fixes f m -> fixes f n -> fixes f (if b then m else n).
Proof. by destruct b. Qed.

Lemma fixes_if_dec {A X} (f : O * W -> X) (P : Prop) `{Decision P} (m n : M (O * W) A) : fixes f m -> fixes f n -> fixes f (if decide P then m else n).
Proof. by case_decide. Qed.

Lemma fixes_option {A B X} (f : O * W -> X) (x : option B) (m : M (O * W) A) (k : B -> M (O * W) A) :
  fixes f m -> (forall b, fixes f (k b)) -> fixes f (match x with Some b => k b | None => m end).
Proof. intros. by destruct x. Qed.

Lemma fixes_for_loop {X} (f : O * W -> X) n i body : (forall j, fixes f (body j)) -> fixes f (for_loop n i body).
Proof. intros Hb. revert i; induction n as [|n IH]; intros i; cbn [for_loop]; [apply fixes_ret|]. by apply fixes_bind. Qed.

Lemma fixes_pair {A X Y} (f : O * W -> X) (g : O * W -> Y) (m : M (O * W) A) : fixes f m -> fixes g m -> fixes (fun s => (f s, g s)) m.
Proof.
  intros Hf Hg s. specialize (Hf s). specialize (Hg s). unfold ends in *. destruct (m s) as [[] s']; try done. by rewrite Hf, Hg.
Qed.
End Pair.

(** One construct at a time; what is left are the calls. *)
Ltac unchanged := repeat first
  [ apply fixes_ret | apply fixes_gets | apply fixes_bind; [|intros ?] | apply fixes_if | apply fixes_if_dec | apply fixes_option; [|intros ?]
  | apply fixes_for_loop; intros ? | apply fixes_sys; intros ? ? | apply fixes_act; intros ? ? | apply fixes_upd; intros ? ? ].

(** ** A simulated library: every request is granted, with the first handle above all those
    in use. *)
Definition res_max (l : list key) : Z := foldr (fun x m => Z.max (Z.abs (snd x)) m) 0 l.
Definition res_fresh (r : resources) : Z := 1 + res_max (elements r.1).

Definition res_obtain (k : Z) (ps : list key) (r : resources) : Z * resources :=
  let h := res_fresh r in
  (h, ({[(k, h)]} ∪ r.1, list_to_set (pair (k, h) <$> ps) ∪ r.2)).

Definition res_release (x : key) (r : resources) : resources :=
  if decide (Exists (fun e : key * key => e.2 = x) (elements r.2)) then r
  else (r.1 ∖ {[x]}, filter (fun e => e.1 <> x) r.2).

Lemma res_fresh_pos r : 0 < res_fresh r.
Proof. unfold res_fresh, res_max; induction (elements _); cbn [foldr]; lia. Qed.

Lemma res_obtain_spec k ps r : obtained k (fst (res_obtain k ps r)) ps r (snd (res_obtain k ps r)).
Proof.
  right. cbn -[res_fresh].
  assert (forall x l, x ∈ l -> Z.abs x.2 <= res_max l) as Hmax by (intros x l; unfold res_max; induction 1; cbn [foldr]; lia).
  pose proof (res_fresh_pos r) as Hpos.
  split; [lia|]. split; [|done]. intros Hin. apply elem_of_elements, Hmax in Hin. assert (Z.abs (res_fresh r) < res_fresh r); [|lia].
  unfold res_fresh at 2. rewrite Z.add_1_l. apply Z.lt_succ_r. exact Hin.
Qed.

Lemma res_release_spec x r : released x r (res_release x r).
Proof.
  unfold res_release. case_decide as Hd.
  - right. split; [|done]. apply list.Exists_exists in Hd as ([c p] & Hin & Hp). cbn in Hp. subst p. exists c. by apply elem_of_elements.
  - left. split; [|done]. intros c Hc. apply Hd, list.Exists_exists. exists (c, x). split; [by apply elem_of_elements|done].
Qed.
