(* ===== verification/VerbsSetup.v ===== *)
(** * The RDMA verbs transport: set-up (src/backends/Verbs/Verbs.hpp)

    [init], [shutdown] and what they read from sysfs, over the operations of libibverbs,
    mlx5dv and the C library ([VerbsSys]).  The library's objects depend on each other: a
    protection domain cannot go while a queue pair or a memory region uses it
    ([VerbsSysLaws]); the theorem shows that [shutdown] takes everything down in an order in
    which nothing is refused, wherever [init] stopped. *)

From Stdlib Require Import Ascii.
From S2P Require Import Prelude Resources TestConfig Verbs.

Inductive VerbsMode := RxOnly | TxOnly | RxTx.
Definition HAS_RX (M : VerbsMode) : bool := match M with TxOnly => false | _ => true end.
Definition HAS_TX (M : VerbsMode) : bool := match M with RxOnly => false | _ => true end.

Definition IBV_QPS_INIT : Z := 1.
Definition IBV_QPS_RTR : Z := 2.
Definition IBV_QPS_RTS : Z := 3.

(** [ibv_qp_init_attr], the fields [init] sets. *)
Record qp_attr := mk_qp_attr {
  send_cq : Z; recv_cq : Z; max_send_wr : Z; max_recv_wr : Z; max_inline_data : Z }.

(** What [mlx5dv_init_obj] exports of the two rings. *)
Record geometry := mk_geometry { cqe_cnt : Z; cqe_size : Z; wqe_cnt : Z; stride : Z }.

(** The members of a [Verbs] object; handles are 0 when null, [m_rx] are the members the
    receive side works with. *)
Record Verbs := mk_verbs {
  m_ifname : string;
  m_mac : list Z;
  m_ctx : Z;
  m_pd : Z;
  m_sendCq : Z;
  m_recvCq : Z;
  m_qp : Z;
  m_mr : Z;
  m_flow : Z;
  m_buf : Z;
  m_maxInline : Z;
  m_rx : Rx.Verbs;
}.

Definition set_mac (x : list Z) (o : Verbs) := mk_verbs (m_ifname o) x (m_ctx o) (m_pd o) (m_sendCq o) (m_recvCq o) (m_qp o) (m_mr o) (m_flow o) (m_buf o) (m_maxInline o) (m_rx o).
Definition set_ctx (x : Z) (o : Verbs) := mk_verbs (m_ifname o) (m_mac o) x (m_pd o) (m_sendCq o) (m_recvCq o) (m_qp o) (m_mr o) (m_flow o) (m_buf o) (m_maxInline o) (m_rx o).
Definition set_pd (x : Z) (o : Verbs) := mk_verbs (m_ifname o) (m_mac o) (m_ctx o) x (m_sendCq o) (m_recvCq o) (m_qp o) (m_mr o) (m_flow o) (m_buf o) (m_maxInline o) (m_rx o).
Definition set_sendCq (x : Z) (o : Verbs) := mk_verbs (m_ifname o) (m_mac o) (m_ctx o) (m_pd o) x (m_recvCq o) (m_qp o) (m_mr o) (m_flow o) (m_buf o) (m_maxInline o) (m_rx o).
Definition set_recvCq (x : Z) (o : Verbs) := mk_verbs (m_ifname o) (m_mac o) (m_ctx o) (m_pd o) (m_sendCq o) x (m_qp o) (m_mr o) (m_flow o) (m_buf o) (m_maxInline o) (m_rx o).
Definition set_qp (x i : Z) (o : Verbs) := mk_verbs (m_ifname o) (m_mac o) (m_ctx o) (m_pd o) (m_sendCq o) (m_recvCq o) x (m_mr o) (m_flow o) (m_buf o) i (m_rx o).
Definition set_mr (x : Z) (o : Verbs) := mk_verbs (m_ifname o) (m_mac o) (m_ctx o) (m_pd o) (m_sendCq o) (m_recvCq o) (m_qp o) x (m_flow o) (m_buf o) (m_maxInline o) (m_rx o).
Definition set_flow (x : Z) (o : Verbs) := mk_verbs (m_ifname o) (m_mac o) (m_ctx o) (m_pd o) (m_sendCq o) (m_recvCq o) (m_qp o) (m_mr o) x (m_buf o) (m_maxInline o) (m_rx o).
Definition set_buf (x : Z) (o : Verbs) := mk_verbs (m_ifname o) (m_mac o) (m_ctx o) (m_pd o) (m_sendCq o) (m_recvCq o) (m_qp o) (m_mr o) (m_flow o) x (m_maxInline o) (m_rx o).
Definition set_rx (x : Rx.Verbs) (o : Verbs) := mk_verbs (m_ifname o) (m_mac o) (m_ctx o) (m_pd o) (m_sendCq o) (m_recvCq o) (m_qp o) (m_mr o) (m_flow o) (m_buf o) (m_maxInline o) x.

(** The constructor. *)
Definition construct (ifname : string) : Verbs := mk_verbs ifname (replicate 6 0) 0 0 0 0 0 0 0 0 0 (Rx.mk_verbs 0 0 0 0 0).

(** The library and system calls; a handle of 0 is a null pointer, [readdir] gives the
    remaining entries one by one, and the rings of the queue pair are those of [Verbs.Rx]. *)
Class VerbsSys (W : Type) := {
  opendir : string -> W -> Z * W;
  readdir : Z -> W -> option string * W;
  closedir : Z -> W -> W;
  fopen : string -> W -> Z * W;
  fread_text : Z -> W -> string * W;
  fclose : Z -> W -> W;
  ibv_get_device_list : W -> (Z * list (Z * string)) * W;
  ibv_free_device_list : Z -> W -> W;
  ibv_open_device : Z -> W -> Z * W;
  ibv_close_device : Z -> W -> W;
  ibv_alloc_pd : Z -> W -> Z * W;
  ibv_dealloc_pd : Z -> W -> W;
  ibv_create_cq : Z -> Z -> W -> Z * W;
  ibv_destroy_cq : Z -> W -> W;
  posix_memalign : Z -> W -> Z * W;
  free : Z -> W -> W;
  ibv_reg_mr : Z -> Z -> Z -> W -> Z * W;
  ibv_dereg_mr : Z -> W -> W;
  ibv_create_qp : Z -> qp_attr -> W -> (Z * Z) * W;
  ibv_destroy_qp : Z -> W -> W;
  ibv_modify_qp : Z -> Z -> W -> Z * W;
  mlx5dv_init_obj : Z -> Z -> W -> (Z * geometry) * W;
  ibv_create_flow : Z -> list Z -> W -> Z * W;
  ibv_destroy_flow : Z -> W -> W;
  buf_addr : Z -> W -> Z;
  mr_lkey : Z -> W -> Z;
  rx_rings : W -> Rx.world unit;
  set_rx_rings : Rx.world unit -> W -> W;
}.

Section Operations.
Context {W : Type} {VS : VerbsSys W} (M : VerbsMode) (SqDepth RqDepth MaxInline MaxFrame : Z).
Abbreviation S := (Verbs * W)%type.
Abbreviation M' := (Prelude.M S).

(** [ibdevFromNetdev]: the first entry that does not start with a dot. *)
Fixpoint first_entry (fuel : nat) (d : Z) : M' string :=
  match fuel with
  | O => raise NoFuel
  | Datatypes.S fuel =>
      e ← sys (readdir d);
      match e with
      | None => mret ""%string
      | Some (String "." _) => first_entry fuel d
      | Some name => mret name
      end
  end%char.

Definition ibdevFromNetdev (fuel : nat) (ifname : string) : M' string :=
  d ← sys (opendir ("/sys/class/net/" ++ ifname ++ "/device/infiniband"));
  if d =? 0 then mret ""%string else
  out ← first_entry fuel d;
  act (closedir d) ;;
  mret out.

(** [readMac] *)
Definition readMac : M' bool :=
  o ← gets fst;
  f ← sys (fopen ("/sys/class/net/" ++ m_ifname o ++ "/address"));
  if f =? 0 then mret false else
  text ← sys (fread_text f);
  act (fclose f) ;;
  let b := scan_macs 6 text in
  if decide (length b <> 6%nat) then mret false else
  upd (set_mac (u8 <$> b)) ;;
  mret true.

(** The device of that name, if the list has one. *)
Fixpoint open_named (name : string) (list : list (Z * string)) : M' unit :=
  match list with
  | [] => mret tt
  | (dev, n) :: list =>
      if String.eqb name n then c ← sys (ibv_open_device dev); upd (set_ctx c) else open_named name list
  end.

(** The rings' sizes become members. *)
Definition export_rings (g : geometry) (o : Rx.Verbs) : Rx.Verbs :=
  Rx.mk_verbs (cqe_cnt g) (Rx.m_cqCi o) (wqe_cnt g) (Rx.m_rqHead o) (Rx.m_lastSlot o).

(** The receive members with the shared memory of the rings, as [Verbs.Rx] has them. *)
Definition rx_part (s : S) : Rx.world unit := Rx.set_obj (m_rx (fst s)) (rx_rings (snd s)).
Definition set_rx_part (r : Rx.world unit) (s : S) : S := (set_rx (Rx.obj r) (fst s), set_rx_rings r (snd s)).

(** The receive part: export the rings, check them, start the queue and steer our MAC to it. *)
Definition init_rx : M' bool :=
  o ← gets fst;
  r ← sys (mlx5dv_init_obj (m_recvCq o) (m_qp o));
  let '(rc, g) := r in
  if negb (rc =? 0) then mret false else
  upd (fun o => set_rx (export_rings g (m_rx o)) o) ;;
  if (wqe_cnt g <? RqDepth) || negb (Z.land (wqe_cnt g) (wqe_cnt g - 1) =? 0) ||
     negb (Z.land (cqe_cnt g) (cqe_cnt g - 1) =? 0) || (stride g <? 16) then mret false else
  base ← gets (fun s => buf_addr (m_buf o) (snd s));
  lkey ← gets (fun s => mr_lkey (m_mr o) (snd s));
  zoom rx_part set_rx_part (Rx.start_rx RqDepth MaxFrame base lkey id) ;;
  o ← gets fst;
  f ← sys (ibv_create_flow (m_qp o) (m_mac o));
  upd (set_flow f) ;;
  mret (negb (f =? 0)).

(** The queue pair's way to its working state. *)
Definition ready_qp : M' bool :=
  o ← gets fst;
  r ← sys (ibv_modify_qp (m_qp o) IBV_QPS_INIT);
  if negb (r =? 0) then mret false else
  r ← sys (ibv_modify_qp (m_qp o) IBV_QPS_RTR);
  if negb (r =? 0) then mret false else
  if HAS_TX M then r ← sys (ibv_modify_qp (m_qp o) IBV_QPS_RTS); mret (r =? 0) else mret true.

(** From the protection domain on. *)
Definition init_objects : M' bool :=
  o ← gets fst;
  pd ← sys (ibv_alloc_pd (m_ctx o));
  upd (set_pd pd) ;;
  if pd =? 0 then mret false else
  s ← sys (ibv_create_cq (m_ctx o) SqDepth);
  upd (set_sendCq s) ;;
  r ← sys (ibv_create_cq (m_ctx o) RqDepth);
  upd (set_recvCq r) ;;
  if (s =? 0) || (r =? 0) then mret false else
  let bufSize := MaxFrame * (1 + RqDepth) in
  b ← sys (posix_memalign bufSize);
  upd (set_buf b) ;;
  if b =? 0 then mret false else
  mr ← sys (ibv_reg_mr pd b bufSize);
  upd (set_mr mr) ;;
  if mr =? 0 then mret false else
  q ← sys (ibv_create_qp pd (mk_qp_attr s r (if HAS_TX M then SqDepth else 1) (if HAS_RX M then RqDepth else 1) (if HAS_TX M then MaxInline else 0)));
  upd (set_qp (fst q) (m_maxInline o)) ;;
  if fst q =? 0 then mret false else
  upd (set_qp (fst q) (snd q)) ;;
  ok ← ready_qp;
  if negb ok then mret false else
  if HAS_RX M then init_rx else mret true.

(** [init] *)
Definition init (fuel : nat) : M' bool :=
  o ← gets fst;
  ibdev ← ibdevFromNetdev fuel (m_ifname o);
  if String.eqb ibdev "" then mret false else
  ok ← readMac;
  if negb ok then mret false else
  l ← sys ibv_get_device_list;
  open_named ibdev (snd l) ;;
  act (ibv_free_device_list (fst l)) ;;
  o ← gets fst;
  if m_ctx o =? 0 then mret false else
  init_objects.

(** [shutdown] *)
Definition drop (field : Verbs -> Z) (destroy : Z -> W -> W) (reset : Verbs -> Verbs) : M' unit :=
  o ← gets fst;
  if field o =? 0 then mret tt else act (destroy (field o)) ;; upd reset.

Definition shutdown : M' unit :=
  drop m_flow ibv_destroy_flow (set_flow 0) ;;
  drop m_qp ibv_destroy_qp (fun o => set_qp 0 (m_maxInline o) o) ;;
  drop m_sendCq ibv_destroy_cq (set_sendCq 0) ;;
  drop m_recvCq ibv_destroy_cq (set_recvCq 0) ;;
  drop m_mr ibv_dereg_mr (set_mr 0) ;;
  drop m_buf free (set_buf 0) ;;
  drop m_pd ibv_dealloc_pd (set_pd 0) ;;
  drop m_ctx ibv_close_device (set_ctx 0).

Definition dtor : M' unit := shutdown.

Definition macAddress (o : Verbs) : list Z := m_mac o.
End Operations.

(** ** Resources and their dependencies *)

Definition kDir : Z := 1.
Definition kFile : Z := 2.
Definition kList : Z := 3.
Definition kCtx : Z := 4.
Definition kPd : Z := 5.
Definition kCq : Z := 6.
Definition kBuf : Z := 7.
Definition kMr : Z := 8.
Definition kQp : Z := 9.
Definition kFlow : Z := 10.

Class VerbsSysLaws (W : Type) `{VerbsSys W} := {
  rs : W -> resources;
  entries_left : Z -> W -> nat;
  max_entries : nat;
  entries_bound d w : (entries_left d w <= max_entries)%nat;
  opendir_law p w : obtained kDir (fst (opendir p w)) [] (rs w) (rs (snd (opendir p w)));
  readdir_law d w : rs (snd (readdir d w)) = rs w /\ (fst (readdir d w) <> None -> (entries_left d (snd (readdir d w)) < entries_left d w)%nat);
  closedir_law d w : released (kDir, d) (rs w) (rs (closedir d w));
  fopen_law p w : obtained kFile (fst (fopen p w)) [] (rs w) (rs (snd (fopen p w)));
  fread_law f w : rs (snd (fread_text f w)) = rs w;
  fclose_law f w : released (kFile, f) (rs w) (rs (fclose f w));
  device_list_law w : obtained kList (fst (fst (ibv_get_device_list w))) [] (rs w) (rs (snd (ibv_get_device_list w))) /\ fst (fst (ibv_get_device_list w)) <> 0;
  free_list_law l w : released (kList, l) (rs w) (rs (ibv_free_device_list l w));
  open_device_law d w : obtained kCtx (fst (ibv_open_device d w)) [] (rs w) (rs (snd (ibv_open_device d w)));
  close_device_law c w : released (kCtx, c) (rs w) (rs (ibv_close_device c w));
  alloc_pd_law c w : obtained kPd (fst (ibv_alloc_pd c w)) [(kCtx, c)] (rs w) (rs (snd (ibv_alloc_pd c w)));
  dealloc_pd_law p w : released (kPd, p) (rs w) (rs (ibv_dealloc_pd p w));
  create_cq_law c n w : obtained kCq (fst (ibv_create_cq c n w)) [(kCtx, c)] (rs w) (rs (snd (ibv_create_cq c n w)));
  destroy_cq_law q w : released (kCq, q) (rs w) (rs (ibv_destroy_cq q w));
  memalign_law n w : obtained kBuf (fst (posix_memalign n w)) [] (rs w) (rs (snd (posix_memalign n w)));
  free_law b w : released (kBuf, b) (rs w) (rs (free b w));
  reg_mr_law p b n w : obtained kMr (fst (ibv_reg_mr p b n w)) [(kPd, p); (kBuf, b)] (rs w) (rs (snd (ibv_reg_mr p b n w)));
  dereg_mr_law m w : released (kMr, m) (rs w) (rs (ibv_dereg_mr m w));
  create_qp_law p a w : obtained kQp (fst (fst (ibv_create_qp p a w))) [(kPd, p); (kCq, send_cq a); (kCq, recv_cq a)] (rs w) (rs (snd (ibv_create_qp p a w)));
  destroy_qp_law q w : released (kQp, q) (rs w) (rs (ibv_destroy_qp q w));
  modify_qp_law q s w : rs (snd (ibv_modify_qp q s w)) = rs w;
  init_obj_law c q w : let '((rc, g), w') := mlx5dv_init_obj c q w in rs w' = rs w /\
    (rc = 0 -> Z.of_nat (length (Rx.rq (rx_rings w'))) = wqe_cnt g);
  create_flow_law q m w : obtained kFlow (fst (ibv_create_flow q m w)) [(kQp, q)] (rs w) (rs (snd (ibv_create_flow q m w)));
  destroy_flow_law f w : released (kFlow, f) (rs w) (rs (ibv_destroy_flow f w));
  set_rings_law r w : rs (set_rx_rings r w) = rs w;
}.

Section Balance.
Context {W : Type} {VS : VerbsSys W} {VL : VerbsSysLaws W}.
Abbreviation S := (Verbs * W)%type.
Implicit Types (base : resources).

(** ** The set-up code *)

(** What an object owns, in the order in which nothing depends on what comes later; the
    first [n] of its eight handles. *)
Definition handles (o : Verbs) : list (list (key * list key)) :=
  [ opt kCtx (m_ctx o) []; opt kPd (m_pd o) [(kCtx, m_ctx o)]; opt kBuf (m_buf o) [];
    opt kMr (m_mr o) [(kPd, m_pd o); (kBuf, m_buf o)]; opt kCq (m_recvCq o) [(kCtx, m_ctx o)];
    opt kCq (m_sendCq o) [(kCtx, m_ctx o)];
    opt kQp (m_qp o) [(kPd, m_pd o); (kCq, m_sendCq o); (kCq, m_recvCq o)]; opt kFlow (m_flow o) [(kQp, m_qp o)] ].
Definition owned (o : Verbs) : list (key * list key) := mjoin (handles o).
Definition Inv base (s : S) : Prop := holds base (owned (fst s)) (rs (snd s)).

Lemma inv_grow base (o o' : Verbs) (w w' : W) k h ps :
  Inv base (o, w) -> obtained k h ps (rs w) (rs w') -> owned o' ≡ₚ owned o ++ opt k h ps -> Inv base (o', w').
Proof. intros Hi Ho Hp. eapply holds_perm; [symmetry; exact Hp|]. eapply grow; [exact Hi|exact Ho]. Qed.

Lemma inv_same base (o : Verbs) (w w' : W) : rs w' = rs w -> Inv base (o, w) -> Inv base (o, w').
Proof. unfold Inv. cbn. by intros ->. Qed.

(** A resource that is taken and given back within a function. *)
Lemma inv_release base (o : Verbs) (w w' : W) k h :
  closed base -> k < kCtx -> holds base (owned o ++ [((k, h), [])]) (rs w) -> released (k, h) (rs w) (rs w') -> Inv base (o, w').
Proof.
  intros Hcl Hk Hg Hr. eapply shrink; [exact Hcl|exact Hg| |apply not_elem_of_nil|exact Hr].
  intros e. apply apart_notin. unfold owned, handles. cbn [mjoin list_join app]. unfold kCtx in Hk.
  repeat first [apply Forall_app_2 | apply opt_apart | apply apart_nil | apply apart_cons | apply list.Forall_nil_2].
  all: cbn; unfold kCtx, kPd, kBuf, kCq, kQp; lia.
Qed.

Lemma inv_scoped base (o : Verbs) (w w1 w2 w3 : W) k h :
  closed base -> k < kCtx -> h <> 0 -> Inv base (o, w) -> obtained k h [] (rs w) (rs w1) -> rs w2 = rs w1 ->
  released (k, h) (rs w2) (rs w3) -> Inv base (o, w3).
Proof.
  intros Hcl Hk Hh Hi Ho He Hr. pose proof (grow _ _ _ _ _ _ _ Hi Ho) as Hg. unfold opt in Hg.
  rewrite (proj2 (Z.eqb_neq _ _)) in Hg by done. eapply inv_release; [exact Hcl|exact Hk| |exact Hr]. by rewrite He.
Qed.

Lemma entries_ends fuel d (o : Verbs) : forall w, (entries_left d w < fuel)%nat ->
  ends (first_entry fuel d) (fun _ s' => fst s' = o /\ rs (snd s') = rs w) (o, w).
Proof.
  induction fuel as [|fuel IH]; intros w Hf; [lia|]. cbn [first_entry]. apply ends_sys. destruct (readdir_law d w) as [Hr Hd].
  destruct (fst (readdir d w)) as [n|]; [|by apply ends_ret]. specialize (Hd ltac:(done)).
  assert (ends (first_entry fuel d) (fun _ s' => fst s' = o /\ rs (snd s') = rs w) (o, snd (readdir d w))) as Hrec.
  { eapply ends_mono; [apply IH; lia|]. cbn. intros _ s' [-> ->]. by split. }
  destruct n as [|c n]; [by apply ends_ret|]. destruct c as [[] [] [] [] [] [] [] []]; first [exact Hrec|by apply ends_ret].
Qed.

Lemma ibdev_ends base fuel ifname (o : Verbs) (w : W) : closed base -> (max_entries < fuel)%nat -> Inv base (o, w) ->
  ends (ibdevFromNetdev fuel ifname) (fun _ s' => fst s' = o /\ Inv base s') (o, w).
Proof.
  intros Hcl Hf Hi. unfold ibdevFromNetdev. apply ends_sys. pose proof (opendir_law ("/sys/class/net/" ++ ifname ++ "/device/infiniband") w) as Ho.
  destruct (opendir _ w) as [d w1]. cbn [fst snd] in Ho |- *. destruct (Z.eqb_spec d 0) as [->|Hd].
  { apply ends_ret. split; [done|]. destruct Ho as [[_ He]|[? _]]; [|done]. eapply inv_same; [exact He|exact Hi]. }
  apply ends_bind. eapply ends_mono; [apply (entries_ends fuel d o); pose proof (entries_bound d w1); lia|].
  cbn. intros n [o' w2] [Hfo Hrs]. cbn in Hfo, Hrs. subst o'. apply ends_act, ends_ret. split; [done|].
  eapply (inv_scoped base o w w1 w2 _ kDir d); [done|reflexivity|exact Hd|exact Hi|exact Ho|exact Hrs|]. apply closedir_law.
Qed.

Lemma readMac_ends base (o : Verbs) (w : W) : closed base -> Inv base (o, w) ->
  ends readMac (fun _ s' => (exists mac, fst s' = set_mac mac o) /\ Inv base s') (o, w).
Proof.
  intros Hcl Hi. unfold readMac. apply ends_gets, ends_sys. pose proof (fopen_law ("/sys/class/net/" ++ m_ifname o ++ "/address") w) as Ho.
  cbn [fst]. destruct (fopen _ w) as [f w1]. cbn [fst snd] in Ho |- *.
  assert (o = set_mac (m_mac o) o) as Hsame by by destruct o. destruct (Z.eqb_spec f 0) as [->|Hd].
  { apply ends_ret. split; [by eexists|]. destruct Ho as [[_ He]|[? _]]; [|done]. eapply inv_same; [exact He|exact Hi]. }
  apply ends_sys, ends_act. assert (Inv base (o, fclose f (snd (fread_text f w1)))) as Hi'.
  { eapply (inv_scoped base o w w1 _ _ kFile f); [done|reflexivity|exact Hd|exact Hi|exact Ho|apply fread_law|apply fclose_law]. }
  case_decide; [apply ends_ret; split; [by eexists|done]|]. apply ends_upd, ends_ret. by split; [eexists|].
Qed.

(** *** The objects *)
Lemma prewrite_total RD MF b lk n : forall i (r : Rx.world unit), 0 <= i -> i + Z.of_nat n <= Z.of_nat (length (Rx.rq r)) ->
  exists r', for_loop n i (fun p => modify id ;; w ← get;
    match Rx.rq w !! Z.to_nat p with
    | Some _ => modify (Rx.set_rq (<[Z.to_nat p := Rx.data_seg RD MF b lk p]> (Rx.rq w)))
    | None => raise Undef
    end) r = (Done tt, r').
Proof.
  induction n as [|n IH]; intros i r Hi Hn; [by exists r|]. cbn [for_loop]. rewrite bind_assoc, run_modify, bind_assoc, run_get. unfold id at 1 2 3.
  destruct (lookup_lt_is_Some_2 (Rx.rq r) (Z.to_nat i)) as [sg Hsg]; [lia|]. rewrite Hsg, run_modify.
  apply IH; [lia|]. cbn. rewrite length_insert. lia.
Qed.

Lemma start_ends RD MF b lk Q (o : Verbs) (w : W) :
  Z.of_nat (length (Rx.rq (rx_rings w))) = Rx.m_rqWqeCnt (m_rx o) ->
  (forall x r, Q tt (set_rx x o, set_rx_rings r w)) -> ends (zoom rx_part set_rx_part (Rx.start_rx RD MF b lk id)) Q (o, w).
Proof.
  intros Hl HQ. unfold ends, zoom, Rx.start_rx, Rx.prewriteRq. rewrite bind_assoc, run_gets.
  destruct (prewrite_total RD MF b lk (Z.to_nat (Rx.m_rqWqeCnt (Rx.obj (rx_part (o, w))))) 0 (rx_part (o, w))) as [r' Hr]; [lia|cbn; lia|].
  rewrite (run_bind _ _ _ _ _ Hr), run_modify, run_modify. apply HQ.
Qed.

Lemma inv_rx base (o : Verbs) (w w' : W) x : rs w' = rs w -> Inv base (o, w) -> Inv base (set_rx x o, w').
Proof. intros Hr. by apply (inv_same base (set_rx x o)). Qed.

Lemma init_rx_ends base RD MF (o : Verbs) (w : W) : Inv base (o, w) -> m_flow o = 0 -> ends (init_rx RD MF) (fun _ s' => Inv base s') (o, w).
Proof.
  intros Hi Hf. unfold init_rx. apply ends_gets, ends_sys. cbn [fst]. pose proof (init_obj_law (m_recvCq o) (m_qp o) w) as Hl.
  destruct (mlx5dv_init_obj _ _ w) as [[rc g] w1]. destruct Hl as [Hr Hl]. cbn [fst snd]. destruct (Z.eqb_spec rc 0) as [Hrc|]; cbn [negb];
    [|apply ends_ret; eapply inv_same; [exact Hr|exact Hi]]. specialize (Hl Hrc). apply ends_upd.
  pose proof (inv_rx base o w w1 (export_rings g (m_rx o)) Hr Hi) as Hi1. destruct (_ || _ || _ || _); [by apply ends_ret|].
  apply ends_gets, ends_gets, ends_bind, start_ends; [exact Hl|]. intros x r. apply ends_gets, ends_sys, ends_upd, ends_ret.
  eapply inv_grow; [eapply (inv_rx base _ _ _ x); [apply (set_rings_law r)|exact Hi1]|apply create_flow_law|].
  unfold owned, handles. cbn -[opt]. rewrite Hf. change (opt kFlow 0 _) with (@nil (key * list key)). cbn [app]. solve_Permutation.
Qed.

Lemma ready_ends base M (o : Verbs) (w : W) : Inv base (o, w) -> ends (ready_qp M) (fun _ s' => fst s' = o /\ Inv base s') (o, w).
Proof.
  intros Hi. unfold ready_qp. apply ends_gets, ends_sys. cbn [fst]. assert (forall q st w, Inv base (o, w) -> Inv base (o, snd (ibv_modify_qp q st w))) as Hm.
  { intros q st w1. apply inv_same, modify_qp_law. }
  pose proof (Hm (m_qp o) IBV_QPS_INIT _ Hi) as Hi1. case_match; [by apply ends_ret|]. apply ends_sys.
  pose proof (Hm (m_qp o) IBV_QPS_RTR _ Hi1) as Hi2. case_match; [by apply ends_ret|]. case_match; [|by apply ends_ret].
  apply ends_sys, ends_ret. split; [done|]. by apply Hm.
Qed.

(** The next operation of the goal makes an object, whose handle is stored: it joins what
    the object owns. *)
Ltac own := unfold owned, handles; cbn -[opt]; rewrite ?opt_0; cbn [app]; rewrite ?app_nil_r; solve_Permutation.
Ltac fields Hi := cbn [fst snd] in *;
  cbv [set_pd set_sendCq set_recvCq set_qp set_mr set_buf m_ifname m_mac m_ctx m_pd m_sendCq m_recvCq m_qp m_mr m_flow m_buf m_maxInline m_rx] in Hi |- *.
Ltac acquire Hi law h :=
  apply ends_sys; let Ho := fresh in pose proof law as Ho;
  match goal with |- ends _ _ (_, snd ?r) =>
    let w := fresh "w" in destruct r as [h w]; cbn [fst snd] in Ho |- *; apply ends_upd;
    match goal with |- ends _ _ (?f ?o, _) =>
      eapply (inv_grow _ _ (f o)) in Hi; [|exact Ho|own]; clear Ho; fields Hi end end.

Lemma init_objects_ends base M SQ RD MI MF n mac c i r (w : W) :
  Inv base (mk_verbs n mac c 0 0 0 0 0 0 0 i r, w) ->
  ends (init_objects M SQ RD MI MF) (fun _ s' => Inv base s') (mk_verbs n mac c 0 0 0 0 0 0 0 i r, w).
Proof.
  intros Hi. unfold init_objects. apply ends_gets. cbn [fst m_ctx].
  acquire Hi (alloc_pd_law c w) pd. destruct (pd =? 0); [by apply ends_ret|].
  acquire Hi (create_cq_law c SQ w0) scq. acquire Hi (create_cq_law c RD w1) rcq. destruct ((scq =? 0) || (rcq =? 0)); [by apply ends_ret|].
  acquire Hi (memalign_law (MF * (1 + RD)) w2) b. destruct (b =? 0); [by apply ends_ret|].
  acquire Hi (reg_mr_law pd b (MF * (1 + RD)) w3) mr. destruct (mr =? 0); [by apply ends_ret|].
  match goal with |- context [ibv_create_qp pd ?a] => acquire Hi (create_qp_law pd a w4) q end.
  destruct (Z.eqb_spec (fst q) 0) as [Hq|Hq]; [by apply ends_ret|]. apply ends_upd, ends_bind. fields Hi.
  assert (Inv base (mk_verbs n mac c pd scq rcq (fst q) mr 0 b (snd q) r, w5)) as Hi' by exact Hi.
  eapply ends_mono; [exact (ready_ends _ M _ _ Hi')|]. cbn beta. intros ok [o' w'] [Ho Hi2]. cbn [fst] in Ho. subst o'.
  destruct (negb ok); [by apply ends_ret|]. destruct (HAS_RX M); [|by apply ends_ret]. by apply init_rx_ends.
Qed.
(** *** [init] *)
Lemma open_named_ends base name devs x n mac i r : forall w,
  holds base (owned (mk_verbs n mac 0 0 0 0 0 0 0 0 i r) ++ [x]) (rs w) ->
  ends (open_named name devs) (fun _ s' => exists c, fst s' = mk_verbs n mac c 0 0 0 0 0 0 0 i r /\ holds base (owned (fst s') ++ [x]) (rs (snd s')))
    (mk_verbs n mac 0 0 0 0 0 0 0 0 i r, w).
Proof.
  induction devs as [|[d nm] devs IH]; intros w Hw; cbn [open_named]; [by apply ends_ret; exists 0|]. case_match; [|by apply IH].
  apply ends_sys. exists (fst (ibv_open_device d w)). split; [done|]. pose proof (grow _ _ _ _ _ _ _ Hw (open_device_law d w)) as Hg.
  eapply holds_perm; [|exact Hg]. own.
Qed.

Lemma init_ends base M SQ RD MI MF fuel n mac i r (w : W) :
  closed base -> (max_entries < fuel)%nat -> Inv base (mk_verbs n mac 0 0 0 0 0 0 0 0 i r, w) ->
  ends (init M SQ RD MI MF fuel) (fun _ s' => Inv base s') (mk_verbs n mac 0 0 0 0 0 0 0 0 i r, w).
Proof.
  intros Hcl Hf Hi. unfold init. apply ends_gets, ends_bind. eapply ends_mono; [by apply ibdev_ends|]. cbn beta. intros ibdev [o w1] [Ho Hi1]. cbn in Ho. subst o.
  destruct (String.eqb ibdev ""); [by apply ends_ret|]. apply ends_bind. eapply ends_mono; [by apply readMac_ends|]. cbn beta.
  intros ok [o w2] [[mac2 Ho] Hi2]. cbn in Ho. subst o. destruct (negb ok); [by apply ends_ret|]. apply ends_sys.
  destruct (device_list_law w2) as [Hl Hn]. pose proof (grow _ _ _ _ _ _ _ Hi2 Hl) as Hg. unfold opt in Hg. rewrite (proj2 (Z.eqb_neq _ _)) in Hg by exact Hn.
  apply ends_bind. eapply ends_mono; [by apply open_named_ends|]. cbn beta. intros _ [o w3] (c & Ho & Hw3). cbn in Ho. subst o. apply ends_act.
  assert (Inv base (mk_verbs n mac2 c 0 0 0 0 0 0 0 i r, ibv_free_device_list (fst (fst (ibv_get_device_list w2))) w3)) as Hi3.
  { eapply (inv_release base _ w3 _ kList); [done|reflexivity|exact Hw3|apply free_list_law]. }
  apply ends_gets. destruct (m_ctx _ =? 0); [by apply ends_ret|]. by apply init_objects_ends.
Qed.
(** *** [shutdown] *)
Lemma drop_ends base (o : Verbs) (w : W) field destroy reset k ps :
  closed base -> (forall h w, released (k, h) (rs w) (rs (destroy h w))) ->
  owned o = owned (reset o) ++ opt k (field o) ps -> Forall (apart k) (((k, field o), ps) :: owned (reset o)) ->
  (field o = 0 -> reset o = o) -> Inv base (o, w) ->
  ends (drop field destroy reset) (fun _ s' => fst s' = reset o /\ Inv base s') (o, w).
Proof.
  intros Hcl Hd Ho [Hps Hl]%list.Forall_cons Hz Hi. unfold drop. apply ends_gets. cbn [fst]. destruct (Z.eqb_spec (field o) 0) as [H0|Hn].
  { apply ends_ret. split; [symmetry; by apply Hz|done]. }
  apply ends_act. split; [done|]. unfold Inv in *. cbn [fst snd] in *. rewrite Ho in Hi. unfold opt in Hi.
  rewrite (proj2 (Z.eqb_neq _ _)) in Hi by done. eapply shrink; [exact Hcl|exact Hi| |intros Hx; by apply (Hps _ Hx)|apply Hd].
  intros e. by apply apart_notin.
Qed.

(** The next handle goes: [law] is its destructor's, [ps] what it depends on. *)
Ltac own_last := cbn [fst snd] in *; unfold owned, handles; cbn -[opt]; rewrite ?opt_0; cbn [app]; rewrite ?app_nil_r, ?app_assoc; reflexivity.
Ltac no_parent := unfold owned, handles; cbn -[opt]; rewrite ?opt_0; cbn [app];
  repeat first [apply Forall_app_2 | apply opt_apart | apply apart_nil | apply apart_cons | apply list.Forall_nil_2 | apply list.Forall_cons_2 | discriminate].
Ltac drop_next Hcl Hi law ps := let o := fresh "o" in let w := fresh "w" in let Ho := fresh in
  eapply ends_mono; [eapply (drop_ends _ _ _ _ _ _ _ ps Hcl law); [own_last|no_parent|cbn; by intros ->|exact Hi]|];
  clear Hi; cbn beta; intros _ [o w] [Ho Hi]; cbn [fst] in Ho; subst o; cbv [set_flow set_ctx] in Hi |- *; fields Hi.

Lemma shutdown_ends base n mac c pd scq rcq q mr f b i r (w : W) :
  closed base -> Inv base (mk_verbs n mac c pd scq rcq q mr f b i r, w) ->
  ends shutdown (fun _ s' => fst s' = mk_verbs n mac 0 0 0 0 0 0 0 0 i r /\ rs (snd s') = base) (mk_verbs n mac c pd scq rcq q mr f b i r, w).
Proof.
  intros Hcl Hi. unfold shutdown.
  apply ends_bind. drop_next Hcl Hi destroy_flow_law [(kQp, q)].
  apply ends_bind. drop_next Hcl Hi destroy_qp_law [(kPd, pd); (kCq, scq); (kCq, rcq)].
  apply ends_bind. drop_next Hcl Hi destroy_cq_law [(kCtx, c)].
  apply ends_bind. drop_next Hcl Hi destroy_cq_law [(kCtx, c)].
  apply ends_bind. drop_next Hcl Hi dereg_mr_law [(kPd, pd); (kBuf, b)].
  apply ends_bind. drop_next Hcl Hi free_law (@nil key).
  apply ends_bind. drop_next Hcl Hi dealloc_pd_law [(kCtx, c)].
  drop_next Hcl Hi close_device_law (@nil key).
  split; [done|]. destruct Hi as [Hr _]. etransitivity; [exact Hr|]. cbn. by rewrite !union_empty_l_L, <- surjective_pairing.
Qed.
End Balance.


(** ** A simulated machine: every request is granted, with the first handle above all those in
    use; another process has a device open and a protection domain on it. *)
Record vmachine := mk_vm { vm_res : resources; vm_entries : list string; vm_rings : Rx.world unit }.

Definition vm_obtain (k : Z) (ps : list key) (w : vmachine) : Z * vmachine :=
  let '(h, r) := res_obtain k ps (vm_res w) in (h, mk_vm r (vm_entries w) (vm_rings w)).
Definition vm_release (x : key) (w : vmachine) : vmachine := mk_vm (res_release x (vm_res w)) (vm_entries w) (vm_rings w).

#[export] Instance sim_VerbsSys : VerbsSys vmachine := {|
  opendir p w := vm_obtain kDir [] w;
  readdir d w := match take 4 (vm_entries w) with [] => (None, w) | e :: l => (Some e, mk_vm (vm_res w) l (vm_rings w)) end;
  closedir d w := vm_release (kDir, d) w;
  fopen p w := vm_obtain kFile [] w;
  fread_text f w := ("02:00:5e:10:00:ff"%string, w);
  fclose f w := vm_release (kFile, f) w;
  ibv_get_device_list w := let '(h, w) := vm_obtain kList [] w in ((h, [(11, "mlx5_1"%string); (12, "mlx5_0"%string)]), w);
  ibv_free_device_list l w := vm_release (kList, l) w;
  ibv_open_device d w := vm_obtain kCtx [] w;
  ibv_close_device c w := vm_release (kCtx, c) w;
  ibv_alloc_pd c w := vm_obtain kPd [(kCtx, c)] w;
  ibv_dealloc_pd p w := vm_release (kPd, p) w;
  ibv_create_cq c n w := vm_obtain kCq [(kCtx, c)] w;
  ibv_destroy_cq q w := vm_release (kCq, q) w;
  posix_memalign n w := vm_obtain kBuf [] w;
  free b w := vm_release (kBuf, b) w;
  ibv_reg_mr p b n w := vm_obtain kMr [(kPd, p); (kBuf, b)] w;
  ibv_dereg_mr m w := vm_release (kMr, m) w;
  ibv_create_qp p a w := let '(h, w) := vm_obtain kQp [(kPd, p); (kCq, send_cq a); (kCq, recv_cq a)] w in ((h, max_inline_data a), w);
  ibv_destroy_qp q w := vm_release (kQp, q) w;
  ibv_modify_qp q st w := (0, w);
  mlx5dv_init_obj c q w := ((0, mk_geometry 8 64 (Z.of_nat (length (Rx.rq (vm_rings w)))) 16), w);
  ibv_create_flow q m w := vm_obtain kFlow [(kQp, q)] w;
  ibv_destroy_flow f w := vm_release (kFlow, f) w;
  buf_addr b w := 65536;
  mr_lkey m w := 7;
  rx_rings := vm_rings;
  set_rx_rings r w := mk_vm (vm_res w) (vm_entries w) r;
|}.

Lemma vm_obtain_spec k ps w : obtained k (fst (vm_obtain k ps w)) ps (vm_res w) (vm_res (snd (vm_obtain k ps w))).
Proof. exact (res_obtain_spec k ps (vm_res w)). Qed.

Lemma vm_release_spec x w : released x (vm_res w) (vm_res (vm_release x w)).
Proof. apply res_release_spec. Qed.

#[local] Obligation Tactic := idtac.
#[export] Program Instance sim_VerbsSysLaws : VerbsSysLaws vmachine := {|
  rs := vm_res; entries_left d w := length (take 4 (vm_entries w)); max_entries := 4 |}.
Solve Obligations with intros; first [apply vm_obtain_spec | apply vm_release_spec | reflexivity].

Next Obligation. intros. cbv beta. rewrite length_take. lia. Qed.
Next Obligation.
  intros d w. cbn [readdir sim_VerbsSys]. cbv beta. destruct (take 4 (vm_entries w)) as [|e l] eqn:He; cbn [fst snd vm_res vm_entries].
  - by split.
  - split; [done|]. intros _. assert (length (e :: l) <= 4)%nat as Hl by (rewrite <- He, length_take; lia). rewrite take_ge by (cbn in *; lia). cbn. lia.
Qed.
Next Obligation.
  intros w. pose proof (vm_obtain_spec kList [] w) as Ho. cbn [ibv_get_device_list sim_VerbsSys]. destruct (vm_obtain kList [] w) as [h w'] eqn:E.
  split; [exact Ho|]. pose proof (res_fresh_pos (vm_res w)). cbn [fst]. injection E. intros. lia.
Qed.
Next Obligation. intros c q w. by split. Qed.

Definition vm_start : vmachine :=
  mk_vm ({[(kCtx, 3); (kPd, 4)]}, {[((kPd, 4), (kCtx, 3))]}) ["."; ".."; "mlx5_0"]%string
    (Rx.mk_world (Rx.mk_verbs 0 0 0 0 0) (replicate 8 (Rx.mk_cqe 255 0 0)) (replicate 8 (Rx.mk_seg 0 0 0)) 0 0 [] [] tt).

Definition vm_run : outcome bool * (Verbs * vmachine) :=
  (b ← init RxTx 256 8 128 2048 5; shutdown ;; mret b) (construct "eth0", vm_start).

(** Everything was set up, and everything was given back. *)
Lemma vm_run_done : fst vm_run = Done true.
Proof. vm_compute. reflexivity. Qed.

Lemma vm_start_closed : closed (rs vm_start).
Proof. intros c p Hin. cbn in Hin. apply elem_of_singleton in Hin as [= -> ->]. cbn. set_solver. Qed.

