(* ===== verification/Files.v ===== *)
(** * Files, directories and commands

    What the control code (PciHelpers, DPDKEal, NicTuner) uses of the C library's file
    interface, as operations on the machine [W] ([FileSys]): descriptors, streams, directory
    streams, links, commands.  [FileLaws] states what is open after each operation;
    a program [keeps] when it ends and everything it opened is closed again. *)

From Stdlib Require Import Ascii.
From S2P Require Import Prelude CStrings.
From stdpp Require Import gmap.
Open Scope Z_scope.

Inductive open_mode := O_RDONLY | O_WRONLY | O_WRONLY_TRUNC.

(** A stream or directory is 0 when null, a descriptor is negative on failure; [fgets] and
    [read] take the most characters to give (the buffer less its NUL); [readdir] gives the
    entries one by one. *)
Class FileSys (W : Type) := {
  readlink : string -> Z -> W -> option string * W;
  access : string -> W -> bool * W;
  fopen : string -> W -> Z * W;
  fgets : Z -> Z -> W -> option string * W;
  fclose : Z -> W -> W;
  open_fd : open_mode -> string -> W -> Z * W;
  read_fd : Z -> Z -> W -> option string * W;
  write_fd : Z -> string -> W -> Z * W;
  close_fd : Z -> W -> W;
  opendir : string -> W -> Z * W;
  readdir : Z -> W -> option string * W;
  closedir : Z -> W -> W;
  system : string -> W -> Z * W;
}.

(** ** What is open *)

Definition kFd : Z := 1.
Definition kStream : Z := 2.
Definition kDirectory : Z := 3.

Definition opened (k h : Z) (ok : bool) (r r' : gset (Z * Z)) : Prop :=
  if ok then (k, h) ∉ r /\ r' = {[(k, h)]} ∪ r else r' = r.

(** [entries_left]: how many entries [readdir] has still to give. *)
Class FileLaws (W : Type) `{FileSys W} := {
  handles : W -> gset (Z * Z);
  entries_left : Z -> W -> nat;
  max_entries : nat;
  entries_bound d w : (entries_left d w <= max_entries)%nat;
  readlink_law p n w : handles (snd (readlink p n w)) = handles w;
  access_law p w : handles (snd (access p w)) = handles w;
  fopen_law p w : opened kStream (fst (fopen p w)) (negb (fst (fopen p w) =? 0)) (handles w) (handles (snd (fopen p w)));
  fgets_law f n w : handles (snd (fgets f n w)) = handles w;
  fclose_law f w : handles (fclose f w) = handles w ∖ {[(kStream, f)]};
  open_law m p w : opened kFd (fst (open_fd m p w)) (0 <=? fst (open_fd m p w)) (handles w) (handles (snd (open_fd m p w)));
  read_law f n w : handles (snd (read_fd f n w)) = handles w;
  write_law f s w : handles (snd (write_fd f s w)) = handles w;
  close_law f w : handles (close_fd f w) = handles w ∖ {[(kFd, f)]};
  opendir_law p w : opened kDirectory (fst (opendir p w)) (negb (fst (opendir p w) =? 0)) (handles w) (handles (snd (opendir p w)));
  readdir_law d w : handles (snd (readdir d w)) = handles w /\
    (fst (readdir d w) <> None -> (entries_left d (snd (readdir d w)) < entries_left d w)%nat);
  closedir_law d w : handles (closedir d w) = handles w ∖ {[(kDirectory, d)]};
  system_law c w : handles (snd (system c w)) = handles w;
}.

Create HintDb files discriminated.

Section Keeps.
Context {W : Type} {FS : FileSys W} {FL : FileLaws W}.

(** [m] ends from [w], and what is open then is [r]. *)
Definition ends_with {A} (m : M W A) (r : gset (Z * Z)) (w : W) : Prop :=
  match m w with (Done _, w') => handles w' = r | _ => False end.

(** [m] always ends, with the same things open as before. *)
Definition keeps {A} (m : M W A) : Prop := forall w, ends_with m (handles w) w.

Lemma keeps_ret {A} (a : A) : keeps (mret a).
Proof. done. Qed.

Lemma keeps_bind {A B} (m : M W A) (f : A -> M W B) : keeps m -> (forall a, keeps (f a)) -> keeps (m ≫= f).
Proof.
  intros Hm Hf w. specialize (Hm w). unfold ends_with, mbind, M_bind in *. destruct (m w) as [[a| | | |] w1]; try done.
  specialize (Hf a w1). unfold ends_with in Hf. by rewrite Hm in Hf.
Qed.

Lemma keeps_lift {A} (f : W -> A * W) : (forall w, handles (snd (f w)) = handles w) -> keeps (lift f).
Proof. intros Hf w. specialize (Hf w). unfold ends_with, lift. by destruct (f w). Qed.

Lemma keeps_gets {A} (f : W -> A) : keeps (gets f).
Proof. done. Qed.

Lemma keeps_modify (f : W -> W) : (forall w, handles (f w) = handles w) -> keeps (modify f).
Proof. intros Hf w. apply Hf. Qed.

Lemma keeps_if {A} (b : bool) (m n : M W A) : keeps m -> keeps n -> keeps (if b then m else n).
Proof. by destruct b. Qed.

Lemma keeps_if_dec {A} (P : Prop) `{Decision P} (m n : M W A) : keeps m -> keeps n -> keeps (if decide P then m else n).
Proof. by case_decide. Qed.

Lemma keeps_for_each {A} (xs : list A) (body : A -> M W unit) : (forall x, keeps (body x)) -> keeps (for_each xs body).
Proof. intros Hb. induction xs as [|x xs IH]; cbn [for_each]; [apply keeps_ret|]. by apply keeps_bind. Qed.

(** The body of a resource's scope may leave it open: the release follows. *)
Lemma keeps_scope {B} k (get : W -> Z * W) ok (put : Z -> W -> W) (f : Z -> M W B) :
  (forall w, opened k (fst (get w)) (ok (fst (get w))) (handles w) (handles (snd (get w)))) ->
  (forall h w, handles (put h w) = handles w ∖ {[(k, h)]}) ->
  (forall h, ok h = false -> keeps (f h)) ->
  (forall h w, ok h = true -> (k, h) ∈ handles w -> ends_with (f h) (handles w ∖ {[(k, h)]}) w) ->
  keeps (lift get ≫= f).
Proof.
  intros Hg Hp Hf Ht w. specialize (Hg w). unfold ends_with, mbind, M_bind, lift. destruct (get w) as [h w1]. cbn [fst snd] in Hg.
  unfold opened in Hg. destruct (ok h) eqn:Hok.
  - destruct Hg as [Hn Hr]. assert ((k, h) ∈ handles w1) as Hin by (rewrite Hr; set_solver). pose proof (Ht h w1 Hok Hin) as He.
    unfold ends_with in He. destruct (f h w1) as [[]]; try done. rewrite He, Hr. set_solver.
  - pose proof (Hf h Hok w1) as He. unfold ends_with in He. by rewrite Hg in He.
Qed.

Lemma ends_keeps {A B} (m : M W A) (f : A -> M W B) r w : keeps m -> (forall a w', handles w' = handles w -> ends_with (f a) r w') -> ends_with (m ≫= f) r w.
Proof.
  intros Hm Hf. specialize (Hm w). unfold ends_with, mbind, M_bind in *. destruct (m w) as [[a| | | |] w1]; try done. by apply Hf.
Qed.

Lemma ends_release {B} (put : W -> W) (f : unit -> M W B) r w : handles (put w) = r -> keeps (f tt) -> ends_with (modify put ≫= f) r w.
Proof. intros Hp Hf. specialize (Hf (put w)). unfold ends_with in *. rewrite Hp in Hf. exact Hf. Qed.
End Keeps.

#[export] Hint Resolve keeps_ret keeps_bind keeps_gets keeps_if keeps_if_dec keeps_for_each : files.

(** ** A handle that is not open, for the simulated machines *)

Definition fresh_handle (r : gset (Z * Z)) : Z := 1 + foldr (fun x m => Z.max (Z.abs (snd x)) m) 0 (elements r).

Lemma fresh_handle_spec k r : 0 < fresh_handle r /\ (k, fresh_handle r) ∉ r.
Proof.
  assert (forall (x : Z * Z) l, x ∈ l -> Z.abs x.2 <= foldr (fun x m => Z.max (Z.abs (snd x)) m) 0 l) as Hm by (intros x l; induction 1; cbn [foldr]; lia).
  assert (0 < fresh_handle r) as Hp by (unfold fresh_handle; induction (elements _); cbn [foldr]; lia). split; [done|].
  intros Hin. apply elem_of_elements, Hm in Hin. cbn [snd] in Hin. assert (Z.abs (fresh_handle r) < fresh_handle r); [|lia].
  unfold fresh_handle at 2. rewrite Z.add_1_l. by apply Z.lt_succ_r.
Qed.
