(* ===== verification/PciHelpers.v ===== *)
(** * PCI lookups and register fixes (src/backends/common/PciHelpers.hpp)

    Interface names to PCI addresses ([resolveBdf], [bdfFromName]), the size of a BAR from
    sysfs, and the register accesses on a mapped BAR: the interrupt throttle report, its
    clearing, the switch of the receive queues to NoITR, the probe and the i225's EEE bit.
    A register access outside the mapped BAR is undefined behaviour; the mapping itself
    (BackendBase, a submodule) is the operations of [Bar]. *)

From Stdlib Require Import Ascii.
From S2P Require Import Prelude CStrings Files.
From S2P Require TestConfig.
From stdpp Require Import gmap.
Open Scope Z_scope.

(** A mapped BAR: [bar_open path offset size], its registers, and the destructor. *)
Class Bar (W : Type) := {
  #[global] bar_mmio :: Mmio W;
  bar_open : string -> Z -> Z -> W -> bool * W;
  bar_close : W -> W;
}.

Definition I40E_PFINT_ITR0_0 : Z := 229376.
Definition I40E_PFINT_ITRN_0_0 : Z := 196608.
Definition I40E_ITR_INTERVAL_MASK : Z := 4095.
Definition I40E_QINT_RQCTL_BASE : Z := 237568.
Definition I40E_QINT_RQCTL_COUNT : Z := 1536.
Definition I40E_ITR_INDX_SHIFT : Z := 11.
Definition I40E_ITR_INDX_MASK : Z := Z.shiftl 3 I40E_ITR_INDX_SHIFT.
Definition I40E_CAUSE_ENA_MASK : Z := Z.shiftl 1 30.
Definition I40E_NEXTQ_TYPE_SHIFT : Z := 27.
Definition I40E_NEXTQ_TYPE_MASK : Z := Z.shiftl 3 I40E_NEXTQ_TYPE_SHIFT.
Definition I40E_QUEUE_TYPE_UNKNOWN : Z := 3.
Definition I40E_RQCTL_RSVD_MASK : Z := Z.shiftl 1 31.
Definition I40E_ITR_INDEX_NONE : Z := 3.
Definition I40E_REG_UNIMPL : Z := 3735928559.
Definition I40E_PFINT_ITRN_BASE : Z := 196608.
Definition I40E_PFINT_ITRN_STRIDE : Z := 2048.
Definition I40E_PFINT_ITR0_BASE : Z := 229376.
Definition I40E_PFINT_ITR0_STRIDE : Z := 128.
Definition kEeer : Z := 3632.
Definition kLpiEnable : Z := 196608.

(** A driver-written QINT_RQCTL entry. *)
Definition i40eIsBoundRxQueue (v : Z) : bool :=
  if (v =? I40E_REG_UNIMPL) || (v =? 4294967295) then false
  else if Z.land v I40E_CAUSE_ENA_MASK =? 0 then false
  else if negb (Z.land v I40E_RQCTL_RSVD_MASK =? 0) then false
  else if Z.shiftr (Z.land v I40E_NEXTQ_TYPE_MASK) I40E_NEXTQ_TYPE_SHIFT =? I40E_QUEUE_TYPE_UNKNOWN then false
  else true.

(** The entry with its ITR_INDX field replaced. *)
Definition with_itr_index (v idx : Z) : Z :=
  Z.lor (Z.land v (u32 (Z.lnot I40E_ITR_INDX_MASK))) (Z.land (u32 (Z.shiftl idx I40E_ITR_INDX_SHIFT)) I40E_ITR_INDX_MASK).
Definition noitr (v : Z) : Z :=
  Z.lor (Z.land v (u32 (Z.lnot I40E_ITR_INDX_MASK))) (Z.shiftl I40E_ITR_INDEX_NONE I40E_ITR_INDX_SHIFT).
Definition itr_index (v : Z) : Z := Z.land v I40E_ITR_INDX_MASK.

(** [sscanf(line, "%llx", ...)] *)
Definition scan_llx (s : string) : option (Z * string) :=
  match skip_space s with
  | String "-" s' => '(v, r) ← one_or_more_hex (skip_0x s'); Some (u64 (- v), r)
  | String "+" s' => one_or_more_hex (skip_0x s')
  | s' => one_or_more_hex (skip_0x s')
  end%char.

(** [s.substr(s.find_last_of('/') + 1)], all of [s] when it has none. *)
Fixpoint basename (s : string) : string :=
  match s with
  | EmptyString => ""
  | String c r => match index 0 "/" r with Some _ => basename r | None => if Ascii.eqb c "/" then r else s end
  end.

(** [readDec] of [bdfFromName]: decimal digits into an unsigned. *)
Fixpoint more_dec (out : Z) (s : string) : Z * string :=
  match s with
  | String c r => match digit c with Some d => more_dec (u32 (u32 (out * 10) + d)) r | None => (out, s) end
  | EmptyString => (out, s)
  end.
Definition readDec (s : string) : option (Z * string) :=
  match s with
  | String c _ => match digit c with Some _ => Some (more_dec 0 s) | None => None end
  | EmptyString => None
  end.

(** The bus, device and function numbers of an enp name. *)
Definition name_numbers (ifname : string) : option (Z * Z * Z) :=
  if (Z.of_nat (String.length ifname) <? 5) then None else
  match ifname with
  | String "e" (String "n" (String "p" s)) =>
      '(bus, s) ← readDec s;
      match s with
      | String "s" s =>
          '(dev, s) ← readDec s;
          match s with
          | String "f" s => '(func, _) ← readDec s; Some (bus, dev, func)
          | _ => Some (bus, dev, 0)
          end
      | _ => None
      end
  | _ => None
  end%char.

(** [snprintf(bdf, sizeof(bdf), "0000:%02x:%02x.%x", ...)] *)
Definition hex2 (b : Z) : string :=
  String (TestConfig.hex_char (b / 16)) (String (TestConfig.hex_char (b mod 16)) "").
Definition bdf_string (bus dev func : Z) : string :=
  "0000:" ++ hex2 (Z.land bus 255) ++ ":" ++ hex2 (Z.land dev 255) ++ "." ++ String (TestConfig.hex_char (Z.land func 15)) "".

Section Operations.
Context {W : Type} {FS : FileSys W} {B : Bar W}.

(** ** Lookups *)

Definition readlinkBasename (path : string) : M W string :=
  t ← lift (readlink path 255);
  match t with None => mret "" | Some t => mret (basename t) end.

Definition resolveBdf (ifname : string) : M W string := readlinkBasename ("/sys/class/net/" ++ ifname ++ "/device").
Definition currentDriver (bdf : string) : M W string := readlinkBasename ("/sys/bus/pci/devices/" ++ bdf ++ "/driver").

(** [for (i = 0; i <= barIndex; ++i) fgets(line, 160, f)] *)
Fixpoint read_line (n : nat) (f : Z) : M W (option string) :=
  l ← lift (fgets f 159);
  match l, n with
  | None, _ => mret None
  | Some l, O => mret (Some l)
  | Some _, S n => read_line n f
  end.

Definition parse_bar (line : string) : Z :=
  match scan_llx line with
  | Some (start, r) =>
      match scan_llx r with
      | Some (end_, _) => if (start <=? end_) && negb (start =? 0) then u64 (end_ - start + 1) else 0
      | None => 0
      end
  | None => 0
  end.

Definition barSize (bdf : string) (barIndex : nat) : M W Z :=
  f ← lift (fopen ("/sys/bus/pci/devices/" ++ bdf ++ "/resource"));
  if f =? 0 then mret 0 else
  line ← read_line barIndex f;
  modify (fclose f) ;;
  mret (match line with None => 0 | Some line => parse_bar line end).

Definition bdfFromName (ifname : string) : M W string :=
  match name_numbers ifname with
  | None => mret ""
  | Some (bus, dev, func) =>
      let bdf := bdf_string bus dev func in
      ok ← lift (access ("/sys/bus/pci/devices/" ++ bdf));
      mret (if (ok : bool) then bdf else "")
  end.

Definition boundToI40e (ifname : string) : M W bool :=
  bdf ← resolveBdf ifname;
  if String.eqb bdf "" then mret false else
  d ← currentDriver bdf;
  mret (String.eqb d "i40e").

(** ** Registers of a mapped BAR of [size] bytes *)

Definition load32 (size off : Z) : M W Z := if off + 4 <=? size then lift (reg_read off) else raise Undef.
Definition store32 (size off v : Z) : M W unit := if off + 4 <=? size then modify (reg_write off v) else raise Undef.

(** The functions' common frame: no address, no resource, no mapping, no work; the mapping
    goes when the function returns. *)
Definition with_bar0 (usable : Z -> bool) (bdf : string) (body : Z -> M W bool) : M W bool :=
  if String.eqb bdf "" then mret false else
  size ← barSize bdf 0;
  if negb (usable size) then mret false else
  ok ← lift (bar_open ("/sys/bus/pci/devices/" ++ bdf ++ "/resource0") 0 size);
  if negb (ok : bool) then mret false else
  r ← body size;
  modify bar_close ;;
  mret r.
Definition nonempty (size : Z) : bool := negb (size =? 0).

Definition reportItr (bdf : string) : M W bool :=
  with_bar0 nonempty bdf (fun size =>
    itr0 ← load32 size I40E_PFINT_ITR0_0;
    itrn ← load32 size I40E_PFINT_ITRN_0_0;
    mret (Z.land itrn I40E_ITR_INTERVAL_MASK =? 0)).

Definition reportItr_name (ifname : string) : M W bool :=
  bdf ← resolveBdf ifname;
  bdf ← (if String.eqb bdf "" then bdfFromName ifname else mret bdf);
  reportItr bdf.

Definition i40eClearItr (bdf : string) : M W bool :=
  with_bar0 nonempty bdf (fun size =>
    store32 size I40E_PFINT_ITR0_0 0 ;;
    store32 size I40E_PFINT_ITRN_0_0 0 ;;
    itr0 ← load32 size I40E_PFINT_ITR0_0;
    itrn ← load32 size I40E_PFINT_ITRN_0_0;
    mret (Z.land (Z.lor itr0 itrn) I40E_ITR_INTERVAL_MASK =? 0)).

(** How many QINT_RQCTL entries the BAR maps, none if it does not reach them. *)
Definition rqctl_count (size : Z) : option Z :=
  if size <? I40E_QINT_RQCTL_BASE + I40E_QINT_RQCTL_COUNT * 4 then
    if size <=? I40E_QINT_RQCTL_BASE then None else Some ((size - I40E_QINT_RQCTL_BASE) / 4)
  else Some I40E_QINT_RQCTL_COUNT.
Definition rqctl (q : Z) : Z := I40E_QINT_RQCTL_BASE + q * 4.

(** The scan of [i40eSetNoItr]: how many writes landed and how many did not. *)
Fixpoint noitr_scan (n : nat) (size q patched failed : Z) : M W (Z * Z) :=
  match n with
  | O => mret (patched, failed)
  | S n =>
      before ← load32 size (rqctl q);
      if negb (i40eIsBoundRxQueue before) then noitr_scan n size (q + 1) patched failed else
      store32 size (rqctl q) (noitr before) ;;
      after ← load32 size (rqctl q);
      if itr_index after =? I40E_ITR_INDX_MASK then noitr_scan n size (q + 1) (u32 (patched + 1)) failed
      else noitr_scan n size (q + 1) patched (u32 (failed + 1))
  end.

(** The diagnostic dump of a scan that found nothing reads up to six entries. *)
Fixpoint noitr_dump (n : nat) (size q shown : Z) : M W unit :=
  match n with
  | O => mret tt
  | S n =>
      if negb (shown <? 6) then mret tt else
      v ← load32 size (rqctl q);
      if (v =? 0) || (v =? I40E_REG_UNIMPL) || (v =? 4294967295) then noitr_dump n size (q + 1) shown
      else noitr_dump n size (q + 1) (shown + 1)
  end.

Definition i40eSetNoItr (bdf : string) : M W bool :=
  with_bar0 nonempty bdf (fun size =>
    match rqctl_count size with
    | None => mret false
    | Some count =>
        r ← noitr_scan (Z.to_nat count) size 0 0 0;
        let '(patched, failed) := r in
        if (patched =? 0) && (failed =? 0) then noitr_dump (Z.to_nat count) size 0 0 ;; mret false
        else mret (failed =? 0)
    end).

(** The ITR register of the vector a queue rides on. *)
Definition itr_offset (msix itrIdx : Z) : Z :=
  if msix =? 0 then I40E_PFINT_ITR0_BASE + itrIdx * I40E_PFINT_ITR0_STRIDE
  else I40E_PFINT_ITRN_BASE + itrIdx * I40E_PFINT_ITRN_STRIDE + u32 (u32 (msix - 1) * 4).

Fixpoint probe_scan (n : nat) (size q itrIdx interval2us armed : Z) : M W Z :=
  match n with
  | O => mret armed
  | S n =>
      before ← load32 size (rqctl q);
      if negb (i40eIsBoundRxQueue before) then probe_scan n size (q + 1) itrIdx interval2us armed else
      let itrOff := itr_offset (Z.land before 255) itrIdx in
      if size <? itrOff + 4 then probe_scan n size (q + 1) itrIdx interval2us armed else
      store32 size itrOff (Z.land interval2us I40E_ITR_INTERVAL_MASK) ;;
      itrBack ← load32 size itrOff;
      store32 size (rqctl q) (with_itr_index before itrIdx) ;;
      after ← load32 size (rqctl q);
      probe_scan n size (q + 1) itrIdx interval2us (u32 (armed + 1))
  end.

Definition i40eItrProbe (bdf : string) (itrIdx interval2us : Z) : M W bool :=
  if 2 <? itrIdx then mret false else
  with_bar0 nonempty bdf (fun size =>
    match rqctl_count size with
    | None => mret false
    | Some count => n ← probe_scan (Z.to_nat count) size 0 itrIdx interval2us 0; mret (0 <? n)
    end).

Definition igcDisableEee (bdf : string) : M W bool :=
  with_bar0 (fun size => kEeer + 4 <=? size) bdf (fun size =>
    before ← load32 size kEeer;
    store32 size kEeer (Z.land before (u32 (Z.lnot kLpiEnable))) ;;
    mret true).
End Operations.

(** ** Every access is in the BAR, everything opened is closed *)

Class BarFrame (W : Type) `{FileLaws W, Bar W} := {
  bar_open_frame p o n w : handles (snd (bar_open p o n w)) = handles w;
  bar_close_frame w : handles (bar_close w) = handles w;
  reg_read_frame off w : handles (snd (reg_read off w)) = handles w;
  reg_write_frame off v w : handles (reg_write off v w) = handles w;
}.

Section Safety.
Context {W : Type} {FS : FileSys W} {FL : FileLaws W} {B : Bar W} {BF : BarFrame W}.

Lemma readlinkBasename_keeps path : keeps (readlinkBasename path).
Proof. apply keeps_bind; [apply keeps_lift, readlink_law|]. by intros []. Qed.

Lemma bdfFromName_keeps ifname : keeps (bdfFromName ifname).
Proof. unfold bdfFromName. destruct (name_numbers ifname) as [[[] ?]|]; [|done]. apply keeps_bind; [apply keeps_lift, access_law|done]. Qed.

Lemma read_line_keeps n f : keeps (read_line n f).
Proof.
  induction n as [|n IH]; cbn [read_line]; (apply keeps_bind; [apply keeps_lift, fgets_law|]); intros [l|]; first [apply keeps_ret|exact IH].
Qed.

Lemma barSize_keeps bdf i : keeps (barSize bdf i).
Proof.
  unfold barSize. eapply (keeps_scope kStream _ (fun f => negb (f =? 0)) fclose); [apply fopen_law|apply fclose_law| |].
  - intros h Hh. destruct (h =? 0); [apply keeps_ret|done].
  - intros h w Hh _. destruct (h =? 0); [done|]. apply ends_keeps; [apply read_line_keeps|]. intros l w' Hw'.
    apply ends_release; [by rewrite fclose_law, Hw'|]. destruct l; apply keeps_ret.
Qed.

Lemma load32_keeps size off : off + 4 <= size -> keeps (load32 size off).
Proof. intros H. unfold load32. rewrite (proj2 (Z.leb_le _ _)) by done. apply keeps_lift, reg_read_frame. Qed.

Lemma store32_keeps size off v : off + 4 <= size -> keeps (store32 size off v).
Proof. intros H. unfold store32. rewrite (proj2 (Z.leb_le _ _)) by done. apply keeps_modify, reg_write_frame. Qed.

Lemma with_bar0_keeps usable bdf body :
  (forall size, usable size = true -> keeps (body size)) -> keeps (with_bar0 usable bdf body).
Proof.
  intros Hb. unfold with_bar0. apply keeps_if; [apply keeps_ret|]. apply keeps_bind; [apply barSize_keeps|]. intros size.
  destruct (usable size) eqn:Hu; cbn [negb]; [|apply keeps_ret]. apply keeps_bind; [apply keeps_lift, bar_open_frame|]. intros ok.
  apply keeps_if; [apply keeps_ret|]. apply keeps_bind; [by apply Hb|]. intros r.
  apply keeps_bind; [apply keeps_modify, bar_close_frame|]. intros _. apply keeps_ret.
Qed.

Lemma rqctl_count_spec size c : rqctl_count size = Some c -> 0 <= c <= I40E_QINT_RQCTL_COUNT /\ forall q, q < c -> rqctl q + 4 <= size.
Proof.
  unfold rqctl_count, rqctl, I40E_QINT_RQCTL_BASE, I40E_QINT_RQCTL_COUNT. intros H.
  destruct (Z.ltb_spec size (237568 + 1536 * 4)); [destruct (Z.leb_spec size 237568); [done|]|]; injection H as <-; (split; [|intros q Hq]; dlia).
Qed.

Lemma noitr_scan_keeps n size : forall q p f, (forall i, q <= i < q + Z.of_nat n -> rqctl i + 4 <= size) -> keeps (noitr_scan n size q p f).
Proof.
  induction n as [|n IH]; intros q p f Hs; cbn [noitr_scan]; [apply keeps_ret|].
  assert (rqctl q + 4 <= size) as Hq by (apply Hs; lia). assert (forall p f, keeps (noitr_scan n size (q + 1) p f)) as Hn by (intros; apply IH; intros; apply Hs; lia).
  apply keeps_bind; [by apply load32_keeps|]. intros v. apply keeps_if; [done|]. apply keeps_bind; [by apply store32_keeps|]. intros _.
  apply keeps_bind; [by apply load32_keeps|]. intros v'. by apply keeps_if.
Qed.

Lemma noitr_dump_keeps n size : forall q k, (forall i, q <= i < q + Z.of_nat n -> rqctl i + 4 <= size) -> keeps (noitr_dump n size q k).
Proof.
  induction n as [|n IH]; intros q k Hs; cbn [noitr_dump]; [apply keeps_ret|]. apply keeps_if; [apply keeps_ret|].
  apply keeps_bind; [apply load32_keeps, Hs; lia|]. intros v. apply keeps_if; apply IH; intros; apply Hs; lia.
Qed.

Lemma probe_scan_keeps n size idx iv : forall q a, (forall i, q <= i < q + Z.of_nat n -> rqctl i + 4 <= size) -> keeps (probe_scan n size q idx iv a).
Proof.
  induction n as [|n IH]; intros q a Hs; cbn [probe_scan]; [apply keeps_ret|].
  assert (rqctl q + 4 <= size) as Hq by (apply Hs; lia). assert (forall a, keeps (probe_scan n size (q + 1) idx iv a)) as Hn by (intros; apply IH; intros; apply Hs; lia).
  apply keeps_bind; [by apply load32_keeps|]. intros v. apply keeps_if; [done|].
  destruct (Z.ltb_spec size (itr_offset (Z.land v 255) idx + 4)); [done|].
  repeat first [apply keeps_bind; [first [by apply load32_keeps|by apply store32_keeps]|]; intros ?|done].
Qed.

Lemma in_range_rqctl size c : rqctl_count size = Some c -> forall i, 0 <= i < 0 + Z.of_nat (Z.to_nat c) -> rqctl i + 4 <= size.
Proof. intros [Hc Hq]%rqctl_count_spec i Hi. apply Hq. lia. Qed.

(** C35: [i40eSetNoItr], [i40eItrProbe] and [igcDisableEee] touch no register outside the BAR
    they mapped and close what they opened, whatever size sysfs reports for the BAR,
    whatever the registers hold and for any arguments: the clamped scan and the probe's
    offset check suffice. *)
Theorem pci_fixes_in_bar bdf itrIdx interval2us :
  keeps (i40eSetNoItr bdf) /\ keeps (i40eItrProbe bdf itrIdx interval2us) /\ keeps (igcDisableEee bdf).
Proof.
  split_and!.
  - apply with_bar0_keeps. intros size _. destruct (rqctl_count size) as [c|] eqn:Hc; [|apply keeps_ret]. pose proof (in_range_rqctl _ _ Hc).
    apply keeps_bind; [by apply noitr_scan_keeps|]. intros [p f]. apply keeps_if; [|apply keeps_ret].
    apply keeps_bind; [by apply noitr_dump_keeps|]. intros _. apply keeps_ret.
  - apply keeps_if; [apply keeps_ret|]. apply with_bar0_keeps. intros size _. destruct (rqctl_count size) as [c|] eqn:Hc; [|apply keeps_ret].
    apply keeps_bind; [apply probe_scan_keeps; by apply in_range_rqctl|]. intros n. apply keeps_ret.
  - apply with_bar0_keeps. intros size Hs%Z.leb_le. apply keeps_bind; [by apply load32_keeps|]. intros v.
    apply keeps_bind; [by apply store32_keeps|]. intros _. apply keeps_ret.
Qed.
End Safety.

(** ** The effect on a register file *)

(** A device whose registers keep what is written, as far as [settle] lets them. *)
Class RegFile (W : Type) `{FileSys W, Bar W} := {
  regs : W -> Z -> Z;
  settle : Z -> Z -> Z;
  regs_range w off : in_u 32 (regs w off);
  reg_read_regs off w : reg_read off w = (regs w off, w);
  reg_write_regs off v w o : regs (reg_write off v w) o = if decide (o = off) then settle off v else regs w o;
  bar_open_regs p f n w o : regs (snd (bar_open p f n w)) o = regs w o;
  bar_close_regs w o : regs (bar_close w) o = regs w o;
  fopen_regs p w o : regs (snd (fopen p w)) o = regs w o;
  fgets_regs f n w o : regs (snd (fgets f n w)) o = regs w o;
  fclose_regs f w o : regs (fclose f w) o = regs w o;
}.

Lemma noitr_sets v : in_u 32 v -> noitr v = Z.lor v I40E_ITR_INDX_MASK.
Proof.
  intros Hv. unfold noitr. change (Z.shiftl I40E_ITR_INDEX_NONE I40E_ITR_INDX_SHIFT) with I40E_ITR_INDX_MASK.
  rewrite Z.lor_land_distr_l. change (Z.lor (u32 (Z.lnot I40E_ITR_INDX_MASK)) I40E_ITR_INDX_MASK) with (Z.ones 32).
  rewrite Z.land_ones by lia. apply Z.mod_small. apply lor_range; [lia|done|]. by split.
Qed.

Section Effect.
Context {W : Type} {FS : FileSys W} {B : Bar W} {RF : RegFile W}.

(** What the scan does at entry [i]: written to, and whether the write landed. *)
Definition bound (w : W) (i : Z) : bool := i40eIsBoundRxQueue (regs w (rqctl i)).
Definition patched_value (w : W) (off : Z) : Z := settle off (Z.lor (regs w off) I40E_ITR_INDX_MASK).
Definition lands (w : W) (i : Z) : bool := itr_index (patched_value w (rqctl i)) =? I40E_ITR_INDX_MASK.
Definition landed (w : W) (i : Z) : bool := bound w i && lands w i.
Definition refused (w : W) (i : Z) : bool := bound w i && negb (lands w i).

Definition same_regs (w w' : W) : Prop := forall o, regs w' o = regs w o.

(** Exactly the bound entries among the first [c] have bits 12 and 11 set. *)
Definition patched_from (w w' : W) (q c : Z) : Prop :=
  (forall i, q <= i < c -> regs w' (rqctl i) = if bound w i then patched_value w (rqctl i) else regs w (rqctl i)) /\
  (forall o, (forall i, q <= i < c -> o <> rqctl i) -> regs w' o = regs w o).

Lemma load32_run size off {A} (k : Z -> M W A) w : off + 4 <= size -> (load32 size off ≫= k) w = k (regs w off) w.
Proof. intros H. unfold load32. rewrite (proj2 (Z.leb_le _ _)) by done. unfold mbind, M_bind, lift. by rewrite reg_read_regs. Qed.

Lemma store32_run size off v {A} (k : unit -> M W A) w : off + 4 <= size -> (store32 size off v ≫= k) w = k tt (reg_write off v w).
Proof. intros H. unfold store32. by rewrite (proj2 (Z.leb_le _ _)). Qed.

Lemma rqctl_inj i j : rqctl i = rqctl j -> i = j.
Proof. unfold rqctl. lia. Qed.

Definition number (P : Z -> bool) (n : nat) (q : Z) : Z := Z.of_nat (length (List.filter P (seqZ q (Z.of_nat n)))).

Lemma number_S P n q : number P (S n) q = (if P q then 1 else 0) + number P n (q + 1).
Proof. unfold number. rewrite seqZ_cons by lia. replace (Z.pred (Z.of_nat (S n))) with (Z.of_nat n) by lia. cbn [List.filter]. destruct (P q); cbn [length]; replace (Z.succ q) with (q + 1) by lia; lia. Qed.

Lemma number_ext P Q n q : (forall i, q <= i < q + Z.of_nat n -> P i = Q i) -> number P n q = number Q n q.
Proof.
  revert q; induction n as [|n IH]; intros q H; [done|]. rewrite !number_S, (H q) by lia. f_equal. apply IH. intros. apply H. lia.
Qed.

Lemma number_bound P n q : 0 <= number P n q <= Z.of_nat n.
Proof. revert q; induction n as [|n IH]; intros q; [done|]. rewrite number_S. specialize (IH (q + 1)). destruct (P q); lia. Qed.

Lemma number_zero P n q : (number P n q =? 0) = negb (existsb P (seqZ q (Z.of_nat n))).
Proof.
  unfold number. induction (seqZ q _) as [|x l IH]; [done|]. cbn. destruct (P x); cbn; [apply Z.eqb_neq; lia|exact IH].
Qed.

Lemma noitr_scan_run n size : forall q p f w, (forall i, q <= i < q + Z.of_nat n -> rqctl i + 4 <= size) ->
  0 <= p -> 0 <= f -> p + Z.of_nat n < 2 ^ 32 -> f + Z.of_nat n < 2 ^ 32 ->
  exists w', noitr_scan n size q p f w = (Done (p + number (landed w) n q, f + number (refused w) n q), w') /\
    patched_from w w' q (q + Z.of_nat n).
Proof.
  induction n as [|n IH]; intros q p f w Hs Hp Hf Hpn Hfn; cbn [noitr_scan].
  { exists w. unfold number. cbn. rewrite !Z.add_0_r. split; [done|]. split; [intros; lia|done]. }
  assert (rqctl q + 4 <= size) as Hq by (apply Hs; lia). rewrite load32_run by done. fold (bound w q). rewrite !number_S.
  unfold landed at 1, refused at 1. assert (forall i, q + 1 <= i < q + 1 + Z.of_nat n -> rqctl i + 4 <= size) as Hs' by (intros; apply Hs; lia).
  destruct (bound w q) eqn:Hb; cbn [negb andb].
  2: { destruct (IH (q + 1) p f w) as (w' & E & Hw' & Ho); try done; try lia. exists w'. rewrite E, !Z.add_0_l. split; [done|].
       split; [|intros o Hne; apply Ho; intros; apply Hne; lia]. intros i Hi. destruct (decide (i = q)) as [->|Hne]; [|apply Hw'; lia].
       rewrite Hb. apply Ho. intros j Hj He%rqctl_inj. lia. }
  rewrite store32_run, load32_run by done. set (w1 := reg_write _ _ w).
  assert (forall o, regs w1 o = if decide (o = rqctl q) then patched_value w o else regs w o) as Hw1.
  { intros o. subst w1. rewrite reg_write_regs, noitr_sets by apply regs_range. by case_decide as He; [rewrite He|]. }
  assert (forall i, q + 1 <= i < q + 1 + Z.of_nat n -> regs w1 (rqctl i) = regs w (rqctl i)) as Hsame.
  { intros i Hi. rewrite Hw1. case_decide as He; [|done]. apply rqctl_inj in He. lia. }
  assert (forall i, q + 1 <= i < q + 1 + Z.of_nat n -> landed w i = landed w1 i /\ refused w i = refused w1 i) as Hlr.
  { intros i Hi. unfold landed, refused, bound, lands, patched_value. by rewrite (Hsame i Hi). }
  rewrite (number_ext (landed w) (landed w1)) by (intros; by apply Hlr). rewrite (number_ext (refused w) (refused w1)) by (intros; by apply Hlr).
  rewrite (Hw1 (rqctl q)), decide_True by done. fold (lands w q).
  assert (forall w', patched_from w1 w' (q + 1) (q + 1 + Z.of_nat n) -> patched_from w w' q (q + Z.of_nat (S n))) as Hstep.
  { intros w' [Hi Ho]. split.
    - intros i Hr. destruct (decide (i = q)) as [->|Hne].
      + rewrite Hb, Ho by (intros j Hj He%rqctl_inj; lia). by rewrite Hw1, decide_True.
      + rewrite Hi by lia. unfold bound, patched_value. by rewrite Hsame by lia.
    - intros o Hne. rewrite Ho by (intros; apply Hne; lia). rewrite Hw1, decide_False; [done|]. apply Hne. lia. }
  destruct (lands w q) eqn:Hland; cbn [negb].
  - rewrite (wrap_small 32 (p + 1)) by (split; lia). destruct (IH (q + 1) (p + 1) f w1) as (w' & E & Hpf); try done; try lia.
    exists w'. rewrite E. split; [do 2 f_equal; f_equal; lia|by apply Hstep].
  - rewrite (wrap_small 32 (f + 1)) by (split; lia). destruct (IH (q + 1) p (f + 1) w1) as (w' & E & Hpf); try done; try lia.
    exists w'. rewrite E. split; [do 2 f_equal; f_equal; lia|by apply Hstep].
Qed.

Lemma noitr_dump_run n size : forall q k w, (forall i, q <= i < q + Z.of_nat n -> rqctl i + 4 <= size) -> noitr_dump n size q k w = (Done tt, w).
Proof.
  induction n as [|n IH]; intros q k w Hs; cbn [noitr_dump]; [done|]. destruct (negb _); [done|].
  rewrite load32_run by (apply Hs; lia). destruct (_ || _); apply IH; intros; apply Hs; lia.
Qed.

Lemma read_line_regs n f : forall w o, regs (snd (read_line n f w)) o = regs w o.
Proof.
  induction n as [|n IH]; intros w o; cbn [read_line]; unfold mbind, M_bind, lift; pose proof (fgets_regs f 159 w o) as Hg;
    destruct (fgets f 159 w) as [[l|] w1]; cbn in *; try done. by rewrite IH.
Qed.

Lemma barSize_regs bdf i w : same_regs w (snd (barSize bdf i w)).
Proof.
  intros o. unfold barSize. unfold mbind at 1, M_bind at 1, lift. pose proof (fopen_regs ("/sys/bus/pci/devices/" ++ bdf ++ "/resource") w o) as Ho.
  destruct (fopen _ w) as [f w1]. cbn [snd] in Ho. destruct (f =? 0); [done|]. unfold mbind at 1, M_bind at 1.
  pose proof (read_line_regs i f w1 o) as Hr. destruct (read_line i f w1) as [[l| | | |] w2]; cbn [fst snd] in *; unfold mbind, M_bind, modify; cbn [snd]; try by rewrite Hr.
  change (regs (fclose f w2) o = regs w o). by rewrite fclose_regs, Hr.
Qed.

Lemma same_value w w' : same_regs w w' -> (forall i, landed w i = landed w' i) /\ (forall i, refused w i = refused w' i) /\ forall i, bound w i = bound w' i.
Proof. intros H. unfold landed, refused, bound, lands, patched_value. split_and!; intros i; by rewrite H. Qed.
End Effect.

(** [i40eSetNoItr] sets ITR_INDX to NoITR in exactly the QINT_RQCTL entries, among those
    the BAR maps, that a driver has bound, and changes no other bit and no other register of
    a device that keeps its registers; it answers true exactly when there is a bound entry
    and the field reads back as NoITR in all of them. *)
Theorem noitr_exact {W} {FS : FileSys W} {B : Bar W} {RF : RegFile W} bdf size c (w : W) :
  bdf <> ""%string -> fst (barSize bdf 0 w) = Done size -> rqctl_count size = Some c ->
  (forall p o n (w : W), fst (bar_open p o n w) = true) ->
  exists w', i40eSetNoItr bdf w = (Done (existsb (landed w) (seqZ 0 c) && negb (existsb (refused w) (seqZ 0 c))), w') /\ patched_from w w' 0 c.
Proof.
  intros Hbdf Hsize Hc Hopen. destruct (rqctl_count_spec _ _ Hc) as [Hr Hin]. unfold I40E_QINT_RQCTL_COUNT in Hr.
  unfold i40eSetNoItr, with_bar0. rewrite (proj2 (String.eqb_neq _ _)) by done. unfold mbind at 1, M_bind at 1.
  pose proof (barSize_regs bdf 0 w) as H1. destruct (barSize bdf 0 w) as [o w1]. cbn in Hsize, H1. subst o.
  assert (nonempty size = true) as -> by (unfold nonempty; destruct (Z.eqb_spec size 0) as [->|]; [by vm_compute in Hc|done]). cbn [negb].
  unfold mbind at 1, M_bind at 1, lift. match goal with |- context [bar_open ?p 0 size w1] => pose proof (Hopen p 0 size w1) as Hok; pose proof (bar_open_regs p 0 size w1) as H2;
    destruct (bar_open p 0 size w1) as [ok w2]; cbn [fst snd] in Hok, H2 end. subst ok. cbn [negb]. rewrite Hc, bind_assoc.
  assert (same_regs w w2) as Hs by (intros x; by rewrite H2, H1).
  destruct (noitr_scan_run (Z.to_nat c) size 0 0 0 w2) as (w3 & E & Hpf); [intros; apply Hin; lia|lia|lia|lia|lia|].
  rewrite (run_bind _ _ _ _ _ E). rewrite !Z.add_0_l, !number_zero. rewrite Z2Nat.id, Z.add_0_l in * by lia.
  destruct (same_value w w2 Hs) as (Hl & Hf & Hb).
  assert (forall P Q : Z -> bool, (forall i, P i = Q i) -> forall l, existsb P l = existsb Q l) as Hex by (intros P Q He l; induction l as [|x l IH]; [done|]; cbn; by rewrite He, IH).
  rewrite <- (Hex _ _ Hl), <- (Hex _ _ Hf).
  exists (bar_close w3). split.
  - destruct (existsb (landed w) _), (existsb (refused w) _); cbn [andb negb]; try done.
    rewrite bind_assoc. rewrite (run_bind _ _ _ _ _ (noitr_dump_run (Z.to_nat c) size 0 0 w3 ltac:(intros; apply Hin; lia))). done.
  - destruct Hpf as [Hi Ho]. split; [intros i Hi'|intros o Hne]; rewrite bar_close_regs.
    + rewrite Hi by lia. rewrite <- Hb. unfold patched_value. by rewrite Hs.
    + by rewrite Ho, Hs.
Qed.

(** Nothing checks that the BAR reaches the throttle registers: on a smaller BAR the report
    and the clearing access memory outside the mapping. *)
Lemma itr_out_of_bar {W} {FS : FileSys W} {B : Bar W} bdf size (w : W) :
  bdf <> ""%string -> fst (barSize bdf 0 w) = Done size -> 0 < size < I40E_PFINT_ITR0_0 + 4 -> (forall p o n (w : W), fst (bar_open p o n w) = true) ->
  fst (reportItr bdf w) = Undef /\ fst (i40eClearItr bdf w) = Undef.
Proof.
  intros Hbdf Hsize Hs Hopen. unfold reportItr, i40eClearItr, with_bar0. rewrite (proj2 (String.eqb_neq _ _)) by done. unfold mbind, M_bind.
  destruct (barSize bdf 0 w) as [o w1]. cbn in Hsize. subst o. unfold nonempty. rewrite (proj2 (Z.eqb_neq _ _)) by lia. cbn [negb]. unfold lift.
  match goal with |- context [bar_open ?p 0 size w1] => pose proof (Hopen p 0 size w1) as Hok; destruct (bar_open p 0 size w1) as [ok w2] end.
  cbn [fst] in Hok. subst ok. cbn [negb]. unfold load32, store32. rewrite (proj2 (Z.leb_gt _ _)) by lia. done.
Qed.

(** ** Names *)

Definition no_digit (s : string) : Prop := match s with String c _ => digit c = None | EmptyString => True end.

Lemma more_dec_digits s : forall a, more_dec (u32 a) s = let '(v, r) := dec_digits a s in (u32 v, r).
Proof.
  induction s as [|c s IH]; intros a; cbn [more_dec dec_digits]; [done|]. destruct (digit c) as [d|]; [|done]. rewrite <- IH. f_equal.
  rewrite wrap_add_l. unfold wrap. rewrite Zplus_mod, Zmult_mod_idemp_l, <- Zplus_mod. f_equal. lia.
Qed.

Lemma readDec_dec x rest : 0 <= x < 2 ^ 32 -> no_digit rest -> readDec (dec x ++ rest) = Some (x, rest).
Proof.
  intros Hx Hr. destruct (dec_first x) as (d & s & Hd & He); [lia|].
  assert (more_dec 0 (dec x ++ rest) = (x, rest)) as Hm.
  { change 0 with (u32 0) at 1. rewrite more_dec_digits. unfold dec. rewrite (proj2 (Z.ltb_ge x 0)) by lia. rewrite dec_go_app. cbn [String.append].
    destruct (dec_digits_go (Z.to_nat (Z.log2 x)) x rest) as (k & _ & Hk); [apply log2_fuel; lia|]. rewrite Hk, Z.mul_0_r, Z.add_0_l.
    destruct rest as [|c r]; cbn [dec_digits]; [by rewrite wrap_small|]. cbn in Hr. by rewrite Hr, wrap_small. }
  rewrite He in Hm |- *. change ((String (digit_char d) s +:+ rest)%string) with (String (digit_char d) (s +:+ rest)%string) in *.
  unfold readDec. rewrite digit_digit_char by done. by rewrite Hm.
Qed.

(** The predictable name of a port: enp<bus>s<dev>, f<func> if it is given, and what systemd
    appends (np<port>). *)
Definition enp_name (bus dev : Z) (func : option Z) (suffix : string) : string :=
  "enp" ++ dec bus ++ "s" ++ dec dev ++ match func with Some f => "f" ++ dec f | None => "" end ++ suffix.

Definition plain_suffix (func : option Z) (s : string) : Prop :=
  no_digit s /\ (func = None -> match s with String c _ => c <> "f"%char | EmptyString => True end).

Lemma append_cons c (a b : string) : (String c a ++ b)%string = String c (a ++ b).
Proof. done. Qed.

Lemma append_nil (b : string) : ("" ++ b)%string = b.
Proof. done. Qed.

Lemma name_numbers_enp bus dev func suffix :
  0 <= bus < 2 ^ 32 -> 0 <= dev < 2 ^ 32 -> (match func with Some f => 0 <= f < 2 ^ 32 | None => True end) -> plain_suffix func suffix ->
  name_numbers (enp_name bus dev func suffix) = Some (bus, dev, default 0 func).
Proof.
  intros Hb Hd Hf [Hs Hs']. unfold enp_name, name_numbers.
  assert (Z.of_nat (String.length ("enp" ++ dec bus ++ "s" ++ dec dev ++ match func with Some f => "f" ++ dec f | None => "" end ++ suffix)) <? 5 = false) as ->.
  { apply Z.ltb_ge. destruct (dec_first bus) as (d & s & _ & ->); [lia|]. destruct s; rewrite ?append_cons, ?append_nil; cbn [String.length]; lia. }
  rewrite !append_cons, append_nil, (readDec_dec bus) by done. cbn [mbind option_bind]. rewrite ?append_cons, ?append_nil.
  rewrite (readDec_dec dev); [|done|destruct func; [done|exact Hs]]. cbn [mbind option_bind].
  destruct func as [f|].
  - rewrite ?append_cons, ?append_nil, ?append_cons. cbn [mbind option_bind]. by rewrite (readDec_dec f).
  - specialize (Hs' eq_refl). rewrite append_nil. destruct suffix as [|c r]; [done|]. destruct c as [[] [] [] [] [] [] [] []]; first [done|by destruct Hs'].
Qed.

(** [bdfFromName] reads a predictable name back: for every bus, device and function
    number in range and any suffix the address it answers is the device the name was made
    from, if sysfs has that device, and the empty string if not. *)
Theorem bdf_name_roundtrip {W} {FS : FileSys W} {B : Bar W} bus dev func suffix (w : W) :
  0 <= bus < 256 -> 0 <= dev < 256 -> (match func with Some f => 0 <= f < 16 | None => True end) -> plain_suffix func suffix ->
  let bdf := ("0000:" ++ hex2 bus ++ ":" ++ hex2 dev ++ "." ++ String (TestConfig.hex_char (default 0 func)) "")%string in
  bdfFromName (enp_name bus dev func suffix) w =
    let '(ok, w') := access ("/sys/bus/pci/devices/" ++ bdf) w in (Done (if (ok : bool) then bdf else ""%string), w').
Proof.
  intros Hb Hd Hf Hs. cbn zeta. unfold bdfFromName. rewrite name_numbers_enp; [|lia|lia|destruct func; [lia|done]|done].
  assert (forall n k x, 0 <= x < 2 ^ k -> 0 <= k -> n = 2 ^ k - 1 -> Z.land x n = x) as Hl.
  { intros n k x Hx Hk ->. rewrite (land_mask (2 ^ k)) by (by exists k). by apply Z.mod_small. }
  unfold bdf_string. rewrite (Hl 255 8 bus), (Hl 255 8 dev) by (try done; lia).
  rewrite (Hl 15 4 (default 0 func)) by (try done; destruct func; cbn; lia).
  unfold mbind, M_bind, lift. by destruct (access _ w) as [[] w'].
Qed.

(** Numbers beyond the field are cut to it: another device's address comes out. *)
Lemma bdf_alias {W} {FS : FileSys W} {B : Bar W} (w : W) : bdfFromName "enp315s0" w = bdfFromName "enp59s0" w.
Proof. done. Qed.

(** ** A simulated machine: one port with two bound queues, on a BAR of 256 kB. *)

Record pmachine := mk_pm { pm_open : gset (Z * Z); pm_lines : list string; pm_size : string; pm_regs : gmap Z Z }.

Definition pm_fresh (w : pmachine) : Z := fresh_handle (pm_open w).
Definition pm_take (k : Z) (w : pmachine) (l : list string) : Z * pmachine :=
  (pm_fresh w, mk_pm ({[(k, pm_fresh w)]} ∪ pm_open w) l (pm_size w) (pm_regs w)).
Definition pm_drop (k h : Z) (w : pmachine) : pmachine := mk_pm (pm_open w ∖ {[(k, h)]}) (pm_lines w) (pm_size w) (pm_regs w).

#[export] Instance sim_FileSys : FileSys pmachine := {|
  readlink p n w := (Some "../../../0000:3b:00.1"%string, w);
  access p w := (true, w);
  fopen p w := pm_take kStream w [("0x00000000c0000000 " ++ pm_size w ++ " 0x000000000014220c")%string];
  fgets f n w := match pm_lines w with [] => (None, w) | l :: r => (Some l, mk_pm (pm_open w) r (pm_size w) (pm_regs w)) end;
  fclose f w := pm_drop kStream f w;
  open_fd m p w := (-1, w); read_fd f n w := (None, w); write_fd f s w := (-1, w); close_fd f w := pm_drop kFd f w;
  opendir p w := (0, w); readdir d w := (None, w); closedir d w := pm_drop kDirectory d w;
  system c w := (0, w);
|}.

#[export] Instance sim_Bar : Bar pmachine := {|
  bar_mmio := {| reg_read off w := (u32 (default 0 (pm_regs w !! off)), w);
                 reg_write off v w := mk_pm (pm_open w) (pm_lines w) (pm_size w) (<[off := u32 v]> (pm_regs w)) |};
  bar_open p o n w := (true, w);
  bar_close w := w;
|}.

#[local] Obligation Tactic := idtac.
#[export] Program Instance sim_FileLaws : FileLaws pmachine := {| handles := pm_open; entries_left d w := O; max_entries := O |}.
Solve Obligations with intros; reflexivity.
Next Obligation.
  intros p w. pose proof (fresh_handle_spec kStream (pm_open w) : 0 < pm_fresh w /\ _) as []. cbn -[pm_fresh]. rewrite (proj2 (Z.eqb_neq _ _)) by lia. by split.
Qed.
Next Obligation. intros f n w. cbn. by destruct (pm_lines w). Qed.
Next Obligation. intros d w. by split. Qed.

#[export] Instance sim_BarFrame : BarFrame pmachine.
Proof. by constructor. Qed.

#[export] Program Instance sim_RegFile : RegFile pmachine := {| regs w off := u32 (default 0 (pm_regs w !! off)); settle off v := u32 v |}.
Solve Obligations with intros; reflexivity.
Next Obligation. intros w off. by apply wrap_range. Qed.
Next Obligation.
  intros off v w o. cbn. case_decide as He; [subst; rewrite lookup_insert_eq; apply wrap_wrap|by rewrite lookup_insert_ne by done].
Qed.
Next Obligation. intros f n w o. cbn. by destruct (pm_lines w). Qed.

Definition sim_port (size : string) : pmachine :=
  mk_pm {[(kFd, 7)]} [] size {[ rqctl 16 := 1073743361; rqctl 17 := 1207961090; rqctl 18 := I40E_REG_UNIMPL ]}.

Lemma sim_port_size : fst (barSize "0000:3b:00.1" 0 (sim_port "0x00000000c003ffff")) = Done 262144 /\ rqctl_count 262144 = Some 1536.
Proof. split; vm_compute; reflexivity. Qed.

Lemma sim_scan : existsb (landed (sim_port "0x00000000c003ffff")) (seqZ 0 1536) = true /\ existsb (refused (sim_port "0x00000000c003ffff")) (seqZ 0 1536) = false.
Proof. split; vm_compute; reflexivity. Qed.

Lemma noitr_exact_witness : exists w', i40eSetNoItr "0000:3b:00.1" (sim_port "0x00000000c003ffff") = (Done true, w') /\
  regs w' (rqctl 16) = Z.lor 1073743361 I40E_ITR_INDX_MASK /\ regs w' (rqctl 18) = I40E_REG_UNIMPL.
Proof.
  destruct (noitr_exact "0000:3b:00.1" 262144 1536 (sim_port "0x00000000c003ffff") ltac:(done) (proj1 sim_port_size) (proj2 sim_port_size) ltac:(done)) as (w' & E & Hi & _).
  exists w'. rewrite (proj1 sim_scan), (proj2 sim_scan) in E. split; [exact E|].
  rewrite (Hi 16), (Hi 18) by lia. split; vm_compute; reflexivity.
Defined.

Lemma pci_fixes_in_bar_witness : ends_with (i40eSetNoItr "0000:3b:00.1") {[(kFd, 7)]} (sim_port "0x00000000c003a007").
Proof. exact (proj1 (pci_fixes_in_bar "0000:3b:00.1" 1 10) (sim_port "0x00000000c003a007")). Defined.

Lemma bdf_name_roundtrip_witness : bdfFromName "enp59s0f1np1" (sim_port "") = (Done "0000:3b:00.1"%string, sim_port "").
Proof.
  refine (bdf_name_roundtrip 59 0 (Some 1) "np1" (sim_port "") _ _ _ _); [lia|lia|lia|]. by split.
Defined.

(** A BAR of 128 kB, as other parts have: the report reads outside the mapping. *)
Lemma sim_small_bar : fst (reportItr "0000:3b:00.1" (sim_port "0x00000000c001ffff")) = Undef.
Proof. vm_compute. reflexivity. Qed.
