(* ===== verification/EfVi.v ===== *)
(** * The ef_vi transport (src/backends/EtherFabricVirtualInterface): operations

    The hot paths over the operations of libciul and the virtual interface ([EfViLib]):
    transmit by CTPIO with its fallback descriptor or by DMA, and the hand-rolled commit of
    the X2522Plus tuning; receive by polling the next slot's ethertype; the event queue; the
    hardware time stamps.  [view] and [nstep] say what the adapter does, [EfViLaws] what the
    library promises.  [kEfViRxPayloadPoll] is true throughout, as in the source. *)

From S2P Require Import Prelude RingWindow RingConcepts.

Inductive EtherFabricMode := RxOnly | TxOnly | RxTx.

(** The template parameters. *)
Record config := mk_config {
  mode : EtherFabricMode; NbRxBufs : Z; NbTxBufs : Z; BufSize : Z; CtThreshold : Z;
  UseCtpio : bool; HwTimestamps : bool; kX2522Plus : bool }.
Definition HAS_RX (c : config) : bool := match mode c with TxOnly => false | _ => true end.
Definition HAS_TX (c : config) : bool := match mode c with RxOnly => false | _ => true end.

Definition kCtpioUserThresholdLbn : Z := 16.
Definition kCtpioTimeStampReqLbn : Z := 12.
Definition kTxUsrByteCntLbn : Z := 48.
Definition kEvPollBatch : Z := 8.
Definition kTxHdrBytes (c : config) : Z := if kX2522Plus c then 4 else 0.
Definition kCtpioHdrBase (c : config) : Z := Z.lor (u32 (Z.shiftl (CtThreshold c) kCtpioUserThresholdLbn)) (Z.shiftl 1 kCtpioTimeStampReqLbn).
Definition kMarkerSpins (c : config) : nat := if kX2522Plus c then 8 else 1.
Definition kRxPrefixTsOffset : Z := 10.
Definition kOneSecQns : Z := 4000000000.
Definition kQnsOverrun : Z := 20.
Definition kTxStampNone : Z := 4294967295.
Definition EAGAIN : Z := 11.
Definition EF_EVENT_RX_DISCARD_CRC_BAD : Z := 1.

(** [ef_event], by type, with what the code reads of it; [raw] is what only the library
    looks at. *)
Inductive ef_event :=
  | EvRx (id len : Z)
  | EvTx (raw : Z) (ctpio : bool)
  | EvTxWithTimestamp (id nsec frac16 : Z) (ctpio : bool)
  | EvRxDiscard (id type : Z)
  | EvRxMulti (raw : Z)
  | EvRxMultiDiscard (raw : Z)
  | EvTxError
  | EvOther.

(** ** The members, in groups *)
Record TxState := mk_tx { m_txHead : Z; m_txTail : Z; m_txSlot : Z; m_txLen : Z; m_txPtr : Z; m_txSlotBase : Z }.
Record RxState := mk_rx { m_heldId : Z; m_rxNextIdx : Z; m_rxPendingPush : Z; m_rxReleased : Z; m_rxReposted : Z; m_rxTsRaw : Z }.
Record Stamps := mk_stamps { m_txStamp : list Z; m_txTsCursor : Z; m_txTsOverflow : Z; m_txTsEvents : Z }.
Record Stats := mk_stats {
  m_ctpioWins : Z; m_ctpioFallbacks : Z; m_fallbackPerSlot : list Z; m_rxPollHits : Z; m_rxEvReconciled : Z;
  m_rxDiscards : Z; m_rxCrcBad : Z; m_txErrors : Z; m_evUnexpected : Z }.
(** What [init] leaves. *)
Record Layout := mk_layout { m_rxPrefix : Z; m_txBase : Z; m_rxDma : list Z; m_txDma : list Z; m_txDescBase : list Z; m_rxTsCorrection : Z }.

(** [m_evs] are the events from [m_evIdx] to [m_nEv]; pointers are offsets in [m_mem]. *)
Record EfVi := mk_efvi { lay : Layout; tx : TxState; rx : RxState; stamps : Stamps; stats : Stats; m_evs : list ef_event }.

Definition set_tx (x : TxState) (o : EfVi) := mk_efvi (lay o) x (rx o) (stamps o) (stats o) (m_evs o).
Definition set_rx (x : RxState) (o : EfVi) := mk_efvi (lay o) (tx o) x (stamps o) (stats o) (m_evs o).
Definition set_stamps (x : Stamps) (o : EfVi) := mk_efvi (lay o) (tx o) (rx o) x (stats o) (m_evs o).
Definition set_stats (x : Stats) (o : EfVi) := mk_efvi (lay o) (tx o) (rx o) (stamps o) x (m_evs o).
Definition set_evs (x : list ef_event) (o : EfVi) := mk_efvi (lay o) (tx o) (rx o) (stamps o) (stats o) x.

Definition set_tail (t : Z) (x : TxState) := mk_tx (m_txHead x) t (m_txSlot x) (m_txLen x) (m_txPtr x) (m_txSlotBase x).
Definition set_head (h : Z) (x : TxState) := mk_tx h (m_txTail x) (m_txSlot x) (m_txLen x) (m_txPtr x) (m_txSlotBase x).
Definition lend (slot len ptr base : Z) (x : TxState) := mk_tx (m_txHead x) (m_txTail x) slot len ptr base.
Definition set_pending (p : Z) (x : RxState) := mk_rx (m_heldId x) (m_rxNextIdx x) p (m_rxReleased x) (m_rxReposted x) (m_rxTsRaw x).
Definition set_stamp (l : list Z) (x : Stamps) := mk_stamps l (m_txTsCursor x) (m_txTsOverflow x) (m_txTsEvents x).
Definition count_tx (wins falls : Z) (per : list Z) (x : Stats) :=
  mk_stats (u64 (m_ctpioWins x + wins)) (u64 (m_ctpioFallbacks x + falls)) per (m_rxPollHits x) (m_rxEvReconciled x) (m_rxDiscards x) (m_rxCrcBad x) (m_txErrors x) (m_evUnexpected x).
Definition count_rx (hits recon discards crc : Z) (x : Stats) :=
  mk_stats (m_ctpioWins x) (m_ctpioFallbacks x) (m_fallbackPerSlot x) (u64 (m_rxPollHits x + hits)) (u64 (m_rxEvReconciled x + recon))
    (u64 (m_rxDiscards x + discards)) (u64 (m_rxCrcBad x + crc)) (m_txErrors x) (m_evUnexpected x).
Definition count_odd (errors unexpected : Z) (x : Stats) :=
  mk_stats (m_ctpioWins x) (m_ctpioFallbacks x) (m_fallbackPerSlot x) (m_rxPollHits x) (m_rxEvReconciled x) (m_rxDiscards x) (m_rxCrcBad x)
    (u64 (m_txErrors x + errors)) (u64 (m_evUnexpected x + unexpected)).

(** ** The library, the adapter and the registered memory [m_mem] *)
Class EfViLib (L : Type) := {
  mem : L -> bytes;
  set_mem : bytes -> L -> L;
  elapse : L -> L;
  ef_vi_transmit_ctpio : bytes -> Z -> L -> L;
  ef_vi_transmit_ctpio_fallback : Z -> Z -> Z -> L -> Z * L;
  ef_vi_transmit : Z -> Z -> Z -> L -> Z * L;
  ef_vi_transmit_unbundle : Z -> L -> list Z * L;
  ef_vi_receive_unbundle : Z -> L -> list Z * L;
  ef_vi_receive_init : Z -> Z -> L -> L;
  ef_vi_receive_push : L -> L;
  ef_eventq_poll : Z -> L -> list ef_event * L;
  evq_word : L -> Z * L;
  (* what the X2522Plus tuning writes itself *)
  ctpio_store : Z -> bytes -> L -> L;
  txq_mask : L -> Z;
  txq_added : L -> Z;
  set_txq_added : Z -> L -> L;
  txq_descriptor : Z -> Z -> L -> L;
  txq_id : Z -> Z -> L -> L;
  doorbell_store : Z -> Z -> L -> L;
}.

Section Operations.
Context {L : Type} {EL : EfViLib L} (c : config) (fuel : nat).
Abbreviation W := (EfVi * L)%type.

Definition lib {A} (f : L -> A * L) : M W A := fun w => let '(a, l) := f (snd w) in (Done a, (fst w, l)).
Definition act (f : L -> L) : M W unit := modify (fun w => (fst w, f (snd w))).
Definition upd (f : EfVi -> EfVi) : M W unit := modify (fun w => (f (fst w), snd w)).
Definition on_tx (f : TxState -> TxState) : M W unit := upd (fun o => set_tx (f (tx o)) o).
Definition on_rx (f : RxState -> RxState) : M W unit := upd (fun o => set_rx (f (rx o)) o).
Definition on_stamps (f : Stamps -> Stamps) : M W unit := upd (fun o => set_stamps (f (stamps o)) o).
Definition on_stats (f : Stats -> Stats) : M W unit := upd (fun o => set_stats (f (stats o)) o).

(** Reading and writing [m_mem]. *)
Definition rd (off len : Z) : M W bytes :=
  l ← gets snd;
  match load (Z.to_nat off) (Z.to_nat len) (mem l) with Some b => mret b | None => raise Undef end.
Definition wr (off : Z) (src : bytes) : M W unit :=
  l ← gets snd;
  match store (Z.to_nat off) src (mem l) with Some m => act (set_mem m) | None => raise Undef end.
Definition at_index {A} (l : list A) (i : Z) : M W A :=
  match l !! Z.to_nat i with Some a => mret a | None => raise Undef end.

Definition rxSlot (i : Z) : Z := i * BufSize c.
Definition txSlot (o : EfVi) (s : Z) : Z := (m_txBase (lay o) + s) * BufSize c.
Definition txFrame (o : EfVi) (s : Z) : Z := txSlot o s + kTxHdrBytes c.

(** ** Events *)

(** [m_txStamp[i & (NbTxBufs - 1)] = (seq << 32) | minor] *)
Definition put_stamp (i seq minor : Z) : M W unit :=
  on_stamps (fun x => set_stamp (<[Z.to_nat (Z.land i (NbTxBufs c - 1)) := Z.lor (Z.shiftl seq 32) minor]> (m_txStamp x)) x).

(** One send of a bundle that has no time stamp. *)
Definition complete_unstamped : M W unit :=
  o ← gets fst;
  put_stamp (m_txTail (tx o)) (m_txTail (tx o)) kTxStampNone ;;
  on_tx (set_tail (u32 (m_txTail (tx o) + 1))).

Definition count_fallback (id : Z) (per : list Z) : list Z :=
  alter (fun x => u64 (x + 1)) (Z.to_nat (Z.land (u32 id) (NbTxBufs c - 1))) per.

Definition handleDiscard (id subtype : Z) : M W unit :=
  on_stats (count_rx 0 0 1 (if subtype =? EF_EVENT_RX_DISCARD_CRC_BAD then 1 else 0)).

Definition process (ev : ef_event) : M W unit :=
  match ev with
  | EvRx _ _ => on_stats (count_rx 0 1 0 0)
  | EvTx raw ctpio =>
      ids ← lib (ef_vi_transmit_unbundle raw);
      let n := Z.of_nat (length ids) in
      (if HwTimestamps c && HAS_TX c then for_each ids (fun _ => complete_unstamped)
       else on_tx (fun x => set_tail (u32 (m_txTail x + u32 n)) x)) ;;
      if UseCtpio c then
        if ctpio then on_stats (fun x => count_tx n 0 (m_fallbackPerSlot x) x)
        else on_stats (fun x => count_tx 0 n (foldl (flip count_fallback) (m_fallbackPerSlot x) ids) x)
      else on_stats (fun x => count_tx 0 n (m_fallbackPerSlot x) x)
  | EvTxWithTimestamp id nsec frac16 ctpio =>
      if HwTimestamps c && HAS_TX c then
        let slot := Z.land (u32 id) (NbTxBufs c - 1) in
        let minor := u32 (u32 nsec * 4 + Z.shiftr (u32 frac16) 14) in
        o ← gets fst;
        put_stamp slot (m_txTail (tx o)) minor ;;
        on_tx (set_tail (u32 (m_txTail (tx o) + 1))) ;;
        on_stamps (fun x => mk_stamps (m_txStamp x) (m_txTsCursor x) (m_txTsOverflow x) (u64 (m_txTsEvents x + 1))) ;;
        if UseCtpio c then
          if ctpio then on_stats (fun x => count_tx 1 0 (m_fallbackPerSlot x) x)
          else on_stats (fun x => count_tx 0 1 (count_fallback slot (m_fallbackPerSlot x)) x)
        else on_stats (fun x => count_tx 0 1 (m_fallbackPerSlot x) x)
      else on_stats (count_odd 0 1)
  | EvRxDiscard id type => handleDiscard (u32 id) (u32 type)
  | EvRxMulti raw => ids ← lib (ef_vi_receive_unbundle raw); on_stats (count_rx 0 (Z.of_nat (length ids)) 0 0)
  | EvRxMultiDiscard raw => ids ← lib (ef_vi_receive_unbundle raw); for_each ids (fun id => handleDiscard (u32 id) 0)
  | EvTxError =>
      on_stats (count_odd 1 0) ;;
      o ← gets fst;
      (if HwTimestamps c && HAS_TX c then put_stamp (m_txTail (tx o)) (m_txTail (tx o)) kTxStampNone else mret tt) ;;
      on_tx (set_tail (u32 (m_txTail (tx o) + 1)))
  | EvOther => on_stats (count_odd 0 1)
  end.

(** [while (m_evIdx < m_nEv)] *)
Definition drain : M W unit :=
  o ← gets fst;
  for_each (m_evs o) process ;;
  upd (set_evs []).

Definition evqHasEvent : M W bool :=
  v ← lib evq_word;
  mret (negb (u32 v =? 4294967295) && negb (u32 (Z.shiftr v 32) =? 4294967295)).

(** [pollEvent]: with payload polling no event is ever handed to the caller. *)
Definition pollEvent (wantRx : bool) : M W unit :=
  drain ;;
  has ← evqHasEvent;
  if negb has then
    o ← gets fst;
    if HAS_RX c && wantRx && (8 <=? m_rxPendingPush (rx o)) then
      act ef_vi_receive_push ;; on_rx (fun x => set_pending (Z.land (m_rxPendingPush x) 7) x)
    else mret tt
  else
    evs ← lib (ef_eventq_poll kEvPollBatch);
    upd (set_evs evs) ;;
    drain.

(** ** Transmit *)

Definition lend_slot (frameLen : Z) : M W (option Z) :=
  o ← gets fst;
  let slot := Z.land (m_txHead (tx o)) (NbTxBufs c - 1) in
  let base := txSlot o slot in
  let ptr := base + kTxHdrBytes c in
  on_tx (lend slot frameLen ptr base) ;;
  mret (Some ptr).

Definition full (o : EfVi) : bool := NbTxBufs c <=? u32 (m_txHead (tx o) - m_txTail (tx o)).

Definition acquire (frameLen : Z) : M W (option Z) :=
  if kX2522Plus c then lend_slot frameLen else
  if BufSize c <? frameLen then mret None else
  o ← gets fst;
  if full o then
    pollEvent false ;;
    o ← gets fst;
    if full o then mret None else lend_slot frameLen
  else lend_slot frameLen.

(** [for (;;) { rc = post(); ... }] *)
Fixpoint post_loop (n : nat) (post : L -> Z * L) : M W bool :=
  match n with
  | O => raise NoFuel
  | S n =>
      rc ← lib post;
      if rc =? 0 then mret true else
      if negb (rc =? - EAGAIN) then on_stats (count_odd 1 0) ;; mret false else
      pollEvent false ;;
      post_loop n post
  end.

(** One 64-byte line of the CTPIO aperture, in four stores; the header word replaces the
    first four bytes of the first. *)
Definition plus_line (l src : Z) (hdr : option Z) : M W unit :=
  for_loop 4 0 (fun i =>
    b ← rd (src + 64 * l + 16 * i) 16;
    let b := match hdr with Some h => if i =? 0 then le_encode 4 h ++ drop 4 b else b | None => b end in
    act (ctpio_store (64 * l + 16 * i) b)).

Definition plus_commit : M W unit :=
  o ← gets fst;
  let len := m_txLen (tx o) in
  let hdr := Z.lor (kCtpioHdrBase c) len in
  let nLines := Z.shiftr (u32 (len + kTxHdrBytes c + 63)) 6 in
  plus_line 0 (m_txSlotBase (tx o)) (Some hdr) ;;
  for_loop (Z.to_nat (nLines - 1)) 1 (fun l => plus_line l (m_txSlotBase (tx o)) None) ;;
  l ← gets snd;
  let di := Z.land (txq_added l) (txq_mask l) in
  dbase ← at_index (m_txDescBase (lay o)) (m_txSlot (tx o));
  let desc := Z.lor dbase (u64 (Z.shiftl len kTxUsrByteCntLbn)) in
  act (txq_descriptor di desc) ;;
  act (txq_id di (m_txSlot (tx o))) ;;
  act (set_txq_added (u32 (txq_added l + 1))) ;;
  act (doorbell_store desc (Z.land (u32 (txq_added l + 1)) (txq_mask l))).

Definition commit : M W unit :=
  o ← gets fst;
  ok ← (if kX2522Plus c then plus_commit ;; mret true
        else dma ← at_index (m_txDma (lay o)) (m_txSlot (tx o));
             let len := m_txLen (tx o) in
             if UseCtpio c then
               frame ← rd (m_txPtr (tx o)) len;
               act (ef_vi_transmit_ctpio frame (CtThreshold c)) ;;
               post_loop fuel (ef_vi_transmit_ctpio_fallback dma len (m_txSlot (tx o)))
             else post_loop fuel (ef_vi_transmit dma len (m_txSlot (tx o))));
  if (ok : bool) then on_tx (fun x => set_head (u32 (m_txHead x + 1)) x) else mret tt.

Definition send (frame : bytes) : M W bool :=
  dst ← acquire (u32 (Z.of_nat (length frame)));
  match dst with None => mret false | Some p => wr p frame ;; commit ;; mret true end.

Definition prefillRing (t : bytes) : M W unit :=
  for_loop (Z.to_nat (NbTxBufs c)) 0 (fun s =>
    o ← gets fst;
    wr (txFrame o s) (take (Z.to_nat (Z.min (Z.of_nat (length t)) (BufSize c - kTxHdrBytes c))) t)).

(** ** Receive *)

Fixpoint spin (n : nat) (off : Z) : M W bool :=
  match n with
  | O => mret false
  | S n =>
      act elapse ;;
      m ← rd off 2;
      if negb (le_decode m =? 0) then mret true else spin n off
  end.

Definition readRxTimestamp (prefixBase : Z) : M W unit :=
  b ← rd (prefixBase + kRxPrefixTsOffset) 4;
  on_rx (fun x => mk_rx (m_heldId x) (m_rxNextIdx x) (m_rxPendingPush x) (m_rxReleased x) (m_rxReposted x) (le_decode b)).

(** [while (m_rxReposted != m_rxReleased)] *)
Fixpoint repostReleased (n : nat) : M W unit :=
  o ← gets fst;
  if m_rxReposted (rx o) =? m_rxReleased (rx o) then mret tt else
  match n with
  | O => raise NoFuel
  | S n =>
      let id := Z.land (m_rxReposted (rx o)) (NbRxBufs c - 1) in
      dma ← at_index (m_rxDma (lay o)) id;
      act (ef_vi_receive_init dma id) ;;
      on_rx (fun x => mk_rx (m_heldId x) (m_rxNextIdx x) (u32 (m_rxPendingPush x + 1)) (m_rxReleased x) (u32 (m_rxReposted x + 1)) (m_rxTsRaw x)) ;;
      repostReleased n
  end.

Definition tryReceive : M W bytes :=
  o ← gets fst;
  let buf := rxSlot (m_rxNextIdx (rx o)) in
  let prefix := m_rxPrefix (lay o) in
  hit ← spin (kMarkerSpins c) (buf + prefix + 12);
  if (hit : bool) then
    on_rx (fun x => mk_rx (m_rxNextIdx x) (Z.land (u32 (m_rxNextIdx x + 1)) (NbRxBufs c - 1)) (m_rxPendingPush x) (m_rxReleased x) (m_rxReposted x) (m_rxTsRaw x)) ;;
    on_stats (count_rx 1 0 0 0) ;;
    (if HwTimestamps c && negb (kX2522Plus c) then readRxTimestamp buf else mret tt) ;;
    rd (buf + prefix) (BufSize c - prefix)
  else
    (if kX2522Plus c then repostReleased (Z.to_nat (NbRxBufs c)) else mret tt) ;;
    pollEvent true ;;
    mret [].

Definition release : M W unit :=
  o ← gets fst;
  let id := m_heldId (rx o) in
  wr (rxSlot id + m_rxPrefix (lay o) + 12) [0; 0] ;;
  if kX2522Plus c then
    on_rx (fun x => mk_rx (m_heldId x) (m_rxNextIdx x) (m_rxPendingPush x) (u32 (m_rxReleased x + 1)) (m_rxReposted x) (m_rxTsRaw x))
  else
    dma ← at_index (m_rxDma (lay o)) id;
    act (ef_vi_receive_init dma id) ;;
    let pending := u32 (m_rxPendingPush (rx o) + 1) in
    on_rx (set_pending pending) ;;
    if 64 <=? pending then act ef_vi_receive_push ;; on_rx (set_pending (Z.land pending 7)) else mret tt.

(** ** Time stamps *)

Definition hwRxTimestamp : M W Z :=
  o ← gets fst;
  if kX2522Plus c then b ← rd (rxSlot (m_heldId (rx o)) + kRxPrefixTsOffset) 4; mret (le_decode b)
  else mret (m_rxTsRaw (rx o)).

Definition pollTxTimestamp : M W (option (Z * Z)) :=
  o ← gets fst;
  let s := stamps o in
  if m_txTsCursor s =? m_txTail (tx o) then mret None else
  entry ← at_index (m_txStamp s) (Z.land (m_txTsCursor s) (NbTxBufs c - 1));
  let seq := u32 (Z.shiftr entry 32) in
  if negb (seq =? m_txTsCursor s) then
    on_stamps (fun x => mk_stamps (m_txStamp x) (m_txTail (tx o)) (u64 (m_txTsOverflow x + 1)) (m_txTsEvents x)) ;; mret None
  else
    on_stamps (fun x => mk_stamps (m_txStamp x) (u32 (m_txTsCursor x + 1)) (m_txTsOverflow x) (m_txTsEvents x)) ;;
    mret (Some (seq, u32 entry)).

Definition rxFrameComplete : M W bool :=
  pollEvent false ;;
  o ← gets fst;
  mret (m_rxPollHits (stats o) <=? m_rxEvReconciled (stats o)).

Definition txSequence (o : EfVi) : Z := m_txHead (tx o).
Definition hwRxTimestampCorrection (o : EfVi) : Z := m_rxTsCorrection (lay o).

#[export] Instance EfVi_TxRing : TxRing W := {|
  tx_acquire := acquire; tx_write := wr; tx_commit := commit; tx_send := send; tx_prefillRing := prefillRing |}.
#[export] Instance EfVi_RxRing : RxRing W := {| rx_tryReceive := tryReceive; rx_release := release |}.
End Operations.

Section Steps.
Context {L : Type}.

Lemma triple_upd (P Q : EfVi * L -> Prop) f : (forall o l, P (o, l) -> Q (f o, l)) -> triple P (upd f) (fun _ => Q).
Proof. intros H [o l] Hw. eexists tt, _. split; [done|]. by apply H. Qed.

Lemma triple_act (P Q : EfVi * L -> Prop) f : (forall o l, P (o, l) -> Q (o, f l)) -> triple P (act f) (fun _ => Q).
Proof. intros H [o l] Hw. eexists tt, _. split; [done|]. by apply H. Qed.

Lemma triple_lib {A} (P : EfVi * L -> Prop) (Q : A -> EfVi * L -> Prop) (f : L -> A * L) : (forall o l, P (o, l) -> Q (fst (f l)) (o, snd (f l))) -> triple P (lib f) Q.
Proof. intros H [o l] Hw. specialize (H o l Hw). unfold lib. cbn. destruct (f l) as [a l']. by eexists a, _. Qed.
End Steps.

(** [hwFoldRx], [hwDelta] and the two decoders the recorder thread calls. *)
Definition hwFoldRx (raw correction : Z) : option Z :=
  if raw =? 4294967295 then None else
  let minor := u32 (raw + correction) in
  Some (if kOneSecQns <=? minor then
          if minor <? kOneSecQns + kQnsOverrun + 2 then u32 (minor - kOneSecQns) else u32 (minor + kOneSecQns)
        else minor).

Definition hwDelta (end_ begin : Z) : Z :=
  let d := end_ - begin in u64 (if d <? 0 then d + kOneSecQns else d).

Definition hwRoundTrip (packed rxCorrection : Z) : option Z :=
  match hwFoldRx (u32 (Z.shiftr packed 32)) rxCorrection with
  | None => None
  | Some rx => let tx := u32 packed in if (tx =? 0) || (tx =? kTxStampNone) then None else Some (hwDelta rx tx)
  end.

Definition hwTurnaround (packed rxCorrection : Z) : option Z :=
  match hwFoldRx (u32 (Z.shiftr packed 32)) rxCorrection with
  | None => None
  | Some rx => let tx := u32 packed in if (tx =? 0) || (tx =? kTxStampNone) then None else Some (hwDelta tx rx)
  end.

(** ** What the adapter does *)

(** A posted send: DMA address, length, request id, and the copy in the CTPIO aperture. *)
Record txd := mk_txd { t_addr : Z; t_len : Z; t_id : Z; t_copy : option bytes }.

(** The registered memory; the sends posted, the frames on the wire, the sends whose
    completion the library has given out; the bytes last written to the aperture; the
    receive descriptors prepared, how many the adapter has, and, for every frame it
    delivered, the slot from the frame on as it was left. *)
Record view := mk_view {
  v_mem : bytes; v_posted : list txd; v_wire : list bytes; v_taken : Z; v_ap : option bytes;
  v_init : list Z; v_pushed : Z; v_got : list bytes }.

Definition v_set_mem (m : bytes) (v : view) := mk_view m (v_posted v) (v_wire v) (v_taken v) (v_ap v) (v_init v) (v_pushed v) (v_got v).
Definition v_set_ap (a : option bytes) (v : view) := mk_view (v_mem v) (v_posted v) (v_wire v) (v_taken v) a (v_init v) (v_pushed v) (v_got v).
Definition v_post (d : txd) (v : view) := mk_view (v_mem v) (v_posted v ++ [d]) (v_wire v) (v_taken v) None (v_init v) (v_pushed v) (v_got v).
Definition v_take (n : Z) (v : view) := mk_view (v_mem v) (v_posted v) (v_wire v) (v_taken v + n) (v_ap v) (v_init v) (v_pushed v) (v_got v).
Definition v_prepare (a : Z) (v : view) := mk_view (v_mem v) (v_posted v) (v_wire v) (v_taken v) (v_ap v) (v_init v ++ [a]) (v_pushed v) (v_got v).
Definition v_push (v : view) := mk_view (v_mem v) (v_posted v) (v_wire v) (v_taken v) (v_ap v) (v_init v)
  (Z.max (v_pushed v) (Z.of_nat (length (v_init v)) / 8 * 8)) (v_got v).
Definition v_send (f : bytes) (v : view) := mk_view (v_mem v) (v_posted v) (v_wire v ++ [f]) (v_taken v) (v_ap v) (v_init v) (v_pushed v) (v_got v).
Definition v_deliver (m : bytes) (image : bytes) (v : view) := mk_view m (v_posted v) (v_wire v) (v_taken v) (v_ap v) (v_init v) (v_pushed v) (v_got v ++ [image]).

Section Adapter.
Context (c : config) (prefix : Z) (host : Z -> Z).

(** The next posted send goes out, from the aperture or by DMA from memory; the next frame
    goes to the buffer of the next descriptor, behind its prefix. *)
Inductive nstep : view -> view -> Prop :=
  | n_send v d f :
      v_posted v !! length (v_wire v) = Some d ->
      t_copy d = Some f \/ load (Z.to_nat (host (t_addr d))) (Z.to_nat (t_len d)) (v_mem v) = Some f ->
      nstep v (v_send f v)
  | n_recv v a data m :
      Z.of_nat (length (v_got v)) < v_pushed v -> v_init v !! length (v_got v) = Some a ->
      is_bytes data -> prefix + 14 <= Z.of_nat (length data) <= BufSize c ->
      le_decode (slice (Z.to_nat (prefix + 12)) 2 data) <> 0 ->
      store (Z.to_nat (host a)) data (v_mem v) = Some m ->
      nstep v (v_deliver m (slice (Z.to_nat (host a + prefix)) (Z.to_nat (BufSize c - prefix)) m) v).
End Adapter.

(** The completions a polled event stands for by itself; a bundle's are counted when the
    library unbundles it. *)
Definition single (e : ef_event) : Z := match e with EvTxWithTimestamp _ _ _ _ | EvTxError => 1 | _ => 0 end.
Definition singles (es : list ef_event) : Z := foldr (fun e n => single e + n) 0 es.

(** The documented behaviour: a post answers 0, or -EAGAIN when the ring of [capacity]
    descriptors has no room; completions are given out for frames that are on the wire. *)
Class EfViLaws (c : config) (prefix capacity : Z) (host : Z -> Z) (L : Type) `{EfViLib L} := {
  eview : L -> view;
  mem_law l : mem l = v_mem (eview l);
  set_mem_law m l : eview (set_mem m l) = v_set_mem m (eview l);
  elapse_law l : rtc (nstep c prefix host) (eview l) (eview (elapse l));
  ctpio_law f t l : rtc (nstep c prefix host) (v_set_ap (Some f) (eview l)) (eview (ef_vi_transmit_ctpio f t l));
  fallback_law a n id l : let '(rc, l') := ef_vi_transmit_ctpio_fallback a n id l in
    (rc = 0 /\ rtc (nstep c prefix host) (v_post (mk_txd a n id (v_ap (eview l))) (eview l)) (eview l')) \/
    (rc = - EAGAIN /\ capacity <= Z.of_nat (length (v_posted (eview l))) - v_taken (eview l) /\ rtc (nstep c prefix host) (eview l) (eview l'));
  transmit_law a n id l : let '(rc, l') := ef_vi_transmit a n id l in
    (rc = 0 /\ rtc (nstep c prefix host) (v_post (mk_txd a n id None) (eview l)) (eview l')) \/
    (rc = - EAGAIN /\ capacity <= Z.of_nat (length (v_posted (eview l))) - v_taken (eview l) /\ rtc (nstep c prefix host) (eview l) (eview l'));
  unbundle_law raw l : let '(ids, l') := ef_vi_transmit_unbundle raw l in
    exists v, rtc (nstep c prefix host) (eview l) v /\ v_taken v + Z.of_nat (length ids) <= Z.of_nat (length (v_wire v)) /\
      rtc (nstep c prefix host) (v_take (Z.of_nat (length ids)) v) (eview l');
  poll_law n l : let '(evs, l') := ef_eventq_poll n l in
    exists v, rtc (nstep c prefix host) (eview l) v /\ v_taken v + singles evs <= Z.of_nat (length (v_wire v)) /\
      rtc (nstep c prefix host) (v_take (singles evs) v) (eview l');
  rx_unbundle_law raw l : rtc (nstep c prefix host) (eview l) (eview (snd (ef_vi_receive_unbundle raw l)));
  word_law l : rtc (nstep c prefix host) (eview l) (eview (snd (evq_word l)));
  receive_init_law a id l : rtc (nstep c prefix host) (v_prepare a (eview l)) (eview (ef_vi_receive_init a id l));
  receive_push_law l : rtc (nstep c prefix host) (v_push (eview l)) (eview (ef_vi_receive_push l));
}.
