(* ===== verification/EfViStamps.v ===== *)
(** * ef_vi: hardware time stamps

    The decoders' arithmetic on quarter-nanosecond minors against true times, and the ring
    of transmit stamps against a queue. *)

From S2P Require Import Prelude RingWindow EfVi.

(** ** Minors and true times *)

(** [hwFoldRx] is the sum modulo a second, as long as the sum is neither more than the
    overrun above a second nor so far below zero that it cannot be told from that. *)
Lemma fold_rx_mod raw corr :
  0 <= raw < 4294967295 -> - 294967274 <= raw + corr < kOneSecQns + kQnsOverrun + 2 ->
  hwFoldRx raw (u32 corr) = Some ((raw + corr) mod kOneSecQns).
Proof.
  unfold kOneSecQns, kQnsOverrun. intros Hr Hs. unfold hwFoldRx, kOneSecQns, kQnsOverrun. rewrite (proj2 (Z.eqb_neq _ _)) by lia. rewrite wrap_add_r. f_equal. unfold wrap. change (2 ^ 32) with 4294967296.
  destruct (Z_lt_le_dec (raw + corr) 0).
  - assert ((raw + corr) mod 4294967296 = raw + corr + 4294967296) as -> by dlia.
    rewrite (proj2 (Z.leb_le _ _)), (proj2 (Z.ltb_ge _ _)) by lia. dlia.
  - rewrite (Z.mod_small (raw + corr) 4294967296) by lia. destruct (Z.leb_spec 4000000000 (raw + corr)).
    + rewrite (proj2 (Z.ltb_lt _ _)) by lia. dlia.
    + symmetry. apply Z.mod_small. lia.
Qed.

Lemma delta_mod a b : 0 <= a < kOneSecQns -> 0 <= b < kOneSecQns -> hwDelta a b = (a - b) mod kOneSecQns.
Proof.
  unfold hwDelta, kOneSecQns, wrap. intros Ha Hb. change (2 ^ 64) with 18446744073709551616. destruct (Z.ltb_spec (a - b) 0); dlia.
Qed.

Lemma unpack hi lo : 0 <= hi < 2 ^ 32 -> 0 <= lo < 2 ^ 32 ->
  u32 (Z.shiftr (Z.lor (Z.shiftl hi 32) lo) 32) = hi /\ u32 (Z.lor (Z.shiftl hi 32) lo) = lo.
Proof.
  intros Hh Hl. assert (Z.lor (Z.shiftl hi 32) lo = hi * 2 ^ 32 + lo) as ->.
  { rewrite <- Z.shiftl_mul_pow2 by lia. symmetry. rewrite Z.add_nocarry_lxor, Z.lxor_lor; [done| |].
    all: apply Z.bits_inj'; intros i Hi; rewrite Z.land_spec, Z.bits_0; destruct (Z_lt_le_dec i 32);
      [rewrite Z.shiftl_spec_low by done; done|]; rewrite (proj1 (Z.bounded_iff_bits_nonneg 32 lo ltac:(lia) ltac:(lia)) ltac:(lia) i) by lia; apply andb_false_r. }
  unfold wrap. rewrite Z.shiftr_div_pow2 by lia. rewrite Z.div_add_l, (Z.div_small lo), Z.add_0_r by lia. split; [by apply Z.mod_small|].
  rewrite Z.add_comm, Z_mod_plus_full. by apply Z.mod_small.
Qed.

(** C32: The hardware latencies are exact: when a reply is received less than a second after
    its send, [hwRoundTrip] of the packed pair of raw stamps is the true time between the
    two, to the quarter of a nanosecond, across the wrap of the one-second minors and for
    a negative receive correction; so is [hwTurnaround] for a send after a reception.  The
    corrected stamp may exceed a second by the adapter's overrun, and a send on an exact
    second is the only one that has no answer. *)
Theorem efvi_latency_exact t_tx t_rx raw corr :
  0 <= raw < 4294967295 -> - 294967274 <= raw + corr < kOneSecQns + kQnsOverrun + 2 ->
  (raw + corr) mod kOneSecQns = t_rx mod kOneSecQns -> t_tx mod kOneSecQns <> 0 ->
  let packed := Z.lor (Z.shiftl raw 32) (t_tx mod kOneSecQns) in
  (0 <= t_rx - t_tx < kOneSecQns -> hwRoundTrip packed (u32 corr) = Some (t_rx - t_tx)) /\
  (0 <= t_tx - t_rx < kOneSecQns -> hwTurnaround packed (u32 corr) = Some (t_tx - t_rx)).
Proof.
  intros Hr Hs Hm Hz. cbn zeta. pose proof (Z.mod_pos_bound t_tx kOneSecQns ltac:(done)) as Ht. pose proof (Z.mod_pos_bound t_rx kOneSecQns ltac:(done)) as Hx.
  destruct (unpack raw (t_tx mod kOneSecQns)) as [Hhi Hlo]; [lia|unfold kOneSecQns in *; lia|].
  unfold hwRoundTrip, hwTurnaround. rewrite Hhi, Hlo, fold_rx_mod by done. rewrite Hm.
  assert ((t_tx mod kOneSecQns =? 0) || (t_tx mod kOneSecQns =? kTxStampNone) = false) as ->.
  { apply orb_false_iff. split; apply Z.eqb_neq; [done|unfold kTxStampNone, kOneSecQns in *; lia]. }
  split; intros Hd; f_equal; rewrite delta_mod by done; rewrite <- Zminus_mod; by apply Z.mod_small.
Qed.

Lemma efvi_latency_exact_witness :
  hwRoundTrip (Z.lor (Z.shiftl 3999999990 32) 3999990000) (u32 (-150)) = Some 9840 /\ hwRoundTrip (Z.lor (Z.shiftl 100 32) 3999990000) (u32 (-150)) = Some 9950.
Proof.
  split.
  - exact (proj1 (efvi_latency_exact 3999990000 3999999840 3999999990 (-150) ltac:(lia) ltac:(unfold kOneSecQns, kQnsOverrun; lia) eq_refl ltac:(discriminate)) ltac:(unfold kOneSecQns; lia)).
  - exact (proj1 (efvi_latency_exact 3999990000 3999999950 100 (-150) ltac:(lia) ltac:(unfold kOneSecQns, kQnsOverrun; lia) eq_refl ltac:(discriminate)) ltac:(unfold kOneSecQns; lia)).
Defined.

(** ** The ring of transmit stamps *)

(** The NIC completes a send with a stamp or without, and the application asks. *)
Inductive stamp_op := Stamped (id nsec frac16 : Z) (ctpio : bool) | Failed | Poll.

Definition minor_of (nsec frac16 : Z) : Z := u32 (u32 nsec * 4 + Z.shiftr (u32 frac16) 14).

Section Ring.
Context {L : Type} {EL : EfViLib L} (c : config).
Abbreviation W := (EfVi * L)%type.
Abbreviation NT := (NbTxBufs c).

(** The code's run: the answers of the polls. *)
Fixpoint run_ops (ops : list stamp_op) : M W (list (option (Z * Z))) :=
  match ops with
  | [] => mret []
  | Stamped id nsec frac16 ctpio :: ops => process c (EvTxWithTimestamp id nsec frac16 ctpio) ;; run_ops ops
  | Failed :: ops => process c EvTxError ;; run_ops ops
  | Poll :: ops => r ← pollTxTimestamp c; rs ← run_ops ops; mret (r :: rs)
  end.

(** The specification: a queue of all stamps [st], of which [cur] are consumed; a reader
    that is more than the ring behind is told so and skips to the end. *)
Fixpoint spec_ops (ops : list stamp_op) (st : list Z) (cur : Z) : list (option (Z * Z)) :=
  match ops with
  | [] => []
  | Stamped _ nsec frac16 _ :: ops => spec_ops ops (st ++ [minor_of nsec frac16]) cur
  | Failed :: ops => spec_ops ops (st ++ [kTxStampNone]) cur
  | Poll :: ops =>
      let n := Z.of_nat (length st) in
      if cur =? n then None :: spec_ops ops st cur
      else if n - cur <=? NT then option_map (pair (u32 cur)) (st !! Z.to_nat cur) :: spec_ops ops st (cur + 1)
      else None :: spec_ops ops st n
  end.

(** Completions come in order, and the reader is never [2^31] behind. *)
Fixpoint orderly (ops : list stamp_op) (n cur : Z) : Prop :=
  match ops with
  | [] => True
  | Stamped id _ _ _ :: ops => Z.land (u32 id) (NT - 1) = n mod NT /\ n + 1 - cur < 2 ^ 31 /\ orderly ops (n + 1) cur
  | Failed :: ops => n + 1 - cur < 2 ^ 31 /\ orderly ops (n + 1) cur
  | Poll :: ops => orderly ops n (if cur =? n then cur else if n - cur <=? NT then cur + 1 else n)
  end.

Context (NTpow : is_pow2 NT) (NTmax : NT <= 2 ^ 31) (ts : HwTimestamps c = true) (hastx : HAS_TX c = true).

Record ring (st : list Z) (cur : Z) (o : EfVi) : Prop := {
  g_len : Z.of_nat (length (m_txStamp (stamps o))) = NT;
  g_tail : m_txTail (tx o) = u32 (Z.of_nat (length st));
  g_cur : m_txTsCursor (stamps o) = u32 cur;
  g_lag : 0 <= cur /\ 0 <= Z.of_nat (length st) - cur < 2 ^ 31;
  g_min : Forall (in_u 32) st;
  g_slot : forall i m, Z.of_nat (length st) - NT <= i -> 0 <= i -> st !! Z.to_nat i = Some m ->
    m_txStamp (stamps o) !! pos NT i = Some (Z.lor (Z.shiftl (u32 i) 32) m);
}.

Lemma NT_pos : 0 < NT.
Proof. by apply is_pow2_pos. Qed.

(** A completion: its stamp goes into the slot of its number. *)
Lemma ring_put st cur o m i es stt ev :
  ring st cur o -> in_u 32 m -> Z.of_nat (length st) + 1 - cur < 2 ^ 31 -> Z.land i (NT - 1) = Z.of_nat (length st) mod NT ->
  ring (st ++ [m]) cur (mk_efvi (lay o) (set_tail (u32 (m_txTail (tx o) + 1)) (tx o)) (rx o)
    (mk_stamps (<[Z.to_nat (Z.land i (NT - 1)) := Z.lor (Z.shiftl (m_txTail (tx o)) 32) m]> (m_txStamp (stamps o))) (m_txTsCursor (stamps o)) (m_txTsOverflow (stamps o)) ev) stt es).
Proof.
  intros [Hl Ht Hc Hg Hm Hs] Hi Hlag Hid. pose proof NT_pos. rewrite Hid. constructor; cbn [stamps tx m_txStamp m_txTsCursor m_txTail set_tail]; rewrite ?length_app, ?length_insert; cbn [length]; try done.
  - rewrite Ht, wrap_add_l. f_equal. lia.
  - lia.
  - apply list.Forall_app_2; [done|by constructor].
  - intros j x Hj Hj0 Hx. destruct (decide (j = Z.of_nat (length st))) as [->|Hne].
    + rewrite Nat2Z.id, lookup_app_r, Nat.sub_diag in Hx by lia. injection Hx as <-. rewrite Ht. apply list_lookup_insert_eq. rewrite <- Nat2Z.id, Hl. pose proof (Z.mod_pos_bound (Z.of_nat (length st)) NT). lia.
    + assert (j < Z.of_nat (length st)) by (apply lookup_lt_Some in Hx; rewrite length_app in Hx; cbn in Hx; lia).
      rewrite lookup_app_l in Hx by lia. rewrite list_lookup_insert_ne; [apply Hs; [lia|done|done]|].
      apply (pos_ne NT); lia.
Qed.

Lemma stamp_index n : Z.land (Z.land (u32 n) (NT - 1)) (NT - 1) = n mod NT.
Proof. pose proof NT_pos. rewrite (mask_wrap NT) by (try done; lia). rewrite land_mask by done. by rewrite Zmod_mod. Qed.

Lemma ring_poll st cur o (l : L) : ring st cur o ->
  let n := Z.of_nat (length st) in
  exists o', pollTxTimestamp c (o, l) = (Done (if cur =? n then None else if n - cur <=? NT then option_map (pair (u32 cur)) (st !! Z.to_nat cur) else None), (o', l)) /\
    ring st (if cur =? n then cur else if n - cur <=? NT then cur + 1 else n) o'.
Proof.
  intros Hr. cbn zeta. pose proof Hr as [Hl Ht Hc Hg Hm Hs]. pose proof NT_pos. unfold pollTxTimestamp. rewrite run_gets. cbn [fst]. rewrite Hc, Ht.
  set (n := Z.of_nat (length st)) in *. change (2 ^ 31) with 2147483648 in *.
  assert ((u32 cur =? u32 n) = (cur =? n)) as ->.
  { destruct (Z.eqb_spec cur n) as [->|Hne]; [apply Z.eqb_refl|]. apply Z.eqb_neq. unfold wrap. change (2 ^ 32) with 4294967296. intros He. apply Hne. apply (mod_window_inj 4294967296); [lia|exact He|lia]. }
  destruct (Z.eqb_spec cur n) as [|Hne]; [by exists o|]. rewrite (mask_wrap NT) by (try done; lia).
  destruct (Z.leb_spec (n - cur) NT) as [Hin|Hout].
  - destruct (lookup_lt_is_Some_2 st (Z.to_nat cur)) as [m Hx]; [lia|]. pose proof (Hs cur m ltac:(lia) ltac:(lia) Hx) as Hslot. unfold pos in Hslot.
    unfold at_index. rewrite Hslot, bind_ret_l.
    assert (in_u 32 m) as Hm32 by (rewrite list.Forall_lookup in Hm; by eapply Hm).
    destruct (unpack (u32 cur) m (wrap_range 32 cur ltac:(lia)) Hm32) as [-> ->]. rewrite Z.eqb_refl. cbn [negb].
    unfold on_stamps, upd. rewrite run_modify. cbn [fst snd]. eexists. rewrite Hx. split; [done|].
    constructor; cbn; try done; try lia. by rewrite Hc, wrap_add_l.
  - set (j := cur + (n - 1 - cur) / NT * NT). assert (n - NT <= j < n /\ j mod NT = cur mod NT /\ j <> cur) as (Hj & Hjm & Hjc).
    { unfold j. split; [|split]; [|by rewrite Z_mod_plus_full|]; dnia. }
    destruct (lookup_lt_is_Some_2 st (Z.to_nat j)) as [m Hx]; [lia|]. pose proof (Hs j m ltac:(lia) ltac:(lia) Hx) as Hslot. unfold pos in Hslot. rewrite Hjm in Hslot.
    unfold at_index. rewrite Hslot, bind_ret_l.
    assert (in_u 32 m) as Hm32 by (rewrite list.Forall_lookup in Hm; by eapply Hm).
    destruct (unpack (u32 j) m (wrap_range 32 j ltac:(lia)) Hm32) as [-> _].
    assert ((u32 j =? u32 cur) = false) as ->.
    { apply Z.eqb_neq. unfold wrap. change (2 ^ 32) with 4294967296. intros He. apply Hjc. apply (mod_window_inj 4294967296); [lia|exact He|lia]. }
    cbn [negb]. unfold on_stamps, upd. rewrite run_modify. cbn [fst snd]. eexists. split; [done|].
    constructor; cbn; try done; try lia.
Qed.

Lemma ops_refine ops : forall st cur o (l : L), ring st cur o -> orderly ops (Z.of_nat (length st)) cur ->
  exists w', run_ops ops (o, l) = (Done (spec_ops ops st cur), w').
Proof.
  assert (in_u 32 kTxStampNone) as HN by (unfold kTxStampNone; split; [done|reflexivity]).
  induction ops as [|[id ns fr ct| |] ops IH]; intros st cur o l Hr Ho; cbn [run_ops spec_ops orderly] in *; [by eexists|..].
  - destruct Ho as (Hid & Hlag & Ho). cbn [process]. rewrite ts, hastx. cbn [andb].
    assert (Z.land (Z.land (u32 id) (NT - 1)) (NT - 1) = Z.of_nat (length st) mod NT) as Hid' by (rewrite Hid, land_mask by done; apply Zmod_mod).
    assert (in_u 32 (minor_of ns fr)) as Hmin by (by apply wrap_range).
    pose proof (fun es stt ev => ring_put st cur o (minor_of ns fr) _ es stt ev Hr Hmin Hlag Hid') as Hp.
    replace (Z.of_nat (length st) + 1) with (Z.of_nat (length (st ++ [minor_of ns fr]))) in Ho by (rewrite length_app; cbn; lia).
    destruct (UseCtpio c); [destruct ct|]; (apply IH; [apply Hp|exact Ho]).
  - destruct Ho as (Hlag & Ho). cbn [process].
    assert (Z.land (m_txTail (tx o)) (NT - 1) = Z.of_nat (length st) mod NT) as Hid' by (rewrite (g_tail _ _ _ Hr); apply mask_wrap; [done|change (2 ^ 32) with 4294967296; lia|lia]).
    pose proof (fun es stt ev => ring_put st cur o kTxStampNone _ es stt ev Hr HN Hlag Hid') as Hp.
    replace (Z.of_nat (length st) + 1) with (Z.of_nat (length (st ++ [kTxStampNone]))) in Ho by (rewrite length_app; cbn; lia).
    rewrite bind_assoc. unfold on_stats, upd. rewrite run_modify, bind_assoc, run_gets. cbn [fst snd]. rewrite ts, hastx. cbn [andb].
    unfold put_stamp, on_stamps, upd. rewrite bind_assoc, run_modify. unfold on_tx, upd. rewrite run_modify. apply IH; [apply Hp|exact Ho].
  - destruct (ring_poll st cur o l Hr) as (o' & Hp & Hr'). rewrite (run_bind _ _ _ _ _ Hp). destruct (IH _ _ _ l Hr' Ho) as (w' & E). rewrite (run_bind _ _ _ _ _ E).
    eexists. destruct (cur =? _); [done|]. by destruct (_ <=? NT).
Qed.
End Ring.

(** The ring of transmit stamps is a queue: for every sequence of in-order completions
    (stamped or failed) and polls, the polls answer exactly the sends' numbers with their own
    stamps, in order, each once; a reader that fell more than the ring behind gets nothing,
    skips to the newest and never a stamp of another send, also across the 32-bit wrap of
    the numbers. *)
Theorem efvi_stamps_queue {L} {EL : EfViLib L} c ops (o : EfVi) (l : L) :
  is_pow2 (NbTxBufs c) -> NbTxBufs c <= 2 ^ 31 -> HwTimestamps c = true -> HAS_TX c = true ->
  ring c [] 0 o -> orderly c ops 0 0 ->
  exists w', run_ops c ops (o, l) = (Done (spec_ops c ops [] 0), w').
Proof. intros Hp Hm Ht Hx Hr Ho. by apply ops_refine. Qed.

(** A ring of four: one stamp read in time, then six completions unread, then a new one. *)
Definition silent_lib : EfViLib unit := {|
  mem _ := []; set_mem _ l := l; elapse l := l; ef_vi_transmit_ctpio _ _ l := l; ef_vi_transmit_ctpio_fallback _ _ _ l := (0, l);
  ef_vi_transmit _ _ _ l := (0, l); ef_vi_transmit_unbundle _ l := ([], l); ef_vi_receive_unbundle _ l := ([], l); ef_vi_receive_init _ _ l := l;
  ef_vi_receive_push l := l; ef_eventq_poll _ l := ([], l); evq_word l := (18446744073709551615, l); ctpio_store _ _ l := l; txq_mask _ := 0;
  txq_added _ := 0; set_txq_added _ l := l; txq_descriptor _ _ l := l; txq_id _ _ l := l; doorbell_store _ _ l := l |}.

Definition stamp_config : config := mk_config RxTx 8 4 2048 64 true true true.
Definition stamp_object : EfVi := mk_efvi (mk_layout 14 9 [] [] [] 0) (mk_tx 0 0 0 0 0 0) (mk_rx 0 0 0 0 0 0)
  (mk_stamps (replicate 4 0) 0 0 0) (mk_stats 0 0 (replicate 4 0) 0 0 0 0 0 0) [].
Definition stamp_ops : list stamp_op :=
  [Stamped 0 500 32768 true; Poll; Stamped 1 1000 0 true; Failed; Stamped 3 1002 0 false; Stamped 4 1003 0 true; Stamped 5 1004 0 true;
   Stamped 6 1005 0 true; Poll; Stamped 7 1006 49152 true; Poll].

Lemma efvi_stamps_queue_witness :
  exists w', run_ops (EL := silent_lib) stamp_config stamp_ops (stamp_object, tt) = (Done [Some (0, 2002); None; Some (7, 4027)], w').
Proof.
  refine (efvi_stamps_queue (EL := silent_lib) stamp_config stamp_ops stamp_object tt _ _ eq_refl eq_refl _ _).
  - exists 2. done.
  - discriminate.
  - constructor; try reflexivity; [split; [|split]; done|constructor|intros i m _ _ Hx; by rewrite lookup_nil in Hx].
  - repeat split.
Defined.
