(* ===== verification/EfViTx.v ===== *)
(** * ef_vi: the transmit ring against its contract

    The ring of transmit slots of the generic tuning, by CTPIO with its fallback descriptor
    or by DMA, meets [TxContract]: whatever the adapter does and whenever it reports its
    completions, the frames on the wire are the accepted ones, in order and unchanged. *)

From S2P Require Import Prelude RingConcepts EfVi.

(** ** A buffer in the registered memory *)

Definition holds (m : bytes) (off : Z) (f : bytes) : Prop := load (Z.to_nat off) (length f) m = Some f.

Lemma holds_bound m off f : holds m off f -> (Z.to_nat off + length f <= length m)%nat.
Proof. unfold holds, load. by case_decide. Qed.

Lemma holds_slice m off n : (Z.to_nat off + n <= length m)%nat -> holds m off (slice (Z.to_nat off) n m).
Proof. intros Hl. unfold holds, load. rewrite length_slice by done. by rewrite decide_True. Qed.

Lemma holds_out m m' o src off f :
  store o src m = Some m' -> (o + length src <= Z.to_nat off \/ Z.to_nat off + length f <= o)%nat -> holds m off f -> holds m' off f.
Proof.
  intros Hs Ho Hh. pose proof (holds_bound _ _ _ Hh) as Hb. unfold holds, load, store in *. rewrite decide_True in Hh by done.
  case_decide; [|done]. injection Hs as <-. rewrite length_inserts, decide_True by done.
  destruct Ho; [by rewrite slice_inserts_after|by rewrite slice_inserts_before].
Qed.

Lemma holds_prefix m off f h : h `prefix_of` f -> holds m off f -> holds m off h.
Proof.
  intros [k ->]. unfold holds, load. case_decide as Hl; [|done]. intros He. injection He as He. rewrite length_app in *.
  rewrite decide_True by lia. f_equal. apply (f_equal (take (length h))) in He. unfold slice in *.
  by rewrite take_take, Nat.min_l, take_app_length in He by lia.
Qed.

Lemma holds_write m off b k src b' :
  0 <= off -> holds m off b -> store k src b = Some b' ->
  exists m', store (Z.to_nat (off + Z.of_nat k)) src m = Some m' /\ holds m' off b'.
Proof.
  intros Ho Hh Hs. pose proof (holds_bound _ _ _ Hh) as Hb. unfold store in Hs. case_decide as Hk; [|done]. injection Hs as <-.
  unfold holds, load in *. rewrite decide_True in Hh by done. injection Hh as Hh.
  rewrite store_Some by lia. eexists. split; [done|]. rewrite !length_inserts, decide_True by lia. f_equal.
  rewrite <- Hh at 2. apply list_eq. intros i. unfold slice. destruct (decide (i < length b)%nat).
  2: { rewrite lookup_take_ge by lia. symmetry. apply lookup_ge_None_2. rewrite length_inserts, length_take. lia. }
  rewrite lookup_take_lt, lookup_drop by done. destruct (decide (i < k)%nat).
  { rewrite !list_lookup_inserts_lt by lia. by rewrite lookup_take_lt, lookup_drop. }
  destruct (decide (i < k + length src)%nat).
  - rewrite !list_lookup_inserts by (rewrite ?length_take, ?length_drop; lia). f_equal. lia.
  - rewrite !list_lookup_inserts_ge by lia. by rewrite lookup_take_lt, lookup_drop.
Qed.

Module Tx.
Section Contract.
Context {L : Type} {EL : EfViLib L} (c : config) (prefix capacity : Z) (host : Z -> Z) (fuel : nat).
Context {LL : EfViLaws c prefix capacity host L}.
Abbreviation W := (EfVi * L)%type.
Abbreviation NT := (NbTxBufs c).
Implicit Types (w : W) (v : view) (sent : list bytes) (K : Z -> bytes).
Context (generic : kX2522Plus c = false) (NTpow : is_pow2 NT) (NTmax : NT < 2 ^ 16) (NTroom : NT <= capacity)
  (BSpos : 0 < BufSize c < 2 ^ 32) (Y : Layout).

Definition slot (s : Z) : Z := (m_txBase Y + s) * BufSize c.

(** The layout [init] computes: one DMA address per slot, the slots behind the receive
    buffers. *)
Definition laid_out : Prop :=
  0 <= m_txBase Y /\ Z.of_nat (length (m_txDma Y)) = NT /\
  forall s a, m_txDma Y !! s = Some a -> host a = slot (Z.of_nat s).
Context (lay_ok : laid_out).

Lemma slots_pos : 0 < NT.
Proof. by apply is_pow2_pos. Qed.

(** [sent] is posted and what is on the wire is a prefix of it; at least [U] completions are
    given out; slot [s] starts with [K s]; the receive buffers are below the slots. *)
Record core sent K (U : Z) v : Prop := {
  q_len : length (v_posted v) = length sent;
  q_desc i f : sent !! i = Some f -> exists d, v_posted v !! i = Some d /\ host (t_addr d) = slot (Z.of_nat i mod NT) /\
    t_len d = Z.of_nat (length f) /\ (t_copy d = Some f \/ t_copy d = None);
  q_wire : v_wire v `prefix_of` sent;
  q_taken : U <= v_taken v <= Z.of_nat (length (v_wire v));
  q_mem i f : (length (v_wire v) <= i)%nat -> sent !! i = Some f -> holds (v_mem v) (slot (Z.of_nat i mod NT)) f;
  q_keep s : 0 <= s < NT -> holds (v_mem v) (slot s) (K s);
  q_size : slot NT <= Z.of_nat (length (v_mem v));
  q_rx : Forall (fun a => 0 <= host a /\ host a + BufSize c <= slot 0) (v_init v) }.

Lemma slot_ge s : 0 <= s -> 0 <= slot 0 /\ slot 0 <= slot s.
Proof. intros Hs. destruct lay_ok as (Hb & _). unfold slot. nia. Qed.

Lemma slot_sep s s' : s < s' -> slot s + BufSize c <= slot s'.
Proof. unfold slot. nia. Qed.

Lemma core_step sent K U v v' : nstep c prefix host v v' -> core sent K U v -> core sent K U v'.
Proof.
  intros Hs C. destruct Hs as [v d f Hd Hf|v a data m Hlt Ha Hby Hlen Hmark Hst].
  - pose proof (lookup_lt_Some _ _ _ Hd) as Hl. rewrite (q_len _ _ _ _ C) in Hl.
    destruct (lookup_lt_is_Some_2 sent (length (v_wire v)) Hl) as [g Hg].
    assert (f = g) as ->.
    { destruct (q_desc _ _ _ _ C _ _ Hg) as (d' & Hd' & Hh & Hn & Hc). simplify_eq.
      pose proof (q_mem _ _ _ _ C _ _ (le_n _) Hg) as Hm. unfold holds in Hm. rewrite <- Hh in Hm.
      destruct Hf as [Hf|Hf]; [destruct Hc; congruence|]. rewrite Hn, Nat2Z.id in Hf. congruence. }
    destruct C; split; cbn; try done.
    + destruct (q_wire0) as [k ->]. rewrite lookup_app_r, Nat.sub_diag in Hg by lia. destruct k as [|x k]; [done|]. injection Hg as ->.
      exists k. by rewrite <- app_assoc.
    + rewrite length_app. cbn. lia.
    + intros i f Hi. apply q_mem0. rewrite length_app in Hi. cbn in Hi. lia.
  - assert (forall s f, 0 <= s -> holds (v_mem v) (slot s) f -> holds m (slot s) f) as Hkeep.
    { intros s f Hs. apply (holds_out _ _ _ _ _ _ Hst). left. pose proof (slot_ge s Hs).
      pose proof (proj1 (list.Forall_forall _ _) (q_rx _ _ _ _ C) a (list_elem_of_lookup_2 _ _ _ Ha)). cbn in *. lia. }
    pose proof slots_pos. destruct C; split; cbn; try done.
    + intros i f Hi Hf. apply Hkeep; [by apply Z.mod_pos_bound|]. by apply q_mem0.
    + intros s Hs. apply Hkeep; [lia|]. by apply q_keep0.
    + by rewrite (length_store _ _ _ _ Hst).
Qed.

Lemma core_steps sent K U v v' : rtc (nstep c prefix host) v v' -> core sent K U v -> core sent K U v'.
Proof. intros Hr. induction Hr; [done|]. intros C. by eauto using core_step. Qed.

Lemma ap_steps v v' : rtc (nstep c prefix host) v v' -> v_ap v' = v_ap v.
Proof. intros Hr. induction Hr as [|v1 v2 v3 Hs _ IH]; [done|]. rewrite IH. by destruct Hs. Qed.

Lemma core_ap sent K U a v : core sent K U v -> core sent K U (v_set_ap a v).
Proof. intros []. by split. Qed.

Lemma core_take sent K U n v : v_taken v + n <= Z.of_nat (length (v_wire v)) -> core sent K U v -> core sent K (U + n) (v_take n v).
Proof. intros Hn []. split; try done. cbn. lia. Qed.

Lemma core_mono sent K U U' v : U' <= U -> core sent K U v -> core sent K U' v.
Proof. intros HU []. split; try done. lia. Qed.

Lemma core_weaken sent K K' U v : (forall s, 0 <= s < NT -> K' s `prefix_of` K s) -> core sent K U v -> core sent K' U v.
Proof. intros HK []. split; try done. intros s Hs. eapply holds_prefix; [by apply HK|]. by apply q_keep0. Qed.

(** Writing into a slot that no posted send still needs. *)
Lemma core_write sent K U v s off src b m' :
  core sent K U v -> 0 <= s < NT -> (forall i, (length (v_wire v) <= i < length sent)%nat -> Z.of_nat i mod NT <> s) ->
  0 <= off -> off + Z.of_nat (length src) <= BufSize c -> (length (K s) <= Z.to_nat (BufSize c))%nat ->
  (forall s', 0 <= s' < NT -> Z.of_nat (length (K s')) <= BufSize c) -> (forall f, f ∈ sent -> Z.of_nat (length f) <= BufSize c) ->
  store (Z.to_nat (slot s + off)) src (v_mem v) = Some m' -> holds m' (slot s) b ->
  core sent (fun s' => if decide (s' = s) then b else K s') U (v_set_mem m' v).
Proof.
  intros C Hs Hfree Ho Hl HKs HK Hsent Hst Hb.
  assert (forall s' f, 0 <= s' < NT -> s' <> s -> Z.of_nat (length f) <= BufSize c -> holds (v_mem v) (slot s') f -> holds m' (slot s') f) as Hkeep.
  { intros s' f Hs' Hne Hf. apply (holds_out _ _ _ _ _ _ Hst). pose proof (slot_ge s ltac:(lia)). pose proof (slot_ge s' ltac:(lia)).
    destruct (Z_lt_le_dec s' s); [right; pose proof (slot_sep s' s ltac:(lia))|left; pose proof (slot_sep s s' ltac:(lia))]; lia. }
  pose proof slots_pos. destruct C; split; cbn; try done.
  - intros i f Hi Hf. pose proof (lookup_lt_Some _ _ _ Hf). apply Hkeep; [by apply Z.mod_pos_bound|by apply Hfree| |by apply q_mem0].
    apply Hsent. by eapply list_elem_of_lookup_2.
  - intros s' Hs'. case_decide as He; [by rewrite He|]. apply Hkeep; [done|done|by apply HK|by apply q_keep0].
  - by rewrite (length_store _ _ _ _ Hst).
Qed.

Lemma core_post sent K U v a d :
  core sent K U v -> let n := Z.of_nat (length sent) in
  m_txDma Y !! Z.to_nat (n mod NT) = Some a -> t_addr d = a -> t_len d = Z.of_nat (length (K (n mod NT))) ->
  (t_copy d = Some (K (n mod NT)) \/ t_copy d = None) -> core (sent ++ [K (n mod NT)]) K U (v_post d v).
Proof.
  intros C n Ha Hd Hl Hc. pose proof slots_pos. assert (0 <= n mod NT < NT) as Hm by (by apply Z.mod_pos_bound).
  pose proof (q_len _ _ _ _ C) as Hlen. destruct C; split; cbn; try done.
  - by rewrite !length_app, q_len0.
  - intros i f Hf. apply lookup_app_Some in Hf as [Hf|[Hi Hf]].
    + destruct (q_desc0 _ _ Hf) as (d' & Hd' & Hr). exists d'. split; [|done]. by apply lookup_app_l_Some.
    + apply list_lookup_singleton_Some in Hf as [Hi0 <-]. assert (i = length sent) as -> by lia.
      exists d. split; [by rewrite lookup_app_r, Hlen, Nat.sub_diag by lia|]. split; [|done].
      destruct lay_ok as (_ & _ & Hh). rewrite Hd, (Hh _ _ Ha). f_equal. by rewrite Z2Nat.id by lia.
  - by apply prefix_app_r.
  - intros i f Hi Hf. apply lookup_app_Some in Hf as [Hf|[Hn Hf]]; [by apply q_mem0|].
    apply list_lookup_singleton_Some in Hf as [Hi0 <-]. assert (i = length sent) as -> by lia. by apply q_keep0.
Qed.

(** ** Completions *)

(** The members and the adapter: [T] sends are complete, the events still in [m_evs] may
    complete [k] more, at most [r] sends are outstanding. *)
Definition inv_at (r : Z) sent K (k : Z) w : Prop :=
  lay (fst w) = Y /\ m_txHead (tx (fst w)) = u32 (Z.of_nat (length sent)) /\
  exists T, 0 <= T /\ m_txTail (tx (fst w)) = u32 T /\ Z.of_nat (length sent) - T <= r /\ core sent K (T + k) (eview (snd w)).
Definition inv := inv_at NT.

Lemma inv_tail sent K k n (f : EfVi -> EfVi) o (l l' : L) :
  0 <= n -> lay (f o) = lay o -> m_txHead (tx (f o)) = m_txHead (tx o) -> m_txTail (tx (f o)) = u32 (m_txTail (tx o) + n) ->
  (forall T, core sent K (T + n + k) (eview l') \/ eview l' = eview l) ->
  inv sent K (n + k) (o, l) -> inv sent K k (f o, l').
Proof.
  intros Hn Hl Hh Ht He (HY & Hhd & T & HT & Htl & Hd & C). cbn [fst snd] in *. split; [cbn; congruence|]. split; [cbn; congruence|].
  exists (T + n). cbn [fst snd]. rewrite Ht, Htl, wrap_add_l. split; [lia|]. split; [done|]. split; [lia|].
  destruct (He T) as [|Heq]; [done|]. rewrite Heq. by replace (T + n + k) with (T + (n + k)) by lia.
Qed.

(** What does not touch the head, the tail or the layout. *)
Lemma inv_other sent K k (f : EfVi -> EfVi) o (l l' : L) :
  lay (f o) = lay o -> m_txHead (tx (f o)) = m_txHead (tx o) -> m_txTail (tx (f o)) = m_txTail (tx o) ->
  rtc (nstep c prefix host) (eview l) (eview l') -> inv sent K k (o, l) -> inv sent K k (f o, l').
Proof.
  intros Hl Hh Ht Hs (HY & Hhd & T & HT & Htl & Hd & C). split; [cbn in *; congruence|]. split; [cbn in *; congruence|].
  exists T. cbn [fst snd] in *. rewrite Ht. split_and!; try done. by eapply core_steps.
Qed.

Lemma on_stats_ok sent K k f : triple (inv sent K k) (on_stats f) (fun _ => inv sent K k).
Proof. apply triple_upd. intros o l. by apply (inv_other _ _ _ (fun o => set_stats (f (stats o)) o)). Qed.

Lemma on_stamps_ok sent K k f : triple (inv sent K k) (on_stamps f) (fun _ => inv sent K k).
Proof. apply triple_upd. intros o l. by apply (inv_other _ _ _ (fun o => set_stamps (f (stamps o)) o)). Qed.

Lemma tail_ok sent K k n g : 0 <= n -> (forall t, g t = u32 (t + n)) ->
  triple (inv sent K (n + k)) (on_tx (fun x => set_tail (g (m_txTail x)) x)) (fun _ => inv sent K k).
Proof. intros Hn Hg. apply triple_upd. intros o l. apply (inv_tail _ _ _ _ (fun o => set_tx (set_tail (g (m_txTail (tx o))) (tx o)) o)); try done; [by cbn|by right]. Qed.

(** A step [m] that keeps the invariant, before one that leads to [Q]. *)
Lemma inv_seq sent K k {A} (m : M W unit) (n : M W A) Q :
  triple (inv sent K k) m (fun _ => inv sent K k) -> triple (inv sent K k) n Q -> triple (inv sent K k) (m ;; n) Q.
Proof. intros Hm Hn. eapply triple_bind; [done|]. by intros []. Qed.

Lemma inv_ext sent K k o o' (l : L) :
  lay o' = lay o -> m_txHead (tx o') = m_txHead (tx o) -> m_txTail (tx o') = m_txTail (tx o) -> inv sent K k (o, l) -> inv sent K k (o', l).
Proof. intros ???. by apply (inv_other _ _ _ (fun _ => o')). Qed.

Lemma tail_next sent K k o (l : L) : inv sent K (1 + k) (o, l) -> inv sent K k (set_tx (set_tail (u32 (m_txTail (tx o) + 1)) (tx o)) o, l).
Proof. apply (inv_tail _ _ _ 1 (fun o => set_tx (set_tail (u32 (m_txTail (tx o) + 1)) (tx o)) o)); try done. by right. Qed.

Lemma one_complete sent K k (b : bool) :
  triple (inv sent K (1 + k)) (o ← gets fst; (if b then put_stamp c (m_txTail (tx o)) (m_txTail (tx o)) kTxStampNone else mret tt) ;;
    on_tx (set_tail (u32 (m_txTail (tx o) + 1)))) (fun _ => inv sent K k).
Proof.
  intros [o l] Hi. rewrite run_gets. cbn [fst].
  destruct b; (eexists tt, _; split; [done|]); eapply inv_ext; [..|by apply tail_next| | | |by apply tail_next]; done.
Qed.

Lemma stamped_complete sent K k (f : Z -> M W unit) (g : Stamps -> Stamps) (h : Stats -> Stats) :
  (forall t w, exists x, f t w = (Done tt, (set_stamps x (fst w), snd w))) ->
  triple (inv sent K (1 + k)) (o ← gets fst; f (m_txTail (tx o)) ;; on_tx (set_tail (u32 (m_txTail (tx o) + 1))) ;; on_stamps g ;; on_stats h)
    (fun _ => inv sent K k).
Proof.
  intros Hf [o l] Hi. rewrite run_gets. cbn [fst]. destruct (Hf (m_txTail (tx o)) (o, l)) as [x Ex]. rewrite (run_bind _ _ _ _ _ Ex).
  eexists tt, _. split; [done|]. eapply inv_ext; [..|by apply tail_next]; done.
Qed.

Lemma process_ok sent K k ev : triple (inv sent K (single ev + k)) (process c ev) (fun _ => inv sent K k).
Proof.
  destruct ev as [id len|raw ctpio|id nsec frac16 ctpio|id type|raw|raw| |]; cbn [process single]; rewrite ?Z.add_0_l.
  - apply on_stats_ok.
  - eapply (triple_bind _ _ (fun ids => inv sent K (Z.of_nat (length ids) + k))).
    { apply triple_lib. intros o l (HY & Hh & T & HT & Htl & Hd & C). cbn [fst snd] in *. pose proof (unbundle_law raw l) as Hl.
      destruct (ef_vi_transmit_unbundle raw l) as [ids l']. destruct Hl as (v & Hs1 & Ht & Hs2). split; [done|]. split; [done|]. exists T. cbn [fst snd].
      split_and!; try done. eapply core_steps; [done|]. replace (T + (Z.of_nat (length ids) + k)) with (T + k + Z.of_nat (length ids)) by lia.
      apply core_take; [done|]. by eapply core_steps. }
    intros ids. eapply (triple_bind _ _ (fun _ => inv sent K k)).
    { apply triple_if; intros _.
      - eapply (triple_conseq _ (inv sent K (Z.of_nat (length ids) + k)) _ _ (fun _ => inv sent K (Z.of_nat (length (@nil Z)) + k))); [done|done|].
        apply (triple_for_each ids _ (fun xs => inv sent K (Z.of_nat (length xs) + k))). intros x ys.
        replace (Z.of_nat (length (x :: ys)) + k) with (1 + (Z.of_nat (length ys) + k)) by (cbn; lia).
        exact (one_complete sent K (Z.of_nat (length ys) + k) true).
      - apply (tail_ok sent K k _ (fun t => u32 (t + u32 (Z.of_nat (length ids))))); [lia|]. intros t. apply wrap_add_r. }
    intros []. repeat (apply triple_if; intros _); apply on_stats_ok.
  - apply triple_if; intros _.
    + repeat case_match; apply (stamped_complete sent K k (fun t => put_stamp c _ t _)); intros t w; by eexists.
    + apply (triple_conseq _ (inv sent K k) _ _ (fun _ => inv sent K k)); [|done|apply on_stats_ok]. intros [o l] (HY & Hh & T & HT & Htl & Hd & C).
      split; [done|]. split; [done|]. exists T. split_and!; try done. eapply core_mono; [|done]. lia.
  - apply on_stats_ok.
  - eapply (triple_bind _ _ (fun _ => inv sent K k)); [|intros; apply on_stats_ok].
    apply triple_lib. intros o l. apply (inv_other _ _ _ id); try done. apply rx_unbundle_law.
  - eapply (triple_bind _ _ (fun _ => inv sent K k)).
    { apply triple_lib. intros o l. apply (inv_other _ _ _ id); try done. apply rx_unbundle_law. }
    intros ids. apply (triple_for_each ids _ (fun _ => inv sent K k)). intros. apply on_stats_ok.
  - apply inv_seq; [apply on_stats_ok|]. apply one_complete.
  - apply on_stats_ok.
Qed.

Definition live sent K w : Prop := inv sent K (singles (m_evs (fst w))) w.

Lemma set_evs_ok sent K evs : triple (inv sent K (singles evs)) (upd (set_evs evs)) (fun _ => live sent K).
Proof. apply triple_upd. intros o l Hi. by eapply inv_ext; [..|exact Hi]. Qed.

Lemma singles_pos es : 0 <= singles es.
Proof. induction es as [|e es IH]; [done|]. unfold singles in *. cbn [foldr]. destruct e; cbn [single]; lia. Qed.

Lemma drain_ok sent K : triple (live sent K) (drain c) (fun _ => live sent K).
Proof.
  apply triple_gets. intros w Hi. eapply (triple_bind _ _ (fun _ => inv sent K (singles []))).
  - apply (triple_conseq _ (inv sent K (singles (m_evs (fst w)))) _ _ (fun _ => inv sent K (singles []))); [by intros ? ->|done|].
    apply (triple_for_each _ _ (fun es => inv sent K (singles es))). intros ev es. apply process_ok.
  - intros []. apply set_evs_ok.
Qed.

Lemma poll_ok sent K : triple (live sent K) (pollEvent c false) (fun _ => live sent K).
Proof.
  unfold pollEvent. eapply triple_bind; [apply drain_ok|]. intros [].
  eapply (triple_bind _ _ (fun _ => live sent K)).
  { unfold evqHasEvent. eapply (triple_bind _ _ (fun _ => live sent K)); [|by intros; apply triple_ret].
    apply triple_lib. intros o l. apply (inv_other _ _ _ id); try done. apply word_law. }
  intros has. apply triple_if; intros _.
  { apply triple_gets. intros w Hi. rewrite andb_false_r. apply triple_ret. by intros ? ->. }
  eapply (triple_bind _ _ (fun evs => inv sent K (singles evs))).
  { apply triple_lib. intros o l (HY & Hh & T & HT & Htl & Hd & C). cbn [fst snd] in *. pose proof (poll_law kEvPollBatch l) as Hl.
    destruct (ef_eventq_poll kEvPollBatch l) as [evs l']. destruct Hl as (v & Hs1 & Ht & Hs2). cbn [fst snd].
    split; [done|]. split; [done|]. exists T. cbn [fst snd]. split_and!; try done. eapply core_steps; [done|]. apply core_take; [done|].
    eapply core_steps; [done|]. eapply core_mono; [|done]. pose proof (singles_pos (m_evs o)). lia. }
  intros evs. eapply triple_bind; [apply set_evs_ok|]. intros []. apply drain_ok.
Qed.

(** ** The contract *)

Definition short sent : Prop := forall f, f ∈ sent -> Z.of_nat (length f) <= BufSize c.

(** No slot is borrowed: every slot starts with [h]. *)
Definition idle (h : bytes) sent w : Prop := live sent (fun _ => h) w /\ short sent /\ Z.of_nat (length h) <= BufSize c.

(** The next slot is borrowed, no posted send still needs it, and it starts with [b]. *)
Definition lent (h : bytes) sent (p : Z) (b : bytes) w : Prop :=
  let s := Z.of_nat (length sent) mod NT in
  inv_at (NT - 1) sent (fun s' => if decide (s' = s) then b else h) (singles (m_evs (fst w))) w /\
  short sent /\ Z.of_nat (length h) <= BufSize c /\ Z.of_nat (length b) <= BufSize c /\
  p = slot s /\ m_txSlot (tx (fst w)) = s /\ m_txLen (tx (fst w)) = Z.of_nat (length b) /\ m_txPtr (tx (fst w)) = p.

(** What [init] leaves: nothing posted, the slots in the registered memory above the buffers
    the adapter may receive into. *)
Record fresh w : Prop := {
  f_lay : lay (fst w) = Y; f_head : m_txHead (tx (fst w)) = 0; f_tail : m_txTail (tx (fst w)) = 0; f_evs : m_evs (fst w) = [];
  f_posted : v_posted (eview (snd w)) = []; f_wire : v_wire (eview (snd w)) = []; f_taken : v_taken (eview (snd w)) = 0;
  f_size : slot NT <= Z.of_nat (length (v_mem (eview (snd w))));
  f_rx : Forall (fun a => 0 <= host a /\ host a + BufSize c <= slot 0) (v_init (eview (snd w))) }.

Lemma fresh_live w : fresh w -> live [] (fun _ => []) w.
Proof.
  intros []. unfold live. rewrite f_evs0. split; [done|]. split; [done|]. pose proof slots_pos. exists 0. split; [done|]. split; [done|]. split; [cbn; lia|].
  split; try done.
  - by rewrite f_posted0.
  - by rewrite f_wire0.
  - rewrite f_taken0, f_wire0. cbn. lia.
  - intros s Hs. unfold holds, load. pose proof (slot_sep s NT ltac:(lia)). rewrite decide_True by (cbn; lia). done.
Qed.

Lemma room_free r sent K k w : r < NT -> 0 <= k -> inv_at r sent K k w ->
  forall i, (length (v_wire (eview (snd w))) <= i < length sent)%nat -> Z.of_nat i mod NT <> Z.of_nat (length sent) mod NT.
Proof.
  intros Hr Hk (_ & _ & T & _ & _ & Hd & C) i Hi He. pose proof (q_taken _ _ _ _ C). apply mod_window_inj in He; [lia|apply slots_pos|lia].
Qed.

(** [m_txHead - m_txTail] counts the outstanding sends. *)
Lemma full_spec sent K k w : inv sent K k w -> 0 <= k -> if full c (fst w) then True else inv_at (NT - 1) sent K k w.
Proof.
  intros (HY & Hh & T & HT & Htl & Hd & C) Hk. unfold full. rewrite Hh, Htl, wrap_sub_l, wrap_sub_r.
  pose proof (q_taken _ _ _ _ C). pose proof (prefix_length _ _ (q_wire _ _ _ _ C)).
  rewrite wrap_small by (unfold in_u; change (2 ^ 32) with 4294967296; change (2 ^ 16) with 65536 in NTmax; lia).
  destruct (Z.leb_spec NT (Z.of_nat (length sent) - T)); [done|]. split; [done|]. split; [done|]. exists T. split_and!; try done. lia.
Qed.

Lemma lend_run h sent n o (l : L) :
  inv_at (NT - 1) sent (fun _ => h) (singles (m_evs o)) (o, l) -> short sent -> Z.of_nat (length h) <= n <= BufSize c ->
  exists b w', lend_slot c n (o, l) = (Done (Some (slot (Z.of_nat (length sent) mod NT))), w') /\ Z.of_nat (length b) = n /\ h `prefix_of` b /\
    lent h sent (slot (Z.of_nat (length sent) mod NT)) b w'.
Proof.
  intros (HY & Hh & T & HT & Htl & Hd & C) Hs Hn. cbn [fst snd] in *. unfold lend_slot. rewrite run_gets. cbn [fst].
  assert (Z.land (m_txHead (tx o)) (NT - 1) = Z.of_nat (length sent) mod NT) as -> by (rewrite Hh; apply mask_wrap; [done|lia|done]).
  set (s := Z.of_nat (length sent) mod NT). assert (0 <= s < NT) as Hsr by (apply Z.mod_pos_bound, slots_pos).
  unfold txSlot, kTxHdrBytes. rewrite HY, generic. change ((m_txBase Y + s) * BufSize c) with (slot s). rewrite Z.add_0_r.
  set (b := slice (Z.to_nat (slot s)) (Z.to_nat n) (v_mem (eview l))).
  pose proof (slot_ge s ltac:(lia)). pose proof (slot_sep s NT ltac:(lia)). pose proof (q_size _ _ _ _ C).
  assert (length b = Z.to_nat n) as Hb by (apply length_slice; lia).
  assert (holds (v_mem (eview l)) (slot s) b) as Hbm by (apply holds_slice; lia).
  assert (h `prefix_of` b) as Hhb.
  { pose proof (q_keep _ _ _ _ C s Hsr) as Hk. unfold holds, load in Hk. case_decide; [|done]. injection Hk as Hk. rewrite <- Hk. unfold b, slice.
    exists (drop (length h) (take (Z.to_nat n) (drop (Z.to_nat (slot s)) (v_mem (eview l))))). rewrite <- (take_drop (length h) (take (Z.to_nat n) _)) at 1. f_equal.
    rewrite take_take. f_equal. lia. }
  exists b. eexists. split; [done|]. split; [lia|]. split; [done|]. split_and!; cbn; try done; try lia.
  split; [done|]. split; [done|]. exists T. cbn. split_and!; try done. destruct C; split; try done.
  intros s' Hs'. case_decide as He; [by rewrite He|by apply q_keep0].
Qed.

Lemma efvi_acquire_run h sent n w :
  idle h sent w -> Z.of_nat (length h) <= n <= BufSize c ->
  match acquire c n w with
  | (Done None, w') => idle h sent w'
  | (Done (Some p), w') => exists b, Z.of_nat (length b) = n /\ h `prefix_of` b /\ lent h sent p b w'
  | _ => False
  end.
Proof.
  intros (Hl & Hs & Hh) Hn. unfold acquire. rewrite generic, (proj2 (Z.ltb_ge _ _)), run_gets by lia.
  assert (forall w1, live sent (fun _ => h) w1 -> if full c (fst w1) then True else
    match lend_slot c n w1 with (Done (Some p), w') => exists b, Z.of_nat (length b) = n /\ h `prefix_of` b /\ lent h sent p b w' | _ => False end) as Hlend.
  { intros [o l] Hi. pose proof (full_spec _ _ _ _ Hi (singles_pos _)) as Hf. destruct (full c _); [done|].
    destruct (lend_run h sent n o l Hf Hs Hn) as (b & w' & -> & Hb & Hp & Hlent). by exists b. }
  pose proof (Hlend w Hl) as Hw. destruct (full c (fst w)).
  - destruct (poll_ok sent _ w Hl) as ([] & w1 & E & Hl1). rewrite (run_bind _ _ _ _ _ E), run_gets. clear Hw.
    pose proof (Hlend w1 Hl1) as Hw. destruct (full c (fst w1)); [by split|].
    destruct (lend_slot c n w1) as [[[p|]| | | |] w2]; done.
  - destruct (lend_slot c n w) as [[[p|]| | | |] w1]; done.
Qed.

Lemma run_wr off src m' w : store (Z.to_nat off) src (v_mem (eview (snd w))) = Some m' -> wr off src w = (Done tt, (fst w, set_mem m' (snd w))).
Proof. intros Hs. unfold wr. rewrite run_gets, mem_law, Hs. done. Qed.

Lemma inv_mem r sent K K' k m' w :
  (forall U, core sent K U (eview (snd w)) -> core sent K' U (v_set_mem m' (eview (snd w)))) -> inv_at r sent K k w -> inv_at r sent K' k (fst w, set_mem m' (snd w)).
Proof.
  intros Hc (HY & Hh & T & HT & Htl & Hd & C). split; [done|]. split; [done|]. exists T. cbn [fst snd]. rewrite set_mem_law. split_and!; try done. by apply Hc.
Qed.

Lemma core_ext sent K K' U v : (forall s, 0 <= s < NT -> K' s = K s) -> core sent K U v -> core sent K' U v.
Proof. intros HK. apply core_weaken. intros s Hs. by rewrite HK. Qed.

Lemma efvi_write_run h sent p b b' off src w :
  lent h sent p b w -> store off src b = Some b' ->
  exists w', wr (p + Z.of_nat off) src w = (Done tt, w') /\ lent h sent p b' w'.
Proof.
  intros (Hi & Hs & Hh & Hb & -> & Hsl & Hln & Hp) Hst. set (s := Z.of_nat (length sent) mod NT) in *.
  assert (0 <= s < NT) as Hsr by (apply Z.mod_pos_bound, slots_pos). pose proof (slot_ge s ltac:(lia)) as Hge.
  pose proof (room_free (NT - 1) _ _ _ w ltac:(lia) (singles_pos _) Hi) as Hfree.
  assert (holds (v_mem (eview (snd w))) (slot s) b) as Hk.
  { destruct Hi as (_ & _ & T & _ & _ & _ & C). pose proof (q_keep _ _ _ _ C s Hsr) as Hk. cbv beta in Hk. by rewrite decide_True in Hk. }
  destruct (holds_write _ (slot s) b off src b' ltac:(lia) Hk Hst) as (m' & Hm & Hb').
  exists (fst w, set_mem m' (snd w)). split; [by apply run_wr|]. pose proof (length_store _ _ _ _ Hst) as Hlen.
  assert (off + length src <= length b)%nat as Hfit by (unfold store in Hst; by case_decide).
  split_and!; try done; [|lia|cbn; lia]. cbn [fst]. fold s. eapply inv_mem; [|exact Hi]. intros U C.
  eapply (core_ext _ (fun s' => if decide (s' = s) then b' else (fun s'' => if decide (s'' = s) then b else h) s')).
  { intros s' _. by case_decide. }
  eapply (core_write _ _ _ _ s (Z.of_nat off) src); try done; try lia.
  - rewrite decide_True by done. lia.
  - intros s' _. case_decide; lia.
Qed.

Lemma efvi_prefill_run t w : fresh w -> Z.of_nat (length t) <= BufSize c ->
  exists w', prefillRing c t w = (Done tt, w') /\ idle t [] w'.
Proof.
  intros Hf Ht. pose proof (fresh_live w Hf) as Hl. pose proof slots_pos. unfold prefillRing.
  unfold kTxHdrBytes. rewrite generic, Z.sub_0_r, Z.min_l, Nat2Z.id, firstn_all by done.
  assert (triple (fun w => live [] (fun s => if decide (s < 0) then t else []) w)
    (for_loop (Z.to_nat NT) 0 (fun s => o ← gets fst; wr (txFrame c o s) t)) (fun _ w => live [] (fun s => if decide (s < 0 + Z.of_nat (Z.to_nat NT)) then t else []) w)) as Hloop.
  { apply (triple_for_loop _ _ _ (fun i => live [] (fun s => if decide (s < i) then t else []))). intros j Hj [o l] Hi. rewrite run_gets. cbn [fst].
    assert (lay o = Y) as HY by (by destruct Hi). unfold txFrame, txSlot, kTxHdrBytes. rewrite generic, HY, Z.add_0_r. change ((m_txBase Y + j) * BufSize c) with (slot j).
    pose proof (slot_ge j ltac:(lia)). pose proof (slot_sep j NT ltac:(lia)).
    assert (slot NT <= Z.of_nat (length (v_mem (eview l)))) as Hsz by (destruct Hi as (_ & _ & T & _ & _ & _ & C); by destruct C).
    assert (store (Z.to_nat (slot j)) t (v_mem (eview l)) = Some (list_inserts (Z.to_nat (slot j)) t (v_mem (eview l)))) as Hst by (apply store_Some; lia).
    exists tt. eexists. split; [by apply run_wr|]. cbn [fst snd]. eapply (inv_mem NT [] _ _ _ _ (o, l)); [|exact Hi]. cbn [fst snd]. intros U C.
    eapply (core_ext _ (fun s' => if decide (s' = j) then t else (fun s'' => if decide (s'' < j) then t else []) s')).
    { intros s' _. repeat case_decide; try done; lia. }
    eapply (core_write _ _ _ _ j 0 t); try done; try lia.
    - intros i Hi'. cbn in Hi'. lia.
    - cbn. case_decide; cbn; lia.
    - intros s' _. case_decide; cbn; lia.
    - intros f Hf0. by apply elem_of_nil in Hf0.
    - by rewrite Z.add_0_r.
    - unfold holds, load. rewrite length_inserts, decide_True, slice_inserts_eq by lia. done. }
  destruct (Hloop w) as ([] & w' & E & Hl').
  { destruct Hl as (HY & Hh & T & HT & Htl & Hd & C). split; [done|]. split; [done|]. exists T. split_and!; try done. eapply core_ext; [|done]. intros s Hs. cbn. by rewrite decide_False by lia. }
  exists w'. split; [done|]. split; [|split; [|done]].
  - destruct Hl' as (HY & Hh & T & HT & Htl & Hd & C). split; [done|]. split; [done|]. exists T. split_and!; try done. eapply core_ext; [|done]. intros s Hs. cbn. by rewrite decide_True by lia.
  - intros f Hf0. by apply elem_of_nil in Hf0.
Qed.

Context (enough : fuel <> O).

Lemma run_lib {A B} (f : L -> A * L) (k : A -> M W B) o l a l' : f l = (a, l') -> (lib f ≫= k) (o, l) = k a (o, l').
Proof. intros He. unfold lib, mbind, M_bind. cbn. by rewrite He. Qed.

(** One post: with room in the ring the library takes the descriptor at once. *)
Lemma efvi_post_run post sent h p b o (l l1 : L) cp m dma :
  (let '(rc, l') := post l1 in
    (rc = 0 /\ rtc (nstep c prefix host) (v_post (mk_txd dma (m_txLen (tx o)) m cp) (eview l1)) (eview l')) \/
    (rc = - EAGAIN /\ capacity <= Z.of_nat (length (v_posted (eview l1))) - v_taken (eview l1) /\ rtc (nstep c prefix host) (eview l1) (eview l'))) ->
  (forall U K, core sent K U (eview l) -> core sent K U (eview l1)) -> (cp = Some b \/ cp = None) ->
  m_txDma Y !! Z.to_nat (Z.of_nat (length sent) mod NT) = Some dma -> h `prefix_of` b -> lent h sent p b (o, l) ->
  exists l', post_loop c fuel post (o, l1) = (Done true, (o, l')) /\ idle h (sent ++ [b]) (set_tx (set_head (u32 (m_txHead (tx o) + 1)) (tx o)) o, l').
Proof.
  intros Hpost Hcore Hcp Hdma Hhb ((HY & Hhd & T & HT & Htl & Hd & C0) & Hs & Hh & Hb & -> & Hsl & Hln & Hp). cbn [fst snd] in *.
  apply Hcore in C0 as C. set (s := Z.of_nat (length sent) mod NT) in *. set (K := fun s' => if decide (s' = s) then b else h) in *.
  assert (K s = b) as HKs by (unfold K; by rewrite decide_True). pose proof (singles_pos (m_evs o)).
  destruct fuel as [|n]; [done|]. cbn [post_loop]. destruct (post l1) as [rc l'] eqn:Epost.
  destruct Hpost as [[-> Hst]|(-> & Hfull & _)].
  2: { pose proof (q_len _ _ _ _ C) as Hq. pose proof (q_taken _ _ _ _ C). rewrite Hq in Hfull. lia. }
  exists l'. split; [by rewrite (run_lib _ _ _ _ _ _ Epost)|].
  assert (core (sent ++ [b]) (fun _ => h) (T + singles (m_evs o)) (eview l')) as C'.
  { eapply core_steps; [exact Hst|]. apply (core_weaken _ K).
    { intros s' _. unfold K. by case_decide. }
    pose proof (core_post sent K _ _ dma (mk_txd dma (m_txLen (tx o)) m cp) C Hdma eq_refl) as Cp. fold s in Cp. rewrite HKs in Cp. by apply Cp. }
  split; [|split; [|done]].
  - split; [done|]. split; [cbn; rewrite Hhd, wrap_add_l, length_app; cbn; f_equal; lia|]. exists T. cbn [fst snd tx set_tx set_head m_txTail m_evs]. split_and!; try done.
    rewrite length_app. cbn. lia.
  - intros f [Hf| ->%list_elem_of_singleton]%elem_of_app; [by apply Hs|done].
Qed.

Lemma efvi_commit_run h sent p b w : lent h sent p b w -> h `prefix_of` b ->
  exists w', commit c fuel w = (Done tt, w') /\ idle h (sent ++ [b]) w'.
Proof.
  intros Hlent Hhb. destruct w as [o l]. pose proof Hlent as ((HY & Hhd & T & HT & Htl & Hd & C) & Hs & Hh & Hb & Hpp & Hsl & Hln & Hp). cbn [fst snd] in *.
  set (s := Z.of_nat (length sent) mod NT) in *. assert (0 <= s < NT) as Hsr by (apply Z.mod_pos_bound, slots_pos).
  destruct (lookup_lt_is_Some_2 (m_txDma Y) (Z.to_nat s)) as [dma Hdma]; [destruct lay_ok as (_ & Hl & _); lia|].
  assert (load (Z.to_nat p) (Z.to_nat (m_txLen (tx o))) (mem l) = Some b) as Hload.
  { pose proof (q_keep _ _ _ _ C s Hsr) as Hk. cbv beta in Hk. rewrite decide_True in Hk by done. rewrite Hpp, Hln, Nat2Z.id, mem_law. exact Hk. }
  unfold commit. rewrite run_gets. cbn [fst]. rewrite generic, HY, Hsl. unfold at_index. rewrite Hdma, bind_assoc, bind_ret_l.
  destruct (UseCtpio c).
  - unfold rd. rewrite Hp, !bind_assoc, run_gets. cbn [snd]. rewrite Hload, bind_ret_l. rewrite bind_assoc. unfold act. rewrite run_modify. cbn [fst snd].
    set (l1 := ef_vi_transmit_ctpio b (CtThreshold c) l). pose proof (ctpio_law b (CtThreshold c) l) as Hct. fold l1 in Hct.
    destruct (efvi_post_run (ef_vi_transmit_ctpio_fallback dma (m_txLen (tx o)) s) sent h p b o l l1 (v_ap (eview l1)) s dma) as (l' & E & Hid); try done.
    + pose proof (fallback_law dma (m_txLen (tx o)) s l1) as Hf. exact Hf.
    + intros U K HC. eapply core_steps; [exact Hct|]. by apply core_ap.
    + left. by rewrite (ap_steps _ _ Hct).
    + rewrite (run_bind _ _ _ _ _ E). eexists. split; [done|]. exact Hid.
  - destruct (efvi_post_run (ef_vi_transmit dma (m_txLen (tx o)) s) sent h p b o l l None s dma) as (l' & E & Hid); try done.
    + exact (transmit_law dma (m_txLen (tx o)) s l).
    + by right.
    + rewrite (run_bind _ _ _ _ _ E). eexists. split; [done|]. exact Hid.
Qed.

#[export] Program Instance EfVi_TxContract : @TxContract W (EfVi_TxRing c fuel) := {|
  tx_fresh := fresh; tx_idle := idle; tx_lent := lent; tx_room := BufSize c |}.
Next Obligation.
  intros h h' sent w ((HY & Hhd & T & HT & Htl & Hd & C) & Hs & Hh) Hp. split; [|split; [done|apply prefix_length in Hp; lia]].
  split; [done|]. split; [done|]. exists T. split_and!; try done. eapply core_weaken; [|exact C]. by intros.
Qed.
Next Obligation. exact efvi_prefill_run. Qed.
Next Obligation. exact efvi_acquire_run. Qed.
Next Obligation. intros. by eapply efvi_write_run. Qed.
Next Obligation. intros h sent p b w Hl Hh. cbn. by destruct (efvi_commit_run h sent p b w Hl Hh) as (w' & -> & Hid). Qed.

#[export] Instance EfVi_SendsByCopy : @SendsByCopy W (EfVi_TxRing c fuel) EfVi_TxContract.
Proof. constructor. done. Qed.

Lemma commit_ends sent p b w : lent [] sent p b w -> fst (commit c fuel w) <> NoFuel.
Proof. intros Hl. by destruct (efvi_commit_run [] sent p b w Hl (prefix_nil _)) as (w' & -> & _). Qed.

(** The adapter can put what is posted on the wire, and nothing else. *)
Lemma wire_out h sent w : idle h sent w ->
  (forall v, rtc (nstep c prefix host) (eview (snd w)) v -> v_wire v `prefix_of` sent) /\
  exists v, rtc (nstep c prefix host) (eview (snd w)) v /\ v_wire v = sent.
Proof.
  intros ((_ & _ & T & _ & _ & _ & C) & _ & _). split.
  { intros v Hr. pose proof (core_steps _ _ _ _ _ Hr C) as Cv. exact (q_wire _ _ _ _ Cv). }
  remember (length sent - length (v_wire (eview (snd w))))%nat as d eqn:Ed. remember (eview (snd w)) as v eqn:Ev. clear Ev.
  revert v C Ed; induction d as [|d IH]; intros v C Ed.
  - exists v. split; [done|]. pose proof (q_wire _ _ _ _ C) as [k Hk]. rewrite Hk, length_app in Ed. destruct k; [by rewrite app_nil_r in Hk|cbn in Ed; lia].
  - destruct (lookup_lt_is_Some_2 sent (length (v_wire v)) ltac:(lia)) as [f Hf]. destruct (q_desc _ _ _ _ C _ _ Hf) as (e & He & Hh & Hn & Hc).
    assert (nstep c prefix host v (v_send f v)) as Hst.
    { eapply n_send; [exact He|]. right. rewrite Hh, Hn, Nat2Z.id. exact (q_mem _ _ _ _ C _ _ (le_n _) Hf). }
    destruct (IH (v_send f v)) as (v' & Hr & Hw); [by eapply core_step|cbn; rewrite length_app; cbn; lia|].
    exists v'. split; [by eapply rtc_l|done].
Qed.
End Contract.

End Tx.

(** ** A simulated adapter

    It sends when it is polled and receives while the program waits. *)
Module Sim.
(** [s_view] but for the wire and the count of completions: its wire is what has been
    reported, [s_new] what has not; [s_in] is what the link will bring, prefix included. *)
Record sim := mk_sim { s_view : view; s_new : list bytes; s_in : list bytes }.

Definition sview (s : sim) : view :=
  let v := s_view s in mk_view (v_mem v) (v_posted v) (v_wire v ++ s_new s) (Z.of_nat (length (v_wire v))) (v_ap v) (v_init v) (v_pushed v) (v_got v).
Definition on_view (f : view -> view) (s : sim) : sim := mk_sim (f (s_view s)) (s_new s) (s_in s).

Section Lib.
Context (c : config) (prefix capacity : Z) (host : Z -> Z).

Definition out_next (v : view) : option bytes :=
  d ← v_posted v !! length (v_wire v);
  match t_copy d with Some f => Some f | None => load (Z.to_nat (host (t_addr d))) (Z.to_nat (t_len d)) (v_mem v) end.
Fixpoint flush (n : nat) (s : sim) : sim :=
  match n with
  | O => s
  | S n => match out_next (sview s) with Some f => flush n (mk_sim (s_view s) (s_new s ++ [f]) (s_in s)) | None => s end
  end.
Definition post (d : txd) (s : sim) : Z * sim :=
  let v := sview s in
  if Z.of_nat (length (v_posted v)) - v_taken v <? capacity then (0, on_view (v_post d) s) else (- EAGAIN, s).
Definition report (k : nat) (s : sim) : sim :=
  let v := s_view s in
  mk_sim (mk_view (v_mem v) (v_posted v) (v_wire v ++ take k (s_new s)) 0 (v_ap v) (v_init v) (v_pushed v) (v_got v)) (drop k (s_new s)) (s_in s).
Definition poll (n : Z) (s : sim) : list ef_event * sim :=
  let s1 := flush (length (v_posted (s_view s))) s in
  let k := Nat.min (Z.to_nat n) (length (s_new s1)) in
  (replicate k (EvTxWithTimestamp 0 0 0 true), report k s1).
Definition word (s : sim) : Z * sim :=
  (if Z.of_nat (length (v_wire (s_view s))) <? Z.of_nat (length (v_posted (s_view s))) then 0 else 18446744073709551615, s).

Definition arrival (v : view) (data : bytes) : option view :=
  a ← v_init v !! length (v_got v);
  if decide (Z.of_nat (length (v_got v)) < v_pushed v /\ is_bytes data /\ prefix + 14 <= Z.of_nat (length data) <= BufSize c /\
    le_decode (slice (Z.to_nat (prefix + 12)) 2 data) <> 0)
  then m ← store (Z.to_nat (host a)) data (v_mem v);
       Some (v_deliver m (slice (Z.to_nat (host a + prefix)) (Z.to_nat (BufSize c - prefix)) m) v)
  else None.
Definition receive (s : sim) : sim :=
  match s_in s with
  | [] => s
  | data :: rest => match arrival (s_view s) data with Some v => mk_sim v (s_new s) rest | None => s end
  end.

#[export] Instance sim_lib : EfViLib sim := {|
  mem s := v_mem (s_view s); set_mem m := on_view (v_set_mem m); elapse := receive;
  ef_vi_transmit_ctpio f _ := on_view (v_set_ap (Some f));
  ef_vi_transmit_ctpio_fallback a n id s := post (mk_txd a n id (v_ap (s_view s))) s;
  ef_vi_transmit a n id := post (mk_txd a n id None);
  ef_vi_transmit_unbundle _ s := ([], s); ef_vi_receive_unbundle _ s := ([], s);
  ef_vi_receive_init a _ := on_view (v_prepare a); ef_vi_receive_push := on_view v_push;
  ef_eventq_poll := poll; evq_word := word;
  ctpio_store _ _ s := s; txq_mask _ := 0; txq_added _ := 0; set_txq_added _ s := s; txq_descriptor _ _ s := s; txq_id _ _ s := s; doorbell_store _ _ s := s |}.

Lemma flush_steps n s : rtc (nstep c prefix host) (sview s) (sview (flush n s)).
Proof.
  revert s; induction n as [|n IH]; intros s; cbn [flush]; [done|]. destruct (out_next (sview s)) as [f|] eqn:Ef; [|done].
  eapply rtc_l; [|apply IH]. assert (sview (mk_sim (s_view s) (s_new s ++ [f]) (s_in s)) = v_send f (sview s)) as ->.
  { unfold sview, v_send. cbn. by rewrite app_assoc. }
  unfold out_next in Ef. destruct (v_posted (sview s) !! _) as [d|] eqn:Ed; [|done]. cbn in Ef.
  eapply n_send; [exact Ed|]. destruct (t_copy d); [by left|by right].
Qed.

Lemma report_view k s : (k <= length (s_new s))%nat -> sview (report k s) = v_take (Z.of_nat k) (sview s).
Proof.
  intros Hk. unfold sview, report, v_take. cbn. rewrite <- app_assoc, take_drop, length_app, length_take. f_equal. lia.
Qed.

Lemma singles_replicate k : singles (replicate k (EvTxWithTimestamp 0 0 0 true)) = Z.of_nat k.
Proof. induction k; [done|]. unfold singles in *. cbn [replicate foldr single]. lia. Qed.

Lemma receive_steps s : rtc (nstep c prefix host) (sview s) (sview (receive s)).
Proof.
  unfold receive. destruct (s_in s) as [|data rest]; [done|]. destruct (arrival (s_view s) data) as [v|] eqn:Ea; [|done].
  unfold arrival in Ea. destruct (v_init (s_view s) !! _) as [a|] eqn:Ei; [|done]. cbn in Ea. case_decide as Hc; [|done].
  destruct (store _ data _) as [m|] eqn:Es; [|done]. injection Ea as <-. apply rtc_once.
  destruct Hc as (H1 & H2 & H3 & H4). exact (n_recv c prefix host (sview s) a data m H1 Ei H2 H3 H4 Es).
Qed.

#[export] Program Instance sim_laws : EfViLaws c prefix capacity host sim := {| eview := sview |}.
Next Obligation. done. Qed.
Next Obligation. done. Qed.
Next Obligation. exact receive_steps. Qed.
Next Obligation. intros f t l. done. Qed.
Next Obligation.
  intros a n id l. cbn. unfold post. destruct (_ <? capacity) eqn:E; [by left|right]. split; [done|]. split; [|done]. by apply Z.ltb_ge.
Qed.
Next Obligation.
  intros a n id l. cbn. unfold post. destruct (_ <? capacity) eqn:E; [by left|right]. split; [done|]. split; [|done]. by apply Z.ltb_ge.
Qed.
Next Obligation.
  intros raw l. cbn. exists (sview l). split; [done|]. split; [cbn; rewrite length_app; lia|]. unfold v_take. cbn. by rewrite Z.add_0_r.
Qed.
Next Obligation.
  intros n l. cbn. set (s1 := flush _ l). exists (sview s1). split; [apply flush_steps|]. rewrite singles_replicate. split.
  - cbn. rewrite length_app. lia.
  - rewrite report_view by lia. done.
Qed.
Next Obligation. done. Qed.
Next Obligation. done. Qed.
Next Obligation. done. Qed.
Next Obligation. done. Qed.
End Lib.
End Sim.

(** Three frames over a ring of two slots. *)
Definition ex_config : config := mk_config RxTx 8 2 64 64 true true false.
Definition ex_layout : Layout := mk_layout 14 9 [0; 64; 128; 192; 256; 320; 384; 448] [576; 640] [] 0.
Definition ex_efvi : EfVi := mk_efvi ex_layout (mk_tx 0 0 0 0 0 0) (mk_rx 0 0 0 0 0 0) (mk_stamps [0; 0] 0 0 0) (mk_stats 0 0 [0; 0] 0 0 0 0 0 0) [].
Definition ex_sim (arrivals : list bytes) : Sim.sim :=
  Sim.mk_sim (mk_view (replicate (Z.to_nat 768) 0) [] [] 0 None (m_rxDma ex_layout) 8 []) [] arrivals.

#[local] Instance ex_lib : EfViLib Sim.sim := Sim.sim_lib ex_config 14 4 id.
#[local] Instance ex_laws : EfViLaws ex_config 14 4 id Sim.sim := Sim.sim_laws ex_config 14 4 id.


Example efvi_tx_run :
  fst ((prefillRing ex_config [1; 2] ;; @tx_send_all _ (EfVi_TxRing ex_config 1) [[1; 2; 3]; [1; 2]; [4]]) (ex_efvi, ex_sim [])) = Done [true; true; true].
Proof. vm_compute. reflexivity. Qed.
