(* ===== verification/EfViPlus.v ===== *)
(** * ef_vi: the hand-rolled commit of the X2522Plus tuning

    [commit] writes the CTPIO aperture, the transmit descriptor and the doorbell itself, in
    place of the library.  Here is exactly what it leaves in them. *)

From S2P Require Import Prelude EfVi.

(** The registered memory, the aperture, the descriptor ring of the virtual interface with
    its request ids, and the stores to the doorbell. *)
Record pview := mk_pview {
  p_mem : bytes; p_ap : bytes; p_descs : list Z; p_ids : list Z; p_added : Z; p_mask : Z; p_bells : list (Z * Z) }.

Definition p_store (off : Z) (b : bytes) (p : pview) :=
  mk_pview (p_mem p) (list_inserts (Z.to_nat off) b (p_ap p)) (p_descs p) (p_ids p) (p_added p) (p_mask p) (p_bells p).
Definition p_desc (i d : Z) (p : pview) :=
  mk_pview (p_mem p) (p_ap p) (<[Z.to_nat i := d]> (p_descs p)) (p_ids p) (p_added p) (p_mask p) (p_bells p).
Definition p_id (i d : Z) (p : pview) :=
  mk_pview (p_mem p) (p_ap p) (p_descs p) (<[Z.to_nat i := d]> (p_ids p)) (p_added p) (p_mask p) (p_bells p).
Definition p_add (n : Z) (p : pview) := mk_pview (p_mem p) (p_ap p) (p_descs p) (p_ids p) n (p_mask p) (p_bells p).
Definition p_bell (d t : Z) (p : pview) := mk_pview (p_mem p) (p_ap p) (p_descs p) (p_ids p) (p_added p) (p_mask p) (p_bells p ++ [(d, t)]).

(** These are plain stores to memory and to memory-mapped windows. *)
Class PlusLaws (L : Type) `{EfViLib L} := {
  plook : L -> pview;
  plus_mem l : mem l = p_mem (plook l);
  plus_mask l : txq_mask l = p_mask (plook l);
  plus_added l : txq_added l = p_added (plook l);
  plus_store off b l : plook (ctpio_store off b l) = p_store off b (plook l);
  plus_desc i d l : plook (txq_descriptor i d l) = p_desc i d (plook l);
  plus_id i d l : plook (txq_id i d l) = p_id i d (plook l);
  plus_add n l : plook (set_txq_added n l) = p_add n (plook l);
  plus_bell d t l : plook (doorbell_store d t l) = p_bell d t (plook l);
}.

(** ** The header word *)

Lemma lor_add a b n : 0 <= n -> (2 ^ n | a) -> 0 <= b < 2 ^ n -> Z.lor a b = a + b.
Proof.
  intros Hn [q ->] Hb. symmetry. rewrite Z.add_nocarry_lxor, Z.lxor_lor; [done|..].
  all: apply Z.bits_inj'; intros i Hi; rewrite Z.land_spec, Z.bits_0; destruct (Z_lt_le_dec i n);
    [by rewrite Z.mul_pow2_bits_low by lia|].
  all: rewrite (proj1 (Z.bounded_iff_bits_nonneg n b ltac:(lia) ltac:(lia)) ltac:(lia) i) by lia; apply andb_false_r.
Qed.

Lemma header_word c len : 0 <= CtThreshold c < 2 ^ 12 -> 0 <= len < 2 ^ 12 ->
  Z.lor (kCtpioHdrBase c) len = CtThreshold c * 2 ^ 16 + 2 ^ 12 + len.
Proof.
  intros Ht Hl. unfold kCtpioHdrBase, kCtpioUserThresholdLbn, kCtpioTimeStampReqLbn. rewrite !Z.shiftl_mul_pow2 by lia.
  rewrite wrap_small by (unfold in_u; change (2 ^ 32) with 4294967296; change (2 ^ 12) with 4096 in *; change (2 ^ 16) with 65536; lia).
  rewrite (lor_add (CtThreshold c * 2 ^ 16) (1 * 2 ^ 12) 16); [|lia|by eexists|by split].
  rewrite (lor_add _ len 12); [lia|lia| |done]. exists (CtThreshold c * 2 ^ 4 + 1). change (2 ^ 16) with (2 ^ 4 * 2 ^ 12). lia.
Qed.

Section Commit.
Context {L : Type} {EL : EfViLib L} {PL : PlusLaws L} (c : config) (fuel : nat).
Abbreviation W := (EfVi * L)%type.
Context (o : EfVi) (p0 : pview) (plus : kX2522Plus c = true).

(** The bytes of [n] lines of 64 bytes: the header, then the slot from its fifth byte. *)
Definition lines (hdr : Z) (n : nat) : bytes := le_encode 4 hdr ++ drop 4 (slice (Z.to_nat (m_txSlotBase (tx o))) (64 * n) (p_mem p0)).

(** [j] stores of 16 bytes are done. *)
Definition written (E : bytes) (j : Z) (w : W) : Prop :=
  fst w = o /\ plook (snd w) = p_store 0 (take (16 * Z.to_nat j) E) p0.

Lemma store_next E j p : (16 * (j + 1) <= length E)%nat -> (length E <= length (p_ap p))%nat ->
  p_store (16 * Z.of_nat j) (slice (16 * j) 16 E) (p_store 0 (take (16 * j) E) p) = p_store 0 (take (16 * (j + 1)) E) p.
Proof.
  intros Hj Hl. unfold p_store. cbn [p_mem p_ap p_descs p_ids p_added p_mask p_bells]. f_equal. change (Z.to_nat 0) with O. replace (Z.to_nat (16 * Z.of_nat j)) with (16 * j)%nat by lia.
  assert (length (slice (16 * j) 16 E) = 16%nat) as Hs by (apply length_slice; lia).
  assert (take (16 * (j + 1)) E = take (16 * j) E ++ slice (16 * j) 16 E) as ->.
  { unfold slice. rewrite <- (take_drop (16 * j) (take (16 * (j + 1)) E)), take_take, skipn_firstn_comm. do 3 f_equal; lia. }
  assert (length (take (16 * j) E) = 16 * j)%nat as Ht by (rewrite length_take; lia).
  set (A := take (16 * j) E) in *. set (B := slice (16 * j) 16 E) in *.
  rewrite (inserts_split 0 A) by lia. rewrite take_0, app_nil_l. rewrite (inserts_split (16 * j) B) by (rewrite length_app, length_drop; lia).
  rewrite (inserts_split 0 (A ++ B)) by (rewrite length_app; lia). rewrite take_0, app_nil_l.
  rewrite take_app_le, take_ge, drop_app_ge, drop_drop, length_app, <- app_assoc by lia. do 3 f_equal. lia.
Qed.
Lemma lines_chunk hdr n j :
  (16 * (j + 1) <= 64 * n)%nat ->
  slice (16 * j) 16 (lines hdr n) =
    let b := slice (Z.to_nat (m_txSlotBase (tx o)) + 16 * j) 16 (p_mem p0) in if (j =? 0)%nat then le_encode 4 hdr ++ drop 4 b else b.
Proof.
  intros Hj. cbn zeta. unfold lines. set (S := slice _ (64 * n) _). destruct j as [|j].
  - cbn [Nat.eqb]. rewrite Nat.mul_0_r, Nat.add_0_r. unfold slice at 1. rewrite drop_0, take_app_ge by (rewrite length_le_encode; lia). f_equal.
    rewrite length_le_encode. change (16 - 4)%nat with 12%nat. assert (slice (Z.to_nat (m_txSlotBase (tx o))) 16 (p_mem p0) = take 16 S) as ->.
    { unfold S, slice. by rewrite take_take, Nat.min_l by lia. }
    by rewrite skipn_firstn_comm.
  - cbn [Nat.eqb]. rewrite <- (slice_slice _ (64 * n)) by lia. fold S. unfold slice.
    rewrite drop_app_ge, drop_drop, length_le_encode by (rewrite length_le_encode; lia). do 2 f_equal. lia.
Qed.

Context (base_pos : 0 <= m_txSlotBase (tx o)).

Lemma line_ok hdr n l h : (0 <= l < Z.of_nat n) -> Z.of_nat (64 * n) <= Z.of_nat (length (p_ap p0)) ->
  m_txSlotBase (tx o) + Z.of_nat (64 * n) <= Z.of_nat (length (p_mem p0)) -> h = (if l =? 0 then Some hdr else None) ->
  triple (written (lines hdr n) (4 * l)) (plus_line l (m_txSlotBase (tx o)) h) (fun _ => written (lines hdr n) (4 * l + 4)).
Proof.
  intros Hl Hap Hmem Hh. assert (length (lines hdr n) = 64 * n)%nat as HE.
  { unfold lines. rewrite length_app, length_le_encode, length_drop, length_slice by lia. lia. }
  apply (triple_conseq _ (written (lines hdr n) (4 * l + 0)) _ _ (fun _ => written (lines hdr n) (4 * l + (0 + 4)))); [by rewrite Z.add_0_r|done|].
  apply (triple_for_loop 4 0 _ (fun i => written (lines hdr n) (4 * l + i))). intros i Hi [o' l'] [Ho Hp]. cbn [fst snd] in *. subst o'.
  set (j := Z.to_nat (4 * l + i)). set (base := m_txSlotBase (tx o)) in *.
  assert (mem l' = p_mem p0) as Hm by (rewrite plus_mem, Hp; done).
  unfold rd. rewrite bind_assoc, run_gets. cbn [snd]. rewrite Hm.
  assert (load (Z.to_nat (base + 64 * l + 16 * i)) (Z.to_nat 16) (p_mem p0) = Some (slice (Z.to_nat base + 16 * j) 16 (p_mem p0))) as ->.
  { unfold load. rewrite decide_True by lia. f_equal. unfold slice. do 2 f_equal. lia. }
  rewrite bind_ret_l. eexists tt, _. split; [done|]. split; [done|]. cbn [snd fst]. rewrite plus_store, Hp.
  replace (64 * l + 16 * i) with (16 * Z.of_nat j) by lia. replace (Z.to_nat (4 * l + i)) with j by lia.
  replace (Z.to_nat (4 * l + (i + 1))) with (j + 1)%nat by lia. rewrite <- (store_next _ j) by lia. f_equal.
  rewrite lines_chunk by lia. cbn zeta. fold base. rewrite Hh. destruct (Z.eqb_spec l 0); [destruct (Z.eqb_spec i 0)|]; destruct (Nat.eqb_spec j 0); done || lia.
Qed.
End Commit.

(** What [commit] is to leave: the header with the length, the time-stamp request and the
    cut-through threshold, the frame behind it, whole lines only, and one descriptor. *)
Record posted (c : config) (o : EfVi) (d : Z) (p p' : pview) : Prop := {
  d_mem : p_mem p' = p_mem p;
  d_header : slice 0 4 (p_ap p') = le_encode 4 (CtThreshold c * 2 ^ 16 + 2 ^ 12 + m_txLen (tx o));
  d_frame : slice 4 (Z.to_nat (m_txLen (tx o))) (p_ap p') = slice (Z.to_nat (m_txSlotBase (tx o) + 4)) (Z.to_nat (m_txLen (tx o))) (p_mem p);
  d_rest : let n := Z.to_nat (64 * ((m_txLen (tx o) + 67) / 64)) in drop n (p_ap p') = drop n (p_ap p);
  d_ring : let di := Z.to_nat (p_added p mod (p_mask p + 1)) in
    p_descs p' = <[di := d + m_txLen (tx o) * 2 ^ 48]> (p_descs p) /\ p_ids p' = <[di := m_txSlot (tx o)]> (p_ids p);
  d_added : p_added p' = u32 (p_added p + 1) /\ p_mask p' = p_mask p;
  d_bell : p_bells p' = p_bells p ++ [(d + m_txLen (tx o) * 2 ^ 48, (p_added p + 1) mod (p_mask p + 1))] }.

(** C33: The hand-rolled commit of the X2522Plus tuning is exact: for a frame of less than
    4096 bytes the aperture holds the header word with the length, the stamp request and
    the threshold in their fields, then the frame as it is in the slot, in whole lines and
    nothing beyond; the descriptor at the producer's position names the slot's buffer and
    the length, the doorbell carries the same descriptor and the advanced position, and
    the head advances by one. *)
Theorem efvi_plus_commit_exact {L} `{PlusLaws L} c fuel o (l : L) d :
  let len := m_txLen (tx o) in let n := 64 * ((len + 67) / 64) in let p := plook l in
  kX2522Plus c = true -> 0 <= CtThreshold c < 2 ^ 12 -> 0 <= len < 2 ^ 12 -> 0 <= m_txSlotBase (tx o) ->
  m_txSlotBase (tx o) + n <= Z.of_nat (length (p_mem p)) -> n <= Z.of_nat (length (p_ap p)) ->
  m_txDescBase (lay o) !! Z.to_nat (m_txSlot (tx o)) = Some d -> 0 <= d < 2 ^ 48 ->
  is_pow2 (p_mask p + 1) -> p_mask p < 2 ^ 32 -> 0 <= p_added p < 2 ^ 32 ->
  exists l', commit c fuel (o, l) = (Done tt, (set_tx (set_head (u32 (m_txHead (tx o) + 1)) (tx o)) o, l')) /\ posted c o d p (plook l').
Proof.
  intros len n p Hc Ht Hl Hb Hmem Hap Hd Hdr Hpow Hmask Hadd.
  set (k := Z.to_nat ((len + 67) / 64)). assert (1 <= (len + 67) / 64) as Hk1 by (apply Z.div_le_lower_bound; lia).
  assert (len + 4 <= n) as Hfit by (unfold n; clear; Z.div_mod_to_equations; lia).
  assert (Z.of_nat (64 * k) = n) as Hn by (unfold n, k; lia).
  set (hdr := Z.lor (kCtpioHdrBase c) len). set (E := lines o p hdr k).
  assert (length E = 64 * k)%nat as HE.
  { unfold E, lines. rewrite length_app, length_le_encode, length_drop, length_slice by lia. lia. }
  unfold commit. rewrite run_gets. cbn [fst]. rewrite Hc. unfold plus_commit. rewrite !bind_assoc, run_gets. cbn [fst]. fold len. fold hdr.
  assert (Z.shiftr (u32 (len + kTxHdrBytes c + 63)) 6 = (len + 67) / 64) as ->.
  { unfold kTxHdrBytes. rewrite Hc, wrap_small by (unfold in_u; change (2 ^ 32) with 4294967296; change (2 ^ 12) with 4096 in *; lia).
    rewrite Z.shiftr_div_pow2 by lia. f_equal. lia. }
  assert (forall hh j, 0 <= j < Z.of_nat k -> hh = (if j =? 0 then Some hdr else None) ->
    triple (written o p E (4 * j)) (plus_line j (m_txSlotBase (tx o)) hh) (fun _ => written o p E (4 * j + 4))) as Hline.
  { intros hh j Hj Hhh. apply line_ok; [done|done|lia|lia|done]. }
  destruct (Hline (Some hdr) 0 ltac:(lia) eq_refl (o, l)) as ([] & w1 & E1 & Hw1).
  { split; [done|]. cbn [snd]. fold p. change (Z.to_nat (4 * 0)) with O. rewrite Nat.mul_0_r, take_0. unfold p_store. cbn [list_inserts]. clear. by destruct p. }
  rewrite bind_assoc, (run_bind _ _ _ _ _ E1).
  destruct (triple_for_loop (Z.to_nat ((len + 67) / 64 - 1)) 1 (fun l => plus_line l (m_txSlotBase (tx o)) None) (fun j => written o p E (4 * j))) with (w := w1) as ([] & w2 & E2 & Hw2); [|done|].
  { intros j Hj. replace (4 * (j + 1)) with (4 * j + 4) by lia. apply Hline; [lia|]. rewrite (proj2 (Z.eqb_neq _ _)) by lia. done. }
  rewrite bind_assoc, (run_bind _ _ _ _ _ E2).
  replace (1 + Z.of_nat (Z.to_nat ((len + 67) / 64 - 1))) with (Z.of_nat k) in Hw2 by lia. destruct w2 as [o2 l2], Hw2 as [Ho2 Hp2]. cbn [fst snd] in *. subst o2.
  rewrite take_ge in Hp2 by lia.
  rewrite bind_assoc, run_gets. cbn [snd]. unfold at_index. rewrite Hd, bind_assoc, bind_ret_l.
  assert (Z.lor d (u64 (Z.shiftl len kTxUsrByteCntLbn)) = d + len * 2 ^ 48) as ->.
  { unfold kTxUsrByteCntLbn. rewrite Z.shiftl_mul_pow2, wrap_small by (try (unfold in_u; change (2 ^ 64) with (2 ^ 16 * 2 ^ 48)); change (2 ^ 12) with 4096 in *; change (2 ^ 16) with 65536; nia).
    rewrite Z.lor_comm, (lor_add _ _ 48); [lia|lia|by eexists|done]. }
  rewrite plus_added, plus_mask, Hp2. cbn [p_added p_mask p_store].
  eexists. split; [done|]. cbn [snd fst]. rewrite plus_bell, plus_add, plus_id, plus_desc, Hp2.
  assert (forall x, 0 <= x < 2 ^ 33 -> Z.land (u32 x) (p_mask p) = x mod (p_mask p + 1)) as Hmod.
  { intros x Hx. replace (p_mask p) with (p_mask p + 1 - 1) at 1 by lia. apply mask_wrap; [done|lia|done]. }
  assert (Z.land (p_added p) (p_mask p) = p_added p mod (p_mask p + 1)) as Hdi.
  { rewrite <- (wrap_small 32 (p_added p)) at 1 by done. apply Hmod. change (2 ^ 33) with 8589934592. change (2 ^ 32) with 4294967296 in *. lia. }
  rewrite Hdi, Hmod by (change (2 ^ 33) with 8589934592; change (2 ^ 32) with 4294967296 in *; lia).
  assert (list_inserts 0 E (p_ap p) = E ++ drop (length E) (p_ap p)) as HapE by (rewrite inserts_split, take_0 by lia; done).
  assert (E = le_encode 4 hdr ++ drop 4 (slice (Z.to_nat (m_txSlotBase (tx o))) (64 * k) (p_mem p))) as HEd by done.
  split; cbn [p_mem p_ap p_descs p_ids p_added p_mask p_bells p_bell p_add p_id p_desc p_store]; change (Z.to_nat 0) with O; rewrite ?HapE; fold len; try done.
  - rewrite HEd. unfold slice at 1. rewrite drop_0, <- !app_assoc, take_app_le, take_ge by (rewrite length_le_encode; lia). f_equal. by apply header_word.
  - rewrite HEd. unfold slice at 1. rewrite <- !app_assoc, drop_app_ge, length_le_encode, Nat.sub_diag, drop_0 by (rewrite length_le_encode; lia).
    rewrite take_app_le by (rewrite length_drop, length_slice by lia; lia).
    change (take (Z.to_nat len) (drop 4 ?s)) with (slice 4 (Z.to_nat len) s). rewrite slice_slice by lia. f_equal. lia.
  - fold n. rewrite drop_app_ge, drop_drop by lia. f_equal. lia.
Qed.

(** ** A simulated interface: plain stores *)
#[local] Instance plain_lib : EfViLib pview := {|
  mem := p_mem; set_mem m p := mk_pview m (p_ap p) (p_descs p) (p_ids p) (p_added p) (p_mask p) (p_bells p); elapse p := p;
  ef_vi_transmit_ctpio _ _ p := p; ef_vi_transmit_ctpio_fallback _ _ _ p := (0, p); ef_vi_transmit _ _ _ p := (0, p);
  ef_vi_transmit_unbundle _ p := ([], p); ef_vi_receive_unbundle _ p := ([], p); ef_vi_receive_init _ _ p := p; ef_vi_receive_push p := p;
  ef_eventq_poll _ p := ([], p); evq_word p := (0, p);
  ctpio_store := p_store; txq_mask := p_mask; txq_added := p_added; set_txq_added := p_add; txq_descriptor := p_desc; txq_id := p_id; doorbell_store := p_bell |}.
#[local] Program Instance plain_laws : PlusLaws pview := {| plook := id |}.
Solve All Obligations with done.

Definition ex_config : config := mk_config RxTx 8 2 64 64 true true true.
Definition ex_efvi : EfVi :=
  mk_efvi (mk_layout 14 9 [] [] [4096; 8192] 0) (mk_tx 1 0 1 5 4 0) (mk_rx 0 0 0 0 0 0) (mk_stamps [] 0 0 0) (mk_stats 0 0 [] 0 0 0 0 0 0) [].
Definition ex_view : pview := mk_pview (seqZ 0 128) (replicate (Z.to_nat 128) 0) [7; 7] [9; 9] 3 1 [].

Lemma efvi_plus_commit_exact_witness :
  exists l', commit ex_config 0 (ex_efvi, ex_view) = (Done tt, (set_tx (set_head (u32 (m_txHead (tx ex_efvi) + 1)) (tx ex_efvi)) ex_efvi, l')) /\ posted ex_config ex_efvi 8192 (plook ex_view) (plook l').
Proof.
  apply (efvi_plus_commit_exact ex_config 0 ex_efvi ex_view 8192); try (vm_compute; intuition congruence).
  exists 1. split; [lia|reflexivity].
Defined.
