(* ===== verification/EfViRx.v ===== *)
(** * ef_vi: reception by polling the slots, against its contract

    The next slot's ethertype field is zero until the adapter has written a frame there, and
    [release] zeroes it again before the slot goes back: with this the poll meets
    [RxContract], for both tunings, whatever the adapter does meanwhile. *)

From S2P Require Import Prelude RingConcepts EfVi EfViTx.

Lemma store_inv off src b m : store off src b = Some m -> m = list_inserts off src b /\ (off + length src <= length b)%nat.
Proof. unfold store. case_decide; [|done]. intros He. injection He as He. by subst m. Qed.

Module Rx.
Section Contract.
Context {L : Type} {EL : EfViLib L} (c : config) (prefix capacity : Z) (host : Z -> Z).
Context {LL : EfViLaws c prefix capacity host L}.
Abbreviation W := (EfVi * L)%type.
Abbreviation NR := (NbRxBufs c).
Implicit Types (w : W) (v : view) (seen : list bytes).
Context (NRpow : is_pow2 NR) (NRmax : NR < 2 ^ 16) (NR8 : 8 <= NR)
  (prefix_fits : 0 <= prefix /\ prefix + 14 <= BufSize c) (BSmin : 64 <= BufSize c) (Y : Layout).

Definition slot (j : Z) : Z := (j mod NR) * BufSize c.

(** The layout [init] computes. *)
Definition laid_out : Prop :=
  m_rxPrefix Y = prefix /\ Z.of_nat (length (m_rxDma Y)) = NR /\
  forall s a, m_rxDma Y !! s = Some a -> host a = Z.of_nat s * BufSize c.
Context (lay_ok : laid_out).

Definition image (m : bytes) (j : Z) : bytes := slice (Z.to_nat (slot j + prefix)) (Z.to_nat (BufSize c - prefix)) m.
Definition marker (m : bytes) (j : Z) : Z := le_decode (slice (Z.to_nat (slot j + prefix + 12)) 2 m).

(** [k] frames are given back, [r] of their slots are prepared again, and [p] prepared
    descriptors are not pushed yet; the frames in between are in their slots, the other
    slots are marked empty. *)
Record core (k r p : Z) v : Prop := {
  r_bytes : is_bytes (v_mem v);
  r_size : NR * BufSize c <= Z.of_nat (length (v_mem v));
  r_init i a : v_init v !! i = Some a -> host a = slot (Z.of_nat i);
  r_len : Z.of_nat (length (v_init v)) = NR + r /\ 0 <= r <= k;
  r_push : v_pushed v + p = NR + r /\ (8 | v_pushed v) /\ 0 <= p;
  r_got : k <= Z.of_nat (length (v_got v)) <= v_pushed v;
  r_isb : Forall is_bytes (v_got v);
  r_full j f : k <= Z.of_nat j -> v_got v !! j = Some f -> image (v_mem v) (Z.of_nat j) = f /\ marker (v_mem v) (Z.of_nat j) <> 0;
  r_empty j : Z.of_nat (length (v_got v)) <= j < k + NR -> marker (v_mem v) j = 0 }.

Lemma NR_pos : 0 < NR.
Proof. by apply is_pow2_pos. Qed.

Lemma slot_range j : 0 <= slot j /\ slot j + BufSize c <= NR * BufSize c.
Proof. unfold slot. pose proof (Z.mod_pos_bound j NR NR_pos). nia. Qed.

Lemma slot_ne i j : i <> j -> - NR < i - j < NR -> slot i + BufSize c <= slot j \/ slot j + BufSize c <= slot i.
Proof.
  intros Hne Hd. assert (i mod NR <> j mod NR) by (intros He; apply mod_window_inj in He; [done|apply NR_pos|done]).
  unfold slot. destruct (Z_lt_le_dec (i mod NR) (j mod NR)); [left|right]; nia.
Qed.

(** Writing inside slot [i] leaves the other slots alone. *)
Lemma slice_other m m' i j o src q n :
  i <> j -> - NR < i - j < NR -> store (Z.to_nat (slot i + o)) src m = Some m' -> 0 <= o -> o + Z.of_nat (length src) <= BufSize c ->
  0 <= q -> q + Z.of_nat n <= BufSize c -> slice (Z.to_nat (slot j + q)) n m' = slice (Z.to_nat (slot j + q)) n m.
Proof.
  intros Hne Hd Hs Ho Hl Hq Hn. unfold store in Hs. case_decide; [|done]. injection Hs as <-. pose proof (slot_range i). pose proof (slot_range j).
  destruct (slot_ne i j Hne Hd); [apply slice_inserts_after|apply slice_inserts_before]; lia.
Qed.

Lemma image_other m m' i j o src :
  i <> j -> - NR < i - j < NR -> store (Z.to_nat (slot i + o)) src m = Some m' -> 0 <= o -> o + Z.of_nat (length src) <= BufSize c ->
  image m' j = image m j /\ marker m' j = marker m j.
Proof.
  intros Hne Hd Hs Ho Hl. unfold image, marker. rewrite <- !(Z.add_assoc (slot j)).
  split; [|f_equal]; eapply slice_other; try done; lia.
Qed.

Lemma slots_step k r p v v' : nstep c prefix host v v' -> core k r p v -> core k r p v'.
Proof.
  intros Hs C. destruct Hs as [v d f Hd Hf|v a data m Hlt Ha Hby Hlen Hmark Hst]; [by destruct C|].
  pose proof (r_init _ _ _ _ C _ _ Ha) as Hh. set (g := Z.of_nat (length (v_got v))) in *. pose proof (r_len _ _ _ _ C) as [Hl Hr].
  pose proof (r_got _ _ _ _ C) as Hg. fold g in Hg. pose proof (r_push _ _ _ _ C) as (Hp & Hp8 & Hp0).
  assert (forall j, j <> g -> - NR < g - j < NR -> image m j = image (v_mem v) j /\ marker m j = marker (v_mem v) j) as Hother.
  { intros j Hj Hd. apply (image_other _ _ g j 0 data); try done; [by rewrite Z.add_0_r, <- Hh|lia]. }
  pose proof (slot_range g). pose proof (r_size _ _ _ _ C) as Hsz.
  assert (marker m g <> 0) as Hmg.
  { unfold marker. rewrite <- Z.add_assoc. unfold store in Hst. case_decide; [|done]. injection Hst as <-. rewrite Hh in *.
    replace (Z.to_nat (slot g + (prefix + 12))) with (Z.to_nat (slot g) + Z.to_nat (prefix + 12))%nat by lia. rewrite slice_inserts_part by lia. done. }
  assert (is_bytes m) as Hmb.
  { unfold store in Hst. case_decide; [|done]. injection Hst as <-. apply is_bytes_inserts; [done|by destruct C]. }
  destruct C; split; cbn [v_mem v_init v_pushed v_got v_deliver]; rewrite ?length_app, ?(length_store _ _ _ _ Hst); try done; cbn [length].
  - lia.
  - apply Forall_app_2; [done|]. constructor; [|done]. by apply is_bytes_slice.
  - intros j f Hj Hf. apply lookup_app_Some in Hf as [Hf|[Hn Hf]].
    + pose proof (lookup_lt_Some _ _ _ Hf). destruct (Hother (Z.of_nat j)) as [-> ->]; [lia|lia|]. by apply r_full0.
    + apply list_lookup_singleton_Some in Hf as [Hj0 <-]. assert (Z.of_nat j = g) as -> by lia. split; [|done]. unfold image. by rewrite Hh.
  - intros j Hj. destruct (Hother j) as [_ ->]; [lia|lia|]. apply r_empty0. fold g. lia.
Qed.

Lemma slots_steps k r p v v' : rtc (nstep c prefix host) v v' -> core k r p v -> core k r p v'.
Proof. intros Hr. induction Hr; [done|]. intros C. by eauto using slots_step. Qed.

Lemma got_steps v v' : rtc (nstep c prefix host) v v' -> v_got v `prefix_of` v_got v'.
Proof.
  intros Hr. induction Hr as [v|v1 v2 v3 Hs _ IH]; [done|]. etrans; [|exact IH]. destruct Hs; [done|]. cbn. by apply prefix_app_r.
Qed.

Lemma slots_take k r p n v : core k r p v -> core k r p (v_take n v).
Proof. intros []. by split. Qed.

(** The slot of the next reposted frame is prepared. *)
Lemma core_prepare k r p a v : r < k -> m_rxDma Y !! Z.to_nat (r mod NR) = Some a -> core k r p v -> core k (r + 1) (p + 1) (v_prepare a v).
Proof.
  intros Hr Ha C. pose proof NR_pos. pose proof (Z.mod_pos_bound r NR NR_pos). destruct lay_ok as (_ & _ & Hd).
  destruct C; split; cbn; try done; try lia.
  - intros i a' Hi. apply lookup_app_Some in Hi as [Hi|[Hn Hi]]; [by apply r_init0|].
    apply list_lookup_singleton_Some in Hi as [Hi0 <-]. rewrite (Hd _ _ Ha), Z2Nat.id by lia. unfold slot. f_equal.
    replace (Z.of_nat i) with (r + 1 * NR) by lia. by rewrite Z_mod_plus_full.
  - rewrite length_app. cbn. lia.
  - destruct r_push0 as (? & ? & ?). split; [lia|]. split; [done|lia].
Qed.

Lemma core_push k r p v : core k r p v -> core k r (p mod 8) (v_push v).
Proof.
  intros []. destruct r_push0 as (Hp & [q Hq] & Hp0), r_len0 as [Hl Hr].
  assert (Z.max (v_pushed v) (Z.of_nat (length (v_init v)) / 8 * 8) = NR + r - p mod 8) as He by (rewrite Hl; Z.div_mod_to_equations; lia).
  pose proof (Z.mod_pos_bound p 8 ltac:(lia)).
  split; cbn; rewrite ?He; try done.
  - split; [lia|]. split; [|lia]. exists ((NR + r) / 8). Z.div_mod_to_equations; lia.
  - Z.div_mod_to_equations; lia.
Qed.

(** ** The members *)

(** [k] frames are given back, the next slot to look at is [nx]; what the caller has seen
    of the arrivals is [G]. *)
Definition inv (G : list bytes) (nx k : Z) w : Prop :=
  lay (fst w) = Y /\ m_rxNextIdx (rx (fst w)) = nx mod NR /\ G `prefix_of` v_got (eview (snd w)) /\
  exists r, core k r (m_rxPendingPush (rx (fst w))) (eview (snd w)) /\
    if kX2522Plus c then m_rxReleased (rx (fst w)) = u32 k /\ m_rxReposted (rx (fst w)) = u32 r
    else r = k /\ m_rxPendingPush (rx (fst w)) < 64.

Lemma rx_inv_ext G nx k o o' (l l' : L) v :
  lay o' = lay o -> rx o' = rx o -> rtc (nstep c prefix host) (eview l) v -> (exists n, rtc (nstep c prefix host) (v_take n v) (eview l')) ->
  inv G nx k (o, l) -> inv G nx k (o', l').
Proof.
  intros Hl Hr Hs [n Hs'] (HY & Hn & HG & r & C & Hc). unfold inv. cbn [fst snd] in *. rewrite Hr. split_and!; [congruence|done| |].
  - etrans; [exact HG|]. etrans; [by apply got_steps|]. change (v_got v) with (v_got (v_take n v)). by apply got_steps.
  - exists r. split; [|done]. eapply slots_steps; [done|]. apply slots_take. by eapply slots_steps.
Qed.

Lemma inv_step G nx k o (l l' : L) : rtc (nstep c prefix host) (eview l) (eview l') -> inv G nx k (o, l) -> inv G nx k (o, l').
Proof.
  intros Hs (HY & Hn & HG & r & C & Hc). split; [done|]. split; [done|]. split; [etrans; [exact HG|by apply got_steps]|].
  exists r. split; [|done]. by eapply slots_steps.
Qed.

Lemma inv_obj G nx k o o' (l : L) : lay o' = lay o -> rx o' = rx o -> inv G nx k (o, l) -> inv G nx k (o', l).
Proof. unfold inv. cbn. intros -> ->. done. Qed.

Lemma upd_ok G nx k f : (forall o, lay (f o) = lay o /\ rx (f o) = rx o) -> triple (inv G nx k) (upd f) (fun _ => inv G nx k).
Proof. intros Hf. apply triple_upd. intros o l. destruct (Hf o). by apply inv_obj. Qed.

Lemma seq_ok G nx k {A} (m : M W unit) (n : M W A) Q :
  triple (inv G nx k) m (fun _ => inv G nx k) -> triple (inv G nx k) n Q -> triple (inv G nx k) (m ;; n) Q.
Proof. intros Hm Hn. eapply triple_bind; [done|]. by intros []. Qed.

Lemma gets_ok G nx k {A B} (g : W -> A) (f : A -> M W B) (Q : B -> W -> Prop) : (forall a, triple (inv G nx k) (f a) Q) -> triple (inv G nx k) (gets g ≫= f) Q.
Proof. intros H w Hw. rewrite run_gets. by apply H. Qed.

Lemma lib_ok G nx k {A} (f : L -> A * L) :
  (forall l, rtc (nstep c prefix host) (eview l) (eview (snd (f l)))) -> triple (inv G nx k) (lib f) (fun _ => inv G nx k).
Proof. intros Hf. apply triple_lib. intros o l. by apply inv_step. Qed.

Ltac members := apply upd_ok; by intros [].

Lemma rx_process_ok G nx k ev : triple (inv G nx k) (process c ev) (fun _ => inv G nx k).
Proof.
  destruct ev; cbn [process]; try members.
  - eapply (triple_bind _ _ (fun _ => inv G nx k)).
    { apply triple_lib. intros o l. pose proof (unbundle_law raw l) as Hl. destruct (ef_vi_transmit_unbundle raw l) as [ids l'].
      destruct Hl as (v & Hs1 & _ & Hs2). apply (rx_inv_ext _ _ _ _ _ _ _ v); try done. by eexists. }
    intros ids. apply seq_ok; [|repeat (apply triple_if; intros _); members]. apply triple_if; intros _; [|members].
    apply (triple_for_each ids _ (fun _ => inv G nx k)). intros. apply gets_ok. intros o. apply seq_ok; members.
  - apply triple_if; intros _; [|members]. apply gets_ok. intros o. repeat (apply seq_ok; [members|]). repeat (apply triple_if; intros _); members.
  - eapply (triple_bind _ _ (fun _ => inv G nx k)); [apply lib_ok; apply rx_unbundle_law|]. intros ids. members.
  - eapply (triple_bind _ _ (fun _ => inv G nx k)); [apply lib_ok; apply rx_unbundle_law|]. intros ids.
    apply (triple_for_each ids _ (fun _ => inv G nx k)). intros. members.
  - apply seq_ok; [members|]. apply gets_ok. intros o. apply seq_ok; [|members]. apply triple_if; intros _; [members|by apply triple_ret].
Qed.

Lemma rx_drain_ok G nx k : triple (inv G nx k) (drain c) (fun _ => inv G nx k).
Proof. apply gets_ok. intros o. apply seq_ok; [|members]. apply (triple_for_each _ _ (fun _ => inv G nx k)). intros. apply rx_process_ok. Qed.

Lemma land7 x : Z.land x 7 = x mod 8.
Proof. apply (land_mask 8). exists 3. by split. Qed.

Lemma push_ok G nx k o (l : L) : inv G nx k (o, l) ->
  inv G nx k (set_rx (set_pending (Z.land (m_rxPendingPush (rx o)) 7) (rx o)) o, ef_vi_receive_push l).
Proof.
  intros (HY & Hn & HG & r & C & Hc). pose proof (receive_push_law l) as Hl. split; [done|]. split; [done|]. split.
  { etrans; [exact HG|]. change (v_got (eview l)) with (v_got (v_push (eview l))). exact (got_steps _ _ Hl). }
  exists r. cbn [fst snd rx set_rx set_pending m_rxPendingPush m_rxReleased m_rxReposted] in *. rewrite land7. split.
  - eapply slots_steps; [exact Hl|]. by apply core_push.
  - destruct (kX2522Plus c); [done|]. split; [easy|]. pose proof (Z.mod_pos_bound (m_rxPendingPush (rx o)) 8 ltac:(lia)). lia.
Qed.

Lemma rx_poll_ok G nx k : triple (inv G nx k) (pollEvent c true) (fun _ => inv G nx k).
Proof.
  unfold pollEvent. apply seq_ok; [apply rx_drain_ok|]. eapply (triple_bind _ _ (fun _ => inv G nx k)).
  { unfold evqHasEvent. eapply triple_bind; [apply lib_ok; apply word_law|]. intros. by apply triple_ret. }
  intros has. apply triple_if; intros _.
  - intros [o l] Hi. rewrite run_gets. cbn [fst]. destruct (_ && _); [|by eexists tt, _].
    eexists tt, _. split; [done|]. by apply push_ok.
  - eapply (triple_bind _ _ (fun _ => inv G nx k)).
    { apply triple_lib. intros o l. pose proof (poll_law kEvPollBatch l) as Hl. destruct (ef_eventq_poll kEvPollBatch l) as [evs l'].
      destruct Hl as (v & Hs1 & _ & Hs2). apply (rx_inv_ext _ _ _ _ _ _ _ v); try done. by eexists. }
    intros evs. apply seq_ok; [members|apply rx_drain_ok].
Qed.

(** ** Looking at the next slot *)

Lemma rd_ok k r p j o n w : core k r p (eview (snd w)) -> 0 <= o -> 0 <= n -> o + n <= BufSize c ->
  rd (slot j + o) n w = (Done (slice (Z.to_nat (slot j + o)) (Z.to_nat n) (v_mem (eview (snd w)))), w).
Proof.
  intros C Ho Hn Hon. unfold rd. rewrite run_gets, mem_law. unfold load. pose proof (slot_range j). pose proof (r_size _ _ _ _ C).
  by rewrite decide_True by lia.
Qed.

Lemma spin_ok G nx k n : triple (inv G nx k) (spin n (slot nx + (prefix + 12)))
  (fun hit w => inv G nx k w /\ (hit = true -> marker (v_mem (eview (snd w))) nx <> 0)).
Proof.
  induction n as [|n IH]; cbn [spin]; [by apply triple_ret|]. intros [o l] Hi.
  pose proof (inv_step _ _ _ _ _ _ (elapse_law l) Hi) as Hi1. unfold act. rewrite run_modify. cbn [fst snd].
  pose proof Hi1 as (_ & _ & _ & r & C & _). rewrite (run_bind _ _ _ _ _ (rd_ok _ _ _ nx (prefix + 12) 2 (o, elapse l) C ltac:(lia) ltac:(lia) ltac:(lia))). cbn [snd].
  destruct (Z.eqb_spec (le_decode (slice (Z.to_nat (slot nx + (prefix + 12))) (Z.to_nat 2) (v_mem (eview (elapse l))))) 0) as [|Hm]; [by apply IH|].
  eexists true, _. split; [done|]. split; [done|]. intros _. unfold marker. by rewrite <- Z.add_assoc.
Qed.

Definition idle seen w : Prop := let k := Z.of_nat (length seen) in inv seen k k w.
Definition held seen (f : bytes) w : Prop :=
  let k := Z.of_nat (length seen) in inv (seen ++ [f]) (k + 1) k w /\ m_heldId (rx (fst w)) = k mod NR.

(** A marked slot holds the next frame. *)
Lemma marked_next G r p k v : core k r p v -> k = Z.of_nat (length G) -> G `prefix_of` v_got v -> marker (v_mem v) k <> 0 ->
  (G ++ [image (v_mem v) k]) `prefix_of` v_got v.
Proof.
  intros C -> [t Ht] Hm. destruct t as [|f t].
  - destruct Hm. apply (r_empty _ _ _ _ C). rewrite Ht, app_nil_r. pose proof NR_pos. lia.
  - assert (v_got v !! length G = Some f) as Hf by (by rewrite Ht, lookup_app_r, Nat.sub_diag by lia).
    destruct (r_full _ _ _ _ C _ _ ltac:(apply Z.le_refl) Hf) as [-> _]. exists t. by rewrite Ht, <- app_assoc.
Qed.

(** [while (m_rxReposted != m_rxReleased)] ends within a ring. *)
Lemma repost_ok n : forall G nx k r w, kX2522Plus c = true -> k - r <= Z.of_nat n -> lay (fst w) = Y -> m_rxNextIdx (rx (fst w)) = nx mod NR -> G `prefix_of` v_got (eview (snd w)) ->
  core k r (m_rxPendingPush (rx (fst w))) (eview (snd w)) -> m_rxReleased (rx (fst w)) = u32 k -> m_rxReposted (rx (fst w)) = u32 r ->
  exists w', repostReleased c n w = (Done tt, w') /\ inv G nx k w'.
Proof.
  induction n as [|n IH]; intros G nx k r [o l] Hplus Hn HY Hnx HG C Hrel Hrep; cbn [repostReleased]; rewrite run_gets; cbn [fst snd] in *; rewrite Hrel, Hrep.
  all: destruct (r_len _ _ _ _ C) as [Hl Hr]; pose proof (r_got _ _ _ _ C) as Hg; destruct (r_push _ _ _ _ C) as (Hp & _ & Hp0).
  all: destruct (Z.eqb_spec (u32 r) (u32 k)) as [He|Hne].
  1, 3: eexists; split; [done|]; split; [done|]; split; [done|]; split; [done|]; exists r; by rewrite Hplus.
  - destruct Hne. f_equal. lia.
  - assert (r < k) as Hrk by (destruct (decide (r = k)) as [->|]; [done|lia]).
    assert (Z.land (u32 r) (NR - 1) = r mod NR) as -> by (apply mask_wrap; [done|lia|done]).
    pose proof (Z.mod_pos_bound r NR NR_pos). destruct (lookup_lt_is_Some_2 (m_rxDma Y) (Z.to_nat (r mod NR))) as [a Ha]; [destruct lay_ok as (_ & Hlen & _); lia|].
    unfold at_index. rewrite HY, Ha, bind_ret_l. unfold act, on_rx, upd. rewrite !run_modify. cbn [fst snd rx set_rx].
    pose proof (receive_init_law a (r mod NR) l) as Hs. apply (IH G nx k (r + 1)); cbn; try done; try lia.
    + etrans; [exact HG|]. change (v_got (eview l)) with (v_got (v_prepare a (eview l))). by apply got_steps.
    + eapply slots_steps; [exact Hs|]. rewrite wrap_small by (unfold in_u; change (2 ^ 32) with 4294967296; change (2 ^ 16) with 65536 in NRmax; lia).
      by apply core_prepare.
    + rewrite Hrep. apply wrap_add_l.
Qed.

Lemma tryReceive_ok seen w : idle seen w ->
  exists f w', tryReceive c w = (Done f, w') /\ match f with [] => idle seen w' | _ => held seen f w' end.
Proof.
  intros Hi. set (k := Z.of_nat (length seen)). pose proof Hi as (HY & Hnx & _ & _). fold k in Hnx. unfold tryReceive. rewrite run_gets.
  assert (rxSlot c (m_rxNextIdx (rx (fst w))) = slot k) as -> by (unfold rxSlot, slot; by rewrite Hnx). rewrite HY.
  destruct lay_ok as (Hpre & _ & _). rewrite Hpre, <- Z.add_assoc.
  destruct (spin_ok seen k k (kMarkerSpins c) w Hi) as (hit & [o l] & E & Hi1 & Hhit). rewrite (run_bind _ _ _ _ _ E). destruct hit.
  - specialize (Hhit eq_refl). destruct Hi1 as (HY1 & Hnx1 & HG & r & C & Hc). cbn [fst snd] in *.
    pose proof (marked_next _ _ _ _ _ C eq_refl HG Hhit) as HG'. unfold on_rx, on_stats, upd. rewrite !run_modify. cbn [fst snd].
    set (o1 := set_stats _ _). set (f := image (v_mem (eview l)) k).
    assert (held seen f (o1, l)) as Hheld.
    { split; [|exact Hnx1]. split; [done|]. split.
      - cbn. rewrite Hnx1, mask_wrap by (done || lia). rewrite Zplus_mod_idemp_l. done.
      - split; [exact HG'|]. by exists r. }
    assert (forall o2, lay o2 = Y -> m_heldId (rx o2) = m_heldId (rx o1) -> m_rxNextIdx (rx o2) = m_rxNextIdx (rx o1) -> m_rxPendingPush (rx o2) = m_rxPendingPush (rx o1) ->
      m_rxReleased (rx o2) = m_rxReleased (rx o1) -> m_rxReposted (rx o2) = m_rxReposted (rx o1) ->
      exists g w', rd (slot k + prefix) (BufSize c - prefix) (o2, l) = (Done g, w') /\ match g with [] => idle seen w' | _ => held seen g w' end) as Hread.
    { intros o2 E1 E2 E3 E4 E5 E6. rewrite (rd_ok _ _ _ k prefix (BufSize c - prefix) (o2, l) C) by lia. eexists _, (o2, l). split; [done|]. cbn [snd]. fold (image (v_mem (eview l)) k). fold f.
      assert (held seen f (o2, l)) as Hh.
      { destruct Hheld as ((A1 & A2 & A3 & r' & A4 & A5) & A6). cbn [fst snd] in *. unfold held, inv. cbn [fst snd]. rewrite E2, E3, E4, E5, E6. split; [|done]. split; [done|]. split; [done|]. split; [done|]. by exists r'. }
      assert (length f <> O) as Hlen.
      { unfold f, image. pose proof (slot_range k). pose proof (r_size _ _ _ _ C). rewrite length_slice by lia. lia. }
      clearbody f. destruct f; [done|exact Hh]. }
    destruct (HwTimestamps c && negb (kX2522Plus c)); [|rewrite bind_ret_l; by apply Hread].
    unfold readRxTimestamp. rewrite !bind_assoc. unfold kRxPrefixTsOffset. rewrite (run_bind _ _ _ _ _ (rd_ok _ _ _ k 10 4 (o1, l) C ltac:(lia) ltac:(lia) ltac:(lia))).
    unfold on_rx, upd. rewrite run_modify. by apply Hread.
  - assert (exists w1, (if kX2522Plus c then repostReleased c (Z.to_nat NR) else mret tt) (o, l) = (Done tt, w1) /\ inv seen k k w1) as (w1 & E1 & Hi2).
    { destruct (kX2522Plus c) eqn:Hplus; [|by eexists]. destruct Hi1 as (A1 & A2 & A3 & r & C & Hc). rewrite Hplus in Hc. destruct Hc as [Hrel Hrep].
      eapply repost_ok; try done. destruct (r_len _ _ _ _ C). pose proof (r_got _ _ _ _ C). destruct (r_push _ _ _ _ C) as (? & _ & ?). lia. }
    rewrite (run_bind _ _ _ _ _ E1). destruct (rx_poll_ok seen k k w1 Hi2) as ([] & w2 & E2 & Hi3). rewrite (run_bind _ _ _ _ _ E2). by eexists [], w2.
Qed.

(** ** Giving the slot back *)

Lemma core_release k r p m' v : core k r p v -> k < Z.of_nat (length (v_got v)) ->
  store (Z.to_nat (slot k + (prefix + 12))) [0; 0] (v_mem v) = Some m' -> core (k + 1) r p (v_set_mem m' v).
Proof.
  intros C Hk Hst. pose proof NR_pos. destruct (r_len _ _ _ _ C) as [Hl Hr]. destruct (r_push _ _ _ _ C) as (Hp & _ & Hp0). pose proof (r_got _ _ _ _ C) as Hg.
  assert (forall j, j <> k -> - NR < k - j < NR -> image m' j = image (v_mem v) j /\ marker m' j = marker (v_mem v) j) as Hother.
  { intros j Hj Hd. apply (image_other _ _ k j (prefix + 12) [0; 0]); try done; cbn; lia. }
  assert (is_bytes m') as Hb by (apply store_inv in Hst as [-> _]; apply is_bytes_inserts; [by_decision|by destruct C]).
  destruct C; split; cbn; rewrite ?(length_store _ _ _ _ Hst); try done; try lia.
  - intros j f Hj Hf. pose proof (lookup_lt_Some _ _ _ Hf). destruct (Hother (Z.of_nat j)) as [-> ->]; [lia|lia|]. apply r_full0; [lia|done].
  - intros j Hj. destruct (decide (j = k + NR)) as [->|Hne].
    + unfold marker. assert (slot (k + NR) = slot k) as -> by (unfold slot; f_equal; rewrite <- (Z.mul_1_l NR) at 1; apply Z_mod_plus_full).
      rewrite <- Z.add_assoc. apply store_inv in Hst as [-> Hfit]. by rewrite (slice_inserts_eq _ [0; 0]).
    + destruct (Hother j) as [_ ->]; [lia|lia|]. apply r_empty0. lia.
Qed.

Lemma release_ok seen f w : held seen f w -> exists w', release c w = (Done tt, w') /\ idle (seen ++ [f]) w'.
Proof.
  intros [(HY & Hnx & HG & r & C & Hc) Hid]. destruct w as [o l]. cbn [fst snd] in *. set (k := Z.of_nat (length seen)) in *.
  assert (Z.of_nat (length (seen ++ [f])) = k + 1) as Hk1 by (rewrite length_app; cbn; lia). unfold idle. rewrite Hk1.
  assert (k < Z.of_nat (length (v_got (eview l)))) as Hlt by (pose proof (prefix_length _ _ HG); lia).
  destruct (r_len _ _ _ _ C) as [Hl Hr]. destruct (r_push _ _ _ _ C) as (Hp & _ & Hp0). pose proof (r_got _ _ _ _ C) as Hg.
  unfold release. rewrite run_gets. cbn [fst]. rewrite HY, Hid. destruct lay_ok as (Hpre & Hlen & _). rewrite Hpre.
  change (rxSlot c (k mod NR)) with (slot k). rewrite <- Z.add_assoc. unfold wr. rewrite bind_assoc, run_gets. cbn [snd]. rewrite mem_law.
  pose proof (slot_range k). pose proof (r_size _ _ _ _ C).
  assert (store (Z.to_nat (slot k + (prefix + 12))) [0; 0] (v_mem (eview l)) = Some (list_inserts (Z.to_nat (slot k + (prefix + 12))) [0; 0] (v_mem (eview l)))) as Hst
    by (apply store_Some; cbn; lia).
  rewrite Hst. pose proof (core_release _ _ _ _ _ C Hlt Hst) as C1. clear Hst. set (m' := list_inserts _ _ _) in *.
  unfold act. rewrite run_modify. cbn [fst snd]. rewrite <- (set_mem_law m' l) in C1. set (l1 := set_mem m' l) in *.
  assert (v_got (eview l1) = v_got (eview l)) as Hgot by (unfold l1; by rewrite set_mem_law). rewrite <- Hgot in HG. clearbody l1.
  destruct (kX2522Plus c) eqn:Hplus.
  - eexists. split; [done|]. destruct Hc as [Hrel Hrep]. split; [done|]. split; [done|]. split; [done|]. exists r. rewrite Hplus. split; [exact C1|].
    cbn. split; [|done]. rewrite Hrel. apply wrap_add_l.
  - destruct Hc as [-> Hpend]. pose proof (Z.mod_pos_bound k NR NR_pos).
    destruct (lookup_lt_is_Some_2 (m_rxDma Y) (Z.to_nat (k mod NR))) as [a Ha]; [lia|]. unfold at_index. rewrite Ha, bind_ret_l.
    unfold act, on_rx, upd. rewrite !run_modify. cbn [fst snd rx set_rx]. rewrite wrap_small by (unfold in_u; change (2 ^ 32) with 4294967296; lia).
    pose proof (receive_init_law a (k mod NR) l1) as Hs. set (l2 := ef_vi_receive_init a (k mod NR) l1) in *.
    set (o2 := set_rx (set_pending (m_rxPendingPush (rx o) + 1) (rx o)) o).
    assert (core (k + 1) (k + 1) (m_rxPendingPush (rx o) + 1) (eview l2)) as C2 by (eapply slots_steps; [exact Hs|]; apply core_prepare; [lia|done|done]).
    assert (seen ++ [f] `prefix_of` v_got (eview l2)) as HG2.
    { etrans; [exact HG|]. change (v_got (eview l1)) with (v_got (v_prepare a (eview l1))). exact (got_steps _ _ Hs). }
    destruct (Z.leb_spec 64 (m_rxPendingPush (rx o) + 1)).
    + rewrite run_modify. cbn [fst snd]. eexists. split; [done|]. pose proof (receive_push_law l2) as Hs3. split; [done|]. split; [done|]. split.
      { etrans; [exact HG2|]. change (v_got (eview l2)) with (v_got (v_push (eview l2))). exact (got_steps _ _ Hs3). }
      exists (k + 1). rewrite Hplus. cbn. rewrite land7. pose proof (Z.mod_pos_bound (m_rxPendingPush (rx o) + 1) 8 ltac:(lia)). split; [|lia].
      eapply slots_steps; [exact Hs3|]. by apply core_push.
    + eexists. split; [done|]. split; [done|]. split; [done|]. split; [done|]. exists (k + 1). rewrite Hplus. split; [exact C2|]. split; [done|cbn; lia].
Qed.

#[export] Program Instance EfVi_RxContract : @RxContract W (EfVi_RxRing c) := {|
  rx_arrived w := v_got (eview (snd w)); rx_idle := idle; rx_held := held |}.
Next Obligation. intros seen w (_ & _ & HG & _). done. Qed.
Next Obligation. intros seen f w ((_ & _ & HG & _) & _). done. Qed.
Next Obligation.
  intros seen f w ((_ & _ & HG & r & C & _) & _). pose proof (r_isb _ _ _ _ C) as Hb. rewrite list.Forall_forall in Hb. apply Hb.
  destruct HG as [t ->]. rewrite <- app_assoc. apply elem_of_app. right. by left.
Qed.
Next Obligation. exact tryReceive_ok. Qed.
Next Obligation. exact release_ok. Qed.

(** What [init] leaves: every slot marked empty and prepared. *)
Record fresh w : Prop := {
  f_lay : lay (fst w) = Y; f_rx : rx (fst w) = mk_rx 0 0 0 0 0 0;
  f_bytes : is_bytes (v_mem (eview (snd w))); f_size : NR * BufSize c <= Z.of_nat (length (v_mem (eview (snd w))));
  f_init : v_init (eview (snd w)) = m_rxDma Y; f_pushed : v_pushed (eview (snd w)) = NR /\ (8 | NR); f_got : v_got (eview (snd w)) = [];
  f_empty s : 0 <= s < NR -> marker (v_mem (eview (snd w))) s = 0 }.

Lemma fresh_idle w : fresh w -> idle [] w.
Proof.
  intros []. split; [done|]. rewrite f_rx0, f_got0. destruct lay_ok as (_ & Hlen & Hd), f_pushed0 as [Hp H8]. pose proof NR_pos. split; [by rewrite Zmod_0_l|]. split; [done|].
  exists 0. split; [|destruct (kX2522Plus c); done]. split; cbn; rewrite ?f_init0, ?f_got0, ?Hp; try done; try (cbn; lia).
  - intros i a Hi. pose proof (lookup_lt_Some _ _ _ Hi). unfold slot. rewrite (Hd _ _ Hi), Z.mod_small by lia. done.
Qed.
End Contract.

End Rx.

#[local] Instance ex_lib : EfViLib Sim.sim := Sim.sim_lib ex_config 14 4 id.
#[local] Instance ex_laws : EfViLaws ex_config 14 4 id Sim.sim := Sim.sim_laws ex_config 14 4 id.
Definition ex_frame (x : Z) : bytes := replicate 14 9 ++ replicate 12 1 ++ [8; 0; x].
Definition ex_arrivals : list bytes := ex_frame <$> seqZ 1 9.

Lemma ex_fresh : Rx.fresh ex_config 14 4 id ex_layout (ex_efvi, ex_sim ex_arrivals).
Proof.
  split; try reflexivity.
  - cbn. apply Forall_replicate. by_decision.
  - discriminate.
  - split; [reflexivity|by exists 1].
  - intros s Hs. cbn [NbRxBufs ex_config] in Hs. assert (s ∈ seqZ 0 8) as Hin by (apply elem_of_seqZ; lia). clear Hs; revert s Hin.
    apply list.Forall_forall. repeat (constructor; [reflexivity|]). constructor.
Qed.


Example efvi_rx_run :
  match fst (@receive_n _ (EfVi_RxRing ex_config) 12 (ex_efvi, ex_sim ex_arrivals)) with
  | Done fs => (fun f => f !! 14%nat) <$> fs = (fun x => Some x) <$> seqZ 1 9
  | _ => False
  end.
Proof. vm_compute. reflexivity. Qed.
