(* ===== verification/EfViSetup.v ===== *)
(** * The ef_vi transport: set-up
    (src/backends/EtherFabricVirtualInterface/EtherFabricVirtualInterface.hpp)

    The constructor, [init] with [readMac] and [initX2522PlusTx], [shutdown] and the
    destructor, over the operations of libciul and the C library ([EfViSys]); the printed
    statistics are left out. *)

From S2P Require Import Prelude CStrings TestConfig EfVi EfViTx EfViRx Resources.

Inductive vi_flag := EF_VI_TX_CTPIO | EF_VI_RX_TIMESTAMPS | EF_VI_TX_TIMESTAMPS | EF_VI_RX_EVENT_MERGE.
Inductive vi_cap := EF_VI_CAP_CTPIO | EF_VI_CAP_HW_RX_TIMESTAMPING | EF_VI_CAP_HW_TX_TIMESTAMPING.
Inductive vi_arch := EF_VI_ARCH_EF10 | EF_VI_ARCH_EFCT | EF_VI_ARCH_OTHER.

Definition ENOKEY : Z := 126.
Definition EPERM : Z := 1.
Definition kTxGuardSlots : Z := 1.
Definition kHugePage : Z := 2 * 1024 * 1024.
Definition kTxUsrBufIdOffsetBits : Z := 44.
Definition kTxUsrBufPageSizeBits : Z := 4.
Definition kTxUsrBufPageSizeLbn : Z := 44.
Definition kProbeLen : Z := 64.

(** ** The members [init] and [shutdown] work with

    The library's structures by handle; [m_mem] is null when 0. *)
Record Handles := mk_handles {
  m_dh : Z; m_pd : Z; m_vi : Z; m_memreg : Z; m_mem : Z;
  m_haveDriver : bool; m_havePd : bool; m_haveVi : bool; m_haveMemreg : bool; m_memHuge : bool }.
Record Members := mk_members {
  m_ifname : string; m_mac : list Z; m_hs : Handles; m_evMerge : bool; m_memBytes : Z; m_txPad : Z; m_lay : Layout }.

Definition set_mac (x : list Z) (o : Members) := mk_members (m_ifname o) x (m_hs o) (m_evMerge o) (m_memBytes o) (m_txPad o) (m_lay o).
Definition set_hs (f : Handles -> Handles) (o : Members) := mk_members (m_ifname o) (m_mac o) (f (m_hs o)) (m_evMerge o) (m_memBytes o) (m_txPad o) (m_lay o).
Definition set_evMerge (o : Members) := mk_members (m_ifname o) (m_mac o) (m_hs o) true (m_memBytes o) (m_txPad o) (m_lay o).
Definition set_memBytes (x : Z) (o : Members) := mk_members (m_ifname o) (m_mac o) (m_hs o) (m_evMerge o) x (m_txPad o) (m_lay o).
Definition set_txPad (x : Z) (o : Members) := mk_members (m_ifname o) (m_mac o) (m_hs o) (m_evMerge o) (m_memBytes o) x (m_lay o).
Definition set_lay (f : Layout -> Layout) (o : Members) := mk_members (m_ifname o) (m_mac o) (m_hs o) (m_evMerge o) (m_memBytes o) (m_txPad o) (f (m_lay o)).

Definition h_dh (x : Z) (h : Handles) := mk_handles x (m_pd h) (m_vi h) (m_memreg h) (m_mem h) (m_haveDriver h) (m_havePd h) (m_haveVi h) (m_haveMemreg h) (m_memHuge h).
Definition h_driver (b : bool) (h : Handles) := mk_handles (m_dh h) (m_pd h) (m_vi h) (m_memreg h) (m_mem h) b (m_havePd h) (m_haveVi h) (m_haveMemreg h) (m_memHuge h).
Definition h_pd (x : Z) (b : bool) (h : Handles) := mk_handles (m_dh h) x (m_vi h) (m_memreg h) (m_mem h) (m_haveDriver h) b (m_haveVi h) (m_haveMemreg h) (m_memHuge h).
Definition h_vi (x : Z) (b : bool) (h : Handles) := mk_handles (m_dh h) (m_pd h) x (m_memreg h) (m_mem h) (m_haveDriver h) (m_havePd h) b (m_haveMemreg h) (m_memHuge h).
Definition h_memreg (x : Z) (b : bool) (h : Handles) := mk_handles (m_dh h) (m_pd h) (m_vi h) x (m_mem h) (m_haveDriver h) (m_havePd h) (m_haveVi h) b (m_memHuge h).
Definition h_mem (x : Z) (h : Handles) := mk_handles (m_dh h) (m_pd h) (m_vi h) (m_memreg h) x (m_haveDriver h) (m_havePd h) (m_haveVi h) (m_haveMemreg h) (m_memHuge h).
Definition h_huge (b : bool) (h : Handles) := mk_handles (m_dh h) (m_pd h) (m_vi h) (m_memreg h) (m_mem h) (m_haveDriver h) (m_havePd h) (m_haveVi h) (m_haveMemreg h) b.

Definition l_txBase (x : Z) (y : Layout) := mk_layout (m_rxPrefix y) x (m_rxDma y) (m_txDma y) (m_txDescBase y) (m_rxTsCorrection y).
Definition l_rxDma (i a : Z) (y : Layout) := mk_layout (m_rxPrefix y) (m_txBase y) (<[Z.to_nat i := a]> (m_rxDma y)) (m_txDma y) (m_txDescBase y) (m_rxTsCorrection y).
Definition l_txDma (i a : Z) (y : Layout) := mk_layout (m_rxPrefix y) (m_txBase y) (m_rxDma y) (<[Z.to_nat i := a]> (m_txDma y)) (m_txDescBase y) (m_rxTsCorrection y).
Definition l_descBase (i a : Z) (y : Layout) := mk_layout (m_rxPrefix y) (m_txBase y) (m_rxDma y) (m_txDma y) (<[Z.to_nat i := a]> (m_txDescBase y)) (m_rxTsCorrection y).
Definition l_rxPrefix (x : Z) (y : Layout) := mk_layout x (m_txBase y) (m_rxDma y) (m_txDma y) (m_txDescBase y) (m_rxTsCorrection y).
Definition l_tsCorrection (x : Z) (y : Layout) := mk_layout (m_rxPrefix y) (m_txBase y) (m_rxDma y) (m_txDma y) (m_txDescBase y) x.

(** The constructor. *)
Definition construct (c : config) (ifname : string) : Members :=
  mk_members ifname (replicate 6 0) (mk_handles (-1) 0 0 0 0 false false false false false) false 0 0
    (mk_layout 0 (NbRxBufs c + kTxGuardSlots) (replicate (Z.to_nat (NbRxBufs c)) 0) (replicate (Z.to_nat (NbTxBufs c)) 0) (replicate (Z.to_nat (NbTxBufs c)) 0) 0).

(** ** The library and system calls

    A call with an output answers the status and the handle; [mmap] is 0 for [MAP_FAILED]. *)
Class EfViSys (W : Type) := {
  fopen : string -> W -> Z * W;
  fread_text : Z -> W -> string * W;
  fclose : Z -> W -> W;
  getenv : string -> W -> option string;
  if_nametoindex : string -> W -> Z * W;
  ef_driver_open : W -> (Z * Z) * W;
  ef_driver_close : Z -> W -> W;
  ef_pd_alloc : Z -> Z -> W -> (Z * Z) * W;
  ef_pd_free : Z -> Z -> W -> W;
  ef_vi_capabilities_get : Z -> Z -> vi_cap -> W -> (Z * Z) * W;
  ef_vi_alloc_from_pd : Z -> Z -> list vi_flag -> W -> (Z * Z) * W;
  ef_vi_free : Z -> Z -> W -> W;
  mmap : Z -> W -> Z * W;
  munmap : Z -> Z -> W -> W;
  free : Z -> W -> W;
  memclear : Z -> Z -> W -> W;
  ef_memreg_alloc : Z -> Z -> Z -> Z -> W -> (Z * Z) * W;
  ef_memreg_free : Z -> Z -> W -> W;
  ef_memreg_dma_addr : Z -> Z -> W -> Z;
  ef_filter_spec_set_eth_local : list Z -> W -> Z * W;
  ef_vi_filter_add : Z -> Z -> list Z -> W -> Z * W;
  ef_vi_receive_space : Z -> W -> Z;
  ef_vi_receive_post : Z -> Z -> Z -> W -> Z * W;
  ef_vi_receive_prefix_len : Z -> W -> Z;
  (* fields of [ef_vi] *)
  nic_arch : Z -> W -> vi_arch;
  vi_ctpio_mmap_ptr : Z -> W -> Z;
  vi_tx_phys_addr : Z -> W -> bool;
  tx_push_thresh : Z -> W -> Z;
  ts_quarter_ns : Z -> W -> bool;
  rx_ts_correction : Z -> W -> Z;
  vi_txq_mask : Z -> W -> Z;
  vi_txq_added : Z -> W -> Z;
  set_vi_txq_added : Z -> Z -> W -> W;
  vi_txq_descriptor : Z -> Z -> W -> Z;
  clear_vi_txq_id : Z -> Z -> W -> W;
  ef_vi_transmitv_init : Z -> Z -> Z -> Z -> W -> Z * W;
}.

Section Operations.
Context {W : Type} {VS : EfViSys W} (c : config).
Abbreviation S := (Members * W)%type.
Abbreviation M' := (Prelude.M S).

Definition on_hs (f : Handles -> Handles) : M' unit := upd (set_hs f).
Definition on_lay (f : Layout -> Layout) : M' unit := upd (set_lay f).
Definition peek {A} (f : Members -> W -> A) : M' A := gets (fun s => f (fst s) (snd s)).

(** [readMac] *)
Definition readMac : M' bool :=
  o ← gets fst;
  f ← sys (fopen ("/sys/class/net/" ++ m_ifname o ++ "/address"));
  if f =? 0 then mret false else
  text ← sys (fread_text f);
  act (fclose f) ;;
  let b := scan_macs 6 text in
  if decide (length b <> 6%nat) then mret false else
  upd (set_mac (u8 <$> b)) ;;
  mret true.

(** [initX2522PlusTx]: the slots from [s] on. *)
Fixpoint probe_slots (n : nat) (s : Z) : M' bool :=
  match n with
  | O => mret true
  | Datatypes.S n =>
      o ← gets fst;
      let vi := m_vi (m_hs o) in
      mask ← peek (fun _ => vi_txq_mask vi);
      let vaddr := default 0 (m_txDma (m_lay o) !! Z.to_nat s) in
      let idOff := Z.land vaddr 281474976710655 in
      let order := Z.shiftr vaddr 48 in
      if negb (Z.shiftr idOff kTxUsrBufIdOffsetBits =? 0) || negb (Z.shiftr order kTxUsrBufPageSizeBits =? 0) then mret false else
      let base := Z.lor (u64 (Z.shiftl order kTxUsrBufPageSizeLbn)) idOff in
      on_lay (l_descBase s base) ;;
      added ← peek (fun _ => vi_txq_added vi);
      let di := Z.land added mask in
      rc ← sys (ef_vi_transmitv_init vi vaddr kProbeLen s);
      if negb (rc =? 0) then mret false else
      lib ← peek (fun _ => vi_txq_descriptor vi di);
      act (set_vi_txq_added vi added) ;;
      act (clear_vi_txq_id vi di) ;;
      let ours := Z.lor base (Z.shiftl kProbeLen kTxUsrByteCntLbn) in
      if negb (lib =? ours) then mret false else
      probe_slots n (s + 1)
  end.

Definition initX2522PlusTx : M' bool :=
  o ← gets fst;
  let vi := m_vi (m_hs o) in
  bad ← peek (fun _ w => match nic_arch vi w with EF_VI_ARCH_EF10 => false | _ => true end || (vi_ctpio_mmap_ptr vi w =? 0) || vi_tx_phys_addr vi w);
  if (bad : bool) then mret false else
  ok ← probe_slots (Z.to_nat (NbTxBufs c)) 0;
  if negb ok then mret false else
  t ← peek (fun _ => tx_push_thresh vi);
  mret (negb (t =? 0)).

(** The capabilities asked for, and the flags they give. *)
Definition want_cap (ifindex : Z) (cap : vi_cap) : M' bool :=
  o ← gets fst;
  r ← sys (ef_vi_capabilities_get (m_dh (m_hs o)) ifindex cap);
  mret ((fst r =? 0) && negb (snd r =? 0)).

Definition want_flag (wanted : bool) (ifindex : Z) (cap : vi_cap) (flag : vi_flag) (flags : option (list vi_flag)) : M' (option (list vi_flag)) :=
  match flags with
  | None => mret None
  | Some flags => if wanted then ok ← want_cap ifindex cap; mret (if (ok : bool) then Some (flags ++ [flag]) else None) else mret (Some flags)
  end.

Definition vi_flags (ifindex : Z) : M' (option (list vi_flag)) :=
  f ← want_flag (HAS_TX c && UseCtpio c) ifindex EF_VI_CAP_CTPIO EF_VI_TX_CTPIO (Some []);
  f ← want_flag (HwTimestamps c && HAS_RX c) ifindex EF_VI_CAP_HW_RX_TIMESTAMPING EF_VI_RX_TIMESTAMPS f;
  want_flag (HwTimestamps c && HAS_TX c) ifindex EF_VI_CAP_HW_TX_TIMESTAMPING EF_VI_TX_TIMESTAMPS f.

(** The virtual interface, with the retry for adapters that merge events. *)
Definition alloc_vi (flags : list vi_flag) : M' bool :=
  o ← gets fst;
  r ← sys (ef_vi_alloc_from_pd (m_dh (m_hs o)) (m_pd (m_hs o)) flags);
  if HwTimestamps c && (fst r =? - ENOKEY) then mret false else
  r ← (if fst r =? - EPERM then
         r ← sys (ef_vi_alloc_from_pd (m_dh (m_hs o)) (m_pd (m_hs o)) (flags ++ [EF_VI_RX_EVENT_MERGE]));
         upd set_evMerge ;; mret r
       else mret r);
  if negb (fst r =? 0) then mret false else
  on_hs (h_vi (snd r) true) ;;
  arch ← peek (fun _ => nic_arch (snd r));
  mret (match arch with EF_VI_ARCH_EFCT => false | _ => true end).

(** The padding between the receive and the transmit slots. *)
Definition read_pad : M' unit :=
  if HAS_TX c then
    pad ← peek (fun o w => match getenv ("ABTRDA3_TX_PAD_" ++ m_ifname o) w with Some v => Some v | None => getenv "ABTRDA3_TX_PAD" w end);
    match pad with Some v => upd (set_txPad (Z.min (u32 (atoi v)) 512)) | None => mret tt end
  else mret tt.

Definition round_huge (n : Z) : Z := Z.land (n + kHugePage - 1) (Z.lnot (kHugePage - 1)).

Definition alloc_mem : M' bool :=
  read_pad ;;
  o ← gets fst;
  on_lay (l_txBase (u32 (NbRxBufs c + kTxGuardSlots + m_txPad o))) ;;
  upd (set_memBytes (round_huge (u32 (NbRxBufs c + NbTxBufs c + 2 * kTxGuardSlots + m_txPad o) * BufSize c))) ;;
  o ← gets fst;
  m ← sys (mmap (m_memBytes o));
  on_hs (h_mem m) ;;
  if m =? 0 then mret false else
  on_hs (h_huge true) ;;
  act (memclear m (m_memBytes o)) ;;
  let h := m_hs o in
  r ← sys (ef_memreg_alloc (m_dh h) (m_pd h) m (m_memBytes o));
  if negb (fst r =? 0) then mret false else
  on_hs (h_memreg (snd r) true) ;;
  mret true.

Definition dma_addrs : M' unit :=
  for_loop (Z.to_nat (NbRxBufs c)) 0 (fun i =>
    a ← peek (fun o => ef_memreg_dma_addr (m_memreg (m_hs o)) (i * BufSize c));
    on_lay (l_rxDma i a)) ;;
  for_loop (Z.to_nat (NbTxBufs c)) 0 (fun s =>
    a ← peek (fun o => ef_memreg_dma_addr (m_memreg (m_hs o)) (u32 (m_txBase (m_lay o) + s) * BufSize c + kTxHdrBytes c));
    on_lay (l_txDma s a)).

(** [for (i = 0; i < NbRxBufs && ef_vi_receive_space(&m_vi) > 0; ++i)] *)
Fixpoint post_rx (n : nat) (i : Z) : M' unit :=
  match n with
  | O => mret tt
  | Datatypes.S n =>
      o ← gets fst;
      let vi := m_vi (m_hs o) in
      space ← peek (fun _ => ef_vi_receive_space vi);
      if 0 <? space then
        rc ← sys (ef_vi_receive_post vi (default 0 (m_rxDma (m_lay o) !! Z.to_nat i)) i);
        if negb (rc =? 0) then mret tt else post_rx n (i + 1)
      else mret tt
  end.

Definition init_rx : M' bool :=
  o ← gets fst;
  let h := m_hs o in
  rc ← sys (ef_filter_spec_set_eth_local (m_mac o));
  if negb (rc =? 0) then mret false else
  rc ← sys (ef_vi_filter_add (m_vi h) (m_dh h) (m_mac o));
  if negb (rc =? 0) then mret false else
  post_rx (Z.to_nat (NbRxBufs c)) 0 ;;
  p ← peek (fun _ => ef_vi_receive_prefix_len (m_vi h));
  on_lay (l_rxPrefix p) ;;
  if HwTimestamps c then
    if p =? 0 then mret false else
    q ← peek (fun _ => ts_quarter_ns (m_vi h));
    if negb q then mret false else
    corr ← peek (fun _ => rx_ts_correction (m_vi h));
    on_lay (l_tsCorrection (u32 corr)) ;;
    mret true
  else mret true.

(** [init] *)
Definition init : M' bool :=
  ok ← readMac;
  if negb ok then mret false else
  o ← gets fst;
  ifindex ← sys (if_nametoindex (m_ifname o));
  if ifindex =? 0 then mret false else
  r ← sys ef_driver_open;
  on_hs (h_dh (snd r)) ;;
  if negb (fst r =? 0) then mret false else
  on_hs (h_driver true) ;;
  p ← sys (ef_pd_alloc (snd r) (sint 32 ifindex));
  if negb (fst p =? 0) then mret false else
  on_hs (h_pd (snd p) true) ;;
  flags ← vi_flags (sint 32 ifindex);
  match flags with
  | None => mret false
  | Some flags =>
      ok ← alloc_vi flags;
      if negb ok then mret false else
      ok ← alloc_mem;
      if negb ok then mret false else
      dma_addrs ;;
      ok ← (if kX2522Plus c then initX2522PlusTx else mret true);
      if negb ok then mret false else
      if HAS_RX c then init_rx else mret true
  end.

(** [shutdown] *)
Definition shutdown : M' unit :=
  h ← gets (fun s => m_hs (fst s));
  (if m_haveVi h then act (ef_vi_free (m_vi h) (m_dh h)) ;; on_hs (h_vi (m_vi h) false) else mret tt) ;;
  (if m_haveMemreg h then act (ef_memreg_free (m_memreg h) (m_dh h)) ;; on_hs (h_memreg (m_memreg h) false) else mret tt) ;;
  o ← gets fst;
  (if m_mem h =? 0 then mret tt
   else act (if m_memHuge h then munmap (m_mem h) (m_memBytes o) else free (m_mem h)) ;; on_hs (h_mem 0)) ;;
  (if m_havePd h then act (ef_pd_free (m_pd h) (m_dh h)) ;; on_hs (h_pd (m_pd h) false) else mret tt) ;;
  (if m_haveDriver h then act (ef_driver_close (m_dh h)) ;; on_hs (h_driver false) else mret tt).

Definition dtor : M' unit := shutdown.
End Operations.

(** ** What the calls promise *)

Definition kFile : Z := 1.
Definition kDriver : Z := 2.
Definition kPd : Z := 3.
Definition kVi : Z := 4.
Definition kMap : Z := 5.
Definition kHeap : Z := 6.
Definition kMemreg : Z := 7.

(** The library's objects depend on those they were made from; [host] is the offset in the
    registered memory a DMA address stands for. *)
Class EfViSysLaws (W : Type) `{EfViSys W} := {
  rs : W -> resources;
  host : Z -> Z;
  fopen_law p w : granted (negb (fst (fopen p w) =? 0)) kFile (fst (fopen p w)) [] (rs w) (rs (snd (fopen p w)));
  fread_law f w : rs (snd (fread_text f w)) = rs w;
  fclose_law f w : released (kFile, f) (rs w) (rs (fclose f w));
  nametoindex_law n w : rs (snd (if_nametoindex n w)) = rs w;
  driver_open_law w : granted (fst (fst (ef_driver_open w)) =? 0) kDriver (snd (fst (ef_driver_open w))) [] (rs w) (rs (snd (ef_driver_open w)));
  driver_close_law d w : released (kDriver, d) (rs w) (rs (ef_driver_close d w));
  pd_alloc_law d i w : granted (fst (fst (ef_pd_alloc d i w)) =? 0) kPd (snd (fst (ef_pd_alloc d i w))) [(kDriver, d)] (rs w) (rs (snd (ef_pd_alloc d i w)));
  pd_free_law p d w : released (kPd, p) (rs w) (rs (ef_pd_free p d w));
  cap_law d i k w : rs (snd (ef_vi_capabilities_get d i k w)) = rs w;
  vi_alloc_law d p f w : granted (fst (fst (ef_vi_alloc_from_pd d p f w)) =? 0) kVi (snd (fst (ef_vi_alloc_from_pd d p f w))) [(kPd, p); (kDriver, d)] (rs w) (rs (snd (ef_vi_alloc_from_pd d p f w)));
  vi_free_law v d w : released (kVi, v) (rs w) (rs (ef_vi_free v d w));
  mmap_law n w : granted (negb (fst (mmap n w) =? 0)) kMap (fst (mmap n w)) [] (rs w) (rs (snd (mmap n w)));
  munmap_law p n w : released (kMap, p) (rs w) (rs (munmap p n w));
  free_law p w : released (kHeap, p) (rs w) (rs (free p w));
  memclear_law p n w : rs (memclear p n w) = rs w;
  memreg_alloc_law d p m n w : granted (fst (fst (ef_memreg_alloc d p m n w)) =? 0) kMemreg (snd (fst (ef_memreg_alloc d p m n w))) [(kMap, m); (kPd, p); (kDriver, d)] (rs w) (rs (snd (ef_memreg_alloc d p m n w)));
  memreg_free_law r d w : released (kMemreg, r) (rs w) (rs (ef_memreg_free r d w));
  dma_addr_law r o w : host (ef_memreg_dma_addr r o w) = o;
  set_eth_law m w : rs (snd (ef_filter_spec_set_eth_local m w)) = rs w;
  filter_add_law v d m w : rs (snd (ef_vi_filter_add v d m w)) = rs w;
  receive_post_law v a i w : rs (snd (ef_vi_receive_post v a i w)) = rs w;
  set_added_law v n w : rs (set_vi_txq_added v n w) = rs w;
  clear_id_law v n w : rs (clear_vi_txq_id v n w) = rs w;
  transmitv_law v a n i w : rs (snd (ef_vi_transmitv_init v a n i w)) = rs w;
}.

Section Balance.
Context {W : Type} {VS : EfViSys W} {VL : EfViSysLaws W} (c : config).
Abbreviation S := (Members * W)%type.
Implicit Types (base : resources) (h : Handles).

Definition owned h : list (key * list key) :=
  opt_if (m_haveDriver h) kDriver (m_dh h) [] ++ opt_if (m_havePd h) kPd (m_pd h) [(kDriver, m_dh h)] ++
  opt_if (negb (m_mem h =? 0)) kMap (m_mem h) [] ++
  opt_if (m_haveMemreg h) kMemreg (m_memreg h) [(kMap, m_mem h); (kPd, m_pd h); (kDriver, m_dh h)] ++
  opt_if (m_haveVi h) kVi (m_vi h) [(kPd, m_pd h); (kDriver, m_dh h)].

(** What the object's flags say it owns is what is live on top of [base]. *)
Definition Inv base (s : S) : Prop :=
  holds base (owned (m_hs (fst s))) (rs (snd s)) /\ (m_mem (m_hs (fst s)) <> 0 -> m_memHuge (m_hs (fst s)) = true).

Definition live (s : S) : Handles * resources := (m_hs (fst s), rs (snd s)).

Lemma inv_live base s s' : live s' = live s -> Inv base s -> Inv base s'.
Proof. unfold live, Inv. by intros [= -> ->]. Qed.

Lemma quiet {A} base (m : Prelude.M S A) s : fixes live m -> Inv base s -> ends m (fun _ => Inv base) s.
Proof. intros Hm Hi. eapply ends_mono; [apply Hm|]. cbn. intros _ s' He. by eapply inv_live. Qed.

Ltac calls := unfold live; cbn [fst snd m_hs set_mac set_hs set_evMerge set_memBytes set_txPad set_lay];
  rewrite ?nametoindex_law, ?cap_law, ?memclear_law, ?set_eth_law, ?filter_add_law, ?receive_post_law, ?set_added_law, ?clear_id_law, ?transmitv_law; done.

Lemma probe_quiet n s : fixes live (probe_slots n s).
Proof. revert s; induction n as [|n IH]; intros s; cbn [probe_slots]; unchanged; try apply IH; calls. Qed.

Lemma plus_quiet : fixes live (initX2522PlusTx c).
Proof. unfold initX2522PlusTx. unchanged. apply probe_quiet. Qed.

Lemma post_quiet n i : fixes live (post_rx n i).
Proof. revert i; induction n as [|n IH]; intros i; cbn [post_rx]; unchanged; try apply IH; calls. Qed.

Lemma init_rx_quiet : fixes live (init_rx c).
Proof. unfold init_rx. unchanged; try apply post_quiet; calls. Qed.

Lemma dma_quiet : fixes live (dma_addrs c).
Proof. unfold dma_addrs. unchanged; calls. Qed.

Lemma flags_quiet i : fixes live (vi_flags c i).
Proof. unfold vi_flags, want_flag, want_cap. unchanged; calls. Qed.

Lemma pad_quiet : fixes live (read_pad c).
Proof. unfold read_pad. unchanged; calls. Qed.

Lemma readMac_live (s : S) : closed (rs (snd s)) -> ends readMac (fun _ s' => live s' = live s) s.
Proof.
  destruct s as [o w]. intros Hcl. unfold readMac. apply ends_gets, ends_sys. cbn [fst].
  pose proof (fopen_law ("/sys/class/net/" ++ m_ifname o ++ "/address") w) as Hg. destruct (fopen _ w) as [f w1]. cbn [fst snd] in *.
  destruct (f =? 0); [apply ends_ret; unfold live; cbn; by rewrite Hg|]. apply ends_sys, ends_act. cbn [negb] in Hg.
  rewrite <- (fread_law f w1) in Hg. pose proof (scoped _ _ _ _ _ Hcl Hg (fclose_law f _)) as He.
  case_decide; [|apply ends_upd]; apply ends_ret; unfold live; cbn; by rewrite He.
Qed.

Lemma owned_grow base (o o' : Members) (w w' : W) ok k x ps :
  Inv base (o, w) -> granted ok k x ps (rs w) (rs w') -> owned (m_hs o') ≡ₚ owned (m_hs o) ++ opt_if ok k x ps ->
  (m_mem (m_hs o') <> 0 -> m_memHuge (m_hs o') = true) -> Inv base (o', w').
Proof. intros [Hi _] Hg Hp Hm. split; [|done]. eapply holds_perm; [symmetry; exact Hp|]. by eapply grow_if. Qed.

(** The virtual interface. *)
Definition before_vi d p : Handles := mk_handles d p 0 0 0 true true false false false.

Lemma alloc_vi_ends base f (o : Members) (w : W) d p : Inv base (o, w) -> m_hs o = before_vi d p ->
  ends (alloc_vi c f) (fun ok s' => Inv base s' /\ exists v, (ok = true -> m_hs (fst s') = h_vi v true (before_vi d p))) (o, w).
Proof.
  intros Hi Hh. unfold alloc_vi. apply ends_gets, ends_sys. cbn [fst]. rewrite Hh. cbn [m_dh m_pd before_vi].
  pose proof (vi_alloc_law d p f w) as Hg. destruct (ef_vi_alloc_from_pd d p f w) as [[rc v] w1]. cbn [fst snd] in *.
  assert (forall o1 rc v w2, m_hs o1 = before_vi d p -> Inv base (o, w) -> granted (rc =? 0) kVi v [(kPd, p); (kDriver, d)] (rs w) (rs w2) ->
    ends (if negb (rc =? 0) then mret false else on_hs (h_vi v true) ;; arch ← peek (fun _ => nic_arch v); mret (match arch with EF_VI_ARCH_EFCT => false | _ => true end))
      (fun ok s' => Inv base s' /\ exists v, (ok = true -> m_hs (fst s') = h_vi v true (before_vi d p))) (o1, w2)) as Hend.
  { intros o1 rc' v' w2 Ho1 Hi1 Hg1. destruct (rc' =? 0); cbn [negb].
    - apply ends_upd, ends_gets, ends_ret. split; [|exists v'; intros _; cbn; by rewrite Ho1]. eapply owned_grow; [exact Hi1|exact Hg1| |].
      + cbn [m_hs set_hs]. rewrite Ho1, Hh. done.
      + cbn. by rewrite Ho1.
    - apply ends_ret. split; [|by exists 0]. eapply inv_live; [|exact Hi1]. unfold live. cbn [fst snd]. by rewrite Hg1, Ho1, Hh. }
  destruct (HwTimestamps c && (rc =? - ENOKEY)) eqn:Ek.
  { apply ends_ret. split; [|by exists 0]. apply andb_prop in Ek as [_ Ek]. apply Z.eqb_eq in Ek as ->. cbn in Hg. eapply inv_live; [|exact Hi]. unfold live. cbn. by rewrite Hg. }
  apply ends_bind. destruct (Z.eqb_spec rc (- EPERM)) as [->|_].
  - cbn in Hg. apply ends_sys. cbn [snd]. pose proof (vi_alloc_law d p (f ++ [EF_VI_RX_EVENT_MERGE]) w1) as Hg2.
    destruct (ef_vi_alloc_from_pd d p (f ++ [EF_VI_RX_EVENT_MERGE]) w1) as [[rc2 v2] w2]. cbn [fst snd] in *. apply ends_upd, ends_ret. rewrite Hg in Hg2. by apply Hend.
  - apply ends_ret. by apply Hend.
Qed.

Lemma alloc_mem_ends base (o : Members) (w : W) d p v : Inv base (o, w) -> m_hs o = h_vi v true (before_vi d p) ->
  ends (alloc_mem c) (fun _ => Inv base) (o, w).
Proof.
  intros Hi Hh. unfold alloc_mem. apply ends_bind. eapply ends_mono; [apply pad_quiet|]. cbn beta. intros _ [o1 w1] He1.
  apply (inv_live base _ _ He1) in Hi as Hi1. unfold live in He1. cbn [fst snd] in He1. injection He1 as Hh1 _. rewrite Hh in Hh1.
  apply ends_gets, ends_upd, ends_upd, ends_gets, ends_sys. cbn [fst]. set (n := m_memBytes _). set (o2 := set_memBytes _ _).
  assert (m_hs o2 = h_vi v true (before_vi d p)) as Hh2 by done. assert (Inv base (o2, w1)) as Hi2 by (eapply inv_live; [|exact Hi1]; done). clearbody o2 n.
  pose proof (mmap_law n w1) as Hg. destruct (mmap n w1) as [m w2]. cbn [fst snd] in *. apply ends_upd. destruct (Z.eqb_spec m 0) as [->|Hm]; cbn [negb] in Hg.
  { apply ends_ret. eapply inv_live; [|exact Hi2]. unfold live. cbn. by rewrite Hg, Hh2. }
  apply ends_upd, ends_act, ends_sys. cbn [fst m_hs]. rewrite Hh2. cbn [m_dh m_pd h_vi before_vi set_hs m_hs h_mem h_huge].
  rewrite <- (memclear_law m n w2) in Hg. set (w3 := memclear m n w2) in *.
  assert (Inv base (set_hs (h_huge true) (set_hs (h_mem m) o2), w3)) as Hi3.
  { eapply owned_grow; [exact Hi2|exact Hg| |done]. cbn [m_hs set_hs]. rewrite Hh2. unfold owned. cbn -[opt_if]. rewrite (proj2 (Z.eqb_neq _ _)) by done.
    unfold opt_if. cbn [app negb]. solve_Permutation. }
  pose proof (memreg_alloc_law d p m n w3) as Hg2. destruct (ef_memreg_alloc d p m n w3) as [[rc mr] w4]. cbn [fst snd] in *. destruct (rc =? 0); cbn [negb].
  - apply ends_upd, ends_ret. eapply owned_grow; [exact Hi3|exact Hg2| |done]. cbn [m_hs set_hs]. rewrite Hh2. unfold owned. cbn -[opt_if].
    rewrite (proj2 (Z.eqb_neq _ _)) by done. unfold opt_if. cbn [app negb]. solve_Permutation.
  - apply ends_ret. eapply inv_live; [|exact Hi3]. unfold live. cbn [fst snd]. by rewrite Hg2.
Qed.

Lemma efvi_init_ends base n (w : W) : closed (rs w) -> Inv base (construct c n, w) -> ends (init c) (fun _ => Inv base) (construct c n, w).
Proof.
  intros Hcl Hi. unfold init. apply ends_bind. eapply ends_mono; [by apply readMac_live|]. cbn beta. intros ok [o1 w1] He.
  apply (inv_live base _ _ He) in Hi. unfold live in He. injection He as Hh _. cbn in Hh. destruct (negb ok); [by apply ends_ret|].
  apply ends_gets, ends_sys. cbn [fst]. pose proof (nametoindex_law (m_ifname o1) w1) as Hn. destruct (if_nametoindex _ w1) as [i w2]. cbn [fst snd] in *.
  apply (inv_live base _ (o1, w2)) in Hi; [|unfold live; cbn; by rewrite Hn]. destruct (i =? 0); [by apply ends_ret|].
  apply ends_sys. pose proof (driver_open_law w2) as Hd. destruct (ef_driver_open w2) as [[rc d] w3]. cbn [fst snd] in *. apply ends_upd.
  destruct (rc =? 0); cbn [negb].
  2: { apply ends_ret. split; [|cbn; by rewrite Hh]. destruct Hi as [Hi _]. cbn in *. rewrite Hd. unfold owned in *. by rewrite Hh in *. }
  apply ends_upd, ends_sys.
  assert (Inv base (set_hs (h_driver true) (set_hs (h_dh d) o1), w3)) as Hi3.
  { eapply owned_grow; [exact Hi|exact Hd|cbn [m_hs set_hs]; rewrite Hh; done|cbn; by rewrite Hh]. }
  pose proof (pd_alloc_law d (sint 32 i) w3) as Hp. destruct (ef_pd_alloc d (sint 32 i) w3) as [[rc2 p] w4]. cbn [fst snd] in *. destruct (rc2 =? 0); cbn [negb].
  2: { apply ends_ret. eapply inv_live; [|exact Hi3]. unfold live. cbn [fst snd]. by rewrite Hp. }
  apply ends_upd. set (o4 := set_hs (h_pd p true) _). assert (m_hs o4 = before_vi d p) as Hh4 by (cbn; by rewrite Hh).
  assert (Inv base (o4, w4)) as Hi4 by (eapply owned_grow; [exact Hi3|exact Hp|cbn [m_hs set_hs o4]; rewrite Hh; done|by rewrite Hh4]). clearbody o4.
  apply ends_bind. eapply ends_mono; [apply flags_quiet|]. cbn beta. intros flags [o5 w5] He.
  apply (inv_live base _ _ He) in Hi4. unfold live in He. injection He as Hh5 _. cbn in Hh5. rewrite Hh4 in Hh5. destruct flags as [flags|]; [|by apply ends_ret].
  apply ends_bind. eapply ends_mono; [by apply (alloc_vi_ends base flags o5 w5 d p)|]. cbn beta. intros ok6 [o6 w6] [Hi6 [v Hv]]. destruct ok6; cbn [negb]; [|by apply ends_ret].
  apply ends_bind. eapply ends_mono; [apply (alloc_mem_ends base o6 w6 d p v Hi6 (Hv eq_refl))|]. cbn beta. intros ok7 s7 Hi7. destruct (negb ok7); [by apply ends_ret|].
  apply ends_bind. eapply ends_mono; [by apply (quiet base); [apply dma_quiet|]|]. cbn beta. intros _ s8 Hi8.
  apply (quiet base); [|exact Hi8]. apply fixes_bind; [apply fixes_if; [apply plus_quiet|apply fixes_ret]|]. intros ok8.
  apply fixes_if; [apply fixes_ret|]. apply fixes_if; [apply init_rx_quiet|apply fixes_ret].
Qed.

(** ** [shutdown] *)

Lemma apart_if k b k' x ps : apart k ((k', x), ps) -> Forall (apart k) (opt_if b k' x ps).
Proof. intros Ha. destruct b; by repeat constructor. Qed.

(** One object goes, if the flag says so. *)
Lemma shut_ends base (o : Members) (w : W) (b : bool) (g : W -> W) f k x ps :
  closed base -> (forall w, released (k, x) (rs w) (rs (g w))) -> owned (m_hs o) = owned (f (m_hs o)) ++ opt_if b k x ps ->
  Forall (apart k) (((k, x), ps) :: owned (f (m_hs o))) -> (b = false -> f (m_hs o) = m_hs o) ->
  (m_mem (f (m_hs o)) <> 0 -> m_mem (m_hs o) <> 0 /\ m_memHuge (f (m_hs o)) = m_memHuge (m_hs o)) -> Inv base (o, w) ->
  ends (if b then act g ;; on_hs f else mret tt) (fun _ s' => Inv base s' /\ fst s' = set_hs f o) (o, w).
Proof.
  intros Hcl Hg Ho [Hps Hl]%list.Forall_cons Hf Hm [Hi Hhuge]. destruct b.
  - apply ends_act. unfold ends, on_hs, upd. cbn [fst snd]. split; [|done]. split; cbn [fst snd m_hs set_hs].
    + cbn [fst snd] in Hi. rewrite Ho in Hi. eapply shrink; [exact Hcl|exact Hi| |intros Hx; by apply (Hps _ Hx)|apply Hg]. intros e. by apply apart_notin.
    + intros Hn. destruct (Hm Hn) as [Hn1 ->]. by apply Hhuge.
  - specialize (Hf eq_refl). apply ends_ret. split; [by split|]. cbn. unfold set_hs. rewrite Hf. by destruct o.
Qed.

Lemma opt_false k x ps : opt_if false k x ps = [].
Proof. done. Qed.

Ltac no_parent := unfold owned; cbn -[opt_if]; rewrite ?opt_false; repeat first [apply list.Forall_cons_2 | apply Forall_app_2 | apply apart_if | apply apart_nil | apply apart_cons | apply list.Forall_nil_2 | discriminate].
Ltac shut Hcl Hi law ps := let o := fresh "o" in let w := fresh "w" in let Ho := fresh in
  eapply ends_mono; [eapply (shut_ends _ _ _ _ _ _ _ _ ps Hcl law);
    [unfold owned; cbn -[opt_if]; cbn [opt_if]; rewrite ?app_nil_r, ?app_assoc; reflexivity|no_parent|intros ->; reflexivity|cbn; by intros|exact Hi]|];
  clear Hi; cbn beta; intros _ [o w] [Hi Ho]; cbn [fst] in Ho; subst o.

Lemma efvi_shutdown_ends base n mac hs e mb pad y (w : W) :
  closed base -> Inv base (mk_members n mac hs e mb pad y, w) ->
  ends shutdown (fun _ s' => fst s' = mk_members n mac (mk_handles (m_dh hs) (m_pd hs) (m_vi hs) (m_memreg hs) 0 false false false false (m_memHuge hs)) e mb pad y /\
    rs (snd s') = base) (mk_members n mac hs e mb pad y, w).
Proof.
  intros Hcl Hi. destruct hs as [d p v r m b1 b2 b3 b4 hg]. unfold shutdown. apply ends_gets. cbn [fst m_hs m_dh m_pd m_vi m_memreg m_mem m_haveDriver m_havePd m_haveVi m_haveMemreg m_memHuge].
  apply ends_bind. shut Hcl Hi (vi_free_law v d) [(kPd, p); (kDriver, d)].
  apply ends_bind. shut Hcl Hi (memreg_free_law r d) [(kMap, m); (kPd, p); (kDriver, d)].
  apply ends_gets, ends_bind. cbn [fst].
  set (o1 := mk_members n mac (mk_handles d p v r m b1 b2 false false hg) e mb pad y).
  assert (ends (if m =? 0 then mret tt else act (if hg then munmap m mb else free m) ;; on_hs (h_mem 0)) (fun _ s' => Inv base s' /\ fst s' = set_hs (h_mem 0) o1) (o1, w1)) as Hmem.
  { pose proof Hi as [_ Hh]. cbn in Hh.
    assert (ends (if negb (m =? 0) then act (munmap m mb) ;; on_hs (h_mem 0) else mret tt) (fun _ s' => Inv base s' /\ fst s' = set_hs (h_mem 0) o1) (o1, w1)) as Hn.
    { eapply (shut_ends base _ w1 _ _ _ kMap m [] Hcl); [intros w2; apply munmap_law| |no_parent| |cbn; done|exact Hi].
      - unfold owned. cbn -[opt_if]. rewrite !opt_false. by rewrite ?app_nil_r, ?app_assoc.
      - intros Hz. apply negb_false_iff, Z.eqb_eq in Hz as ->. done. }
    destruct (Z.eqb_spec m 0) as [|Hm]; [exact Hn|]. by rewrite (Hh Hm). }
  eapply ends_mono; [exact Hmem|].
  clear Hi Hmem. cbn beta. intros _ [o w2] [Hi Ho]. cbn [fst] in Ho. subst o.
  apply ends_bind. shut Hcl Hi (pd_free_law p d) [(kDriver, d)].
  shut Hcl Hi (driver_close_law d) (@nil key).
  split; [done|]. destruct Hi as [[Hr _] _]. etransitivity; [exact Hr|]. cbn. by rewrite !union_empty_l_L, <- surjective_pairing.
Qed.
End Balance.

(** C24: An ef_vi transport gives back what it took: whatever the machine answers, wherever
    [init] stops, the flags it keeps are right and [shutdown] frees the interface, the
    registration, the memory, the domain and the driver in an order in which nothing is
    refused, so that exactly what was live before is live again; a second [shutdown] (the
    destructor's) changes nothing. *)
Theorem efvi_lifecycle_balanced {W} {VS : EfViSys W} {VL : EfViSysLaws W} c ifn (w : W) :
  closed (rs w) ->
  exists ok o w', (b ← init c; shutdown ;; mret b) (construct c ifn, w) = (Done ok, (o, w')) /\
    rs w' = rs w /\ owned (m_hs o) = [] /\ shutdown (o, w') = (Done tt, (o, w')).
Proof.
  intros Hcl. pose proof (efvi_init_ends c (rs w) ifn w Hcl) as Hi. unfold ends in Hi. unfold mbind at 1, M_bind at 1.
  destruct (init c _) as [[ok| | | |] [[n mac hs e mb pad y] w1]]; try (destruct Hi; split; [apply holds_nil|done]).
  pose proof (efvi_shutdown_ends (rs w) n mac hs e mb pad y w1 Hcl ltac:(apply Hi; split; [apply holds_nil|done])) as Hs. unfold ends in Hs.
  unfold mbind at 1, M_bind at 1. destruct (shutdown _) as [[[]| | | |] [o w2]]; try done. destruct Hs as [Ho Hr]. cbn in Ho, Hr. subst o. by eexists ok, _, w2.
Qed.

(** ** The layout [init] computes *)
Section Geometry.
Context {W : Type} {VS : EfViSys W} {VL : EfViSysLaws W} (c : config).
Abbreviation S := (Members * W)%type.
Context (NR_range : 0 < NbRxBufs c < 2 ^ 16) (NT_range : 0 < NbTxBufs c < 2 ^ 16) (BS_range : 0 < BufSize c < 2 ^ 32).

(** The slots with their guards fit the registered memory, which is whole huge pages. *)
Record sized (o : Members) : Prop := {
  z_pad : 0 <= m_txPad o <= 512;
  z_base : m_txBase (m_lay o) = NbRxBufs c + 1 + m_txPad o;
  z_fit : (m_txBase (m_lay o) + NbTxBufs c + 1) * BufSize c <= m_memBytes o;
  z_pages : (kHugePage | m_memBytes o) }.

Record arrays (o : Members) : Prop := {
  y_rx : Z.of_nat (length (m_rxDma (m_lay o))) = NbRxBufs c;
  y_tx : Z.of_nat (length (m_txDma (m_lay o))) = NbTxBufs c;
  y_desc : Z.of_nat (length (m_txDescBase (m_lay o))) = NbTxBufs c }.

Definition shape (s : S) : Layout * Z * Z := (m_lay (fst s), m_memBytes (fst s), m_txPad (fst s)).

Lemma arrays_shape (s s' : S) : shape s' = shape s -> arrays (fst s) -> arrays (fst s').
Proof. unfold shape. intros [= He _ _] []. by split; rewrite He. Qed.

Lemma round_huge_spec n : 0 <= n -> n <= round_huge n < n + kHugePage /\ (kHugePage | round_huge n).
Proof.
  intros Hn. unfold round_huge. change (kHugePage - 1) with (Z.ones 21). rewrite <- Z.ldiff_land, Z.ldiff_ones_r by lia.
  rewrite Z.shiftl_mul_pow2, Z.shiftr_div_pow2 by lia. change (2 ^ 21) with kHugePage. split; [|by eexists].
  assert (0 < kHugePage) by done. unfold kHugePage in *. Z.div_mod_to_equations. lia.
Qed.

Lemma pad_range (s : S) : m_txPad (fst s) = 0 -> ends (read_pad c) (fun _ s' => m_lay (fst s') = m_lay (fst s) /\ 0 <= m_txPad (fst s') <= 512) s.
Proof.
  intros H0. unfold read_pad. destruct (HAS_TX c); [|apply ends_ret; split; [done|lia]]. apply ends_gets.
  match goal with |- context [match ?x with Some v => upd _ | None => _ end] => destruct x as [v|] end; [|apply ends_ret; split; [done|lia]].
  unfold ends, upd. cbn. split; [done|]. pose proof (wrap_range 32 (atoi v) ltac:(lia)) as Hr. unfold in_u in Hr. lia.
Qed.

Lemma alloc_mem_sized (s : S) : m_txPad (fst s) = 0 -> arrays (fst s) -> ends (alloc_mem c) (fun ok s' => ok = true -> sized (fst s') /\ arrays (fst s')) s.
Proof.
  intros H0 Ha. unfold alloc_mem. apply ends_bind. eapply ends_mono; [by apply pad_range|]. cbn beta. intros _ [o1 w1] [Hl Hp]. cbn [fst] in Hl, Hp.
  apply ends_gets, ends_upd, ends_upd, ends_gets, ends_sys. destruct (mmap _ w1) as [m w2]. cbn [fst snd]. apply ends_upd.
  destruct (m =? 0); [by apply ends_ret|]. apply ends_upd, ends_act, ends_sys. destruct (ef_memreg_alloc _ _ _ _ _) as [[rc mr] w4]. cbn [fst snd].
  destruct (negb (rc =? 0)); [by apply ends_ret|]. apply ends_upd, ends_ret. intros _. change (2 ^ 16) with 65536 in *. change (2 ^ 32) with 4294967296 in *. unfold kTxGuardSlots. split.
  - rewrite !wrap_small by (unfold in_u; change (2 ^ 32) with 4294967296; lia).
    destruct (round_huge_spec ((NbRxBufs c + NbTxBufs c + 2 * 1 + m_txPad o1) * BufSize c)) as [Hr Hd]; [nia|].
    split; cbn; rewrite ?wrap_small by (unfold in_u; change (2 ^ 32) with 4294967296; lia); try done; try lia.
  - destruct Ha. split; cbn; by rewrite Hl.
Qed.

Definition rx_addrs (n : Z) (o : Members) : Prop := forall s a, m_rxDma (m_lay o) !! s = Some a -> Z.of_nat s < n -> host a = Z.of_nat s * BufSize c.
Definition tx_addrs (n : Z) (o : Members) : Prop :=
  forall s a, m_txDma (m_lay o) !! s = Some a -> Z.of_nat s < n -> host a = (m_txBase (m_lay o) + Z.of_nat s) * BufSize c + kTxHdrBytes c.
Definition descs (n : Z) (o : Members) : Prop := forall s d, m_txDescBase (m_lay o) !! s = Some d -> Z.of_nat s < n -> 0 <= d < 2 ^ 48.

(** Filling an array from its start: what holds of the entries below [i] holds below [i + 1]. *)
Lemma fill {A} (P : nat -> A -> Prop) (l : list A) i x : 0 <= i ->
  (forall s a, l !! s = Some a -> Z.of_nat s < i -> P s a) -> P (Z.to_nat i) x ->
  forall s a, <[Z.to_nat i := x]> l !! s = Some a -> Z.of_nat s < i + 1 -> P s a.
Proof.
  intros Hi Hl Hx s a Hs Hn. apply list_lookup_insert_Some in Hs as [(<- & <- & _)|[Hne Hs]]; [done|]. apply Hl; [done|lia].
Qed.

Definition rx_filled (i : Z) (s : S) : Prop := sized (fst s) /\ arrays (fst s) /\ rx_addrs i (fst s).
Definition tx_filled (i : Z) (s : S) : Prop := rx_filled (NbRxBufs c) s /\ tx_addrs i (fst s).

Lemma rx_fill i : 0 <= i -> triple (rx_filled i) (a ← peek (fun o => ef_memreg_dma_addr (m_memreg (m_hs o)) (i * BufSize c)); on_lay (l_rxDma i a)) (fun _ => rx_filled (i + 1)).
Proof.
  intros Hi [o w] (Hs1 & Ha1 & Hr1). unfold peek. rewrite run_gets. eexists tt, _. split; [done|]. cbn [fst snd].
  split; [by destruct Hs1|]. split; [destruct Ha1; split; cbn; try done; by rewrite length_insert|].
  unfold rx_addrs in *. cbn. apply (fill (fun s a => host a = Z.of_nat s * BufSize c)); [lia|done|]. rewrite dma_addr_law. lia.
Qed.

Lemma tx_fill i : 0 <= i < NbTxBufs c -> triple (tx_filled i)
  (a ← peek (fun o => ef_memreg_dma_addr (m_memreg (m_hs o)) (u32 (m_txBase (m_lay o) + i) * BufSize c + kTxHdrBytes c)); on_lay (l_txDma i a)) (fun _ => tx_filled (i + 1)).
Proof.
  intros Hi [o w] ((Hs1 & Ha1 & Hr1) & Ht1). unfold peek. rewrite run_gets. eexists tt, _. split; [done|]. cbn [fst snd].
  split; [split; [by destruct Hs1|]; split; [destruct Ha1; split; cbn; try done; by rewrite length_insert|done]|].
  unfold tx_addrs in *. cbn. apply (fill (fun s a => host a = (m_txBase (m_lay o) + Z.of_nat s) * BufSize c + kTxHdrBytes c)); [lia|done|].
  rewrite dma_addr_law, wrap_small; [lia|]. destruct Hs1 as [Hp Hb _ _]. cbn in Hp, Hb.
  unfold in_u. change (2 ^ 16) with 65536 in *. change (2 ^ 32) with 4294967296 in *. lia.
Qed.

Lemma dma_ends (s : S) : sized (fst s) -> arrays (fst s) -> ends (dma_addrs c) (fun _ => tx_filled (NbTxBufs c)) s.
Proof.
  intros Hs Ha. apply (ends_triple (rx_filled 0)); [|split; [done|]; split; [done|]; intros s' a _ Hn; lia]. unfold dma_addrs.
  eapply triple_bind; [apply (triple_for_loop _ 0 _ rx_filled); intros j Hj; apply rx_fill; lia|]. intros [].
  eapply (triple_conseq _ (tx_filled 0) _ _ (fun _ => tx_filled (0 + Z.of_nat (Z.to_nat (NbTxBufs c))))).
  - intros s1 Hs1. rewrite Z.add_0_l, Z2Nat.id in Hs1 by lia. split; [done|]. intros s' a _ Hn. lia.
  - intros _ s1. by rewrite Z.add_0_l, Z2Nat.id by lia.
  - apply (triple_for_loop _ 0 _ tx_filled). intros j Hj. apply tx_fill. lia.
Qed.

(** The descriptor base of a buffer the probe accepted. *)
Lemma desc_range vaddr : let idOff := Z.land vaddr 281474976710655 in let order := Z.shiftr vaddr 48 in
  negb (Z.shiftr idOff kTxUsrBufIdOffsetBits =? 0) || negb (Z.shiftr order kTxUsrBufPageSizeBits =? 0) = false ->
  0 <= Z.lor (u64 (Z.shiftl order kTxUsrBufPageSizeLbn)) idOff < 2 ^ 48.
Proof.
  cbn zeta. intros [H1 H2]%orb_false_iff. apply negb_false_iff, Z.eqb_eq in H1, H2. unfold kTxUsrBufIdOffsetBits, kTxUsrBufPageSizeBits, kTxUsrBufPageSizeLbn in *.
  apply (lor_range 48); [lia| |].
  - rewrite Z.shiftr_div_pow2 in H2 by lia. change (2 ^ 4) with 16 in H2. assert (0 <= Z.shiftr vaddr 48 < 16) by (Z.div_mod_to_equations; lia).
    rewrite Z.shiftl_mul_pow2 by lia. rewrite wrap_small; unfold in_u; change (2 ^ 64) with (16 * 2 ^ 60); change (2 ^ 48) with (16 * 2 ^ 44); nia.
  - change 281474976710655 with (Z.ones 48). rewrite Z.land_ones by lia. apply Z.mod_pos_bound. done.
Qed.

Lemma probe_ends n : forall i (s : S), 0 <= i -> descs i (fst s) ->
  ends (probe_slots n i) (fun ok s' => (m_txBase (m_lay (fst s')), m_rxDma (m_lay (fst s')), m_txDma (m_lay (fst s')), m_memBytes (fst s'), m_txPad (fst s')) =
      (m_txBase (m_lay (fst s)), m_rxDma (m_lay (fst s)), m_txDma (m_lay (fst s)), m_memBytes (fst s), m_txPad (fst s)) /\
    length (m_txDescBase (m_lay (fst s'))) = length (m_txDescBase (m_lay (fst s))) /\ (ok = true -> descs (i + Z.of_nat n) (fst s'))) s.
Proof.
  induction n as [|n IH]; intros i [o w] Hi Hd; cbn [probe_slots].
  { apply ends_ret. split; [done|]. split; [done|]. by rewrite Z.add_0_r. }
  apply ends_gets, ends_gets. cbn [fst snd]. destruct (_ || _) eqn:Ec; [by apply ends_ret|]. apply ends_upd, ends_gets, ends_sys. cbn [fst snd].
  pose proof (desc_range _ Ec) as Hdr. cbn zeta in Hdr. match type of Hdr with 0 <= ?x < _ => set (d := x) in * end. clearbody d.
  destruct (ef_vi_transmitv_init _ _ _ _ _) as [rc w1]. cbn [fst snd].
  destruct (negb (rc =? 0)); [apply ends_ret; cbv beta; split; [done|]; split; [apply length_insert|done]|]. apply ends_gets, ends_act, ends_act.
  match goal with |- ends (if ?b then _ else _) _ _ => destruct b end; [apply ends_ret; cbv beta; split; [done|]; split; [apply length_insert|done]|]. eapply ends_mono; [apply IH; [lia|]|].
  - exact (fill (fun _ d => 0 <= d < 2 ^ 48) (m_txDescBase (m_lay o)) i d Hi Hd Hdr).
  - cbn beta. intros ok s' (He & Hl & Hok). split; [exact He|]. split; [rewrite Hl; apply length_insert|]. intros Ht. replace (i + Z.of_nat (Datatypes.S n)) with (i + 1 + Z.of_nat n) by lia. by apply Hok.
Qed.

(** What is computed, once [init] has succeeded. *)
Record laid (o : Members) : Prop := {
  k_sized : sized o;
  k_arrays : arrays o;
  k_rx : rx_addrs (NbRxBufs c) o;
  k_tx : tx_addrs (NbTxBufs c) o;
  k_desc : kX2522Plus c = true -> descs (NbTxBufs c) o;
  k_prefix : HwTimestamps c && HAS_RX c = true -> m_rxPrefix (m_lay o) <> 0 }.

(** [init_rx] changes the prefix and the correction only. *)
Definition frame (s : S) := let y := m_lay (fst s) in (m_txBase y, m_rxDma y, m_txDma y, m_txDescBase y, m_memBytes (fst s), m_txPad (fst s)).

Lemma post_shape n i : fixes shape (post_rx n i).
Proof. revert i; induction n as [|n IH]; intros i; cbn [post_rx]; unchanged; try apply IH; done. Qed.

Lemma init_rx_frame : fixes frame (init_rx c).
Proof.
  unfold init_rx. unchanged; try done. intros s. eapply ends_mono; [apply post_shape|]. cbn. unfold shape, frame. intros _ s' [= -> -> ->]. done.
Qed.

Lemma init_rx_prefix (s : S) : ends (init_rx c) (fun ok s' => ok = true -> HwTimestamps c = true -> m_rxPrefix (m_lay (fst s')) <> 0) s.
Proof.
  unfold init_rx. apply ends_gets. destruct s as [o w]. apply ends_sys. destruct (negb _); [by apply ends_ret|]. apply ends_sys. destruct (negb _); [by apply ends_ret|].
  apply ends_bind. eapply ends_mono; [apply post_shape|]. cbn beta. intros _ [o1 w1] _. apply ends_gets, ends_upd. cbn [fst snd].
  destruct (HwTimestamps c); [|by apply ends_ret]. destruct (Z.eqb_spec (ef_vi_receive_prefix_len (m_vi (m_hs o)) w1) 0); [by apply ends_ret|].
  apply ends_gets. destruct (negb _); [by apply ends_ret|]. by apply ends_gets, ends_upd, ends_ret.
Qed.

Lemma ends_and {A} (m : Prelude.M S A) (P Q : A -> S -> Prop) s : ends m P s -> ends m Q s -> ends m (fun a s' => P a s' /\ Q a s') s.
Proof. unfold ends. by destruct (m s) as [[] ?]. Qed.

Lemma tail_ends (s : S) : tx_filled (NbTxBufs c) s ->
  ends (ok ← (if kX2522Plus c then initX2522PlusTx c else mret true); if negb ok then mret false else if HAS_RX c then init_rx c else mret true)
    (fun ok s' => ok = true -> laid (fst s')) s.
Proof.
  intros ((Hs & Ha & Hr) & Ht). apply ends_bind. destruct s as [o w]. cbn [fst] in *.
  eapply (ends_mono _ (fun ok s' => ok = true -> sized (fst s') /\ arrays (fst s') /\ rx_addrs (NbRxBufs c) (fst s') /\ tx_addrs (NbTxBufs c) (fst s') /\
    (kX2522Plus c = true -> descs (NbTxBufs c) (fst s')))).
  - destruct (kX2522Plus c); [|by apply ends_ret]. unfold initX2522PlusTx. apply ends_gets, ends_gets. destruct (_ || _); [by apply ends_ret|].
    apply ends_bind. eapply ends_mono; [apply (probe_ends _ 0 (o, w)); [lia|intros ? ? _ Hn; lia]|]. cbn beta. intros ok [o1 w1] (He & Hl & Hok).
    cbn [fst] in He, Hl. injection He as E1 E2 E3 E4 E5. destruct ok; [|by apply ends_ret]. apply ends_gets, ends_ret. intros _. specialize (Hok eq_refl). rewrite Z.add_0_l, Z2Nat.id in Hok by lia. cbn [fst] in *.
    split; [destruct Hs; split; congruence|]. split; [destruct Ha; split; congruence|]. split; [unfold rx_addrs in *; by rewrite E2|]. split; [unfold tx_addrs in *; by rewrite E1, E3|done].
  - cbn beta. intros ok s1 Hok. destruct ok; cbn [negb]; [|by apply ends_ret]. destruct (Hok eq_refl) as (Hs1 & Ha1 & Hr1 & Ht1 & Hd1).
    destruct (HAS_RX c) eqn:Hrx.
    + eapply ends_mono; [apply ends_and; [apply init_rx_frame|apply init_rx_prefix]|]. cbn beta. intros ok2 s2 [He Hp] Ht2. unfold frame in He. injection He as E1 E2 E3 E4 E5 E6.
      split; [destruct Hs1; split; congruence|destruct Ha1; split; congruence|unfold rx_addrs in *; by rewrite E2|unfold tx_addrs in *; by rewrite E1, E3|unfold descs in *; by rewrite E4|].
      rewrite Hrx, andb_true_r. by apply Hp.
    + apply ends_ret. intros _. split; try done. by rewrite Hrx, andb_false_r.
Qed.

Lemma fixes_mac : fixes shape readMac.
Proof. unfold readMac. unchanged; done. Qed.

Lemma fixes_flags i : fixes shape (vi_flags c i).
Proof. unfold vi_flags, want_flag, want_cap. unchanged; done. Qed.

Lemma fixes_vi f : fixes shape (alloc_vi c f).
Proof. unfold alloc_vi. unchanged; done. Qed.

Lemma ends_shape {A B} (m : Prelude.M S A) (k : A -> Prelude.M S B) Q (s : S) :
  fixes shape m -> m_txPad (fst s) = 0 -> arrays (fst s) ->
  (forall a s', m_txPad (fst s') = 0 -> arrays (fst s') -> ends (k a) Q s') -> ends (m ≫= k) Q s.
Proof.
  intros Hm H0 Ha Hk. apply ends_bind. eapply ends_mono; [apply Hm|]. cbn beta. intros a s' He. apply Hk; [|by eapply arrays_shape].
  unfold shape in He. by injection He as _ _ ->.
Qed.

Lemma init_laid (s : S) : m_txPad (fst s) = 0 -> arrays (fst s) -> ends (init c) (fun ok s' => ok = true -> laid (fst s')) s.
Proof.
  intros H0 Ha. unfold init. apply (ends_shape _ _ _ _ fixes_mac); [done|done|]. clear s H0 Ha. intros ok s H0 Ha. destruct (negb ok); [by apply ends_ret|].
  apply ends_gets. destruct s as [o w]. apply ends_sys. cbn [fst snd]. destruct (if_nametoindex _ w) as [i w1]. cbn [fst snd]. destruct (i =? 0); [by apply ends_ret|].
  apply ends_sys. destruct (ef_driver_open w1) as [[rc d] w2]. cbn [fst snd]. apply ends_upd. destruct (negb _); [by apply ends_ret|]. apply ends_upd, ends_sys.
  destruct (ef_pd_alloc _ _ w2) as [[rc2 p] w3]. cbn [fst snd]. destruct (negb _); [by apply ends_ret|]. apply ends_upd.
  apply (ends_shape _ _ _ _ (fixes_flags _)); [done|by destruct Ha|]. clear -NR_range NT_range BS_range VL. intros flags s H0 Ha. destruct flags as [f|]; [|by apply ends_ret].
  apply (ends_shape _ _ _ _ (fixes_vi f)); [done|done|]. clear -NR_range NT_range BS_range VL. intros ok s H0 Ha. destruct (negb ok); [by apply ends_ret|].
  apply ends_bind. eapply ends_mono; [by apply alloc_mem_sized|]. cbn beta. intros ok1 s1 Hok. destruct ok1; cbn [negb]; [|by apply ends_ret].
  destruct (Hok eq_refl) as [Hs1 Ha1]. apply ends_bind. eapply ends_mono; [by apply dma_ends|]. cbn beta. intros _ s2. apply tail_ends.
Qed.
End Geometry.


(** ** A simulated machine: every request is granted; another process has the driver open. *)
Record machine := mk_machine { vm_res : resources; vm_env : list (string * string); vm_added : Z; vm_desc : Z; vm_posted : list Z }.

Definition vm_obtain (k : Z) (ps : list key) (w : machine) : Z * machine :=
  let '(h, r) := res_obtain k ps (vm_res w) in (h, mk_machine r (vm_env w) (vm_added w) (vm_desc w) (vm_posted w)).
Definition vm_grant (k : Z) (ps : list key) (w : machine) : (Z * Z) * machine := let '(h, w) := vm_obtain k ps w in ((0, h), w).
Definition vm_release (x : key) (w : machine) : machine := mk_machine (res_release x (vm_res w)) (vm_env w) (vm_added w) (vm_desc w) (vm_posted w).

#[export] Instance sim_EfViSys : EfViSys machine := {|
  fopen p := vm_obtain kFile [];
  fread_text f w := ("02:00:5e:10:00:ff"%string, w);
  fclose f := vm_release (kFile, f);
  getenv n w := snd <$> list_find (fun e => e.1 = n) (vm_env w) ≫= fun e => Some e.2;
  if_nametoindex n w := (3, w);
  ef_driver_open := vm_grant kDriver [];
  ef_driver_close d := vm_release (kDriver, d);
  ef_pd_alloc d i := vm_grant kPd [(kDriver, d)];
  ef_pd_free p d := vm_release (kPd, p);
  ef_vi_capabilities_get d i k w := ((0, 1), w);
  ef_vi_alloc_from_pd d p f := vm_grant kVi [(kPd, p); (kDriver, d)];
  ef_vi_free v d := vm_release (kVi, v);
  mmap n := vm_obtain kMap [];
  munmap p n := vm_release (kMap, p);
  free p := vm_release (kHeap, p);
  memclear p n w := w;
  ef_memreg_alloc d p m n := vm_grant kMemreg [(kMap, m); (kPd, p); (kDriver, d)];
  ef_memreg_free r d := vm_release (kMemreg, r);
  ef_memreg_dma_addr r o w := o;
  ef_filter_spec_set_eth_local m w := (0, w);
  ef_vi_filter_add v d m w := (0, w);
  ef_vi_receive_space v w := 8 - Z.of_nat (length (vm_posted w));
  ef_vi_receive_post v a i w := (0, mk_machine (vm_res w) (vm_env w) (vm_added w) (vm_desc w) (vm_posted w ++ [i]));
  ef_vi_receive_prefix_len v w := 14;
  nic_arch v w := EF_VI_ARCH_EF10;
  vi_ctpio_mmap_ptr v w := 4096;
  vi_tx_phys_addr v w := false;
  tx_push_thresh v w := 16;
  ts_quarter_ns v w := true;
  rx_ts_correction v w := -12;
  vi_txq_mask v w := 7;
  vi_txq_added v := vm_added;
  set_vi_txq_added v n w := mk_machine (vm_res w) (vm_env w) n (vm_desc w) (vm_posted w);
  vi_txq_descriptor v i := vm_desc;
  clear_vi_txq_id v i w := w;
  ef_vi_transmitv_init v a n i w := (0, mk_machine (vm_res w) (vm_env w) (vm_added w + 1) (a + n * 2 ^ 48) (vm_posted w));
|}.

Lemma obtain_spec k ps w : granted (negb (fst (vm_obtain k ps w) =? 0)) k (fst (vm_obtain k ps w)) ps (vm_res w) (vm_res (snd (vm_obtain k ps w))).
Proof. apply obtained_granted. exact (res_obtain_spec k ps (vm_res w)). Qed.

Lemma grant_spec k ps w : granted (fst (fst (vm_grant k ps w)) =? 0) k (snd (fst (vm_grant k ps w))) ps (vm_res w) (vm_res (snd (vm_grant k ps w))).
Proof.
  pose proof (res_obtain_spec k ps (vm_res w)) as Ho. apply obtained_granted in Ho. unfold vm_grant, vm_obtain. pose proof (res_fresh_pos (vm_res w)) as Hp.
  unfold res_obtain in *. cbn [fst snd vm_res] in *. rewrite (proj2 (Z.eqb_neq _ _)) in Ho by lia. exact Ho.
Qed.

Lemma freed_spec x w : released x (vm_res w) (vm_res (vm_release x w)).
Proof. apply res_release_spec. Qed.

#[local] Obligation Tactic := intros; first [apply obtain_spec | apply grant_spec | apply freed_spec | reflexivity].
#[export] Program Instance sim_EfViSysLaws : EfViSysLaws machine := {| rs := vm_res; host := id |}.

Definition ex_plus : config := mk_config RxTx 8 2 64 64 true true true.
Definition vm_start : machine := mk_machine ({[(kDriver, 3)]}, ∅) [("ABTRDA3_TX_PAD"%string, "-1"%string)] 5 0 [].

Definition vm_run : outcome bool * (Members * machine) := (b ← init ex_plus; shutdown ;; mret b) (construct ex_plus "enp1s0f0", vm_start).

Lemma run_done : fst vm_run = Done true.
Proof. vm_compute. reflexivity. Qed.

Lemma start_closed : closed (rs vm_start).
Proof. intros c p Hin. by apply elem_of_empty in Hin. Qed.

Lemma efvi_lifecycle_balanced_witness : fst vm_run = Done true /\ vm_res (snd (snd vm_run)) = vm_res vm_start.
Proof.
  split; [exact run_done|]. destruct (efvi_lifecycle_balanced ex_plus "enp1s0f0" vm_start start_closed) as (ok & o & w' & He & Hr & _).
  unfold vm_run. rewrite He. exact Hr.
Defined.

(** The environment asks for a padding of -1: it becomes 512. *)
Lemma vm_init_done : exists o w', init ex_plus (construct ex_plus "enp1s0f0", vm_start) = (Done true, (o, w')) /\
  m_txPad o = 512 /\ m_memBytes o = kHugePage /\ m_txDescBase (m_lay o) = [33348; 33412] /\ vm_posted w' = seqZ 0 8 /\ vm_added w' = 5.
Proof. eexists _, _. split; [vm_compute; reflexivity|]. by vm_compute. Qed.

