(* ===== verification/DPDKEal.v ===== *)
(** * The DPDK environment (src/backends/DPDK/DPDKEal.hpp, DPDKEal.cpp)

    The process-global registry of devices and the one start of the environment
    abstraction layer, over its entry point and the thread's affinity ([EalSys]); the sysfs
    writes that bind a device to vfio-pci, over the file interface. *)

From Stdlib Require Import Ascii.
From S2P Require Import Prelude CStrings Files PciHelpers Resources.
Open Scope string_scope.
Open Scope Z_scope.

Definition kMaxSimdBitwidth : Z := 256.
Definition kControlThreadCore : Z := 0.

(** [entry.substr(0, entry.find(','))] *)
Fixpoint upto_comma (s : string) : string :=
  match s with
  | "" => ""
  | String c s => if Ascii.eqb c "," then "" else String c (upto_comma s)
  end.

(** [addUnique] *)
Definition addUnique (v : list string) (entry : string) : list string :=
  if existsb (fun e => String.eqb (upto_comma e) (upto_comma entry)) v then v else (v ++ [entry])%list.

(** The characters of the file prefix that EAL does not take. *)
Fixpoint sanitize (s : string) : string :=
  match s with
  | "" => ""
  | String c s => String (if Ascii.eqb c ":" || Ascii.eqb c "." || Ascii.eqb c "," then "_"%char else c) (sanitize s)
  end.

(** The globals of the file. *)
Record Eal := mk_eal { g_allowedBdfs : list string; g_vdevs : list string; g_ealInited : bool }.

Class EalSys (W : Type) := {
  rte_eal_init : list string -> W -> Z * W;
  pthread_getaffinity : W -> option (gset Z) * W;
  pthread_setaffinity : gset Z -> W -> W;
}.

Section Operations.
Context {W : Type} {ES : EalSys W} {FS : FileSys W}.
Abbreviation M' := (M (Eal * W)).

Definition addAllowedBdf (bdf : string) : M' unit := upd (fun g => mk_eal (addUnique (g_allowedBdfs g) bdf) (g_vdevs g) (g_ealInited g)).
Definition addVdev (arg : string) : M' unit := upd (fun g => mk_eal (g_allowedBdfs g) (addUnique (g_vdevs g) arg) (g_ealInited g)).
Definition vdevCount (g : Eal) : Z := Z.of_nat (length (g_vdevs g)).

Definition file_prefix (base : string) : string := sanitize ("abtrda3_" ++ upto_comma base).

Definition eal_args (g : Eal) (base : string) (lcore : Z) : list string :=
  (["abtrda3"; "-l"; dec lcore; "--main-lcore"; dec lcore; "-n"; "4"; "--file-prefix"; file_prefix base;
    ("--force-max-simd-bitwidth=" ++ dec kMaxSimdBitwidth)%string] ++
   match g_vdevs g with
   | [] => g_allowedBdfs g ≫= fun b => ["-a"; b]
   | vs => ["--no-pci"; "--in-memory"] ++ (vs ≫= fun v => ["--vdev"; v])
   end)%list.

(** [ealInit] *)
Definition ealInit (bdf : string) (lcore : Z) : M' bool :=
  g ← gets fst;
  if g_ealInited g then mret true else
  (match g_vdevs g with [] => addAllowedBdf bdf | _ => mret tt end) ;;
  g ← gets fst;
  match (match g_vdevs g with [] => g_allowedBdfs g | vs => vs end) with
  | [] => raise Undef
  | base :: _ =>
      let park := negb (kControlThreadCore =? lcore) in
      saved ← (if park then
                 s ← sys pthread_getaffinity;
                 act (pthread_setaffinity {[kControlThreadCore]}) ;;
                 mret s
               else mret None);
      rc ← sys (rte_eal_init (eal_args g base lcore));
      (match saved with Some s => act (pthread_setaffinity s) | None => mret tt end) ;;
      if rc <? 0 then mret false else
      upd (fun g => mk_eal (g_allowedBdfs g) (g_vdevs g) true) ;;
      mret true
  end.

(** [writeSysfs] *)
Definition writeSysfs (path val : string) : M W bool :=
  fd ← lift (open_fd O_WRONLY path);
  if fd <? 0 then mret false else
  n ← lift (write_fd fd val);
  modify (close_fd fd) ;;
  mret (n =? Z.of_nat (String.length val)).

(** [bindToVfio] *)
Definition bindToVfio (bdf : string) : M W bool :=
  there ← lift (access "/sys/bus/pci/drivers/vfio-pci");
  (if (there : bool) then mret 0 else lift (system "modprobe vfio-pci")) ;;
  d ← currentDriver bdf;
  if String.eqb d "vfio-pci" then mret true else
  let dev := "/sys/bus/pci/devices/" ++ bdf in
  _ ← writeSysfs (dev ++ "/driver_override") "vfio-pci";
  _ ← writeSysfs (dev ++ "/driver/unbind") bdf;
  writeSysfs "/sys/bus/pci/drivers_probe" bdf.
End Operations.

(** ** The registry *)

Definition keys_of (v : list string) : list string := upto_comma <$> v.

Lemma addUnique_cases v e :
  (upto_comma e ∈ keys_of v /\ addUnique v e = v) \/ (upto_comma e ∉ keys_of v /\ addUnique v e = (v ++ [e])%list).
Proof.
  unfold addUnique. destruct (existsb _ v) eqn:Ex.
  - left. split; [|done]. apply existsb_exists in Ex as (x & Hin & He). apply String.eqb_eq in He. rewrite <- He.
    apply list_elem_of_fmap. exists x. split; [done|]. by apply list_elem_of_In.
  - right. split; [|done]. intros Hin. apply list_elem_of_fmap in Hin as (x & Hx & Hin).
    assert (existsb (fun e' => String.eqb (upto_comma e') (upto_comma e)) v = true) as Ht; [|congruence].
    apply existsb_exists. exists x. split; [by apply list_elem_of_In|]. by apply String.eqb_eq.
Qed.

(** What is registered stays as it is, no device is there twice, and every device asked for
    is there. *)
Lemma addUnique_spec v e :
  NoDup (keys_of v) -> NoDup (keys_of (addUnique v e)) /\ v `prefix_of` addUnique v e /\ upto_comma e ∈ keys_of (addUnique v e).
Proof.
  intros Hv. destruct (addUnique_cases v e) as [[Hin ->]|[Hn ->]]; [done|]. unfold keys_of in *. rewrite fmap_app. split_and!.
  - apply list.NoDup_app. split; [done|]. split; [|apply list.NoDup_singleton]. intros x Hx Hx2. apply list_elem_of_singleton in Hx2 as ->. done.
  - by apply prefix_app_r.
  - apply elem_of_app. right. by apply list_elem_of_singleton.
Qed.

(** ** The one start *)

(** [started] counts the starts that succeeded; a mask that was in force can be set again. *)
Class EalLaws (W : Type) `{EalSys W} := {
  started : W -> Z;
  affinity : W -> gset Z;
  init_law args w : started (snd (rte_eal_init args w)) = started w + (if fst (rte_eal_init args w) <? 0 then 0 else 1);
  get_started w : started (snd (pthread_getaffinity w)) = started w;
  get_law w : affinity (snd (pthread_getaffinity w)) = affinity w /\ forall s, fst (pthread_getaffinity w) = Some s -> s = affinity w;
  set_started s w : started (pthread_setaffinity s w) = started w;
  set_back w w' : affinity (pthread_setaffinity (affinity w) w') = affinity w;
}.

(** What the transports ask of the registry. *)
Inductive request := Bdf (entry : string) | Vdev (entry : string) | Init (bdf : string) (lcore : Z).

Section Once.
Context {W : Type} {ES : EalSys W} {EL : EalLaws W}.

Fixpoint serve (rs : list request) : M (Eal * W) (list bool) :=
  match rs with
  | [] => mret []
  | Bdf e :: rs => addAllowedBdf e ;; serve rs
  | Vdev e :: rs => addVdev e ;; serve rs
  | Init b c :: rs => ok ← ealInit b c; oks ← serve rs; mret (ok :: oks)
  end.

Definition unique (g : Eal) : Prop := NoDup (keys_of (g_allowedBdfs g)) /\ NoDup (keys_of (g_vdevs g)).
Definition grown (g g' : Eal) : Prop := g_allowedBdfs g `prefix_of` g_allowedBdfs g' /\ g_vdevs g `prefix_of` g_vdevs g'.
Definition inited (g : Eal) : Z := if g_ealInited g then 1 else 0.

(** One start: once it has succeeded, nothing is called any more. *)
Lemma init_once b c (g : Eal) (w : W) : unique g ->
  exists ok g' w', ealInit b c (g, w) = (Done ok, (g', w')) /\ unique g' /\ grown g g' /\ ok = g_ealInited g' /\
    started w' = started w + inited g' - inited g /\ (g_ealInited g = true -> g' = g /\ w' = w) /\
    (c <> kControlThreadCore -> fst (pthread_getaffinity w) <> None -> affinity w' = affinity w).
Proof.
  intros [Hb Hv]. unfold ealInit. rewrite run_gets. cbn [fst]. unfold inited. destruct (g_ealInited g) eqn:Hi.
  { exists true, g, w. rewrite Hi. split; [done|]. split; [done|]. split; [split; reflexivity|]. split; [done|]. split; [lia|done]. }
  set (g1 := match g_vdevs g with [] => mk_eal (addUnique (g_allowedBdfs g) b) (g_vdevs g) (g_ealInited g) | _ => g end).
  assert ((match g_vdevs g with [] => addAllowedBdf b | _ => mret tt end) (g, w) = (Done tt, (g1, w))) as E1 by (unfold g1; destruct g as [bs vs i]; by destruct vs).
  rewrite (run_bind _ _ _ _ _ E1), run_gets. cbn [fst].
  destruct (addUnique_spec (g_allowedBdfs g) b Hb) as (Hb1 & Hp1 & Hk1).
  assert (unique g1 /\ grown g g1 /\ g_ealInited g1 = false /\ match g_vdevs g1 with [] => g_allowedBdfs g1 | vs => vs end <> []) as (Hu & Hg & Hi1 & Hne).
  { unfold g1, unique, grown. destruct g as [bs vs i]. cbn in *. destruct vs; cbn; split_and!; try done. intros He. rewrite He in Hk1. by apply elem_of_nil in Hk1. }
  clearbody g1. destruct (match g_vdevs g1 with [] => g_allowedBdfs g1 | vs => vs end) as [|base rest]; [done|]. clear Hne E1.
  set (park := negb (kControlThreadCore =? c)). destruct (get_law w) as [Ha Hs].
  assert (exists saved w1, (if park then s ← sys pthread_getaffinity; act (pthread_setaffinity {[kControlThreadCore]}) ;; mret s else mret None) (g1, w) = (Done saved, (g1, w1)) /\
    started w1 = started w /\ (park = true -> saved = fst (pthread_getaffinity w)) /\ (saved = None \/ saved = Some (affinity w))) as (saved & w1 & E2 & Hst & Hsv & Hor).
  { destruct park; [|by exists None, w; split_and!; [| | |left]].
    pose proof (get_started w) as Hgs. unfold sys, mbind, M_bind. cbn [snd fst]. destruct (pthread_getaffinity w) as [s w0]. cbn [fst snd] in *. eexists s, _. split; [done|].
    rewrite set_started. split; [done|]. split; [done|]. destruct s as [s|]; [right; by rewrite (Hs s eq_refl)|by left]. }
  rewrite (run_bind _ _ _ _ _ E2). unfold sys at 1. pose proof (init_law (eal_args g1 base c) w1) as Hl. destruct (rte_eal_init _ w1) as [rc w2] eqn:Er. cbn [fst snd] in Hl.
  unfold mbind at 1, M_bind at 1. cbn [fst snd]. rewrite Er.
  assert (exists w3, (match saved with Some s => act (pthread_setaffinity s) | None => mret tt end) (g1, w2) = (Done tt, (g1, w3)) /\ started w3 = started w2 /\
    (saved <> None -> affinity w3 = affinity w)) as (w3 & E3 & Hst3 & Haf).
  { destruct saved as [s|]; [|by exists w2]. eexists. split; [done|]. split; [apply set_started|]. intros _. destruct Hor as [|[= ->]]; [done|]. apply set_back. }
  rewrite (run_bind _ _ _ _ _ E3).
  assert (c <> kControlThreadCore -> fst (pthread_getaffinity w) <> None -> affinity w3 = affinity w) as Hfinal.
  { intros Hc Hn. apply Haf. rewrite Hsv; [done|]. unfold park. apply negb_true_iff, Z.eqb_neq. congruence. }
  destruct (rc <? 0).
  - eexists false, g1, w3. split; [done|]. split; [done|]. split; [done|]. rewrite Hi1. split; [done|]. split; [lia|]. split; [done|exact Hfinal].
  - eexists true, _, w3. split; [done|]. cbn [g_ealInited]. split; [done|]. split; [done|]. split; [done|]. split; [lia|]. split; [done|exact Hfinal].
Qed.

Definition asked (e : string) (l : list string) : Prop := upto_comma e ∈ keys_of l.

Lemma asked_grown e l l' : l `prefix_of` l' -> asked e l -> asked e l'.
Proof. intros [k ->] Hl. unfold asked, keys_of in *. rewrite fmap_app. apply elem_of_app. by left. Qed.

Lemma grown_trans g1 g2 g3 : grown g1 g2 -> grown g2 g3 -> grown g1 g3.
Proof. intros [] []. split; by etrans. Qed.

(** What a sequence of requests makes of the registry and of the machine. *)
Definition served (rs : list request) (g : Eal) (w : W) (oks : list bool) (g' : Eal) (w' : W) : Prop :=
  unique g' /\ grown g g' /\
  (forall e, Bdf e ∈ rs -> asked e (g_allowedBdfs g')) /\ (forall e, Vdev e ∈ rs -> asked e (g_vdevs g')) /\
  started w' = started w + inited g' - inited g /\
  (g_ealInited g = true -> w' = w /\ g_ealInited g' = true) /\
  exists k m, oks = (replicate k false ++ replicate m true)%list /\ (g_ealInited g = true -> k = 0%nat) /\ (m <> 0%nat -> g_ealInited g' = true).

Lemma served_register rs r g1 g w oks g' w' :
  grown g g1 -> g_ealInited g1 = g_ealInited g ->
  (forall e, r = Bdf e -> asked e (g_allowedBdfs g1)) -> (forall e, r = Vdev e -> asked e (g_vdevs g1)) ->
  served rs g1 w oks g' w' -> served (r :: rs) g w oks g' w'.
Proof.
  intros Hg Hi Hb Hv (Hu & Hg' & Hbs & Hvs & Hst & Hin & Hoks). unfold served. unfold inited in *. rewrite Hi in *. destruct Hg' as [Hg1 Hg2].
  split; [done|]. split; [by eapply grown_trans|]. split; [|split; [|done]].
  - intros e [He|He]%elem_of_cons; [eapply asked_grown; [exact Hg1|by apply Hb]|by apply Hbs].
  - intros e [He|He]%elem_of_cons; [eapply asked_grown; [exact Hg2|by apply Hv]|by apply Hvs].
Qed.

Definition off_control (r : request) : Prop := match r with Init _ c => c <> kControlThreadCore | _ => True end.

Lemma serve_spec (rs : list request) : forall (g : Eal) (w : W), unique g ->
  exists oks g' w', serve rs (g, w) = (Done oks, (g', w')) /\ served rs g w oks g' w' /\
    ((forall w, fst (pthread_getaffinity w) <> None) -> Forall off_control rs -> affinity w' = affinity w).
Proof.
  induction rs as [|r rs IH]; intros g w Hu.
  { exists [], g, w. split; [done|]. split; [|done]. split; [done|]. split; [by split|]. split; [by intros e ?%elem_of_nil|]. split; [by intros e ?%elem_of_nil|].
    split; [lia|]. split; [done|]. by exists 0%nat, 0%nat. }
  destruct r as [e|e|b c]; cbn [serve].
  - destruct (addUnique_spec (g_allowedBdfs g) e (proj1 Hu)) as (Hn & Hp & Hk).
    destruct (IH (mk_eal (addUnique (g_allowedBdfs g) e) (g_vdevs g) (g_ealInited g)) w) as (oks & g' & w' & E & Hs & Ha); [by split; [|apply Hu]|].
    exists oks, g', w'. split; [exact E|]. split; [|intros Hq Hf; apply Ha; [done|by apply list.Forall_cons in Hf as [_ Hf]]].
    eapply served_register; [| | | |exact Hs]; [split; [exact Hp|reflexivity]|done| |done]. by intros ? [= <-].
  - destruct (addUnique_spec (g_vdevs g) e (proj2 Hu)) as (Hn & Hp & Hk).
    destruct (IH (mk_eal (g_allowedBdfs g) (addUnique (g_vdevs g) e) (g_ealInited g)) w) as (oks & g' & w' & E & Hs & Ha); [by split; [apply Hu|]|].
    exists oks, g', w'. split; [exact E|]. split; [|intros Hq Hf; apply Ha; [done|by apply list.Forall_cons in Hf as [_ Hf]]].
    eapply served_register; [| | | |exact Hs]; [split; [reflexivity|exact Hp]|done|done|]. by intros ? [= <-].
  - destruct (init_once b c g w Hu) as (ok & g1 & w1 & E1 & Hu1 & Hg1 & -> & Hst1 & Hin1 & Ha1).
    destruct (IH g1 w1 Hu1) as (oks & g' & w' & E & (Hu' & Hg' & Hb & Hv & Hst & Hin & k & m & -> & Hk & Hm) & Ha).
    exists (g_ealInited g1 :: replicate k false ++ replicate m true)%list, g', w'.
    rewrite (run_bind _ _ _ _ _ E1), (run_bind _ _ _ _ _ E). split; [done|]. split.
    2: { intros Hq [Hc Hf]%list.Forall_cons. rewrite Ha by done. by apply Ha1. }
    split; [done|]. split; [by eapply grown_trans|].
    split; [intros e [|He]%elem_of_cons; [done|by apply Hb]|]. split; [intros e [|He]%elem_of_cons; [done|by apply Hv]|].
    split; [lia|]. split. { intros Hi. destruct (Hin1 Hi) as [-> ->]. by apply Hin. }
    destruct (g_ealInited g1) eqn:Hi1.
    + exists 0%nat, (S m). rewrite (Hk eq_refl). split; [done|]. split; [done|]. intros _. by apply Hin.
    + exists (S k), m. split; [done|]. split; [|done]. intros Hi. destruct (Hin1 Hi) as [-> _]. congruence.
Qed.

(** C36: However often and in whatever order the transports register devices and ask for the
    environment, every request is answered, the environment is started successfully at most
    once, from then on nothing is called any more and every request for it succeeds; every
    device asked for is registered, under one entry, and an entry that is there stays as it
    is and where it is; and the thread is left on the cores it was on, unless it was to
    drive the control core itself. *)
Theorem eal_once (rs : list request) (g : Eal) (w : W) (Hu : unique g) :
  exists oks g' w', serve rs (g, w) = (Done oks, (g', w')) /\
    unique g' /\ grown g g' /\
    (forall e, Bdf e ∈ rs -> asked e (g_allowedBdfs g')) /\ (forall e, Vdev e ∈ rs -> asked e (g_vdevs g')) /\
    started w' = started w + inited g' - inited g /\
    (g_ealInited g = true -> w' = w) /\
    (exists k m, oks = (replicate k false ++ replicate m true)%list /\ (g_ealInited g = true -> k = 0%nat) /\ (m <> 0%nat -> g_ealInited g' = true)) /\
    ((forall w, fst (pthread_getaffinity w) <> None) -> Forall off_control rs -> affinity w' = affinity w).
Proof.
  destruct (serve_spec rs g w Hu) as (oks & g' & w' & E & (Hu' & Hg & Hb & Hv & Hst & Hin & Hoks) & Ha).
  exists oks, g', w'. do 6 (split; [done|]). split; [intros Hi; by apply Hin|]. by split.
Qed.
End Once.

(** ** A simulated environment: it fails to start while devices of another process hold
    it ([busy] attempts). *)
Module Sim.
Record machine := mk_machine { busy : Z; starts : list (list string); cpus : gset Z }.

#[export] Program Instance eal_sys : EalSys machine := {
  rte_eal_init args w := if 0 <? busy w then (-1, mk_machine (busy w - 1) (starts w) (cpus w)) else (Z.of_nat (length args), mk_machine 0 (args :: starts w) (cpus w));
  pthread_getaffinity w := (Some (cpus w), w);
  pthread_setaffinity s w := mk_machine (busy w) (starts w) s;
}.

#[local] Obligation Tactic := idtac.
#[export] Program Instance eal_laws : EalLaws machine := {
  started w := Z.of_nat (length (starts w));
  affinity := cpus;
}.
Next Obligation. intros args w. cbn [rte_eal_init eal_sys]. destruct (0 <? busy w); cbn [fst snd starts]; [cbn; lia|]. rewrite (proj2 (Z.ltb_ge _ _)) by lia. cbn [length]. lia. Qed.
Next Obligation. done. Qed.
Next Obligation. intros w. split; [done|]. by intros s [= <-]. Qed.
Next Obligation. done. Qed.
Next Obligation. done. Qed.
End Sim.
Import Sim.

(** Two ports of one process, the first start refused. *)
Definition ex_requests : list request :=
  [Bdf "0000:01:00.0,txqs_min_inline=0"; Bdf "0000:02:00.0"; Init "0000:01:00.0" 3; Bdf "0000:01:00.0"; Init "0000:01:00.0" 3; Init "0000:02:00.0" 4].
Definition ex_machine : Sim.machine := Sim.mk_machine 1 [] {[3]}.

Lemma ex_served : serve ex_requests (mk_eal [] [] false, ex_machine) =
  (Done [false; true; true],
   (mk_eal ["0000:01:00.0,txqs_min_inline=0"; "0000:02:00.0"] [] true,
    Sim.mk_machine 0 [["abtrda3"; "-l"; "3"; "--main-lcore"; "3"; "-n"; "4"; "--file-prefix"; "abtrda3_0000_01_00_0"; "--force-max-simd-bitwidth=256";
                       "-a"; "0000:01:00.0,txqs_min_inline=0"; "-a"; "0000:02:00.0"]] {[3]})).
Proof. vm_compute. reflexivity. Qed.

Lemma ex_unique : unique (mk_eal [] [] false).
Proof. split; constructor. Qed.

Lemma eal_once_witness : unique (mk_eal [] [] false) /\ exists oks g' w', serve ex_requests (mk_eal [] [] false, ex_machine) = (Done oks, (g', w')) /\ started w' = inited g'.
Proof.
  split; [exact ex_unique|]. destruct (eal_once ex_requests (mk_eal [] [] false) ex_machine ex_unique) as (oks & g' & w' & E & _ & _ & _ & _ & Hst & _).
  exists oks, g', w'. split; [exact E|]. cbn in Hst |- *. rewrite Hst. cbn. lia.
Defined.

(** Binding a device closes the files it opens. *)
Section Bind.
Context {W : Type} {FS : FileSys W} {FL : FileLaws W}.

Lemma writeSysfs_keeps path val : keeps (writeSysfs path val).
Proof.
  unfold writeSysfs. apply (keeps_scope kFd (open_fd O_WRONLY path) (Z.leb 0) close_fd); [by apply open_law|by apply close_law| |].
  - intros h Hh. apply Z.leb_gt in Hh. rewrite (proj2 (Z.ltb_lt _ _)) by done. apply keeps_ret.
  - intros h w Hh _. apply Z.leb_le in Hh. rewrite (proj2 (Z.ltb_ge _ _)) by done.
    apply ends_keeps; [apply keeps_lift; intros; apply write_law|]. intros n w1 He. rewrite <- He. apply ends_release; [apply close_law|apply keeps_ret].
Qed.

Lemma bindToVfio_keeps bdf : keeps (bindToVfio bdf).
Proof.
  unfold bindToVfio. apply keeps_bind; [apply keeps_lift; intros; apply access_law|]. intros there.
  apply keeps_bind; [destruct there; [apply keeps_ret|apply keeps_lift; intros; apply system_law]|]. intros _.
  apply keeps_bind; [apply readlinkBasename_keeps|]. intros d. apply keeps_if; [apply keeps_ret|]. cbn zeta.
  apply keeps_bind; [apply writeSysfs_keeps|]. intros _. apply keeps_bind; [apply writeSysfs_keeps|]. intros _. apply writeSysfs_keeps.
Qed.
End Bind.
