(* ===== verification/DPDK.v ===== *)
(** * The DPDK transport (src/backends/DPDK/DPDK.hpp): the hot path

    Receive bursts and transmit posts over the operations of rte_ethdev and rte_mbuf
    ([DpdkLib]).  [view] and [nstep] say what the port and its driver do with the buffers,
    [DpdkLaws] what the library promises.  Both contracts of the transport interface hold,
    with the one-buffer fast path of [setTxInlineReuse] included. *)

From S2P Require Import Prelude RingConcepts Resources.

Inductive DpdkMode := RxOnly | TxOnly | RxTx.

(** The template parameters. *)
Record config := mk_config {
  mode : DpdkMode; QueueId : Z; NbRxDesc : Z; NbTxDesc : Z; BurstSize : Z; NumMbufs : Z; MaxFrame : Z }.
Definition HAS_RX (c : config) : bool := match mode c with TxOnly => false | _ => true end.
Definition HAS_TX (c : config) : bool := match mode c with RxOnly => false | _ => true end.

Definition MBUF_CACHE : Z := 250.
Definition INLINE_SAFE_LEN : Z := 128.
Definition REFCNT_LOW : Z := 8192.
Definition REFCNT_TOPUP : Z := 16384.

(** ** The members, in groups; an mbuf is named by its address, 0 is null *)
Record Names := mk_names { m_ifname : string; m_driver : string; m_lcore : Z; m_pci : string }.
Record Port := mk_port { m_port : Z; m_pool : Z; m_mac : list Z; m_prepared : bool; m_started : bool }.
Record Flags := mk_flags {
  m_bifurcated : bool; m_afxdpPmd : bool; m_applyDeferral : bool; m_linkSpeeds : Z; m_symmetricQueues : bool; m_nbRxDesc : Z; m_devargs : string }.
Record Rx := mk_rx { m_rxBurst : list Z; m_rxCount : Z; m_rxIdx : Z; m_pendingRx : Z }.
Record Tx := mk_tx { m_txTemplate : bytes; m_txTemplateLen : Z; m_pendingTx : Z; m_txReuse : Z; m_txReuseInline : bool }.
Record Dpdk := mk_dpdk { names : Names; port : Port; flags : Flags; rx : Rx; tx : Tx }.

Definition set_names (x : Names) (o : Dpdk) := mk_dpdk x (port o) (flags o) (rx o) (tx o).
Definition set_port (x : Port) (o : Dpdk) := mk_dpdk (names o) x (flags o) (rx o) (tx o).
Definition set_flags (x : Flags) (o : Dpdk) := mk_dpdk (names o) (port o) x (rx o) (tx o).
Definition set_rx (x : Rx) (o : Dpdk) := mk_dpdk (names o) (port o) (flags o) x (tx o).
Definition set_tx (x : Tx) (o : Dpdk) := mk_dpdk (names o) (port o) (flags o) (rx o) x.

Definition set_template (t : bytes) (n : Z) (x : Tx) := mk_tx t n (m_pendingTx x) (m_txReuse x) (m_txReuseInline x).
Definition set_pendingTx (m : Z) (x : Tx) := mk_tx (m_txTemplate x) (m_txTemplateLen x) m (m_txReuse x) (m_txReuseInline x).
Definition set_reuse (m : Z) (x : Tx) := mk_tx (m_txTemplate x) (m_txTemplateLen x) (m_pendingTx x) m (m_txReuseInline x).
Definition set_pendingRx (m : Z) (x : Rx) := mk_rx (m_rxBurst x) (m_rxCount x) (m_rxIdx x) m.

(** ** The library: bursts, buffers, and the memory of a buffer from [mtod] on *)
Class DpdkLib (L : Type) := {
  rte_eth_rx_burst : Z -> Z -> Z -> L -> list Z * L;
  rte_eth_tx_burst : Z -> Z -> Z -> L -> Z * L;
  rte_pktmbuf_alloc : Z -> L -> Z * L;
  rte_pktmbuf_free : Z -> L -> L;
  rte_mbuf_refcnt_set : Z -> Z -> L -> L;
  rte_mbuf_refcnt_read : Z -> L -> Z;
  rte_mbuf_refcnt_update : Z -> Z -> L -> L;
  mtod : Z -> Z;
  data : Z -> L -> bytes;
  set_data : Z -> bytes -> L -> L;
  pkt_len : Z -> L -> Z;
  set_lens : Z -> Z -> Z -> L -> L;
}.

Section Operations.
Context {L : Type} {DL : DpdkLib L} (c : config) (fuel : nat).
Abbreviation W := (Dpdk * L)%type.

Definition on_rx (f : Rx -> Rx) : M W unit := upd (fun o => set_rx (f (rx o)) o).
Definition on_tx (f : Tx -> Tx) : M W unit := upd (fun o => set_tx (f (tx o)) o).

(** [memcpy] into the buffer of [m], at an offset from [mtod]. *)
Definition copy_to (m off : Z) (src : bytes) : M W unit :=
  l ← gets snd;
  match store (Z.to_nat off) src (data m l) with Some d => act (set_data m d) | None => raise Undef end.

(** ** Receive *)

Definition tryReceive : M W bytes :=
  o ← gets fst;
  (if m_rxCount (rx o) <=? m_rxIdx (rx o) then
     ms ← sys (rte_eth_rx_burst (m_port (port o)) (QueueId c) (BurstSize c));
     on_rx (fun x => mk_rx (list_inserts 0 ms (m_rxBurst x)) (Z.of_nat (length ms)) 0 (m_pendingRx x))
   else mret tt) ;;
  o ← gets fst;
  if m_rxCount (rx o) <=? m_rxIdx (rx o) then mret [] else
  match m_rxBurst (rx o) !! Z.to_nat (m_rxIdx (rx o)) with
  | None => raise Undef
  | Some m =>
      on_rx (set_pendingRx m) ;;
      l ← gets snd;
      match load 0 (Z.to_nat (pkt_len m l)) (data m l) with Some f => mret f | None => raise Undef end
  end.

Definition release : M W unit :=
  o ← gets fst;
  act (rte_pktmbuf_free (m_pendingRx (rx o))) ;;
  on_rx (fun x => mk_rx (m_rxBurst x) (m_rxCount x) (u16 (m_rxIdx x + 1)) 0).

(** ** Transmit *)

Definition prefillRing (t : bytes) : M W unit :=
  let n := u16 (Z.min (Z.of_nat (length t)) (MaxFrame c)) in
  o ← gets fst;
  match store 0 (take (Z.to_nat n) t) (m_txTemplate (tx o)) with
  | Some b => on_tx (set_template b n)
  | None => raise Undef
  end.

(** The buffer that is sent over and over, made on first use. *)
Definition reuse_buffer : M W Z :=
  o ← gets fst;
  if negb (m_txReuse (tx o) =? 0) then mret (m_txReuse (tx o)) else
  m ← sys (rte_pktmbuf_alloc (m_pool (port o)));
  on_tx (set_reuse m) ;;
  if m =? 0 then mret 0 else
  act (rte_mbuf_refcnt_set m REFCNT_TOPUP) ;;
  (if m_txTemplateLen (tx o) =? 0 then mret tt else copy_to m 0 (take (Z.to_nat (m_txTemplateLen (tx o))) (m_txTemplate (tx o)))) ;;
  mret m.

Definition lend (m frameLen : Z) : M W unit :=
  on_tx (set_pendingTx m) ;;
  act (set_lens m (u16 frameLen) frameLen).

Definition acquire (frameLen : Z) : M W (option Z) :=
  o ← gets fst;
  if m_txReuseInline (tx o) && (frameLen <=? INLINE_SAFE_LEN) then
    m ← reuse_buffer;
    if m =? 0 then mret None else
    l ← gets snd;
    (if rte_mbuf_refcnt_read m l <? REFCNT_LOW then act (rte_mbuf_refcnt_update m REFCNT_TOPUP) else mret tt) ;;
    lend m frameLen ;;
    mret (Some (mtod m))
  else
    m ← sys (rte_pktmbuf_alloc (m_pool (port o)));
    if m =? 0 then on_tx (set_pendingTx 0) ;; mret None else
    lend m frameLen ;;
    (if m_txTemplateLen (tx o) =? 0 then mret tt
     else copy_to m 0 (take (Z.to_nat (Z.min frameLen (m_txTemplateLen (tx o)))) (m_txTemplate (tx o)))) ;;
    mret (Some (mtod m)).

(** What an application writes into the lent buffer. *)
Definition write (p : Z) (src : bytes) : M W unit :=
  o ← gets fst;
  let m := m_pendingTx (tx o) in
  if p <? mtod m then raise Undef else copy_to m (p - mtod m) src.

(** [while (rte_eth_tx_burst(...) == 0) {}] *)
Fixpoint burst_loop (n : nat) (p m : Z) : M W unit :=
  match n with
  | O => raise NoFuel
  | S n =>
      k ← sys (rte_eth_tx_burst p (QueueId c) m);
      if k =? 0 then burst_loop n p m else mret tt
  end.

Definition commit : M W unit :=
  o ← gets fst;
  burst_loop fuel (m_port (port o)) (m_pendingTx (tx o)) ;;
  on_tx (set_pendingTx 0).

Definition send (frame : bytes) : M W bool :=
  buf ← acquire (u32 (Z.of_nat (length frame)));
  match buf with None => mret false | Some p => write p frame ;; commit ;; mret true end.
End Operations.

#[export] Instance Dpdk_TxRing {L} `{DpdkLib L} c fuel : TxRing (Dpdk * L) := {|
  tx_acquire := acquire; tx_write := write; tx_commit := commit c fuel; tx_send := send c fuel; tx_prefillRing := prefillRing c |}.
#[export] Instance Dpdk_RxRing {L} `{DpdkLib L} c : RxRing (Dpdk * L) := {| rx_tryReceive := tryReceive c; rx_release := release |}.

(** ** What the port and its driver do

    [b_data] is the buffer from [mtod] on. A posted frame is sent from its buffer, or from
    the copy the driver took of it; sending one leaves one reference to be given back. A frame
    is received into a buffer of the pool, which no send refers to. *)
Record mbuf := mk_mbuf { b_refcnt : Z; b_data : bytes; b_len : Z }.
Record view := mk_view {
  v_bufs : gmap Z mbuf; v_queue : list (Z * option bytes); v_done : list Z; v_wire : list bytes; v_rxq : list Z; v_got : list bytes }.

Definition frame_of (b : mbuf) : bytes := take (Z.to_nat (b_len b)) (b_data b).

Definition v_buf (m : Z) (f : mbuf -> mbuf) (v : view) := mk_view (alter f m (v_bufs v)) (v_queue v) (v_done v) (v_wire v) (v_rxq v) (v_got v).
Definition v_new (m : Z) (b : mbuf) (v : view) := mk_view (<[m := b]> (v_bufs v)) (v_queue v) (v_done v) (v_wire v) (v_rxq v) (v_got v).
Definition v_post (m : Z) (cp : option bytes) (v : view) := mk_view (v_bufs v) (v_queue v ++ [(m, cp)]) (v_done v) (v_wire v) (v_rxq v) (v_got v).
Definition v_take (k : nat) (v : view) := mk_view (v_bufs v) (v_queue v) (v_done v) (v_wire v) (drop k (v_rxq v)) (v_got v).

(** One reference less; the last one puts the buffer back into the pool. *)
Definition unref (m : Z) (bs : gmap Z mbuf) : gmap Z mbuf :=
  match bs !! m with
  | Some b => if decide (b_refcnt b = 1) then delete m bs else <[m := mk_mbuf (b_refcnt b - 1) (b_data b) (b_len b)]> bs
  | None => bs
  end.
Definition v_unref (m : Z) (v : view) := mk_view (unref m (v_bufs v)) (v_queue v) (v_done v) (v_wire v) (v_rxq v) (v_got v).

Inductive nstep : view -> view -> Prop :=
  | n_send bs m cp q d w r g f :
      cp = Some f \/ (cp = None /\ exists b, bs !! m = Some b /\ f = frame_of b) ->
      nstep (mk_view bs ((m, cp) :: q) d w r g) (mk_view bs q (d ++ [m]) (w ++ [f]) r g)
  | n_reap bs q m d w r g : nstep (mk_view bs q (m :: d) w r g) (mk_view (unref m bs) q d w r g)
  | n_recv bs q d w r g m b :
      m <> 0 -> bs !! m = None -> m ∉ q.*1 ++ d -> b_refcnt b = 1 -> frame_of b <> [] -> is_bytes (frame_of b) -> b_len b = Z.of_nat (length (frame_of b)) ->
      nstep (mk_view bs q d w r g) (mk_view (<[m := b]> bs) q d w (r ++ [m]) (g ++ [frame_of b])).

Definition refs (v : view) : list Z := (v_queue v).*1 ++ v_done v.

Definition set_count (f : Z -> Z) (b : mbuf) := mk_mbuf (f (b_refcnt b)) (b_data b) (b_len b).
Definition set_bytes (d : bytes) (b : mbuf) := mk_mbuf (b_refcnt b) d (b_len b).
Definition set_len (n : Z) (b : mbuf) := mk_mbuf (b_refcnt b) (b_data b) n.

(** [f] changes the buffer [m] as [g] says, after whatever the port does by itself. *)
Definition changes {L} (dview : L -> view) (m : Z) (f : L -> L) (g : mbuf -> mbuf) (l : L) : Prop :=
  is_Some (v_bufs (dview l) !! m) -> exists v, rtc nstep (dview l) v /\ dview (f l) = v_buf m g v.

(** [room]: the data room of a buffer; [slots]: the transmit descriptors of the port;
    [inlines]: the driver copies frames of up to [INLINE_SAFE_LEN] bytes when they are
    posted; [tries]: how often it still refuses a post. *)
Class DpdkLaws (room slots : Z) (inlines : bool) (patience : nat) (L : Type) `{DpdkLib L} := {
  dview : L -> view;
  tries : L -> nat;
  tries_bound l : (tries l < patience)%nat;
  rx_law p q n l : let '(ms, l') := rte_eth_rx_burst p q n l in
    exists v, rtc nstep (dview l) v /\ (length ms <= Z.to_nat n)%nat /\ ms = take (length ms) (v_rxq v) /\ dview l' = v_take (length ms) v;
  tx_law p q m l : is_Some (v_bufs (dview l) !! m) -> let '(k, l') := rte_eth_tx_burst p q m l in
    exists v, rtc nstep (dview l) v /\
      ((k = 0 /\ dview l' = v /\ (tries l' < tries l)%nat) \/
       (k = 1 /\ Z.of_nat (length (refs v)) < slots /\ exists cp, dview l' = v_post m cp v /\
          forall b, v_bufs v !! m = Some b -> cp = Some (frame_of b) \/ (cp = None /\ ~ (inlines = true /\ b_len b <= INLINE_SAFE_LEN))));
  alloc_law p l : let '(m, l') := rte_pktmbuf_alloc p l in
    exists v, rtc nstep (dview l) v /\
      ((m = 0 /\ dview l' = v) \/
       (m <> 0 /\ v_bufs v !! m = None /\ exists d, Z.of_nat (length d) = room /\ dview l' = v_new m (mk_mbuf 1 d 0) v));
  free_law m l : is_Some (v_bufs (dview l) !! m) -> exists v, rtc nstep (dview l) v /\ dview (rte_pktmbuf_free m l) = v_unref m v;
  refcnt_set_law m n l : changes dview m (rte_mbuf_refcnt_set m n) (set_count (fun _ => n)) l;
  refcnt_read_law m l b : v_bufs (dview l) !! m = Some b -> rte_mbuf_refcnt_read m l = b_refcnt b;
  refcnt_update_law m n l : changes dview m (rte_mbuf_refcnt_update m n) (set_count (fun x => u16 (x + n))) l;
  data_law m l b : v_bufs (dview l) !! m = Some b -> data m l = b_data b;
  set_data_law m d l : changes dview m (set_data m d) (set_bytes d) l;
  len_law m l b : v_bufs (dview l) !! m = Some b -> pkt_len m l = b_len b;
  set_lens_law m n n' l : changes dview m (set_lens m n n') (set_len n') l;
}.

(** ** Reception *)
Module Receive.
Section Contract.
Context {L : Type} {DL : DpdkLib L} (c : config) (room slots : Z) (inlines : bool) (patience : nat).
Context {LL : DpdkLaws room slots inlines patience L}.
Abbreviation W := (Dpdk * L)%type.
Implicit Types (v : view) (seen fs : list bytes) (B : gset Z).
Context (burst_pos : 1 <= BurstSize c < 2 ^ 16).

Definition contains v (m : Z) (f : bytes) : Prop :=
  exists b, v_bufs v !! m = Some b /\ b_refcnt b = 1 /\ frame_of b = f /\ b_len b = Z.of_nat (length f) /\ f <> [] /\ is_bytes f.

(** The buffers [ms] are the caller's, from the next frame on; the driver has [v_rxq]; no
    send refers to either; what is live beyond that is [B]. *)
Record core B seen (ms : list Z) v : Prop := {
  r_nodup : NoDup (ms ++ v_rxq v);
  r_frames : exists fs, v_got v = seen ++ fs /\ Forall2 (contains v) (ms ++ v_rxq v) fs;
  r_refs m : m ∈ ms ++ v_rxq v -> m ∉ refs v;
  r_live m : is_Some (v_bufs v !! m) -> m ∈ B \/ m ∈ ms ++ v_rxq v }.

Lemma contains_unref v m m' f : m <> m' -> contains v m f -> contains (v_unref m' v) m f.
Proof.
  intros Hne (b & Hb & H). exists b. split; [|done]. cbn. unfold unref. destruct (v_bufs v !! m') eqn:E; [|done].
  case_decide; [by rewrite lookup_delete_ne|by rewrite lookup_insert_ne].
Qed.

Lemma contains_bufs v v' m f : v_bufs v' !! m = v_bufs v !! m -> contains v m f -> contains v' m f.
Proof. intros He (b & Hb & H). exists b. by rewrite He. Qed.

Lemma contains_all v v' ms fs : (forall m f, m ∈ ms -> contains v m f -> contains v' m f) -> Forall2 (contains v) ms fs -> Forall2 (contains v') ms fs.
Proof.
  intros H HF. induction HF as [|m f ms fs Hm _ IH]; constructor; [apply H; [by left|done]|]. apply IH. intros. apply H; [by right|done].
Qed.

Lemma unref_live m m' bs : is_Some (unref m' bs !! m) -> is_Some (bs !! m).
Proof.
  unfold unref. destruct (bs !! m') eqn:E; [|done]. case_decide.
  - rewrite lookup_delete_is_Some. tauto.
  - rewrite lookup_insert_is_Some. intros [<-|[_ ?]]; [by rewrite E|done].
Qed.

Lemma rx_step B seen ms v v' : nstep v v' -> core B seen ms v -> core B seen ms v'.
Proof.
  intros Hs [Hn (fs & Hg & HF) Hr Hl]. destruct Hs as [bs m cp q d w r g f Hf|bs q m d w r g|bs q d w r g m b Hm Hb Hq Hc Hne Hby Hlen]; cbn [v_bufs v_queue v_done v_wire v_rxq v_got] in *.
  - split; cbn; try done; [by exists fs|]. intros x Hx Hin. apply (Hr x Hx). unfold refs in *. cbn in *. set_solver.
  - split; cbn; try done.
    + exists fs. split; [done|]. eapply contains_all; [|exact HF]. intros x f Hx. apply (contains_unref (mk_view bs q (m :: d) w r g)).
      intros ->. apply (Hr m Hx). unfold refs. cbn. set_solver.
    + intros x Hx Hin. apply (Hr x Hx). unfold refs in *. cbn in *. set_solver.
    + intros x Hx. apply Hl. by eapply unref_live.
  - assert (forall x, x ∈ ms ++ r -> x <> m) as Hold.
    { intros x Hx ->. apply list_elem_of_lookup_1 in Hx as (i & Hi). destruct (Forall2_lookup_l _ _ _ _ _ HF Hi) as (f & _ & b' & Hb' & _). cbn in Hb'. congruence. }
    split; cbn; rewrite ?app_assoc.
    + apply list.NoDup_app. split; [done|]. split; [|apply list.NoDup_singleton]. intros x Hx Hx2. apply list_elem_of_singleton in Hx2. by apply (Hold x).
    + exists (fs ++ [frame_of b]). split; [by rewrite Hg, app_assoc|]. apply Forall2_app; [|constructor; [|constructor]].
      * eapply contains_all; [|exact HF]. intros x f Hx. apply contains_bufs. cbn. rewrite lookup_insert_ne; [done|]. intros He. by apply (Hold x).
      * exists b. cbn. by rewrite lookup_insert_eq.
    + intros x Hx Hin. unfold refs in *. cbn in *.
      apply elem_of_app in Hx as [Hx| ->%list_elem_of_singleton]; [by apply (Hr x Hx)|].
      done.
    + intros x Hx. apply lookup_insert_is_Some in Hx as [<-|[_ Hx]]; [right; set_solver|]. destruct (Hl x Hx); [by left|right; set_solver].
Qed.

Lemma rx_steps B seen ms v v' : rtc nstep v v' -> core B seen ms v -> core B seen ms v'.
Proof. intros Hr. induction Hr; [done|]. intros C. by eauto using rx_step. Qed.

(** The members: what is left of the last burst. *)
Definition left_over (o : Dpdk) : list Z := drop (Z.to_nat (m_rxIdx (rx o))) (take (Z.to_nat (m_rxCount (rx o))) (m_rxBurst (rx o))).
Definition well_formed (o : Dpdk) : Prop :=
  Z.of_nat (length (m_rxBurst (rx o))) = BurstSize c /\ 0 <= m_rxIdx (rx o) <= m_rxCount (rx o) /\ m_rxCount (rx o) <= BurstSize c.

Definition idle B seen (w : W) : Prop := well_formed (fst w) /\ core B seen (left_over (fst w)) (dview (snd w)).
Definition held B seen (f : bytes) (w : W) : Prop :=
  well_formed (fst w) /\ m_rxIdx (rx (fst w)) < m_rxCount (rx (fst w)) /\ hd_error (left_over (fst w)) = Some (m_pendingRx (rx (fst w))) /\
  (seen ++ [f]) `prefix_of` v_got (dview (snd w)) /\ core B seen (left_over (fst w)) (dview (snd w)).

Lemma left_over_nil o : well_formed o -> m_rxCount (rx o) <= m_rxIdx (rx o) -> left_over o = [].
Proof. intros (Hl & Hi & Hc) He. unfold left_over. apply drop_ge. rewrite length_take. lia. Qed.

Lemma left_over_head o : well_formed o -> m_rxIdx (rx o) < m_rxCount (rx o) ->
  exists m, m_rxBurst (rx o) !! Z.to_nat (m_rxIdx (rx o)) = Some m /\ hd_error (left_over o) = Some m.
Proof.
  intros (Hl & Hi & Hc) He. destruct (lookup_lt_is_Some_2 (m_rxBurst (rx o)) (Z.to_nat (m_rxIdx (rx o)))) as [m Hm]; [lia|].
  exists m. split; [done|]. rewrite head_lookup. unfold left_over. rewrite lookup_drop, Nat.add_0_r, lookup_take_lt by lia. done.
Qed.

Lemma dpdk_core_take B seen n v : core B seen [] v -> core B seen (take n (v_rxq v)) (v_take n v).
Proof.
  intros [Hn (fs & Hg & HF) Hr Hl]. cbn [app] in *. split; cbn [v_take v_rxq v_got v_bufs]; rewrite take_drop; try done. by exists fs.
Qed.

Lemma dpdk_tryReceive_ok B seen w : idle B seen w ->
  exists f w', tryReceive c w = (Done f, w') /\ match f with [] => idle B seen w' | _ => held B seen f w' end.
Proof.
  intros [Hwf C]. destruct w as [o l]. cbn [fst snd] in *. unfold tryReceive. rewrite run_gets. cbn [fst].
  set (refill := if m_rxCount (rx o) <=? m_rxIdx (rx o) then _ else _).
  assert (exists o1 l1, refill (o, l) = (Done tt, (o1, l1)) /\ idle B seen (o1, l1)) as (o1 & l1 & E1 & Hwf1 & C1).
  { unfold refill. destruct (Z.leb_spec (m_rxCount (rx o)) (m_rxIdx (rx o))) as [He|He]; [|by exists o, l].
    unfold sys, mbind, M_bind. cbn [fst snd]. pose proof (rx_law (m_port (port o)) (QueueId c) (BurstSize c) l) as Hl.
    destruct (rte_eth_rx_burst _ _ _ l) as [ms l']. destruct Hl as (v & Hs & Hn & Hms & Hv). eexists _, _. split; [done|].
    rewrite left_over_nil in C by done. pose proof (rx_steps _ _ _ _ _ Hs C) as C1. destruct Hwf as (Hlen & Hi & Hc).
    split; cbn [fst snd].
    - unfold well_formed. cbn. rewrite length_inserts. lia.
    - unfold left_over. cbn. rewrite Hv, Nat2Z.id, inserts_split by lia. rewrite take_0. cbn [app]. rewrite take_app_length, drop_0, Hms at 1.
      rewrite Hms, length_take. by apply dpdk_core_take. }
  rewrite (run_bind _ _ _ _ _ E1), run_gets. cbn [fst snd] in *. clear refill E1.
  destruct (Z.leb_spec (m_rxCount (rx o1)) (m_rxIdx (rx o1))) as [He|He]; [by exists [], (o1, l1)|].
  destruct (left_over_head o1 Hwf1 He) as (m & Hm & Hm0). rewrite Hm. unfold on_rx, upd. cbn [fst snd].
  pose proof C1 as [_ (fs & Hg & HF) _ _].
  assert ((left_over o1 ++ v_rxq (dview l1)) !! 0%nat = Some m) as Hh by (rewrite head_lookup in Hm0; by apply lookup_app_l_Some).
  destruct (Forall2_lookup_l _ _ _ _ _ HF Hh) as (f & Hf & Hcon). pose proof Hcon as (b & Hb & Hrc & Hfr & Hlen & Hne & Hby).
  exists f. eexists. split.
  { unfold mbind, M_bind. cbn [gets snd fst]. rewrite (len_law _ _ _ Hb), (data_law _ _ _ Hb). unfold load, slice. rewrite Hlen, Nat2Z.id, drop_0.
    assert (length (b_data b) >= length f)%nat as Hge.
    { rewrite <- Hfr. unfold frame_of. rewrite length_take. lia. }
    rewrite decide_True by lia. replace (take (length f) (b_data b)) with f; [done|]. rewrite <- Hfr at 1. unfold frame_of. by rewrite Hlen, Nat2Z.id. }
  destruct f as [|x f]; [done|]. split; [done|]. split; [done|]. split; [done|]. split; [|done]. cbn [fst snd]; rewrite Hg.
  destruct fs as [|f0 fs]; [done|]. injection Hf as ->. exists fs. by rewrite <- app_assoc.
Qed.

Lemma dpdk_got_steps v v' : rtc nstep v v' -> v_got v `prefix_of` v_got v'.
Proof. intros Hr. induction Hr as [v|v1 v2 v3 Hs _ IH]; [done|]. etrans; [|exact IH]. destruct Hs; try done. cbn. by apply prefix_app_r. Qed.

Lemma dpdk_release_ok B seen f w : held B seen f w -> exists w', release w = (Done tt, w') /\ idle B (seen ++ [f]) w'.
Proof.
  destruct w as [o l]. intros ((Hlen & Hi & Hc) & He & Hm & Hp & C). cbn [fst snd] in *. set (m := m_pendingRx (rx o)) in *.
  assert (exists ms, left_over o = m :: ms) as [ms Hms] by (destruct (left_over o) as [|x ms]; [done|]; injection Hm as ->; by exists ms).
  unfold release. rewrite run_gets. cbn [fst]. unfold act. eexists. split; [done|]. cbn [fst snd]. fold m. rewrite Hms in *.
  destruct (free_law m l) as (v & Hs & Hv).
  { destruct C as [_ (fs & _ & HF) _ _]. inversion HF as [|? ? ? ? (b & Hb & _)]; subst. by rewrite Hb. }
  destruct (rx_steps _ _ _ _ _ Hs C) as [Hn (fs & Hg & HF) Hr Hl]. cbn [app] in *. apply list.NoDup_cons in Hn as [Hnm Hn].
  inversion HF as [|? f' ? fs' (b & Hb & Hrc & Hfr & _) HF']; subst.
  assert (v_got v = (seen ++ [f]) ++ fs') as Hg'.
  { pose proof (dpdk_got_steps _ _ Hs) as Hgs. rewrite <- app_assoc. rewrite Hg. cbn [app]. do 2 f_equal. destruct Hp as [k Hp], Hgs as [k' Hgs].
    rewrite Hg, Hp, <- !app_assoc in Hgs. apply app_inv_head in Hgs. by injection Hgs. }
  assert (v_bufs (v_unref m v) = delete m (v_bufs v)) as Hdel by (cbn; unfold unref; by rewrite Hb, decide_True).
  split; cbn [fst snd].
  { unfold well_formed. cbn. rewrite wrap_small by (split; change (2 ^ 16) with 65536 in *; lia). lia. }
  assert (left_over (set_rx (mk_rx (m_rxBurst (rx o)) (m_rxCount (rx o)) (u16 (m_rxIdx (rx o) + 1)) 0) o) = ms) as ->.
  { unfold left_over in *. cbn. rewrite wrap_small by (split; change (2 ^ 16) with 65536 in *; lia).
    replace (Z.to_nat (m_rxIdx (rx o) + 1)) with (Z.to_nat (m_rxIdx (rx o)) + 1)%nat by lia. by rewrite <- drop_drop, Hms. }
  rewrite Hv. split; try done.
  - exists fs'. split; [done|]. eapply contains_all; [|exact HF']. intros x g Hx. apply contains_unref. by intros ->.
  - intros x Hx. apply Hr. by right.
  - intros x Hx. rewrite Hdel in Hx. apply lookup_delete_is_Some in Hx as [Hne Hx].
    destruct (Hl x Hx) as [|[->|]%elem_of_cons]; [by left|done|by right].
Qed.

#[export] Program Instance Dpdk_RxContract (B : gset Z) : @RxContract W (Dpdk_RxRing c) := {|
  rx_arrived w := v_got (dview (snd w)); rx_idle := idle B; rx_held := held B |}.
Next Obligation. intros B seen w [_ [_ (fs & Hg & _) _ _]]. by exists fs. Qed.
Next Obligation. by intros B seen f w (_ & _ & _ & Hp & _). Qed.
Next Obligation.
  intros B seen f w (_ & _ & Hm & [k Hp] & [_ (fs & Hg & HF) _ _]). destruct (left_over (fst w)) as [|m ms]; [done|].
  inversion HF as [|? f' ? fs' (b & _ & _ & _ & _ & _ & Hby)]; subst. rewrite Hg, <- app_assoc in Hp. apply app_inv_head in Hp. by injection Hp as -> _.
Qed.
Next Obligation. exact dpdk_tryReceive_ok. Qed.
Next Obligation. exact dpdk_release_ok. Qed.

(** What [init] leaves of the members; nothing has been received. *)
Record fresh (w : W) : Prop := {
  f_burst : Z.of_nat (length (m_rxBurst (rx (fst w)))) = BurstSize c; f_idx : m_rxIdx (rx (fst w)) = 0 /\ m_rxCount (rx (fst w)) = 0;
  f_rxq : v_rxq (dview (snd w)) = []; f_got : v_got (dview (snd w)) = [] }.

Lemma dpdk_fresh_idle w : fresh w -> idle (dom (v_bufs (dview (snd w)))) [] w.
Proof.
  intros [Hb [Hi Hc] Hr Hg]. split; [unfold well_formed; lia|]. assert (left_over (fst w) = []) as -> by (unfold left_over; by rewrite Hi, Hc).
  split; rewrite ?Hr, ?Hg; cbn [app].
  - constructor.
  - by exists [].
  - by intros m ?%elem_of_nil.
  - intros m Hm. left. by apply elem_of_dom.
Qed.
End Contract.

(** C15: Frames received through DPDK come out in order, each once and intact, whatever the
    port receives, sends and gives back meanwhile: after any number of polls with a release
    of every frame found, what was collected is the arrivals from the first on, and of the
    buffers that came up since, only those of frames not yet given out are still taken. *)
Theorem dpdk_rx_fifo {L} c room slots inlines patience `{DpdkLaws room slots inlines patience L} n (w : Dpdk * L) :
  1 <= BurstSize c < 2 ^ 16 -> fresh c room slots inlines patience w ->
  exists fs w' rest, @receive_n _ (Dpdk_RxRing c) n w = (Done fs, w') /\ v_got (dview (snd w')) = fs ++ rest /\ length rest = length (left_over (fst w') ++ v_rxq (dview (snd w'))) /\
    forall m, is_Some (v_bufs (dview (snd w')) !! m) -> is_Some (v_bufs (dview (snd w)) !! m) \/ m ∈ left_over (fst w') ++ v_rxq (dview (snd w')).
Proof.
  intros HB Hf. destruct (receive_n_spec (H0 := Dpdk_RxContract c room slots inlines patience HB (dom (v_bufs (dview (snd w))))) n [] w) as (fs & w' & E & Hid).
  { by apply dpdk_fresh_idle. }
  destruct Hid as [_ [_ (rest & Hg & HF) _ Hl]]. exists fs, w', rest. split; [exact E|]. split; [done|]. split; [symmetry; by eapply Forall2_length|].
  intros m Hm. destruct (Hl m Hm) as [Hd|]; [left; by apply elem_of_dom|by right].
Qed.
End Receive.

(** ** Transmission *)
Module Send.
Section Contract.
Context {L : Type} {DL : DpdkLib L} (c : config) (room slots : Z) (inlines : bool) (patience fuel : nat).
Context {LL : DpdkLaws room slots inlines patience L}.
Abbreviation W := (Dpdk * L)%type.
Implicit Types (v : view) (sent : list bytes) (bs : gmap Z mbuf) (l : list Z).
Context (few : 0 <= slots /\ slots + 2 <= REFCNT_LOW) (fits : 0 <= MaxFrame c <= room) (room16 : room < 2 ^ 16) (enough : (patience <= fuel)%nat).

Definition count (R : Z) l : Z := Z.of_nat (length (filter (fun m => m = R) l)).

(** [l] are the references of sends, [R] the buffer that is used again, which starts with
    [K]. A buffer sent once has the one reference; the count of [R] is always more than the
    sends that still refer to it. *)
Record counted (k R : Z) (K : bytes) bs l : Prop := {
  c_zero : 0 ∉ l;
  c_one m : m ∈ l -> m <> R -> exists b, bs !! m = Some b /\ b_refcnt b = 1;
  c_once : NoDup (filter (fun m => m <> R) l);
  c_reuse : R <> 0 -> exists b, bs !! R = Some b /\ K `prefix_of` b_data b /\ Z.of_nat (length (b_data b)) = room /\
    REFCNT_LOW - slots - k + count R l <= b_refcnt b < REFCNT_LOW + REFCNT_TOPUP;
  c_slots : Z.of_nat (length l) <= slots }.

#[local] Instance counted_perm k R K bs : Proper (Permutation ==> iff) (counted k R K bs).
Proof.
  assert (forall l1 l2, l1 ≡ₚ l2 -> counted k R K bs l1 -> counted k R K bs l2) as Himp.
  { intros l1 l2 Hp []. split; try by rewrite <- Hp.
    - intros m. rewrite <- Hp. apply c_one0.
    - intros HR. destruct (c_reuse0 HR) as (b & H1 & H2 & H3 & H4). exists b. unfold count in *. by rewrite <- Hp. }
  intros l1 l2 Hp. split; [by apply Himp|by apply Himp; symmetry].
Qed.

Lemma counted_others k R K bs bs' l : (forall m, (m ∈ l \/ m = R) -> is_Some (bs !! m) -> bs' !! m = bs !! m) -> counted k R K bs l -> counted k R K bs' l.
Proof.
  intros He []. split; try done.
  - intros m Hm HR. destruct (c_one0 m Hm HR) as (b & Hb & H1). exists b. rewrite He; [done|by left|by rewrite Hb].
  - intros HR. destruct (c_reuse0 HR) as (b & Hb & H). exists b. rewrite He; [done|by right|by rewrite Hb].
Qed.

Lemma counted_reap k R K bs m l : 0 <= k <= 1 -> counted k R K bs (m :: l) -> counted k R K (unref m bs) l.
Proof.
  intros Hk []. unfold unref. destruct (decide (m = R)) as [->|Hne].
  - destruct (c_reuse0 ltac:(set_solver)) as (b & Hb & HK & Hl & Hc). rewrite Hb. unfold count in Hc. rewrite filter_cons_True in Hc by done. cbn [length] in *.
    rewrite filter_cons_False in c_once0 by auto. rewrite decide_False by lia. split; try set_solver.
    + intros m Hm Hne. rewrite lookup_insert_ne by done. apply c_one0; [by right|done].
    + intros _. rewrite lookup_insert_eq. eexists. split; [done|]. unfold count. cbn. split_and!; [done|done|lia|lia].
    + lia.
  - rewrite filter_cons_True in c_once0 by done. apply list.NoDup_cons in c_once0 as [Hnin Hnd]. rewrite list_elem_of_filter in Hnin.
    destruct (c_one0 m ltac:(by left) Hne) as (b & Hb & H1). rewrite Hb, decide_True by done. cbn [length] in *. split; try done.
    + set_solver.
    + intros m' Hm' HR. assert (m' <> m) by (intros ->; tauto). rewrite lookup_delete_ne by done. apply c_one0; [by right|done].
    + intros HR. destruct (c_reuse0 HR) as (b' & Hb' & H). exists b'. rewrite lookup_delete_ne by done. unfold count in *. rewrite filter_cons_False in H by done. done.
    + lia.
Qed.

(** What the queue entry [e] sends is [f]. *)
Definition entry R bs (e : Z * option bytes) (f : bytes) : Prop :=
  e.2 = Some f \/ (e.2 = None /\ e.1 <> R /\ exists b, bs !! e.1 = Some b /\ f = frame_of b).

Record core k R K sent v : Prop := {
  q_frames : exists fs, sent = v_wire v ++ fs /\ Forall2 (entry R (v_bufs v)) (v_queue v) fs;
  q_count : counted k R K (v_bufs v) (refs v) }.

Lemma entries_ext R bs bs' q fs : (forall m, m ∈ q.*1 -> m <> R -> is_Some (bs !! m) -> bs' !! m = bs !! m) -> Forall2 (entry R bs) q fs -> Forall2 (entry R bs') q fs.
Proof.
  intros He HF. induction HF as [|e f q fs Hef _ IH]; constructor.
  - destruct Hef as [|(Hn & HR & b & Hb & Hf)]; [by left|]. right. split; [done|]. split; [done|]. exists b. rewrite He; [done|by left|done|by rewrite Hb].
  - apply IH. intros m Hm. apply He. by right.
Qed.

Lemma tx_step k R K sent v v' : 0 <= k <= 1 -> nstep v v' -> core k R K sent v -> core k R K sent v'.
Proof.
  intros Hk Hs [(fs & Hw & HF) Hc]. destruct Hs as [bs m cp q d w r g f Hf|bs q m d w r g|bs q d w r g m b Hm Hb Hq Hrc Hne Hby Hlen]; unfold refs in *; cbn [v_bufs v_queue v_done v_wire v_rxq v_got] in *.
  - inversion HF as [|? f' ? fs' He HF']; subst. assert (f = f') as ->.
    { destruct He as [He|(He & _ & b & Hb & ->)]; cbn in He; destruct Hf as [Hf|(Hf & b' & Hb' & ->)]; try congruence. cbn in Hb. congruence. }
    split; cbn.
    + exists fs'. by rewrite <- app_assoc.
    + unfold refs. cbn. cbn in Hc. eapply counted_perm; [|exact Hc]. rewrite app_assoc. by rewrite Permutation_app_comm.
  - split; cbn.
    + exists fs. split; [done|]. eapply entries_ext; [|exact HF]. intros m' Hm' HR _. unfold unref. destruct (bs !! m) eqn:E; [|done].
      assert (m' <> m) as Hne.
      { intros ->. destruct Hc as [_ _ Hnd _ _]. rewrite list.filter_app in Hnd. apply list.NoDup_app in Hnd as (_ & Hdis & _).
        apply (Hdis m); apply list_elem_of_filter; split; try done; by left. }
      case_decide; [by rewrite lookup_delete_ne|by rewrite lookup_insert_ne].
    + unfold refs. cbn. apply counted_reap; [done|]. eapply counted_perm; [|exact Hc]. by rewrite <- Permutation_middle.
  - assert (forall x, is_Some (bs !! x) -> (<[m:=b]> bs) !! x = bs !! x) as Hold.
    { intros x [y Hx]. rewrite lookup_insert_ne; [done|]. congruence. }
    split; cbn; [exists fs; split; [done|]; eapply entries_ext; [|exact HF]; auto|]. eapply counted_others; [|exact Hc]. auto.
Qed.

Lemma tx_steps k R K sent v v' : 0 <= k <= 1 -> rtc nstep v v' -> core k R K sent v -> core k R K sent v'.
Proof. intros Hk Hr. induction Hr; [done|]. intros C. by eauto using tx_step. Qed.

(** The port changes neither the bytes nor the length of a buffer. *)
Lemma kept_step m b b' v v' : nstep v v' -> v_bufs v !! m = Some b -> v_bufs v' !! m = Some b' ->
  b_data b' = b_data b /\ b_len b' = b_len b /\ b_refcnt b' <= b_refcnt b.
Proof.
  intros Hs Hb Hb'. assert (b' = b -> b_data b' = b_data b /\ b_len b' = b_len b /\ b_refcnt b' <= b_refcnt b) as Hsame by (by intros ->).
  destruct Hs as [| |]; cbn in *; [apply Hsame; congruence| |].
  - unfold unref in Hb'. destruct (bs !! m0) as [b0|] eqn:E; [|apply Hsame; congruence]. case_decide.
    + apply lookup_delete_Some in Hb' as [_ Hb']. apply Hsame. congruence.
    + apply lookup_insert_Some in Hb' as [[-> <-]|[_ Hb']]; [|apply Hsame; congruence]. assert (b0 = b) as -> by congruence. cbn. split; [done|]. split; [done|lia].
  - apply lookup_insert_Some in Hb' as [[-> <-]|[_ Hb']]; [congruence|apply Hsame; congruence].
Qed.

Lemma core_reuse k R K sent v : core k R K sent v -> R <> 0 -> is_Some (v_bufs v !! R).
Proof. intros [_ []] HR. destruct (c_reuse0 HR) as (b & -> & _). done. Qed.

Lemma kept_reuse k R K sent v v' b : 0 <= k <= 1 -> R <> 0 -> rtc nstep v v' -> core k R K sent v -> v_bufs v !! R = Some b ->
  exists b', v_bufs v' !! R = Some b' /\ b_data b' = b_data b /\ b_len b' = b_len b /\ b_refcnt b' <= b_refcnt b.
Proof.
  intros Hk HR Hr. revert b. induction Hr as [v|v1 v2 v3 Hs _ IH]; intros b C Hb; [by exists b|].
  pose proof (tx_step _ _ _ _ _ _ Hk Hs C) as C2. destruct (core_reuse _ _ _ _ _ C2 HR) as [b2 Hb2].
  destruct (kept_step _ _ _ _ _ Hs Hb Hb2) as (<- & <- & Hle). destruct (IH b2 C2 Hb2) as (b3 & H1 & H2 & H3 & H4). exists b3. do 3 (split; [done|]). lia.
Qed.

(** No send refers to the buffer [P]: it stays as it is. *)
Definition apart (P : Z) (b : mbuf) v : Prop := P ∉ refs v /\ v_bufs v !! P = Some b.

Lemma apart_steps P b v v' : rtc nstep v v' -> apart P b v -> apart P b v'.
Proof.
  intros Hr. induction Hr as [|v1 v2 v3 Hs _ IH]; [done|]. intros [Hn Hb]. apply IH. clear IH. destruct Hs; unfold apart, refs in *; cbn in *; (split; [set_solver|]).
  - done.
  - unfold unref. destruct (bs !! m) eqn:E; [|done]. assert (m <> P) by set_solver. case_decide; [by rewrite lookup_delete_ne|by rewrite lookup_insert_ne].
  - rewrite lookup_insert_ne; [done|]. congruence.
Qed.

Lemma core_touch k R K sent P g v : core k R K sent v -> P <> R -> P ∉ refs v -> core k R K sent (v_buf P g v).
Proof.
  intros [(fs & Hw & HF) Hc] HPR HP. split; cbn.
  - exists fs. split; [done|]. eapply entries_ext; [|exact HF]. intros m Hm _ _. apply lookup_alter_ne. intros ->. apply HP. unfold refs. set_solver.
  - eapply counted_others; [|exact Hc]. intros m Hm _. apply lookup_alter_ne. intros ->. by destruct Hm.
Qed.

Lemma core_touch_reuse k k' R K K' sent g b v :
  core k R K sent v -> v_bufs v !! R = Some b -> K' `prefix_of` b_data (g b) -> Z.of_nat (length (b_data (g b))) = room ->
  (R <> 0 -> REFCNT_LOW - slots - k' + count R (refs v) <= b_refcnt (g b) < REFCNT_LOW + REFCNT_TOPUP) -> core k' R K' sent (v_buf R g v).
Proof.
  intros [(fs & Hw & HF) []] Hb HK Hl Hr. split; cbn.
  - exists fs. split; [done|]. eapply entries_ext; [|exact HF]. intros m Hm HR _. by apply lookup_alter_ne.
  - split; try done.
    + intros m Hm HR. cbn. rewrite lookup_alter_ne by done. by apply c_one0.
    + intros HR. exists (g b). cbn. rewrite lookup_alter_eq, Hb. split; [done|]. split; [done|]. split; [done|]. by apply Hr.
Qed.

Lemma dpdk_core_weaken k R K K' sent v : K' `prefix_of` K -> core k R K sent v -> core k R K' sent v.
Proof.
  intros HK [Hf []]. split; [done|]. split; try done. intros HR. destruct (c_reuse0 HR) as (b & Hb & HKb & H). exists b. split; [done|]. split; [by etrans|done].
Qed.

(** The buffer [P] is the application's, to be sent next, and its frame reads [b]. *)
Definition lendable (h : bytes) sent (P R : Z) (b : bytes) v : Prop :=
  exists mb, v_bufs v !! P = Some mb /\ P <> 0 /\ b_len mb = Z.of_nat (length b) /\ b `prefix_of` b_data mb /\ Z.of_nat (length (b_data mb)) = room /\
    ((P = R /\ inlines = true /\ Z.of_nat (length b) <= INLINE_SAFE_LEN /\ core 0 R b sent v) \/
     (P <> R /\ b_refcnt mb = 1 /\ P ∉ refs v /\ core 1 R h sent v)).

Lemma lendable_steps h sent P R b v v' mb : rtc nstep v v' -> lendable h sent P R b v -> v_bufs v !! P = Some mb ->
  lendable h sent P R b v' /\ exists mb', v_bufs v' !! P = Some mb' /\ b_data mb' = b_data mb.
Proof.
  intros Hs (mb0 & Hb & HP & Hl & Hp & Hd & [(-> & Hi & Hsz & C)|(HPR & Hr & Hn & C)]) Hmb; assert (mb0 = mb) as -> by congruence.
  - destruct (kept_reuse 0 _ _ _ _ _ _ ltac:(lia) HP Hs C Hb) as (b' & Hb' & Hdt & Hln & _). split; [|by exists b']. exists b'. rewrite Hdt, Hln.
    do 5 (split; [done|]). left. do 3 (split; [done|]). eapply tx_steps; [|exact Hs|exact C]. done.
  - destruct (apart_steps _ _ _ _ Hs (conj Hn Hb)) as [Hn' Hb']. split; [|by exists mb]. exists mb.
    do 5 (split; [done|]). right. do 3 (split; [done|]). eapply tx_steps; [|exact Hs|exact C]. done.
Qed.

Lemma lendable_write h sent P R b b' off src mb v :
  lendable h sent P R b v -> v_bufs v !! P = Some mb -> store off src b = Some b' ->
  lendable h sent P R b' (v_buf P (set_bytes (list_inserts off src (b_data mb))) v).
Proof.
  intros (mb' & Hb & HP & Hl & Hp & Hd & Hc) Hb2 Hst. assert (mb' = mb) as -> by congruence.
  pose proof (length_store _ _ _ _ Hst) as Hlen. destruct (store_prefix _ _ _ _ _ Hst Hp) as (d & Hd1 & Hd2 & Hd3).
  assert (list_inserts off src (b_data mb) = d) as -> by (unfold store in Hd1; case_decide; [by injection Hd1|done]).
  exists (set_bytes d mb). cbn [set_bytes b_len b_data b_refcnt v_buf v_bufs]. rewrite lookup_alter_eq, Hb2. split; [done|]. split; [done|]. split; [congruence|]. split; [done|]. split; [congruence|].
  destruct Hc as [(-> & Hi & Hsz & C)|(HPR & Hr & Hn & C)].
  - left. split; [done|]. split; [done|]. split; [lia|]. eapply core_touch_reuse; [exact C|exact Hb2|done|cbn; congruence|]. intros HR.
    destruct C as [_ []]. destruct (c_reuse0 HR) as (b2 & Hb3 & _ & _ & Hcc). cbn. assert (b2 = mb) as -> by congruence. exact Hcc.
  - right. split; [done|]. split; [done|]. split; [done|]. by apply core_touch.
Qed.

(** ** A buffer that is the application's *)

Definition owned (P : Z) (b : mbuf) (R : Z) (h : bytes) sent v : Prop := apart P b v /\ P <> R /\ P <> 0 /\ core 1 R h sent v.

Lemma owned_change P b R h sent f g (l : L) : changes dview P f g l -> owned P b R h sent (dview l) -> owned P (g b) R h sent (dview (f l)).
Proof.
  intros Hf (Ha & HPR & HP & C). destruct Hf as (v & Hs & ->); [destruct Ha as [_ Hb]; by rewrite Hb|].
  pose proof (tx_steps 1 _ _ _ _ _ ltac:(done) Hs C) as C1. destruct (apart_steps _ _ _ _ Hs Ha) as [Hn Hb].
  split; [|split; [done|split; [done|by apply core_touch]]]. split; [done|]. cbn. by rewrite lookup_alter_eq, Hb.
Qed.

Lemma owned_copy P b R h sent src o (l : L) : owned P b R h sent (dview l) -> (length src <= length (b_data b))%nat ->
  exists l' : L, copy_to P 0 src (o, l) = (Done tt, (o, l')) /\ owned P (set_bytes (list_inserts 0 src (b_data b)) b) R h sent (dview l').
Proof.
  intros Ho Hl. pose proof Ho as ((_ & Hb) & _). unfold copy_to. rewrite run_gets. cbn [snd]. rewrite (data_law _ _ _ Hb), store_Some by lia.
  eexists. split; [done|]. eapply (owned_change _ _ _ _ _ _ _ _ (set_data_law P _ l)). exact Ho.
Qed.

Lemma alloc_owned R h sent p (l : L) : core 1 R h sent (dview l) -> let '(m, l') := rte_pktmbuf_alloc p l in
  (m = 0 /\ core 1 R h sent (dview l')) \/ (m <> 0 /\ exists d, Z.of_nat (length d) = room /\ owned m (mk_mbuf 1 d 0) R h sent (dview l')).
Proof.
  intros C. pose proof (alloc_law p l) as Hl. destruct (rte_pktmbuf_alloc p l) as [m l']. destruct Hl as (v & Hs & Hl).
  pose proof (tx_steps 1 _ _ _ _ _ ltac:(done) Hs C) as C1. destruct Hl as [[-> ->]|(Hm & Hb & d & Hd & ->)]; [by left|]. right. split; [done|]. exists d. split; [done|].
  assert (m <> R) as HmR. { intros ->. destruct (core_reuse _ _ _ _ _ C1 Hm) as [b Hb']. congruence. }
  assert (m ∉ refs v) as Hn. { intros Hin. destruct C1 as [_ []]. destruct (c_one0 m Hin HmR) as (b & Hb' & _). congruence. }
  split; [split; [done|]; cbn; by rewrite lookup_insert_eq|]. split; [done|]. split; [done|]. destruct C1 as [(fs & Hw & HF) Hc]. split; cbn.
  - exists fs. split; [done|]. eapply entries_ext; [|exact HF]. intros x _ _ [y Hx]. apply lookup_insert_ne. congruence.
  - eapply counted_others; [|exact Hc]. intros x _ [y Hx]. apply lookup_insert_ne. congruence.
Qed.

(** It becomes the buffer that is used again. *)
Lemma adopt P b h sent v : owned P b 0 h sent v -> b_refcnt b = REFCNT_TOPUP -> h `prefix_of` b_data b -> Z.of_nat (length (b_data b)) = room -> core 1 P h sent v.
Proof.
  intros ((Hn & Hb) & _ & HP & [(fs & Hw & HF) []]) Hr Hh Hd.
  assert (Hz : forall m, m ∈ refs v -> m <> 0) by (intros m Hm ->; done). split.
  - exists fs. split; [done|]. apply list.Forall2_same_length_lookup. apply list.Forall2_same_length_lookup in HF as [Hl HF]. split; [done|].
    intros i e f He Hf. destruct (HF i e f He Hf) as [|(H1 & H2 & H3)]; [by left|]. right. split; [done|]. split; [|done].
    intros HeP. apply Hn. unfold refs. apply elem_of_app. left. apply list_elem_of_fmap. exists e. split; [done|]. by eapply list_elem_of_lookup_2.
  - split; try done.
    + intros m Hm _. by apply c_one0, Hz.
    + rewrite filter_all in c_once0 by exact Hz. rewrite filter_all; [done|]. by intros m Hm ->.
    + intros _. exists b. split; [done|]. split; [done|]. split; [done|]. rewrite Hr. unfold count. rewrite filter_none by (by intros m Hm ->). unfold REFCNT_LOW, REFCNT_TOPUP in *. cbn. lia.
Qed.

(** ** The contract *)

Definition members (h : bytes) (o : Dpdk) : Prop :=
  (m_txReuseInline (tx o) = true -> inlines = true) /\ Z.of_nat (length (m_txTemplate (tx o))) = MaxFrame c /\
  0 <= m_txTemplateLen (tx o) <= MaxFrame c /\ h `prefix_of` take (Z.to_nat (m_txTemplateLen (tx o))) (m_txTemplate (tx o)).

Definition idle (h : bytes) sent (w : W) : Prop := members h (fst w) /\ core 1 (m_txReuse (tx (fst w))) h sent (dview (snd w)).

Definition lent (h : bytes) sent (p : Z) (b : bytes) (w : W) : Prop :=
  let P := m_pendingTx (tx (fst w)) in members h (fst w) /\ p = mtod P /\ lendable h sent P (m_txReuse (tx (fst w))) b (dview (snd w)).

(** What [init] leaves: nothing posted, nothing taken. *)
Record fresh (w : W) : Prop := {
  f_reuse : m_txReuse (tx (fst w)) = 0; f_inline : m_txReuseInline (tx (fst w)) = true -> inlines = true;
  f_template : Z.of_nat (length (m_txTemplate (tx (fst w)))) = MaxFrame c; f_len : 0 <= m_txTemplateLen (tx (fst w)) <= MaxFrame c;
  f_queue : v_queue (dview (snd w)) = []; f_done : v_done (dview (snd w)) = []; f_wire : v_wire (dview (snd w)) = [] }.

Lemma fresh_core w h : fresh w -> core 1 0 h [] (dview (snd w)).
Proof.
  intros []. split; [exists []; by rewrite f_wire0, f_queue0|]. unfold refs. rewrite f_queue0, f_done0. cbn. split; try done.
  - by apply not_elem_of_nil.
  - by intros m ?%elem_of_nil.
  - constructor.
  - cbn. lia.
Qed.

Lemma dpdk_prefill_run t w : fresh w -> Z.of_nat (length t) <= MaxFrame c -> exists w', prefillRing c t w = (Done tt, w') /\ idle t [] w'.
Proof.
  intros Hf Ht. pose proof (fresh_core w t Hf) as C. destruct Hf, w as [o l]. cbn [fst snd] in *. unfold prefillRing. rewrite Z.min_l, wrap_small, Nat2Z.id, firstn_all by (unfold in_u; lia).
  rewrite run_gets. cbn [fst]. rewrite store_Some by lia. eexists. split; [done|]. split; cbn [fst snd tx set_tx set_template m_txReuse m_txReuseInline m_txTemplate m_txTemplateLen].
  - unfold members. cbn. split; [done|]. split; [by rewrite length_inserts|]. split; [lia|]. rewrite Nat2Z.id, inserts_split by lia. rewrite take_0. cbn [app]. by rewrite take_app_length.
  - by rewrite f_reuse0.
Qed.

(** The template as the code copies it. *)
Lemma template_copy h o k (d : bytes) : members h o -> Z.of_nat (length h) <= k -> k <= room -> Z.of_nat (length d) = room ->
  let t := take (Z.to_nat (Z.min k (m_txTemplateLen (tx o)))) (m_txTemplate (tx o)) in
  (length t <= length d)%nat /\ h `prefix_of` list_inserts 0 t d.
Proof.
  intros (_ & Hl & Ht & Hh) Hk Hkr Hd t. assert (length t <= length d)%nat as Hle by (unfold t; rewrite length_take; lia). split; [done|].
  rewrite inserts_split by done. rewrite take_0. cbn [app]. etrans; [|by apply prefix_app_r]. unfold t.
  replace (take (Z.to_nat (Z.min k (m_txTemplateLen (tx o)))) (m_txTemplate (tx o))) with (take (Z.to_nat k) (take (Z.to_nat (m_txTemplateLen (tx o))) (m_txTemplate (tx o))))
    by (rewrite take_take; f_equal; lia). apply prefix_take_le; [done|lia].
Qed.

Lemma no_template h o (d : bytes) : members h o -> m_txTemplateLen (tx o) = 0 -> h `prefix_of` d.
Proof. intros (_ & _ & _ & Hh) He. rewrite He, take_0 in Hh. apply prefix_nil_inv in Hh as ->. apply prefix_nil. Qed.

Lemma reuse_run h sent o (l : L) : idle h sent (o, l) ->
  exists o' (l' : L), reuse_buffer (o, l) = (Done (m_txReuse (tx o')), (o', l')) /\ idle h sent (o', l') /\ m_txReuseInline (tx o') = m_txReuseInline (tx o).
Proof.
  intros [Hm C]. cbn [fst snd] in *. unfold reuse_buffer. rewrite run_gets. cbn [fst]. destruct (Z.eqb_spec (m_txReuse (tx o)) 0) as [HR|HR]; cbn [negb]; [|by exists o, l].
  rewrite HR in C. unfold sys, mbind, M_bind. cbn [fst snd]. pose proof (alloc_owned 0 h sent (m_pool (port o)) l C) as Ha.
  destruct (rte_pktmbuf_alloc _ l) as [m l1]. unfold on_tx, upd. cbn [fst snd]. set (o1 := set_tx (set_reuse m (tx o)) o).
  assert (members h o1) as Hm1 by exact Hm. destruct Ha as [[-> C1]|(Hm0 & d & Hd & Ho)]; [by exists o1, l1|].
  rewrite (proj2 (Z.eqb_neq _ _)) by done. unfold act. cbn [fst snd].
  apply (owned_change _ _ _ _ _ _ _ _ (refcnt_set_law m REFCNT_TOPUP l1)) in Ho. set (l2 := rte_mbuf_refcnt_set m REFCNT_TOPUP l1) in *.
  cbn [set_count b_refcnt b_data b_len] in Ho.
  destruct (Z.eqb_spec (m_txTemplateLen (tx o)) 0) as [Ht|Ht].
  - exists o1, l2. split; [done|]. split; [|done]. split; [done|]. eapply adopt; [exact Ho|done|by eapply no_template|done].
  - pose proof Hm as (_ & Hl & Ht2 & Hh). destruct (template_copy h o (Z.max (Z.of_nat (length h)) (m_txTemplateLen (tx o))) d Hm ltac:(lia)) as [Hle Hp]; [|done|].
    { apply prefix_length in Hh. rewrite length_take in Hh. lia. }
    rewrite Z.min_r in Hle, Hp by lia. destruct (owned_copy _ _ _ _ _ _ o1 l2 Ho Hle) as (l3 & E & Ho3). rewrite E.
    exists o1, l3. split; [done|]. split; [|done]. split; [done|]. eapply adopt; [exact Ho3|done|done|]. cbn. by rewrite length_inserts.
Qed.

(** The count of the buffer that is used again is raised before it can reach zero. *)
Lemma topup_run h sent o (l : L) : core 1 (m_txReuse (tx o)) h sent (dview l) -> m_txReuse (tx o) <> 0 ->
  exists l' : L, (if rte_mbuf_refcnt_read (m_txReuse (tx o)) l <? REFCNT_LOW then act (rte_mbuf_refcnt_update (m_txReuse (tx o)) REFCNT_TOPUP) else mret tt) (o, l) = (Done tt, (o, l')) /\
    core 0 (m_txReuse (tx o)) h sent (dview l').
Proof.
  intros C HR. set (R := m_txReuse (tx o)) in *. destruct (core_reuse _ _ _ _ _ C HR) as [b Hb]. rewrite (refcnt_read_law _ _ _ Hb).
  pose proof C as [_ []]. destruct (c_reuse0 HR) as (b0 & Hb0 & _ & _ & Hc). assert (b0 = b) as -> by congruence.
  assert (0 <= count R (refs (dview l)) <= slots) as Hcnt.
  { unfold count. pose proof (length_filter (fun m => m = R) (refs (dview l))). lia. }
  destruct (Z.ltb_spec (b_refcnt b) REFCNT_LOW) as [Hlow|Hlow].
  - exists (rte_mbuf_refcnt_update R REFCNT_TOPUP l). split; [done|]. destruct (refcnt_update_law R REFCNT_TOPUP l) as (v & Hs & ->); [by rewrite Hb|].
    pose proof (tx_steps 1 _ _ _ _ _ ltac:(done) Hs C) as C1. destruct (kept_reuse 1 _ _ _ _ _ _ ltac:(done) HR Hs C Hb) as (b1 & Hb1 & _ & _ & Hle).
    pose proof C1 as [_ []]. destruct (c_reuse1 HR) as (b2 & Hb2 & HK & Hd & Hc2). assert (b2 = b1) as -> by congruence.
    assert (0 <= count R (refs v)) by (unfold count; lia). eapply core_touch_reuse; [exact C1|exact Hb1|done|done|]. intros _. cbn [set_count b_refcnt].
    unfold REFCNT_LOW, REFCNT_TOPUP in *. rewrite wrap_small by (unfold in_u; change (2 ^ 16) with 65536; lia). lia.
  - exists l. split; [done|]. split; [by destruct C|]. split; try done. intros _. exists b. destruct (c_reuse0 HR) as (b2 & Hb2 & HK & Hd & _). assert (b2 = b) as -> by congruence.
    split; [done|]. split; [done|]. split; [done|]. lia.
Qed.

(** The lengths are set; the frame is what the buffer starts with. *)
Lemma lend_reuse h sent o (l : L) n : core 0 (m_txReuse (tx o)) h sent (dview l) -> m_txReuse (tx o) <> 0 -> members h o -> m_txReuseInline (tx o) = true ->
  Z.of_nat (length h) <= n <= room -> n <= INLINE_SAFE_LEN ->
  exists b w', lend (m_txReuse (tx o)) n (o, l) = (Done tt, w') /\ Z.of_nat (length b) = n /\ h `prefix_of` b /\ lent h sent (mtod (m_txReuse (tx o))) b w'.
Proof.
  intros C HR Hm Hin Hn Hsafe. set (R := m_txReuse (tx o)) in *. destruct (core_reuse _ _ _ _ _ C HR) as [b0 Hb0].
  destruct (set_lens_law R (u16 n) n l) as (v & Hs & Hv); [by rewrite Hb0|]. pose proof (tx_steps 0 _ _ _ _ _ ltac:(done) Hs C) as C1.
  destruct (core_reuse _ _ _ _ _ C1 HR) as [b1 Hb1]. pose proof C1 as [_ []]. destruct (c_reuse0 HR) as (b2 & Hb2 & HK & Hd & Hc). assert (b2 = b1) as -> by congruence.
  exists (take (Z.to_nat n) (b_data b1)). eexists. split; [done|]. split; [rewrite length_take; lia|]. split; [apply prefix_take_le; [done|lia]|].
  split; [exact Hm|]. cbn [fst snd tx set_tx set_pendingTx m_pendingTx m_txReuse]. fold R. split; [done|]. rewrite Hv.
  exists (set_len n b1). cbn [set_len b_len b_data v_buf v_bufs]. rewrite lookup_alter_eq, Hb1. split; [done|]. split; [done|]. split; [rewrite length_take; lia|]. split; [apply prefix_take|]. split; [done|].
  left. split; [done|]. split; [by apply Hm|]. split; [rewrite length_take; lia|]. eapply core_touch_reuse; [exact C1|exact Hb1|apply prefix_take|done|]. intros _. exact Hc.
Qed.

Lemma owned_lendable P b R h sent n v : owned P b R h sent v -> b_refcnt b = 1 -> b_len b = n -> 0 <= n <= room -> Z.of_nat (length (b_data b)) = room ->
  lendable h sent P R (take (Z.to_nat n) (b_data b)) v.
Proof.
  intros ((Hn & Hb) & HPR & HP & C) Hr Hl Hnr Hd. exists b. split; [done|]. split; [done|]. split; [rewrite length_take; lia|]. split; [apply prefix_take|]. split; [done|].
  right. by split_and!.
Qed.

Lemma lend_fresh P d h sent o (l : L) n : owned P (mk_mbuf 1 d 0) (m_txReuse (tx o)) h sent (dview l) -> Z.of_nat (length d) = room -> members h o -> Z.of_nat (length h) <= n <= room ->
  exists b w', (lend P n ;; (if m_txTemplateLen (tx o) =? 0 then mret tt else copy_to P 0 (take (Z.to_nat (Z.min n (m_txTemplateLen (tx o)))) (m_txTemplate (tx o)))) ;; mret (Some (mtod P))) (o, l)
      = (Done (Some (mtod P)), w') /\ Z.of_nat (length b) = n /\ h `prefix_of` b /\ lent h sent (mtod P) b w'.
Proof.
  intros Ho Hd Hm Hn. unfold lend. unfold on_tx, upd, act. unfold mbind at 1 2, M_bind at 1 2. cbn [fst snd].
  apply (owned_change _ _ _ _ _ _ _ _ (set_lens_law P (u16 n) n l)) in Ho. set (l1 := set_lens P (u16 n) n l) in *. cbn [set_len b_refcnt b_data] in Ho.
  set (o1 := set_tx (set_pendingTx P (tx o)) o). destruct (template_copy h o n d Hm ltac:(lia) ltac:(lia) Hd) as [Hle Hp].
  destruct (Z.eqb_spec (m_txTemplateLen (tx o)) 0) as [Ht|Ht].
  - exists (take (Z.to_nat n) d), (o1, l1). split; [done|]. split; [rewrite length_take; lia|]. split; [apply prefix_take_le; [by eapply no_template|lia]|].
    split; [done|]. split; [done|]. exact (owned_lendable _ _ _ _ _ n _ Ho eq_refl eq_refl ltac:(lia) Hd).
  - destruct (owned_copy _ _ _ _ _ _ o1 l1 Ho Hle) as (l2 & E & Ho2). exists (take (Z.to_nat n) (list_inserts 0 (take (Z.to_nat (Z.min n (m_txTemplateLen (tx o)))) (m_txTemplate (tx o))) d)), (o1, l2).
    split; [unfold mbind, M_bind; cbn [fst snd]; fold l1 o1; by rewrite E|]. split; [rewrite length_take, length_inserts; lia|]. split; [apply prefix_take_le; [done|lia]|]. split; [done|]. split; [done|].
    assert (Z.of_nat (length (list_inserts 0 (take (Z.to_nat (Z.min n (m_txTemplateLen (tx o)))) (m_txTemplate (tx o))) d)) = room) as Hd2 by (by rewrite length_inserts).
    exact (owned_lendable _ _ _ _ _ n _ Ho2 eq_refl eq_refl ltac:(lia) Hd2).
Qed.

Lemma fresh_run h sent n o (l : L) : members h o -> core 1 (m_txReuse (tx o)) h sent (dview l) -> Z.of_nat (length h) <= n <= room ->
  match (m ← sys (rte_pktmbuf_alloc (m_pool (port o)));
    if m =? 0 then on_tx (set_pendingTx 0) ;; mret None else
    lend m n ;;
    (if m_txTemplateLen (tx o) =? 0 then mret tt else copy_to m 0 (take (Z.to_nat (Z.min n (m_txTemplateLen (tx o)))) (m_txTemplate (tx o)))) ;;
    mret (Some (mtod m))) (o, l) with
  | (Done None, w') => idle h sent w'
  | (Done (Some p), w') => exists b, Z.of_nat (length b) = n /\ h `prefix_of` b /\ lent h sent p b w'
  | _ => False
  end.
Proof.
  intros Hm C Hn. unfold sys. unfold mbind at 1, M_bind at 1. cbn [fst snd]. pose proof (alloc_owned _ h sent (m_pool (port o)) l C) as Ha.
  destruct (rte_pktmbuf_alloc _ l) as [m l1]. destruct Ha as [[-> C1]|(Hm0 & d & Hd & Ho)]; [done|]. rewrite (proj2 (Z.eqb_neq _ _)) by done.
  destruct (lend_fresh m d h sent o l1 n Ho Hd Hm Hn) as (b & w' & E & Hb). rewrite E. by exists b.
Qed.

Lemma dpdk_acquire_run h sent n w : idle h sent w -> Z.of_nat (length h) <= n <= MaxFrame c ->
  match acquire n w with
  | (Done None, w') => idle h sent w'
  | (Done (Some p), w') => exists b, Z.of_nat (length b) = n /\ h `prefix_of` b /\ lent h sent p b w'
  | _ => False
  end.
Proof.
  intros [Hm C] Hn. destruct w as [o l]. cbn [fst snd] in *. unfold acquire. rewrite run_gets. cbn [fst].
  destruct (m_txReuseInline (tx o)) eqn:Hin; [destruct (Z.leb_spec n INLINE_SAFE_LEN) as [Hsafe|Hlong]|]; cbn [andb].
  - destruct (reuse_run h sent o l (conj Hm C)) as (o1 & l1 & E & [Hm1 C1] & Hin1). rewrite (run_bind _ _ _ _ _ E). cbn [fst snd] in *.
    destruct (Z.eqb_spec (m_txReuse (tx o1)) 0) as [HR|HR]; [done|]. rewrite run_gets. cbn [snd].
    destruct (topup_run h sent o1 l1 C1 HR) as (l2 & E2 & C2). rewrite (run_bind _ _ _ _ _ E2).
    destruct (lend_reuse h sent o1 l2 n C2 HR Hm1 ltac:(congruence) ltac:(lia) Hsafe) as (b & w' & E3 & Hb). rewrite (run_bind _ _ _ _ _ E3). by exists b.
  - apply fresh_run; [done|done|lia].
  - apply fresh_run; [done|done|lia].
Qed.

Lemma dpdk_write_run h sent p b b' off src w : lent h sent p b w -> store off src b = Some b' ->
  exists w', write (p + Z.of_nat off) src w = (Done tt, w') /\ lent h sent p b' w'.
Proof.
  destruct w as [o l]. intros (Hm & -> & Hlend) Hst. cbn [fst snd] in *. set (P := m_pendingTx (tx o)) in *. unfold write. rewrite run_gets. cbn [fst]. fold P.
  rewrite (proj2 (Z.ltb_ge _ _)) by lia. pose proof Hlend as (mb & Hb & _ & _ & Hp & _ & _).
  destruct (store_prefix _ _ _ _ _ Hst Hp) as (d & Hd1 & _). assert (d = list_inserts off src (b_data mb)) as -> by (unfold store in Hd1; case_decide; [by injection Hd1|done]).
  unfold copy_to. rewrite run_gets. cbn [snd]. replace (Z.to_nat (mtod P + Z.of_nat off - mtod P)) with off by lia. rewrite (data_law _ _ _ Hb), Hd1.
  eexists. split; [done|]. split; [done|]. cbn [fst snd]. fold P. split; [done|].
  destruct (set_data_law P (list_inserts off src (b_data mb)) l) as (v & Hs & ->); [by rewrite Hb|].
  destruct (lendable_steps _ _ _ _ _ _ _ _ Hs Hlend Hb) as (Hl2 & mb2 & Hb2 & Hd2). rewrite <- Hd2. by eapply lendable_write.
Qed.

Lemma posted h sent P R b v cp : lendable h sent P R b v -> h `prefix_of` b -> Z.of_nat (length (refs v)) < slots ->
  (forall mb, v_bufs v !! P = Some mb -> cp = Some (frame_of mb) \/ (cp = None /\ ~ (inlines = true /\ b_len mb <= INLINE_SAFE_LEN))) ->
  core 1 R h (sent ++ [b]) (v_post P cp v).
Proof.
  intros (mb & Hb & HP & Hl & [d Hp] & Hd & Hc) Hh Hroom Hcp. specialize (Hcp mb Hb).
  assert (frame_of mb = b) as Hf by (unfold frame_of; rewrite Hl, Nat2Z.id, Hp; by rewrite take_app_length). rewrite Hf in Hcp.
  assert (refs (v_post P cp v) ≡ₚ P :: refs v) as Hrefs by (unfold refs; cbn; rewrite fmap_app, <- app_assoc; cbn; by rewrite <- Permutation_middle).
  destruct Hc as [(-> & Hi & Hsz & C)|(HPR & Hr & Hn & C)].
  - destruct (dpdk_core_weaken _ _ _ _ _ _ Hh C) as [(fs & Hw & HF) []]. split.
    + exists (fs ++ [b]). cbn. split; [by rewrite Hw, app_assoc|]. apply Forall2_app; [done|]. constructor; [|constructor]. left. destruct Hcp as [->|[_ Hno]]; [done|]. destruct Hno. split; [done|lia].
    + rewrite Hrefs. cbn [v_post v_bufs]. split.
      * set_solver.
      * intros m [->|Hm]%elem_of_cons; [done|]. by apply c_one0.
      * by rewrite filter_cons_False by auto.
      * intros HR. destruct (c_reuse0 HR) as (b0 & Hb0 & HK & Hd0 & Hc0). exists b0. do 3 (split; [done|]). unfold count in *. rewrite filter_cons_True by done. cbn [length]. lia.
      * cbn [length]. lia.
  - destruct C as [(fs & Hw & HF) []]. split.
    + exists (fs ++ [b]). cbn. split; [by rewrite Hw, app_assoc|]. apply Forall2_app; [done|]. constructor; [|constructor]. destruct Hcp as [->|[-> _]]; [by left|]. right. split; [done|]. split; [done|]. by exists mb.
    + rewrite Hrefs. cbn [v_post v_bufs]. split.
      * set_solver.
      * intros m [->|Hm]%elem_of_cons Hne; [by exists mb|]. by apply c_one0.
      * rewrite filter_cons_True by done. constructor; [|done]. rewrite list_elem_of_filter. tauto.
      * intros HR. destruct (c_reuse0 HR) as (b0 & Hb0 & HK & Hd0 & Hc0). exists b0. unfold count in *. rewrite filter_cons_False by done. done.
      * cbn [length]. lia.
Qed.

Lemma burst_run h sent p P R b n o (l : L) : h `prefix_of` b -> lendable h sent P R b (dview l) -> (tries l < n)%nat ->
  exists l' : L, burst_loop c n p P (o, l) = (Done tt, (o, l')) /\ core 1 R h (sent ++ [b]) (dview l').
Proof.
  intros Hh. revert l; induction n as [|n IH]; intros l Hlend Ht; [lia|]. cbn [burst_loop]. unfold sys, mbind, M_bind. cbn [fst snd].
  pose proof Hlend as (mb & Hb & _). pose proof (tx_law p (QueueId c) P l ltac:(by rewrite Hb)) as Hl. destruct (rte_eth_tx_burst p (QueueId c) P l) as [k l1].
  destruct Hl as (v & Hs & Hl). destruct (lendable_steps _ _ _ _ _ _ _ _ Hs Hlend Hb) as [Hl2 _].
  destruct Hl as [(-> & Hv & Hlt)|(-> & Hroom & cp & Hv & Hcp)].
  - apply (IH l1); [by rewrite Hv|lia].
  - exists l1. split; [done|]. rewrite Hv. by eapply posted.
Qed.

Lemma dpdk_commit_run h sent p b w : lent h sent p b w -> h `prefix_of` b -> exists w', commit c fuel w = (Done tt, w') /\ idle h (sent ++ [b]) w'.
Proof.
  destruct w as [o l]. intros (Hm & _ & Hlend) Hh. cbn [fst snd] in *. unfold commit. rewrite run_gets. cbn [fst]. pose proof (tries_bound l) as Ht.
  destruct (burst_run h sent (m_port (port o)) _ _ b fuel o l Hh Hlend ltac:(lia)) as (l1 & E & C). rewrite (run_bind _ _ _ _ _ E). eexists. split; [done|]. by split.
Qed.

#[export] Program Instance Dpdk_TxContract : @TxContract W (Dpdk_TxRing c fuel) := {|
  tx_fresh := fresh; tx_idle := idle; tx_lent := lent; tx_room := MaxFrame c |}.
Next Obligation.
  intros h h' sent w [(H1 & H2 & H3 & H4) C] Hp. split; [|by eapply dpdk_core_weaken]. split; [done|]. split; [done|]. split; [done|]. by etrans.
Qed.
Next Obligation. exact dpdk_prefill_run. Qed.
Next Obligation. exact dpdk_acquire_run. Qed.
Next Obligation. intros. by eapply dpdk_write_run. Qed.
Next Obligation. intros h sent p b w Hl Hh. cbn. by destruct (dpdk_commit_run h sent p b w Hl Hh) as (w' & -> & Hid). Qed.

#[export] Instance Dpdk_SendsByCopy : @SendsByCopy W (Dpdk_TxRing c fuel) Dpdk_TxContract.
Proof.
  constructor. intros f sent w _ _. cbn [tx_send Dpdk_TxRing tx_acquire tx_write tx_commit]. done.
Qed.

Lemma dpdk_commit_ends sent p b w : lent [] sent p b w -> fst (commit c fuel w) <> NoFuel.
Proof. intros Hl. by destruct (dpdk_commit_run [] sent p b w Hl (prefix_nil _)) as (w' & -> & _). Qed.

(** The port can put what is posted on the wire, and nothing else; and the buffer that is
    used again keeps a count its 16 bits hold and that no completion brings to zero. *)
Lemma dpdk_wire_out h sent w : idle h sent w ->
  (forall v, rtc nstep (dview (snd w)) v -> v_wire v `prefix_of` sent /\
    (m_txReuse (tx (fst w)) <> 0 -> exists b, v_bufs v !! m_txReuse (tx (fst w)) = Some b /\ 1 <= b_refcnt b < 2 ^ 16)) /\
  exists v, rtc nstep (dview (snd w)) v /\ v_wire v = sent.
Proof.
  intros [_ C]. split.
  { intros v Hr. destruct (tx_steps 1 _ _ _ _ _ ltac:(done) Hr C) as [(fs & Hw & _) []]. split; [by exists fs|]. intros HR. destruct (c_reuse0 HR) as (b & Hb & _ & _ & Hc).
    exists b. split; [done|]. assert (0 <= count (m_txReuse (tx (fst w))) (refs v)) by (unfold count; lia). unfold REFCNT_LOW, REFCNT_TOPUP in *. change (2 ^ 16) with 65536. lia. }
  remember (v_queue (dview (snd w))) as q eqn:Eq. remember (dview (snd w)) as v eqn:Ev. clear Ev.
  revert v C Eq; induction q as [|[m cp] q IH]; intros v C Eq.
  - exists v. split; [done|]. destruct C as [(fs & Hw & HF) _]. rewrite <- Eq in HF. apply list.Forall2_nil_inv_l in HF as ->. by rewrite app_nil_r in Hw.
  - pose proof C as [(fs & Hw & HF) _]. destruct v as [bs q0 d w0 r g]. cbn in *. subst q0. inversion HF as [|? f ? fs' He HF']; subst.
    assert (nstep (mk_view bs ((m, cp) :: q) d w0 r g) (mk_view bs q (d ++ [m]) (w0 ++ [f]) r g)) as Hst.
    { constructor. destruct He as [He|(He & _ & Hb)]; [by left|by right]. }
    destruct (IH _ (tx_step 1 _ _ _ _ _ ltac:(done) Hst C) eq_refl) as (v' & Hr & Hv). exists v'. split; [by eapply rtc_l|done].
Qed.
End Contract.

(** C14: Frames sent through DPDK reach the wire in order, each once and intact, from a fresh
    buffer each or from the one that is used again: after a prefill and any list of frames
    that fit a buffer every [send] has answered; whatever the port does from there, the
    frames on the wire are the accepted ones from the first on, it can always bring out all
    of them, and the reference count of the buffer that is used again stays between 1 and
    65535, so that neither a completion frees it nor the count wraps. *)
Theorem dpdk_tx_fifo {L} c room slots inlines patience fuel `{DpdkLaws room slots inlines patience L} t fs (w : Dpdk * L) :
  0 <= slots /\ slots + 2 <= REFCNT_LOW -> 0 <= MaxFrame c <= room -> room < 2 ^ 16 -> (patience <= fuel)%nat ->
  fresh c room slots inlines patience w -> Z.of_nat (length t) <= MaxFrame c -> Forall (fun f => f <> [] /\ Z.of_nat (length f) <= MaxFrame c) fs ->
  exists oks w', (prefillRing c t ;; @tx_send_all _ (Dpdk_TxRing c fuel) fs) w = (Done oks, w') /\ length oks = length fs /\
    (forall v, rtc nstep (dview (snd w')) v -> v_wire v `prefix_of` accepted fs oks /\
      (m_txReuse (tx (fst w')) <> 0 -> exists b, v_bufs v !! m_txReuse (tx (fst w')) = Some b /\ 1 <= b_refcnt b < 2 ^ 16)) /\
    exists v, rtc nstep (dview (snd w')) v /\ v_wire v = accepted fs oks.
Proof.
  intros Hfew Hfit Hr16 Hfuel Hfr Ht Hfs.
  destruct (prefill_send_spec (H0 := Dpdk_TxContract c room slots inlines patience fuel Hfew Hfit Hr16 Hfuel) ltac:(cbn; lia)
    (dpdk_commit_ends c room slots inlines patience fuel Hfew Hfit Hr16 Hfuel) t fs w Hfr Ht Hfs) as (oks & w' & E & Hl & Hid).
  exists oks, w'. split; [exact E|]. split; [done|]. eapply dpdk_wire_out; [..|exact Hid]; done.
Qed.
End Send.

(** ** A simulated port

    It copies every frame it takes, refuses every other post, and receives when it is
    polled. *)
Module Sim.
Record sim := mk_sim {
  s_bufs : gmap Z mbuf; s_queue : list (Z * bytes); s_done : list Z; s_wire : list bytes; s_rxq : list Z; s_got : list bytes; s_in : list bytes; s_busy : bool }.

Definition sim_room : Z := 256.
Definition sim_slots : Z := 4.

Definition sview (s : sim) : view := mk_view (s_bufs s) (prod_map id Some <$> s_queue s) (s_done s) (s_wire s) (s_rxq s) (s_got s).
Definition on_bufs (f : gmap Z mbuf -> gmap Z mbuf) (s : sim) : sim := mk_sim (f (s_bufs s)) (s_queue s) (s_done s) (s_wire s) (s_rxq s) (s_got s) (s_in s) (s_busy s).

(** A handle above all in use. *)
Definition above (l : list Z) : Z := 1 + foldr (fun x m => Z.max (Z.abs x) m) 0 l.
Definition pick (s : sim) : Z := above (elements (dom (s_bufs s)) ++ refs (sview s)).

Lemma above_pos l : 0 < above l.
Proof. unfold above; induction l; cbn [foldr]; lia. Qed.

Lemma above_notin l : above l ∉ l.
Proof.
  assert (forall x, x ∈ l -> Z.abs x < above l) as Hmax by (intros x; unfold above; induction 1; cbn [foldr]; lia).
  intros Hin. apply Hmax in Hin. pose proof (above_pos l). lia.
Qed.

Lemma pick_fresh s : pick s <> 0 /\ s_bufs s !! pick s = None /\ pick s ∉ refs (sview s).
Proof.
  pose proof (above_notin (elements (dom (s_bufs s)) ++ refs (sview s))) as Hn. fold (pick s) in Hn. apply not_elem_of_app in Hn as [H1 H2].
  split; [pose proof (above_pos (elements (dom (s_bufs s)) ++ refs (sview s))); unfold pick; lia|]. split; [|done].
  rewrite elem_of_elements in H1. by apply not_elem_of_dom in H1.
Qed.

Definition sends (s : sim) : sim :=
  mk_sim (s_bufs s) [] (s_done s ++ (s_queue s).*1) (s_wire s ++ (s_queue s).*2) (s_rxq s) (s_got s) (s_in s) (s_busy s).
Definition reaps (s : sim) : sim :=
  mk_sim (foldl (fun bs m => unref m bs) (s_bufs s) (s_done s)) (s_queue s) [] (s_wire s) (s_rxq s) (s_got s) (s_in s) (s_busy s).
Definition receive (s : sim) : sim :=
  match s_in s with
  | [] => s
  | f :: fs =>
      if decide (f <> [] /\ is_bytes f) then
        let m := pick s in mk_sim (<[m := mk_mbuf 1 f (Z.of_nat (length f))]> (s_bufs s)) (s_queue s) (s_done s) (s_wire s) (s_rxq s ++ [m]) (s_got s ++ [f]) fs (s_busy s)
      else s
  end.

Definition set_busy (b : bool) (s : sim) : sim := mk_sim (s_bufs s) (s_queue s) (s_done s) (s_wire s) (s_rxq s) (s_got s) (s_in s) b.
Definition posts (m : Z) (s : sim) : sim :=
  mk_sim (s_bufs s) (s_queue s ++ [(m, match s_bufs s !! m with Some b => frame_of b | None => [] end)]) (s_done s) (s_wire s) (s_rxq s) (s_got s) (s_in s) true.
Definition gives (k : nat) (s : sim) : sim := mk_sim (s_bufs s) (s_queue s) (s_done s) (s_wire s) (drop k (s_rxq s)) (s_got s) (s_in s) (s_busy s).

#[export] Instance sim_lib : DpdkLib sim := {|
  rte_eth_rx_burst _ _ n s := let s := receive s in let ms := take (Z.to_nat n) (s_rxq s) in (ms, gives (length ms) s);
  rte_eth_tx_burst _ _ m s := if s_busy s then (0, set_busy false s) else (1, posts m (reaps (sends s)));
  rte_pktmbuf_alloc _ s := (pick s, on_bufs <[pick s := mk_mbuf 1 (replicate (Z.to_nat sim_room) 0) 0]> s);
  rte_pktmbuf_free m := on_bufs (unref m);
  rte_mbuf_refcnt_set m n := on_bufs (alter (set_count (fun _ => n)) m);
  rte_mbuf_refcnt_read m s := match s_bufs s !! m with Some b => b_refcnt b | None => 0 end;
  rte_mbuf_refcnt_update m n := on_bufs (alter (set_count (fun x => u16 (x + n))) m);
  mtod m := 4096 * m;
  data m s := match s_bufs s !! m with Some b => b_data b | None => [] end;
  set_data m d := on_bufs (alter (set_bytes d) m);
  pkt_len m s := match s_bufs s !! m with Some b => b_len b | None => 0 end;
  set_lens m _ n := on_bufs (alter (set_len n) m) |}.

Lemma sends_steps s : rtc nstep (sview s) (sview (sends s)).
Proof.
  destruct s as [bs q d w r g i b]. unfold sview, sends. cbn. revert d w; induction q as [|[m f] q IH]; intros d w; cbn; [by rewrite !app_nil_r|].
  eapply rtc_l; [by apply n_send; left|]. specialize (IH (d ++ [m]) (w ++ [f])). by rewrite <- !app_assoc in IH.
Qed.

Lemma reaps_steps s : rtc nstep (sview s) (sview (reaps s)).
Proof.
  destruct s as [bs q d w r g i b]. unfold sview, reaps. cbn. revert bs; induction d as [|m d IH]; intros bs; cbn; [done|].
  eapply rtc_l; [apply n_reap|]. apply IH.
Qed.

Lemma dpdk_receive_steps s : rtc nstep (sview s) (sview (receive s)).
Proof.
  unfold receive. destruct (s_in s) as [|f fs]; [done|]. case_decide as Hf; [|done]. destruct (pick_fresh s) as (H1 & H2 & H3). apply rtc_once.
  assert (frame_of (mk_mbuf 1 f (Z.of_nat (length f))) = f) as Hfr by (unfold frame_of; cbn; by rewrite Nat2Z.id, firstn_all).
  pose proof (n_recv (s_bufs s) (prod_map id Some <$> s_queue s) (s_done s) (s_wire s) (s_rxq s) (s_got s) (pick s) (mk_mbuf 1 f (Z.of_nat (length f)))) as Hs.
  rewrite Hfr in Hs. apply Hs; try done; apply Hf.
Qed.

Lemma on_bufs_changes m (f : sim -> sim) g l : (forall s, f s = on_bufs (alter g m) s) -> changes sview m f g l.
Proof. intros Hf _. exists (sview l). split; [done|]. by rewrite Hf. Qed.

#[local] Obligation Tactic := idtac.
#[export] Program Instance sim_laws inlines : DpdkLaws sim_room sim_slots inlines 2 sim := {| dview := sview; tries s := if s_busy s then 1%nat else 0%nat |}.
Next Obligation. intros inl l. cbn. destruct (s_busy l); lia. Qed.
Next Obligation.
  intros inl p q n l. cbn. exists (sview (receive l)). split; [apply dpdk_receive_steps|]. set (ms := take _ _). split; [unfold ms; rewrite length_take; lia|]. split; [|done].
  cbn. unfold ms. rewrite length_take. destruct (Nat.le_ge_cases (Z.to_nat n) (length (s_rxq (receive l)))); [by rewrite Nat.min_l|]. rewrite Nat.min_r by done. by rewrite !take_ge.
Qed.
Next Obligation.
  intros inl p q m l [b Hb]. cbn. destruct (s_busy l) eqn:E; cbn [fst snd].
  - exists (sview l). split; [done|]. left. split; [done|]. split; [done|]. cbn. lia.
  - exists (sview (reaps (sends l))). split; [etrans; [apply sends_steps|apply reaps_steps]|]. right. split; [done|]. split; [cbn; unfold sim_slots; lia|].
    eexists (Some _). split.
    + reflexivity.
    + intros b' Hb'. left. cbn in Hb' |- *. by rewrite Hb'.
Qed.
Next Obligation.
  intros inl p l. cbn. exists (sview l). split; [done|]. right. destruct (pick_fresh l) as (H1 & H2 & _). split; [done|]. split; [done|]. eexists. split; [|done]. by rewrite length_replicate.
Qed.
Next Obligation. intros inl m l _. exists (sview l). done. Qed.
Next Obligation. intros inl m n l. by apply on_bufs_changes. Qed.
Next Obligation. intros inl m l b Hb. cbn in *. by rewrite Hb. Qed.
Next Obligation. intros inl m n l. by apply on_bufs_changes. Qed.
Next Obligation. intros inl m l b Hb. cbn in *. by rewrite Hb. Qed.
Next Obligation. intros inl m d l. by apply on_bufs_changes. Qed.
Next Obligation. intros inl m l b Hb. cbn in *. by rewrite Hb. Qed.
Next Obligation. intros inl m n n' l. by apply on_bufs_changes. Qed.
End Sim.
Import Sim.

(** Three frames, of which two fit the buffer that is used again, and their arrival. *)
Definition ex_config : config := mk_config RxTx 0 256 256 32 8191 200.
Definition ex_dpdk (inline : bool) : Dpdk :=
  mk_dpdk (mk_names "eth1" "mlx5" 3 "0000:01:00.0") (mk_port 0 1 [] true true) (mk_flags true false false 0 false 256 "")
    (mk_rx (replicate 32 0) 0 0 0) (mk_tx (replicate (Z.to_nat 200) 0) 0 0 0 inline).
Definition ex_sim (arrivals : list bytes) : Sim.sim := Sim.mk_sim ∅ [] [] [] [] [] arrivals false.
Definition ex_frames : list bytes := [[1; 2; 3]; replicate (Z.to_nat 150) 7; [1; 2; 4]].

Lemma dpdk_tx_fifo_witness :
  exists oks w', (prefillRing ex_config [1; 2] ;; @tx_send_all _ (Dpdk_TxRing ex_config 2) ex_frames) (ex_dpdk true, ex_sim []) = (Done oks, w') /\ length oks = length ex_frames /\
    (forall v, rtc nstep (Sim.sview (snd w')) v -> v_wire v `prefix_of` accepted ex_frames oks /\
      (m_txReuse (tx (fst w')) <> 0 -> exists b, v_bufs v !! m_txReuse (tx (fst w')) = Some b /\ 1 <= b_refcnt b < 2 ^ 16)) /\
    exists v, rtc nstep (Sim.sview (snd w')) v /\ v_wire v = accepted ex_frames oks.
Proof.
  apply (Send.dpdk_tx_fifo (H0 := Sim.sim_laws true) ex_config Sim.sim_room Sim.sim_slots true 2 2).
  - split; discriminate.
  - split; discriminate.
  - reflexivity.
  - lia.
  - split; try reflexivity. cbn. lia.
  - discriminate.
  - repeat constructor; discriminate.
Defined.

Example dpdk_tx_run :
  fst ((prefillRing ex_config [1; 2] ;; @tx_send_all _ (Dpdk_TxRing ex_config 2) ex_frames) (ex_dpdk true, ex_sim [])) = Done [true; true; true].
Proof. vm_compute. reflexivity. Qed.

Lemma dpdk_rx_fifo_witness :
  exists fs w' rest, @receive_n _ (Dpdk_RxRing ex_config) 3 (ex_dpdk false, ex_sim ex_frames) = (Done fs, w') /\ v_got (Sim.sview (snd w')) = fs ++ rest /\
    length rest = length (Receive.left_over (fst w') ++ v_rxq (Sim.sview (snd w'))) /\
    forall m, is_Some (v_bufs (Sim.sview (snd w')) !! m) ->
      is_Some (v_bufs (Sim.sview (ex_sim ex_frames)) !! m) \/ m ∈ Receive.left_over (fst w') ++ v_rxq (Sim.sview (snd w')).
Proof.
  apply (Receive.dpdk_rx_fifo (H0 := Sim.sim_laws true) ex_config Sim.sim_room Sim.sim_slots true 2 3).
  - split; [discriminate|reflexivity].
  - split; try reflexivity. by split.
Defined.

Example dpdk_rx_run : fst (@receive_n _ (Dpdk_RxRing ex_config) 3 (ex_dpdk false, ex_sim ex_frames)) = Done ex_frames.
Proof. vm_compute. reflexivity. Qed.
