(* ===== verification/DPDKSetup.v ===== *)
(** * The DPDK transport: set-up (src/backends/DPDK/DPDK.hpp)

    [prepare], [init], [waitLink], [shutdown], the setters and the moves, over three
    machines: the ports and the EAL ([PortSys], [EalSys], [DpdkLib]), the files through which
    a device is found and bound, and the kernel's network control.  The registry of
    devices is the process's ([DPDKEal]).  The theorems show that whatever is called in whatever order no port is left
    running and no descriptor open, and that an object cannot be brought up twice. *)

From S2P Require Import Prelude CStrings Files PciHelpers DPDKEal NapiConfig DPDK Resources.
Open Scope string_scope.
Open Scope Z_scope.

Definition RTE_MBUF_DEFAULT_BUF_SIZE : Z := 2048 + 128.
Definition ENOTSUP : Z := 95.

(** The process: the registry, and the sockets [printXskProcessValidation] has reported. *)
Record Process := mk_process { p_eal : Eal; p_reported : list Z }.

(** [rte_eth_dev_configure] takes the queue counts, whether MBUF_FAST_FREE is asked for, and
    the link speeds; a failed query of the link gives nothing. *)
Class PortSys (P : Type) := {
  rte_eth_dev_get_port_by_name : string -> P -> option Z * P;
  rte_eth_dev_info_get : Z -> P -> option bool * P;
  rte_eth_dev_socket_id : Z -> P -> Z * P;
  rte_socket_id : P -> Z;
  rte_pktmbuf_pool_create : string -> Z -> Z -> Z -> Z -> P -> Z * P;
  rte_eth_dev_configure : Z -> Z -> Z -> bool -> Z -> P -> Z * P;
  rte_eth_dev_adjust_nb_rx_tx_desc : Z -> Z -> Z -> P -> (Z * (Z * Z)) * P;
  rte_eth_rx_queue_setup : Z -> Z -> Z -> Z -> Z -> P -> Z * P;
  rte_eth_tx_queue_setup : Z -> Z -> Z -> Z -> bool -> P -> Z * P;
  rte_eth_dev_start : Z -> P -> Z * P;
  rte_eth_dev_stop : Z -> P -> P;
  rte_eth_macaddr_get : Z -> P -> list Z * P;
  rte_eth_link_get_nowait : Z -> P -> option (bool * Z) * P;
  rte_eth_dev_set_link_up : Z -> P -> Z * P;
  rte_eth_stats_get : Z -> P -> P;
  rte_delay_us_block : Z -> P -> P;
}.

(** The constructor. *)
Definition construct (c : config) (ifname : string) (lcore : Z) (driver : string) : Dpdk :=
  mk_dpdk (mk_names ifname driver lcore "") (mk_port 0 0 (replicate 6 0) false false) (mk_flags false false false 0 false (DPDK.NbRxDesc c) "")
    (mk_rx (replicate (Z.to_nat (BurstSize c)) 0) 0 0 0) (mk_tx (replicate (Z.to_nat (MaxFrame c)) 0) 0 0 0 false).

(** The setters. *)
Definition setLinkSpeeds (x : Z) (o : Dpdk) : Dpdk :=
  let f := flags o in set_flags (mk_flags (m_bifurcated f) (m_afxdpPmd f) (m_applyDeferral f) x (m_symmetricQueues f) (m_nbRxDesc f) (m_devargs f)) o.
Definition setSymmetricQueues (b : bool) (o : Dpdk) : Dpdk :=
  let f := flags o in set_flags (mk_flags (m_bifurcated f) (m_afxdpPmd f) (m_applyDeferral f) (m_linkSpeeds f) b (m_nbRxDesc f) (m_devargs f)) o.
Definition setNbRxDesc (n : Z) (o : Dpdk) : Dpdk :=
  let f := flags o in set_flags (mk_flags (m_bifurcated f) (m_afxdpPmd f) (m_applyDeferral f) (m_linkSpeeds f) (m_symmetricQueues f) n (m_devargs f)) o.
Definition setDevargs (s : string) (o : Dpdk) : Dpdk :=
  let f := flags o in set_flags (mk_flags (m_bifurcated f) (m_afxdpPmd f) (m_applyDeferral f) (m_linkSpeeds f) (m_symmetricQueues f) (m_nbRxDesc f) s) o.
Definition set_inline (on : bool) (x : Tx) : Tx := mk_tx (m_txTemplate x) (m_txTemplateLen x) (m_pendingTx x) (m_txReuse x) on.
Definition setTxInlineReuse (on : bool) (o : Dpdk) : Dpdk := set_tx (set_inline on (tx o)) o.
Definition macAddress (o : Dpdk) : list Z := m_mac (port o).

Definition set_modes (bifurcated afxdp : bool) (o : Dpdk) : Dpdk :=
  let f := flags o in set_flags (mk_flags bifurcated afxdp (m_applyDeferral f) (m_linkSpeeds f) (m_symmetricQueues f) (m_nbRxDesc f) (m_devargs f)) o.
Definition set_deferral (b : bool) (o : Dpdk) : Dpdk :=
  let f := flags o in set_flags (mk_flags (m_bifurcated f) (m_afxdpPmd f) b (m_linkSpeeds f) (m_symmetricQueues f) (m_nbRxDesc f) (m_devargs f)) o.
Definition set_pci (s : string) (o : Dpdk) : Dpdk := set_names (mk_names (m_ifname (names o)) (m_driver (names o)) (m_lcore (names o)) s) o.
Definition set_prepared (o : Dpdk) : Dpdk := let p := port o in set_port (mk_port (m_port p) (m_pool p) (m_mac p) true (m_started p)) o.
Definition set_started (b : bool) (o : Dpdk) : Dpdk := let p := port o in set_port (mk_port (m_port p) (m_pool p) (m_mac p) (m_prepared p) b) o.
Definition set_number (n : Z) (o : Dpdk) : Dpdk := let p := port o in set_port (mk_port n (m_pool p) (m_mac p) (m_prepared p) (m_started p)) o.
Definition set_pool (x : Z) (o : Dpdk) : Dpdk := let p := port o in set_port (mk_port (m_port p) x (m_mac p) (m_prepared p) (m_started p)) o.
Definition set_mac (x : list Z) (o : Dpdk) : Dpdk := let p := port o in set_port (mk_port (m_port p) (m_pool p) x (m_prepared p) (m_started p)) o.

(** What a moved-from object is left with; the strings are left empty. *)
Definition moved_from (o : Dpdk) : Dpdk :=
  mk_dpdk (mk_names "" "" (m_lcore (names o)) "") (mk_port (m_port (port o)) 0 (m_mac (port o)) (m_prepared (port o)) false)
    (let f := flags o in mk_flags (m_bifurcated f) (m_afxdpPmd f) (m_applyDeferral f) (m_linkSpeeds f) (m_symmetricQueues f) (m_nbRxDesc f) "")
    (rx o) (set_reuse 0 (tx o)).

(** The move constructor: the burst and what is lent do not move. *)
Definition move_construct (c : config) (o : Dpdk) : Dpdk * Dpdk :=
  (mk_dpdk (names o) (port o) (flags o) (mk_rx (replicate (Z.to_nat (BurstSize c)) 0) 0 0 0)
     (mk_tx (m_txTemplate (tx o)) (m_txTemplateLen (tx o)) 0 (m_txReuse (tx o)) (m_txReuseInline (tx o))), moved_from o).

Section Operations.
Context {P F N : Type} {PS : PortSys P} {ES : EalSys P} {DL : DpdkLib P} {FS : FileSys F} {BR : Bar F} {NS : NlSys N} (c : config).
Abbreviation S := ((Dpdk * Process) * (P * F * N))%type.

(** Programs of one part of the state. *)
Definition on_obj (f : Dpdk -> Dpdk) : M S unit := upd (fun o => (f (fst o), snd o)).
Definition on_port {A} (f : P -> A * P) : M S A := sys (fun w => let '(a, p) := f (fst (fst w)) in (a, (p, snd (fst w), snd w))).
Definition do_port (f : P -> P) : M S unit := act (fun w => (f (fst (fst w)), snd (fst w), snd w)).
Definition on_eal {A} (m : M (Eal * P) A) : M S A :=
  zoom (fun s : S => (p_eal (snd (fst s)), fst (fst (snd s))))
    (fun t s => ((fst (fst s), mk_process (fst t) (p_reported (snd (fst s)))), (snd t, snd (fst (snd s)), snd (snd s)))) m.
Definition on_files {A} (m : M F A) : M S A :=
  zoom (fun s : S => snd (fst (snd s))) (fun f s => (fst s, (fst (fst (snd s)), f, snd (snd s)))) m.
Definition on_net {A} (m : M N A) : M S A := zoom (fun s : S => snd (snd s)) (fun n s => (fst s, (fst (snd s), n))) m.
Definition obj : M S Dpdk := gets (fun s => fst (fst s)).

(** [prepare] *)
Definition vdev_arg (vname ifname : string) : string := vname ++ ",iface=" ++ ifname ++ ",start_queue=0,queue_count=1,mode=drv,busy_budget=64".

Definition prepare_afxdp : M S bool :=
  o ← obj;
  let ifname := m_ifname (names o) in
  on_net (detachXdpProgram ifname) ;;
  _ ← on_net (ensureCombinedOne ifname);
  n ← gets (fun s : S => vdevCount (p_eal (snd (fst s))));
  let vname := "net_af_xdp" ++ dec n in
  on_eal (addVdev (vdev_arg vname ifname)) ;;
  on_obj (set_pci vname) ;;
  on_obj (setTxInlineReuse false) ;;
  on_obj set_prepared ;;
  mret true.

Definition prepare_pci (bifurcated : bool) : M S bool :=
  o ← obj;
  pci ← on_files (resolveBdf (m_ifname (names o)));
  on_obj (set_pci pci) ;;
  pci ← (if String.eqb pci "" then p ← on_files (bdfFromName (m_ifname (names o))); on_obj (set_pci p) ;; mret p else mret pci);
  if String.eqb pci "" then mret false else
  bound ← (if bifurcated then mret true else on_files (bindToVfio pci));
  if negb bound then mret false else
  on_eal (addAllowedBdf (if String.eqb (m_devargs (flags o)) "" then pci else pci ++ "," ++ m_devargs (flags o))) ;;
  on_obj set_prepared ;;
  mret true.

Definition prepare (bifurcated afxdpPMD : bool) : M S bool :=
  o ← obj;
  if m_prepared (port o) then mret true else
  on_obj (set_modes bifurcated afxdpPMD) ;;
  if afxdpPMD then prepare_afxdp else prepare_pci bifurcated.

(** [waitLink]; the state of the link is that of the last query that answered. *)
Definition retry_link (p i : Z) : M S (option unit) :=
  (if (i =? 20) || ((20 <? i) && (i mod 30 =? 0)) then _ ← on_port (rte_eth_dev_set_link_up p); mret tt else mret tt) ;;
  do_port (rte_delay_us_block 100000) ;;
  mret None.

Definition poll_link (p i : Z) : M S (option unit) :=
  l ← on_port (rte_eth_link_get_nowait p);
  match l with
  | Some (true, _) => mret (Some tt)
  | _ => retry_link p i
  end.

Definition waitLink : M S bool :=
  o ← obj;
  _ ← poll 200 0 (poll_link (m_port (port o)));
  mret true.

(** [init], in its steps *)
Definition pool_name (p : Z) : string := "mbufpool_" ++ dec p.

Definition configure (p : Z) (sid : Z) (fast : bool) : M S bool :=
  o ← obj;
  let both := m_afxdpPmd (flags o) || m_symmetricQueues (flags o) in
  let use_rx := HAS_RX c || both in let use_tx := HAS_TX c || both in
  rc ← on_port (rte_eth_dev_configure p (if use_rx then 1 else 0) (if use_tx then 1 else 0) fast (m_linkSpeeds (flags o)));
  if negb (rc =? 0) then mret false else
  '(rc, (nb_rxd, nb_txd)) ← on_port (rte_eth_dev_adjust_nb_rx_tx_desc p (m_nbRxDesc (flags o)) (NbTxDesc c));
  if negb (rc =? 0) then mret false else
  rc ← (if use_rx then on_port (rte_eth_rx_queue_setup p (QueueId c) nb_rxd sid (m_pool (port o))) else mret 0);
  if rc <? 0 then mret false else
  rc ← (if use_tx then on_port (rte_eth_tx_queue_setup p (QueueId c) nb_txd sid fast) else mret 0);
  mret (negb (rc <? 0)).

Definition read_back : M S unit :=
  o ← obj;
  if m_afxdpPmd (flags o) then
    let ifname := m_ifname (names o) in
    _ ← on_net (if m_applyDeferral (flags o) then applyDeferralSysfs ifname kDeferHardIrqs kGroFlushTimeoutNs else applyDeferralSysfs ifname 0 0);
    seen ← gets (fun s : S => p_reported (snd (fst s)));
    r ← on_net (printXskProcessValidation ifname (m_applyDeferral (flags o)) seen);
    upd (fun og => (fst og, mk_process (p_eal (snd og)) (fst r)))
  else mret tt.

Definition init (doWaitLink bifurcated afxdpPMD applyDeferral : bool) : M S bool :=
  on_obj (set_deferral applyDeferral) ;;
  ok ← prepare bifurcated afxdpPMD;
  if negb ok then mret false else
  o ← obj;
  ok ← on_eal (ealInit (m_pci (names o)) (m_lcore (names o)));
  if negb ok then mret false else
  p ← on_port (rte_eth_dev_get_port_by_name (m_pci (names o)));
  match p with
  | None => mret false
  | Some p =>
      on_obj (set_number p) ;;
      info ← on_port (rte_eth_dev_info_get p);
      match info with
      | None => mret false
      | Some fast =>
          sid ← on_port (rte_eth_dev_socket_id p);
          w ← gets (fun s : S => fst (fst (snd s)));
          let sid := if sid <? 0 then rte_socket_id w else sid in
          pool ← on_port (rte_pktmbuf_pool_create (pool_name p) (NumMbufs c) MBUF_CACHE RTE_MBUF_DEFAULT_BUF_SIZE sid);
          on_obj (set_pool pool) ;;
          if pool =? 0 then mret false else
          ok ← configure p sid fast;
          if negb ok then mret false else
          rc ← on_port (rte_eth_dev_start p);
          if rc <? 0 then mret false else
          on_obj (set_started true) ;;
          read_back ;;
          mac ← on_port (rte_eth_macaddr_get p);
          on_obj (set_mac mac) ;;
          if doWaitLink then waitLink else mret true
      end
  end.

(** [shutdown] *)
Definition shutdown : M S unit :=
  o ← obj;
  if negb (m_started (port o)) then mret tt else
  do_port (rte_eth_stats_get (m_port (port o))) ;;
  (if m_pendingRx (rx o) =? 0 then mret tt
   else do_port (rte_pktmbuf_free (m_pendingRx (rx o))) ;; on_obj (fun o => set_rx (set_pendingRx 0 (rx o)) o)) ;;
  do_port (rte_eth_dev_stop (m_port (port o))) ;;
  (if HAS_TX c && negb (m_txReuse (tx o) =? 0) then
     do_port (rte_mbuf_refcnt_set (m_txReuse (tx o)) 1) ;;
     do_port (rte_pktmbuf_free (m_txReuse (tx o))) ;;
     on_obj (fun o => set_tx (set_reuse 0 (tx o)) o)
   else mret tt) ;;
  on_obj (set_started false).

Definition dtor : M S unit := shutdown.

(** The move assignment from another object, which is left as the answer says. *)
Definition move_assign (from : Dpdk) : M S Dpdk :=
  shutdown ;;
  on_obj (fun o => mk_dpdk (names from) (port from) (flags from) (rx o)
    (mk_tx (m_txTemplate (tx from)) (m_txTemplateLen (tx from)) (m_pendingTx (tx o)) (m_txReuse (tx from)) (m_txReuseInline (tx from)))) ;;
  mret (moved_from from).
End Operations.

(** ** Which ports run *)

(** A name stands for one port; a second pool of one name is refused. *)
Class PortLaws (P : Type) `{PortSys P, EalSys P, DpdkLib P} := {
  running : P -> gset Z;
  pools : P -> gset string;
  number : string -> Z;
  by_name_law n p : let '(r, p') := rte_eth_dev_get_port_by_name n p in running p' = running p /\ pools p' = pools p /\ (forall q, r = Some q -> q = number n);
  info_law q p : let p' := snd (rte_eth_dev_info_get q p) in running p' = running p /\ pools p' = pools p;
  socket_law q p : let p' := snd (rte_eth_dev_socket_id q p) in running p' = running p /\ pools p' = pools p;
  pool_law n k c d s p : let '(h, p') := rte_pktmbuf_pool_create n k c d s p in
    running p' = running p /\ ((h = 0 /\ pools p' = pools p) \/ (h <> 0 /\ n ∉ pools p /\ pools p' = {[n]} ∪ pools p));
  configure_law q a b f l p : let p' := snd (rte_eth_dev_configure q a b f l p) in running p' = running p /\ pools p' = pools p;
  adjust_law q a b p : let p' := snd (rte_eth_dev_adjust_nb_rx_tx_desc q a b p) in running p' = running p /\ pools p' = pools p;
  rx_setup_law q i n s h p : let p' := snd (rte_eth_rx_queue_setup q i n s h p) in running p' = running p /\ pools p' = pools p;
  tx_setup_law q i n s f p : let p' := snd (rte_eth_tx_queue_setup q i n s f p) in running p' = running p /\ pools p' = pools p;
  start_law q p : let '(rc, p') := rte_eth_dev_start q p in running p' = (if rc <? 0 then running p else {[q]} ∪ running p) /\ pools p' = pools p;
  stop_law q p : let p' := rte_eth_dev_stop q p in running p' = running p ∖ {[q]} /\ pools p' = pools p;
  mac_law q p : let p' := snd (rte_eth_macaddr_get q p) in running p' = running p /\ pools p' = pools p;
  link_law q p : let p' := snd (rte_eth_link_get_nowait q p) in running p' = running p /\ pools p' = pools p;
  link_up_law q p : let p' := snd (rte_eth_dev_set_link_up q p) in running p' = running p /\ pools p' = pools p;
  stats_law q p : let p' := rte_eth_stats_get q p in running p' = running p /\ pools p' = pools p;
  delay_law n p : let p' := rte_delay_us_block n p in running p' = running p /\ pools p' = pools p;
  free_port_law m p : let p' := rte_pktmbuf_free m p in running p' = running p /\ pools p' = pools p;
  refcnt_port_law m n p : let p' := rte_mbuf_refcnt_set m n p in running p' = running p /\ pools p' = pools p;
  eal_port_law a p : let p' := snd (rte_eal_init a p) in running p' = running p /\ pools p' = pools p;
  getaffinity_port_law p : let p' := snd (pthread_getaffinity p) in running p' = running p /\ pools p' = pools p;
  setaffinity_port_law s p : let p' := pthread_setaffinity s p in running p' = running p /\ pools p' = pools p;
}.

Section Lifecycle.
Context {P F N : Type} {PS : PortSys P} {ES : EalSys P} {DL : DpdkLib P} {FS : FileSys F} {BR : Bar F} {NS : NlSys N} (c : config).
Context {PL : PortLaws P} {EL : EalLaws P} {FL : FileLaws F} {NR : NapiConfig.Resources N} {NL : NlSysLaws N}.
Abbreviation S := ((Dpdk * Process) * (P * F * N))%type.
Implicit Types (s : S) (base : gset Z).

Definition the_obj s : Dpdk := fst (fst s).
Definition the_eal s : Eal := p_eal (snd (fst s)).
Definition the_port s : P := fst (fst (snd s)).
Definition the_files s : F := snd (fst (snd s)).
Definition the_net s : N := snd (snd s).

(** What is running and open. *)
Definition alive s := (running (the_port s), pools (the_port s), handles (the_files s), res (the_net s)).
(** What of the object and the registry matters to that. *)
Definition marks s := (port (the_obj s), m_pci (names (the_obj s)), the_eal s).

Lemma fixes_port {A} (f : P -> A * P) : (forall p, let p' := snd (f p) in running p' = running p /\ pools p' = pools p) -> fixes (fun s => (alive s, marks s)) (on_port (F := F) (N := N) f).
Proof. intros Hf. apply fixes_sys. intros o [[p g] n]. specialize (Hf p). unfold alive, marks. cbn. destruct (f p) as [a p']. cbn in *. by destruct Hf as [-> ->]. Qed.

Lemma fixes_do_port (f : P -> P) : (forall p, let p' := f p in running p' = running p /\ pools p' = pools p) -> fixes (fun s => (alive s, marks s)) (do_port (F := F) (N := N) f).
Proof. intros Hf. apply fixes_act. intros o [[p g] n]. specialize (Hf p). unfold alive, marks. cbn. by destruct Hf as [-> ->]. Qed.

Lemma fixes_files {A} (m : M F A) : keeps m -> fixes (fun s => (alive s, marks s)) (on_files (P := P) (N := N) m).
Proof. intros Hm [og [[p f] n]]. specialize (Hm f). unfold ends, ends_with, on_files, zoom, alive, marks in *. cbn. destruct (m f) as [[] f']; try done. cbn. by rewrite Hm. Qed.

Lemma fixes_net {A} (m : M N A) : settled m -> fixes (fun s => (alive s, marks s)) (on_net (P := P) (F := F) m).
Proof. intros Hm [og [[p f] n]]. destruct (Hm _ n eq_refl) as (a & n' & E & He). unfold ends, on_net, zoom, alive, marks. cbn. rewrite E. cbn. by rewrite He. Qed.

Lemma fixes_poll {O W A X} (f : O * W -> X) k i (body : Z -> M (O * W) (option A)) : (forall j, fixes f (body j)) -> fixes f (poll k i body).
Proof. intros Hb. revert i; induction k as [|k IH]; intros i; cbn [poll]; [apply fixes_ret|]. apply fixes_bind; [apply Hb|]. intros [a|]; [apply fixes_ret|apply IH]. Qed.

Lemma waitLink_fixes : fixes (fun s => (alive s, marks s)) (waitLink (P := P) (F := F) (N := N)).
Proof.
  unfold waitLink, obj. apply fixes_bind; [done|]. intros o. apply fixes_bind; [|done]. apply fixes_poll. intros j. unfold poll_link.
  apply fixes_bind; [apply fixes_port; intros; apply link_law|]. intros l.
  assert (fixes (fun s => (alive s, marks s)) (retry_link (P := P) (F := F) (N := N) (m_port (port o)) j)) as Hretry.
  { unfold retry_link. apply fixes_bind; [apply fixes_if; [|done]|intros _]; [apply fixes_bind; [apply fixes_port; intros; apply link_up_law|done]|].
    apply fixes_bind; [apply fixes_do_port; intros; apply delay_law|done]. }
  by destruct l as [[[] ?]|].
Qed.

(** ** The invariant of the object *)

(** [base] runs without the object; [h], [r]: what is open. *)
Record Inv base (h : gset (Z * Z)) (r : gset (Z * Z * Z)) s : Prop := {
  i_unique : unique (the_eal s);
  i_base q : q ∈ base -> pool_name q ∈ pools (the_port s);
  i_run : running (the_port s) = (if m_started (port (the_obj s)) then {[m_port (port (the_obj s))]} else ∅) ∪ base;
  i_started : m_started (port (the_obj s)) = true ->
    let q := m_port (port (the_obj s)) in m_prepared (port (the_obj s)) = true /\ q = number (m_pci (names (the_obj s))) /\ q ∉ base /\ pool_name q ∈ pools (the_port s);
  i_open : handles (the_files s) = h /\ res (the_net s) = r }.

Definition key s := (m_port (port (the_obj s)), m_started (port (the_obj s)), m_prepared (port (the_obj s)), m_pci (names (the_obj s))).

Lemma Inv_same base h r s s' : alive s' = alive s -> key s' = key s -> unique (the_eal s') -> Inv base h r s -> Inv base h r s'.
Proof. unfold alive, key. intros [= H1 H2 H3 H4] [= H5 H6 H7 H8] Hu [_ Hb Hr Hs [Ho1 Ho2]]. split; rewrite ?H1, ?H2, ?H3, ?H4, ?H5, ?H6, ?H7, ?H8; done. Qed.

Lemma fixed_same s s' : (alive s', marks s') = (alive s, marks s) -> alive s' = alive s /\ key s' = key s /\ the_eal s' = the_eal s.
Proof. unfold alive, marks, key. intros [= -> -> -> -> -> -> ->]. done. Qed.

Lemma Inv_fixed base h r s s' : (alive s', marks s') = (alive s, marks s) -> Inv base h r s -> Inv base h r s'.
Proof. intros (Ha & Hk & He)%fixed_same Hi. eapply Inv_same; [exact Ha|exact Hk| |exact Hi]. rewrite He. by destruct Hi. Qed.

Lemma ends_fixed {A B} (m : M S A) (k : A -> M S B) (Q : B -> S -> Prop) s : fixes (fun s => (alive s, marks s)) m ->
  (forall a s', (alive s', marks s') = (alive s, marks s) -> ends (k a) Q s') -> ends (m ≫= k) Q s.
Proof. intros Hm Hk. apply ends_bind. eapply ends_mono; [apply Hm|]. exact Hk. Qed.

Lemma ends_port {A B} (f : P -> A * P) (k : A -> M S B) (Q : B -> S -> Prop) og p g n :
  (forall a p', f p = (a, p') -> ends (k a) Q (og, (p', g, n))) -> ends (on_port f ≫= k) Q (og, (p, g, n)).
Proof. intros Hk. apply ends_sys. cbn. destruct (f p) as [a p'] eqn:E. by apply Hk. Qed.

Lemma ends_obj {B} (f : Dpdk -> Dpdk) (k : unit -> M S B) (Q : B -> S -> Prop) o g w : ends (k tt) Q ((f o, g), w) -> ends (on_obj f ≫= k) Q ((o, g), w).
Proof. done. Qed.

(** What a run that ends normally leaves alone. *)
Definition leaves {O W A X} (f : O * W -> X) (m : M (O * W) A) : Prop := forall t : O * W, match m t with (Done _, t') => f t' = f t | _ => True end.

Lemma leaves_bind {O W A B X} (f : O * W -> X) (m : M (O * W) A) (k : A -> M (O * W) B) : leaves f m -> (forall a, leaves f (k a)) -> leaves f (m ≫= k).
Proof.
  intros Hm Hk t. specialize (Hm t). unfold mbind, M_bind. destruct (m t) as [[a| | | |] t1]; try done. specialize (Hk a t1). rewrite Hm in Hk. exact Hk.
Qed.

Lemma leaves_fixes {O W A X} (f : O * W -> X) (m : M (O * W) A) : fixes f m -> leaves f m.
Proof. intros Hm t. specialize (Hm t). unfold ends in Hm. by destruct (m t) as [[] ?]. Qed.

Lemma ealInit_leaves b l : leaves (fun t : Eal * P => (running (snd t), pools (snd t))) (ealInit b l).
Proof.
  unfold ealInit. apply leaves_bind; [done|]. intros g. destruct (g_ealInited g); [done|].
  apply leaves_bind; [apply leaves_fixes; by destruct (g_vdevs g)|]. intros _. apply leaves_bind; [done|]. intros g1.
  destruct (match g_vdevs g1 with [] => _ | _ => _ end); [done|]. cbn zeta.
  apply leaves_bind.
  { destruct (negb _); [|done]. apply leaves_bind; [|intros sv; apply leaves_bind; [|done]]; apply leaves_fixes.
    - apply fixes_sys. intros e p. cbn. by destruct (getaffinity_port_law p) as [-> ->].
    - apply fixes_act. intros e p. cbn. by destruct (setaffinity_port_law {[kControlThreadCore]} p) as [-> ->]. }
  intros saved. apply leaves_bind.
  { apply leaves_fixes, fixes_sys. intros e p. cbn. by match goal with |- context [rte_eal_init ?a p] => destruct (eal_port_law a p) as [-> ->] end. }
  intros rc. apply leaves_bind; [|intros _; by destruct (rc <? 0)].
  apply leaves_fixes. destruct saved as [sv|]; [|done]. apply fixes_act. intros e p. cbn. by destruct (setaffinity_port_law sv p) as [-> ->].
Qed.

Lemma ends_eal {A B} (m : M (Eal * P) A) (k : A -> M S B) (Q : B -> S -> Prop) o e rp p g n a e' p' : m (e, p) = (Done a, (e', p')) ->
  ends (k a) Q ((o, mk_process e' rp), (p', g, n)) -> ends (on_eal m ≫= k) Q ((o, mk_process e rp), (p, g, n)).
Proof. intros E Hk. apply ends_bind. unfold ends at 1, on_eal, zoom. cbn. by rewrite E. Qed.

Lemma ends_ealInit {B} b l (k : bool -> M S B) (Q : B -> S -> Prop) o e rp p g n : unique e ->
  (forall ok e' p', unique e' -> running p' = running p -> pools p' = pools p -> ends (k ok) Q ((o, mk_process e' rp), (p', g, n))) ->
  ends (on_eal (ealInit b l) ≫= k) Q ((o, mk_process e rp), (p, g, n)).
Proof.
  intros Hu Hk. destruct (init_once b l e p Hu) as (ok & e' & p' & E & Hu' & _). pose proof (ealInit_leaves b l (e, p)) as Hl. rewrite E in Hl. injection Hl as Hr Hp.
  eapply ends_eal; [exact E|]. by apply Hk.
Qed.

Lemma ends_files {A B} (m : M F A) (k : A -> M S B) (Q : B -> S -> Prop) og p g n : keeps m ->
  (forall a g', handles g' = handles g -> ends (k a) Q (og, (p, g', n))) -> ends (on_files m ≫= k) Q (og, (p, g, n)).
Proof.
  intros Hm Hk. specialize (Hm g). unfold ends_with in Hm. apply ends_bind. unfold ends at 1, on_files, zoom. cbn. destruct (m g) as [[] g'] eqn:E; try done. by apply Hk.
Qed.

Lemma ends_net {A B} (m : M N A) (k : A -> M S B) (Q : B -> S -> Prop) og p g n : settled m ->
  (forall a n', res n' = res n -> ends (k a) Q (og, (p, g, n'))) -> ends (on_net m ≫= k) Q (og, (p, g, n)).
Proof.
  intros Hm Hk. destruct (Hm _ n eq_refl) as (a & n' & E & He). apply ends_bind. unfold ends at 1, on_net, zoom. cbn. rewrite E. by apply Hk.
Qed.

(** What [prepare] may change: the device's name and mark, and the registry. *)
Definition prepared_from s s' : Prop :=
  alive s' = alive s /\ unique (the_eal s') /\ m_started (port (the_obj s')) = m_started (port (the_obj s)) /\
  m_port (port (the_obj s')) = m_port (port (the_obj s)) /\
  (m_prepared (port (the_obj s)) = true -> m_prepared (port (the_obj s')) = true /\ m_pci (names (the_obj s')) = m_pci (names (the_obj s))).

Lemma afxdp_ends s : unique (the_eal s) -> m_prepared (port (the_obj s)) = false -> ends (prepare_afxdp (P := P) (F := F)) (fun ok s' => prepared_from s s' /\ m_prepared (port (the_obj s')) = true) s.
Proof.
  intros Hu Hn. destruct s as [[o [e rp]] [[p g] n]]. cbn in Hu, Hn. unfold prepare_afxdp, obj. apply ends_gets. cbn [fst].
  apply ends_net; [apply detachXdpProgram_settled|]. intros _ n1 H1. apply ends_net; [apply ensureCombinedOne_settled|]. intros _ n2 H2.
  apply ends_gets. eapply ends_eal; [done|]. unfold ends. cbn. unfold prepared_from, alive. cbn. rewrite Hn. split; [|done]. split; [by unfold the_net; cbn; rewrite H2, H1|]. split; [|done].
  split; [apply Hu|]. apply addUnique_spec, Hu.
Qed.

Lemma pci_ends b s : unique (the_eal s) -> m_prepared (port (the_obj s)) = false ->
  ends (prepare_pci (P := P) (N := N) b) (fun ok s' => prepared_from s s' /\ (ok = true -> m_prepared (port (the_obj s')) = true)) s.
Proof.
  intros Hu Hn. destruct s as [[o [e rp]] [[p g] n]]. cbn in Hu, Hn. unfold prepare_pci, obj. apply ends_gets. cbn [fst].
  assert (forall o' g', port o' = port o -> handles g' = handles g -> prepared_from ((o, mk_process e rp), (p, g, n)) ((o', mk_process e rp), (p, g', n))) as Hfail.
  { intros o' g' Ho Hg. unfold prepared_from, alive. cbn. rewrite Hg, Ho, Hn. done. }
  apply ends_files; [apply readlinkBasename_keeps|]. intros pci g1 H1. apply ends_obj.
  apply ends_bind. set (o1 := set_pci pci o).
  assert (ends (if String.eqb pci "" then q ← on_files (bdfFromName (m_ifname (names o))); on_obj (set_pci q) ;; mret q else mret pci)
    (fun pci' s' => exists o' g', s' = ((o', mk_process e rp), (p, g', n)) /\ port o' = port o /\ handles g' = handles g) ((o1, mk_process e rp), (p, g1, n))) as Hname.
  { destruct (String.eqb pci ""); [|apply ends_ret; by exists o1, g1]. apply ends_files; [apply bdfFromName_keeps|]. intros q g2 H2. apply ends_obj, ends_ret.
    eexists _, g2. split; [done|]. split; [done|]. congruence. }
  eapply ends_mono; [exact Hname|]. cbn beta. intros pci' s' (o2 & g2 & -> & Ho2 & Hg2). destruct (String.eqb pci' ""); [apply ends_ret; split; [by apply Hfail|done]|].
  apply ends_bind. apply (ends_mono _ (fun _ s' => exists g', s' = ((o2, mk_process e rp), (p, g', n)) /\ handles g' = handles g)).
  { destruct b; [apply ends_ret; by exists g2|]. pose proof (bindToVfio_keeps pci' g2) as Hk. unfold ends_with in Hk. unfold ends, on_files, zoom. cbn.
    destruct (bindToVfio pci' g2) as [[] g3]; try done. exists g3. split; [done|]. congruence. }
  intros bound s' (g3 & -> & Hg3). destruct bound; cbn [negb]; [|apply ends_ret; split; [by apply Hfail|done]].
  eapply ends_eal; [done|]. apply ends_obj, ends_ret. unfold prepared_from, alive. cbn. rewrite Ho2, Hn. split; [|done]. split; [by unfold the_files; cbn; rewrite Hg3|]. split; [|done].
  split; [|apply Hu]. apply addUnique_spec, Hu.
Qed.

Lemma prepare_ends b a s : unique (the_eal s) -> ends (prepare b a) (fun ok s' => prepared_from s s' /\ (ok = true -> m_prepared (port (the_obj s')) = true)) s.
Proof.
  intros Hu. unfold prepare, obj. apply ends_gets. destruct (m_prepared (port (fst (fst s)))) eqn:Hn.
  { apply ends_ret. split; [|done]. unfold prepared_from, the_obj. by rewrite Hn. }
  destruct s as [[o g] w]. apply ends_obj. set (s1 := ((set_modes b a o, g), w) : S). change (prepared_from ((o, g), w)) with (prepared_from s1).
  destruct a; [|by apply pci_ends]. eapply ends_mono; [by apply afxdp_ends|]. cbn. by intros ok s' [].
Qed.

Lemma prepared_Inv base h r s s' : prepared_from s s' -> Inv base h r s -> Inv base h r s'.
Proof.
  unfold prepared_from, alive. intros ([= H1 H2 H3 H4] & Hu & Hst & Hq & Hp) [_ Hb Hr Hs [Ho1 Ho2]]. split; rewrite ?H1, ?H2, ?H3, ?H4, ?Hst, ?Hq; try done.
  intros Ht. destruct (Hs Ht) as (Hpr & Hn & Hrest). destruct (Hp Hpr) as [Hpr' ->]. done.
Qed.

(** Pools stay, and so does the device of a prepared object. *)
Definition trail s s' : Prop :=
  pools (the_port s) ⊆ pools (the_port s') /\
  (m_prepared (port (the_obj s)) = true -> m_prepared (port (the_obj s')) = true /\ m_pci (names (the_obj s')) = m_pci (names (the_obj s))).

Lemma trail_same s s' : pools (the_port s') = pools (the_port s) -> m_prepared (port (the_obj s')) = m_prepared (port (the_obj s)) -> m_pci (names (the_obj s')) = m_pci (names (the_obj s)) -> trail s s'.
Proof. unfold trail. intros -> -> ->. done. Qed.

Lemma trail_trans s1 s2 s3 : trail s1 s2 -> trail s2 s3 -> trail s1 s3.
Proof. intros [H1 H2] [H3 H4]. split; [set_solver|]. intros Hp. destruct (H2 Hp) as [Hp2 <-]. destruct (H4 Hp2) as [Hp3 <-]. done. Qed.

Lemma configure_fixes q sid fast : fixes (fun s => (alive s, marks s)) (configure (P := P) (F := F) (N := N) c q sid fast).
Proof.
  unfold configure, obj. apply fixes_bind; [done|]. intros o. cbn zeta. apply fixes_bind; [apply fixes_port; intros; apply configure_law|]. intros rc. apply fixes_if; [done|].
  apply fixes_bind; [apply fixes_port; intros; apply adjust_law|]. intros [rc' [a b]]. apply fixes_if; [done|].
  apply fixes_bind; [apply fixes_if; [apply fixes_port; intros; apply rx_setup_law|done]|]. intros rc2. apply fixes_if; [done|].
  apply fixes_bind; [apply fixes_if; [apply fixes_port; intros; apply tx_setup_law|done]|done].
Qed.

Lemma read_back_fixes : fixes (fun s => (alive s, marks s)) (read_back (P := P) (F := F)).
Proof.
  unfold read_back, obj. apply fixes_bind; [done|]. intros o. apply fixes_if; [|done]. cbn zeta.
  apply fixes_bind; [apply fixes_net; destruct (m_applyDeferral _); apply applyDeferralSysfs_settled|]. intros _.
  apply fixes_bind; [done|]. intros seen. apply fixes_bind; [apply fixes_net, validation_settled|]. intros rp. apply fixes_upd. intros [o' [e l]] w. done.
Qed.

(** Before a pool is made nothing has changed but the object and the registry. *)
Definition staged base h r s s' : Prop :=
  Inv base h r s' /\ trail s s' /\ m_started (port (the_obj s')) = m_started (port (the_obj s)) /\ pools (the_port s') = pools (the_port s).

Lemma staged_same base h r s s1 s2 : alive s2 = alive s1 -> key s2 = key s1 -> unique (the_eal s2) -> staged base h r s s1 -> staged base h r s s2.
Proof.
  intros Ha Hk Hu (Hi & Ht & Hst & Hp). split; [by eapply Inv_same|]. unfold alive, key in *. injection Ha as _ Hpl _ _. injection Hk as _ Hst2 Hpr Hpc. split; [|split; congruence].
  eapply trail_trans; [exact Ht|]. by apply trail_same.
Qed.

Lemma staged_port {A} base h r s (f : P -> A * P) a o g p fl n p' :
  (let q := snd (f p) in running q = running p /\ pools q = pools p) -> f p = (a, p') -> staged base h r s ((o, g), (p, fl, n)) -> staged base h r s ((o, g), (p', fl, n)).
Proof.
  intros Hf E Hs. rewrite E in Hf. destruct Hf as [Hr Hp]. eapply staged_same; [| | |exact Hs]; [unfold alive; cbn in *; by rewrite Hr, Hp|done|]. destruct Hs as [[] _]. done.
Qed.

(** The port as the name gives it: that of a running object is the same. *)
Lemma staged_number base h r s o g w : staged base h r s ((o, g), w) -> staged base h r s ((set_number (number (m_pci (names o))) o, g), w).
Proof.
  intros ([Hu Hb Hr Hst Ho] & Ht & Hss & Hp). split; [|by split]. split; try done; cbn in *; destruct (m_started (port o)) eqn:E; try done.
  - destruct (Hst eq_refl) as (_ & <- & _). done.
  - intros _. destruct (Hst eq_refl) as (H1 & H2 & H3). rewrite H2 in H3. done.
Qed.

Definition brought_up base h r s (ok : bool) s' : Prop :=
  Inv base h r s' /\ trail s s' /\ (ok = true -> m_started (port (the_obj s')) = true) /\
  (m_started (port (the_obj s')) = true -> m_started (port (the_obj s)) = true \/ pool_name (number (m_pci (names (the_obj s')))) ∉ pools (the_port s)).

Lemma staged_fail base h r s s' : staged base h r s s' -> brought_up base h r s false s'.
Proof. intros (Hi & Ht & Hst & _). split; [done|]. split; [done|]. split; [done|]. rewrite Hst. by left. Qed.

Lemma brought_up_fixed base h r s ok ok' s1 s2 : (alive s2, marks s2) = (alive s1, marks s1) -> (ok' = true -> ok = true) -> brought_up base h r s ok s1 -> brought_up base h r s ok' s2.
Proof.
  intros Hf Ho (Hi & Ht & Hok & Hn). split; [by eapply Inv_fixed|]. unfold alive, marks in Hf. injection Hf as _ Hp _ _ Hpo Hpc _. split.
  - eapply trail_trans; [exact Ht|]. apply trail_same; congruence.
  - rewrite Hpo, Hpc. auto.
Qed.

(** The pool is made: the port cannot be running yet. *)
Lemma pool_made base h r s o g p fl n q x p' : staged base h r s ((o, g), (p, fl, n)) -> m_port (port o) = q -> q = number (m_pci (names o)) ->
  running p' = running p -> pool_name q ∉ pools p -> pools p' = {[pool_name q]} ∪ pools p ->
  brought_up base h r s false ((set_pool x o, g), (p', fl, n)) /\ m_started (port o) = false /\ q ∉ base /\ pool_name q ∉ pools (the_port s) /\ pool_name q ∈ pools p'.
Proof.
  intros ([Hu Hb Hr Hst Ho] & Ht & _ & Hp) Hq Hq2 Hrun Hn Hpl. cbn in *.
  assert (m_started (port o) = false) as Hns. { destruct (m_started (port o)); [|done]. destruct (Hst eq_refl) as (_ & _ & _ & Hin). congruence. }
  split; [|split; [done|]; split; [intros Hin; by apply Hn, Hb|]; rewrite Hpl; set_solver]. split; [|split; [|split; [done|cbn; congruence]]].
  - split; try done; cbn; rewrite ?Hpl, ?Hns; try done; [|by rewrite Hrun, Hr, Hns]. intros y Hy. apply elem_of_union_r. by apply Hb.
  - eapply trail_trans; [exact Ht|]. split; [cbn; rewrite Hpl; set_solver|done].
Qed.

(** The port is started. *)
Lemma started_up base h r s o g p fl n p' : brought_up base h r s false ((o, g), (p, fl, n)) -> m_started (port o) = false -> m_prepared (port o) = true ->
  m_port (port o) = number (m_pci (names o)) -> m_port (port o) ∉ base -> pool_name (m_port (port o)) ∉ pools (the_port s) -> pool_name (m_port (port o)) ∈ pools p ->
  running p' = {[m_port (port o)]} ∪ running p -> pools p' = pools p -> brought_up base h r s true ((set_started true o, g), (p', fl, n)).
Proof.
  intros ([Hu Hb Hr Hst Ho] & Ht & _) Hns Hpr Hq Hnb Hno Hin Hrun Hpl. cbn in *. split; [|split].
  - split; try done; cbn; rewrite ?Hpl, ?Hrun; try done. rewrite Hr, Hns. set_solver.
  - eapply trail_trans; [exact Ht|]. by apply trail_same.
  - split; [done|]. intros _. right. cbn. by rewrite <- Hq.
Qed.

Lemma dpdk_init_ends base h r wait b a d s : Inv base h r s -> ends (init c wait b a d) (brought_up base h r s) s.
Proof.
  intros Hi0. unfold init. destruct s as [[o0 g0] w0]. apply ends_obj. set (s := (o0, g0, w0)) in *. set (s0 := (set_deferral d o0, g0, w0)).
  assert (Inv base h r s0) as Hi1 by (by eapply Inv_same; [| | |exact Hi0]; [..|destruct Hi0]).
  apply ends_bind. eapply ends_mono; [apply prepare_ends, Hi1|]. cbn beta. intros ok s2 [Hpf Hok].
  assert (staged base h r s s2) as Hs.
  { pose proof (prepared_Inv _ _ _ _ _ Hpf Hi1) as Hi2. destruct Hpf as (Ha & _ & Hst & _ & Hpp). unfold alive in Ha. injection Ha as _ Hpl _ _.
    split; [done|]. split; [split; [by rewrite Hpl|exact Hpp]|]. split; [exact Hst|exact Hpl]. }
  destruct ok; cbn [negb]; [|by apply ends_ret, staged_fail]. specialize (Hok eq_refl). clearbody s s0. clear Hi0 Hi1 Hpf.
  destruct s2 as [[o [e rp]] [[p g] n]]. cbn in Hok. unfold obj. apply ends_gets. cbn [fst]. apply ends_ealInit; [by destruct Hs as [[] _]|]. intros ok e' p1 Hu1 Hr1 Hpl1.
  assert (staged base h r s ((o, mk_process e' rp), (p1, g, n))) as Hs1 by (eapply staged_same; [| | |exact Hs]; [unfold alive; cbn; by rewrite Hr1, Hpl1|done|done]).
  destruct ok; cbn [negb]; [|by apply ends_ret, staged_fail]. apply ends_port. intros q p2 Eq. pose proof (by_name_law (m_pci (names o)) p1) as Hl. rewrite Eq in Hl. destruct Hl as (Hr2 & Hpl2 & Hq).
  eapply (staged_port _ _ _ _ (rte_eth_dev_get_port_by_name (m_pci (names o)))) in Hs1; [|by rewrite Eq|exact Eq].
  destruct q as [q|]; [|by apply ends_ret, staged_fail]. specialize (Hq q eq_refl) as ->. apply ends_obj. apply staged_number in Hs1.
  set (q := number (m_pci (names o))) in *. set (o1 := set_number q o) in *.
  apply ends_port. intros info p3 Ei. eapply (staged_port _ _ _ _ (rte_eth_dev_info_get q)) in Hs1; [|apply info_law|exact Ei].
  destruct info as [fast|]; [|by apply ends_ret, staged_fail].
  apply ends_port. intros sid p4 Es. eapply (staged_port _ _ _ _ (rte_eth_dev_socket_id q)) in Hs1; [|apply socket_law|exact Es].
  apply ends_gets. cbn zeta. apply ends_port. intros pool p5 Ep. apply ends_obj.
  match type of Ep with rte_pktmbuf_pool_create _ ?k ?a1 ?b1 ?d1 _ = _ => pose proof (pool_law (pool_name q) k a1 b1 d1 p4) as Hl end. rewrite Ep in Hl. destruct Hl as (Hr5 & Hl).
  destruct Hl as [[-> Hpl]|(Hp0 & Hn & Hpl)].
  { apply ends_ret, staged_fail. eapply staged_same; [| | |exact Hs1]; [unfold alive; cbn; by rewrite Hr5, Hpl|done|done]. }
  rewrite (proj2 (Z.eqb_neq _ _)) by done. destruct (pool_made _ _ _ _ _ _ _ _ _ _ pool _ Hs1 eq_refl eq_refl Hr5 Hn Hpl) as (Hup & Hns & Hnb & Hno & Hin).
  apply ends_bind. eapply ends_mono; [apply configure_fixes|]. cbn beta. intros ok s6 Hf.
  pose proof (brought_up_fixed _ _ _ _ false false _ _ Hf ltac:(done) Hup) as Hup6.
  destruct ok; cbn [negb]; [|by apply ends_ret].
  destruct s6 as [[o6 g6] [[p6 f6] n6]]. unfold alive, marks in Hf. cbn in Hf. injection Hf as _ Hp6 _ _ Hpo Hpc _.
  apply ends_port. intros rc p7 Er. pose proof (start_law q p6) as Hl. rewrite Er in Hl. destruct Hl as [Hrun7 Hpl7].
  destruct (rc <? 0).
  { apply ends_ret. eapply (brought_up_fixed _ _ _ _ false); [|done|exact Hup6]. unfold alive, marks. cbn. by rewrite Hrun7, Hpl7. }
  apply ends_obj. assert (brought_up base h r s true (set_started true o6, g6, (p7, f6, n6))) as Hup7.
  { assert (m_port (port o6) = q) as Hq6 by (by rewrite Hpo).
    apply (started_up _ _ _ _ _ _ p6); rewrite ?Hq6; try done; rewrite ?Hpo, ?Hpc; try done. unfold the_port in Hp6. cbn in Hp6. by rewrite Hp6. }
  apply ends_fixed; [apply read_back_fixes|]. intros _ s8 Hf8. apply (brought_up_fixed _ _ _ _ true true _ _ Hf8 ltac:(done)) in Hup7.
  destruct s8 as [[o8 g8] [[p8 f8] n8]]. apply ends_port. intros mac p9 Em. apply ends_obj.
  assert (brought_up base h r s true (set_mac mac o8, g8, (p9, f8, n8))) as Hup9.
  { pose proof (mac_law q p8) as Hl. rewrite Em in Hl. destruct Hl as [Hr9 Hp9]. destruct Hup7 as (Hi & Ht & Hok7). split; [|split].
    - eapply Inv_same; [| | |exact Hi]; [unfold alive; cbn in *; by rewrite Hr9, Hp9|done|by destruct Hi].
    - eapply trail_trans; [exact Ht|]. by apply trail_same.
    - exact Hok7. }
  destruct wait; [|by apply ends_ret]. eapply ends_mono; [apply waitLink_fixes|]. cbn beta. intros ok s10 Hf10.
  by eapply (brought_up_fixed _ _ _ _ true ok _ _ Hf10).
Qed.

Lemma ends_do_port {A} (f : P -> P) (k : unit -> M S A) (Q : A -> S -> Prop) og p g n : ends (k tt) Q (og, (f p, g, n)) -> ends (do_port f ≫= k) Q (og, (p, g, n)).
Proof. done. Qed.

Lemma free_fixes m : fixes (fun s => (alive s, marks s)) (do_port (F := F) (N := N) (rte_pktmbuf_free m)).
Proof. apply fixes_do_port. intros. apply free_port_law. Qed.

Lemma obj_fixes (f : Dpdk -> Dpdk) : (forall o, port (f o) = port o /\ m_pci (names (f o)) = m_pci (names o)) -> fixes (fun s => (alive s, marks s)) (on_obj (P := P) (F := F) (N := N) f).
Proof. intros Hf. apply fixes_upd. intros [o g] w. destruct (Hf o) as [H1 H2]. unfold marks. cbn. by rewrite H1, H2. Qed.

Lemma dpdk_shutdown_ends base h r s : Inv base h r s ->
  ends (shutdown c) (fun _ s' => Inv base h r s' /\ trail s s' /\ pools (the_port s') = pools (the_port s) /\ m_started (port (the_obj s')) = false) s.
Proof.
  intros Hi. destruct s as [[o g] [[p f] n]]. unfold shutdown, obj. apply ends_gets. cbn [fst]. set (s := ((o, g), (p, f, n)) : S) in *.
  destruct (m_started (port o)) eqn:Hst; cbn [negb]; [|by apply ends_ret; split_and!]. destruct Hi as [Hu Hb Hr Hs Ho]. cbn in Hr, Hs. rewrite Hst in Hr, Hs.
  destruct (Hs eq_refl) as (Hpr & Hq & Hnb & Hin). set (q := m_port (port o)) in *.
  apply ends_fixed; [apply fixes_do_port; intros; apply stats_law|]. intros _ s1 H1.
  apply ends_fixed. { destruct (_ =? 0); [done|]. apply fixes_bind; [apply free_fixes|intros _]. by apply obj_fixes. } intros _ s2 H2. rewrite H1 in H2.
  destruct s2 as [[o2 g2] [[p2 f2] n2]]. unfold alive, marks in H2. cbn in H2. injection H2 as Hr2 Hp2 Hf2 Hn2 Hpo2 Hpc2 He2.
  apply ends_do_port. destruct (stop_law q p2) as [Hr3 Hp3]. set (p3 := rte_eth_dev_stop q p2) in *.
  apply ends_fixed. { destruct (_ && _); [|done]. apply fixes_bind; [apply fixes_do_port; intros; apply refcnt_port_law|intros _]. apply fixes_bind; [apply free_fixes|intros _]. by apply obj_fixes. }
  intros _ s4 H4. destruct s4 as [[o4 g4] [[p4 f4] n4]]. unfold alive, marks in H4. cbn in H4. injection H4 as Hr4 Hp4 Hf4 Hn4 Hpo4 Hpc4 He4.
  unfold ends. cbn. unfold the_port, the_obj in *. cbn in *.
  assert (pools p4 = pools p) as Hpl by congruence. split; [|split; [|done]].
  - unfold the_eal, the_files, the_net in *. cbn in *. split; cbn; try done.
    + unfold the_eal. cbn. by rewrite He4, He2.
    + intros y Hy. rewrite Hpl. by apply Hb.
    + rewrite Hr4, Hr3, Hr2, Hr. assert (q ∉ base) by done. set_solver.
    + unfold the_files, the_net. cbn. by rewrite Hf4, Hn4, Hf2, Hn2.
  - apply trail_same; cbn; [done|by rewrite Hpo4, Hpo2|by rewrite Hpc4, Hpc2].
Qed.
End Lifecycle.

(** ** Any sequence of calls *)

Inductive call :=
  | Prepare (bifurcated afxdpPMD : bool) | Init' (doWaitLink bifurcated afxdpPMD applyDeferral : bool) | WaitLink | Shutdown
  | SetLinkSpeeds (x : Z) | SetSymmetricQueues (b : bool) | SetNbRxDesc (n : Z) | SetDevargs (s : string) | SetTxInlineReuse (b : bool).

Section Calls.
Context {P F N : Type} {PS : PortSys P} {ES : EalSys P} {DL : DpdkLib P} {FS : FileSys F} {BR : Bar F} {NS : NlSys N} (c : config).
Abbreviation S := ((Dpdk * Process) * (P * F * N))%type.

Definition do_call (x : call) : M S bool :=
  match x with
  | Prepare b a => prepare b a
  | Init' w b a d => init c w b a d
  | WaitLink => waitLink
  | Shutdown => shutdown c ;; mret true
  | SetLinkSpeeds x => on_obj (setLinkSpeeds x) ;; mret true
  | SetSymmetricQueues b => on_obj (setSymmetricQueues b) ;; mret true
  | SetNbRxDesc n => on_obj (setNbRxDesc n) ;; mret true
  | SetDevargs s => on_obj (setDevargs s) ;; mret true
  | SetTxInlineReuse b => on_obj (setTxInlineReuse b) ;; mret true
  end.

Fixpoint do_calls (xs : list call) : M S (list bool) :=
  match xs with
  | [] => mret []
  | x :: xs => ok ← do_call x; oks ← do_calls xs; mret (ok :: oks)
  end.

Context {PL : PortLaws P} {EL : EalLaws P} {FL : FileLaws F} {NR : NapiConfig.Resources N} {NL : NlSysLaws N}.

Lemma call_ends base h r x s : Inv base h r s -> ends (do_call x) (fun _ s' => Inv base h r s' /\ trail s s') s.
Proof.
  intros Hi. assert (forall f, (forall o, port (f o) = port o /\ m_pci (names (f o)) = m_pci (names o)) -> ends (on_obj f ;; mret true) (fun _ s' => Inv base h r s' /\ trail s s') s) as Hset.
  { intros f Hf. apply ends_fixed; [by apply obj_fixes|]. intros _ s' Hs. apply ends_ret. split; [by eapply Inv_fixed|].
    unfold alive, marks in Hs. injection Hs as _ Hp _ _ Hpo Hpc _. apply trail_same; [done|by rewrite Hpo|done]. }
  destruct x; cbn [do_call]; try by apply Hset.
  - eapply ends_mono; [apply prepare_ends, (i_unique _ _ _ _ Hi)|]. cbn beta. intros ok s' [Hp _]. split; [by eapply prepared_Inv|]. destruct Hp as (Ha & _ & _ & _ & Hp).
    unfold alive in Ha. injection Ha as _ Hpl _ _. split; [by rewrite Hpl|done].
  - eapply ends_mono; [by apply dpdk_init_ends|]. intros ok s' (H1 & H2 & _). done.
  - eapply ends_mono; [apply waitLink_fixes|]. cbn beta. intros ok s' Hs. split; [by eapply Inv_fixed|].
    unfold alive, marks in Hs. injection Hs as _ Hp _ _ Hpo Hpc _. apply trail_same; [done|by rewrite Hpo|done].
  - apply ends_bind. eapply ends_mono; [by apply dpdk_shutdown_ends|]. cbn beta. intros _ s' (H1 & H2 & _). by apply ends_ret.
Qed.

Lemma calls_ends base h r xs s : Inv base h r s -> ends (do_calls xs) (fun _ s' => Inv base h r s' /\ trail s s') s.
Proof.
  revert s; induction xs as [|x xs IH]; intros s Hi; cbn [do_calls]; [apply ends_ret; split; [done|by apply trail_same]|].
  apply ends_bind. eapply ends_mono; [by apply call_ends|]. cbn beta. intros ok s1 [Hi1 Ht1]. apply ends_bind. eapply ends_mono; [by apply IH|]. cbn beta. intros oks s2 [Hi2 Ht2].
  apply ends_ret. split; [done|by eapply trail_trans].
Qed.
End Calls.


(** C37: A DPDK transport cannot be brought up twice: after an [init] that succeeded and a
    [shutdown], which keeps the pool of buffers, every further [init] comes back with false. *)
Theorem dpdk_reinit_refused {P F N} {PS : PortSys P} {ES : EalSys P} {DL : DpdkLib P} {FS : FileSys F} {BR : Bar F} {NS : NlSys N}
    {PL : PortLaws P} {EL : EalLaws P} {FL : FileLaws F} {NR : NapiConfig.Resources N} {NL : NlSysLaws N}
    c base h r w b a d w' b' a' d' (s s1 : (Dpdk * Process) * (P * F * N)) :
  Inv base h r s -> init c w b a d s = (Done true, s1) ->
  exists s2 s3, shutdown c s1 = (Done tt, s2) /\ init c w' b' a' d' s2 = (Done false, s3) /\ m_started (port (the_obj s3)) = false.
Proof.
  intros Hi E. pose proof (dpdk_init_ends c base h r w b a d s Hi) as H1. unfold ends in H1. rewrite E in H1. destruct H1 as (Hi1 & _ & Hok & _).
  pose proof (Hok eq_refl) as Hst. destruct (i_started _ _ _ _ Hi1 Hst) as (Hpr & Hq & _ & Hin).
  pose proof (dpdk_shutdown_ends c _ _ _ s1 Hi1) as H2. unfold ends in H2. destruct (shutdown c s1) as [[[]| | | |] s2] eqn:E2; try done. destruct H2 as (Hi2 & [_ Ht2] & Hp2 & Hst2).
  destruct (Ht2 Hpr) as [Hpr2 Hpc2]. pose proof (dpdk_init_ends c base h r w' b' a' d' s2 Hi2) as H3. unfold ends in H3. destruct (init c w' b' a' d' s2) as [[ok| | | |] s3] eqn:E3; try done.
  destruct H3 as (Hi3 & [_ Ht3] & Hok3 & Hn3). destruct (Ht3 Hpr2) as [Hpr3 Hpc3]. exists s2, s3. split; [done|].
  assert (m_started (port (the_obj s3)) = false) as Hst3.
  { destruct (m_started (port (the_obj s3))) eqn:Hs3; [|done]. destruct (Hn3 eq_refl) as [Ht|Hn]; [congruence|]. destruct Hn. rewrite Hp2, Hpc3, Hpc2, <- Hq. done. }
  destruct ok; [|done]. pose proof (Hok3 eq_refl). congruence.
Qed.

(** ** Waiting for the link *)

(** [clock]: microseconds spent in delays. *)
Class PortClock (P : Type) `{PortSys P} := {
  clock : P -> Z;
  link_clock q p : clock (snd (rte_eth_link_get_nowait q p)) = clock p;
  link_up_clock q p : clock (snd (rte_eth_dev_set_link_up q p)) = clock p;
  delay_clock n p : clock (rte_delay_us_block n p) = clock p + n;
}.

Section Wait.
Context {P F N : Type} {PS : PortSys P} {PC : PortClock P}.
Abbreviation S := ((Dpdk * Process) * (P * F * N))%type.

Lemma retry_run q i og (p : P) (f : F) (w : N) : exists p', clock p' = clock p + 100000 /\ retry_link q i (og, (p, f, w)) = (Done None, (og, (p', f, w))).
Proof.
  unfold retry_link, mbind, M_bind, on_port, sys, do_port, act. destruct (_ || _); cbn [fst snd].
  - pose proof (link_up_clock q p) as Hu. destruct (rte_eth_dev_set_link_up q p) as [e p1]. cbn [fst snd] in *. eexists. split; [|done]. cbn [fst snd]. rewrite delay_clock. lia.
  - eexists. split; [|done]. cbn. rewrite delay_clock. lia.
Qed.

Lemma poll_link_run q k0 i og (p : P) (f : F) (w : N) :
  exists r p' k, poll k0 i (poll_link q) (og, (p, f, w)) = (Done r, (og, (p', f, w))) /\ 0 <= k <= Z.of_nat k0 /\ clock p' = clock p + 100000 * k /\
    match r with Some _ => exists p0 speed, rte_eth_link_get_nowait q p0 = (Some (true, speed), p') | None => k = Z.of_nat k0 end.
Proof.
  revert i p; induction k0 as [|k0 IH]; intros i p; cbn [poll]; [by exists None, p, 0; rewrite Z.add_0_r|].
  pose proof (link_clock q p) as Hc. destruct (rte_eth_link_get_nowait q p) as [l p1] eqn:El. cbn [snd] in Hc.
  assert ((exists sp, l = Some (true, sp)) \/ poll_link q i (og, (p, f, w)) = retry_link q i (og, (p1, f, w))) as [[sp ->]|E].
  { unfold poll_link, mbind, M_bind, on_port, sys. cbn [fst snd]. rewrite El. destruct l as [[[] sp]|]; [left; by exists sp|by right..]. }
  - exists (Some tt), p1, 0. split; [|split; [lia|]; split; [lia|]; by eexists p, sp].
    unfold poll_link, mbind, M_bind, on_port, sys. cbn [fst snd]. by rewrite El.
  - destruct (retry_run q i og p1 f w) as (p2 & Hc2 & Er). rewrite Er in E. rewrite (run_bind _ _ _ _ _ E).
    destruct (IH (i + 1) p2) as (r & p' & k & Ek & Hk & Hck & Hr). exists r, p', (k + 1). split; [exact Ek|]. split; [lia|]. split; [lia|]. destruct r; [done|lia].
Qed.
End Wait.

(** Waiting for the link always ends with true, after [k] delays of 100 ms, at most 200;
    and if it ends before 20 seconds, a query has answered that the link is up. *)
Theorem dpdk_waitLink_bounded {P F N} {PS : PortSys P} {PC : PortClock P} o pr (p : P) (f : F) (n : N) :
  exists p' k, waitLink ((o, pr), (p, f, n)) = (Done true, ((o, pr), (p', f, n))) /\ 0 <= k <= 200 /\ clock p' = clock p + 100000 * k /\
    (k < 200 -> exists p0 speed, rte_eth_link_get_nowait (m_port (port o)) p0 = (Some (true, speed), p')).
Proof.
  destruct (poll_link_run (m_port (port o)) 200 0 (o, pr) p f n) as (r & p' & k & E & Hk & Hc & Hr). exists p', k.
  split. { unfold waitLink, obj. rewrite run_gets. cbn [fst]. by rewrite (run_bind _ _ _ _ _ E). }
  split; [lia|]. split; [done|]. intros Hlt. destruct r; [done|lia].
Qed.

(** ** A simulated port: the link comes up after [link_in] queries. *)
Module Sim.
Record ports := mk_ports { s_run : gset Z; s_pools : gset string; s_clock : Z; s_link : Z; s_eal : DPDKEal.Sim.machine }.
Definition on_run (f : gset Z -> gset Z) (p : ports) := mk_ports (f (s_run p)) (s_pools p) (s_clock p) (s_link p) (s_eal p).
Definition on_clock (n : Z) (p : ports) := mk_ports (s_run p) (s_pools p) (s_clock p + n) (s_link p) (s_eal p).
Definition on_link (n : Z) (p : ports) := mk_ports (s_run p) (s_pools p) (s_clock p) n (s_eal p).
Definition with_eal (e : DPDKEal.Sim.machine) (p : ports) := mk_ports (s_run p) (s_pools p) (s_clock p) (s_link p) e.
Definition number_of (n : string) : Z := if String.eqb n "0000:01:00.0" then 0 else 1.

#[export] Instance ports_sys : PortSys ports := {|
  rte_eth_dev_get_port_by_name n p := (Some (number_of n), p);
  rte_eth_dev_info_get _ p := (Some true, p);
  rte_eth_dev_socket_id _ p := (-1, p);
  rte_socket_id _ := 0;
  rte_pktmbuf_pool_create n _ _ _ _ p :=
    if decide (n ∈ s_pools p) then (0, p) else (1 + Z.of_nat (size (s_pools p)), mk_ports (s_run p) ({[n]} ∪ s_pools p) (s_clock p) (s_link p) (s_eal p));
  rte_eth_dev_configure _ _ _ _ _ p := (0, p);
  rte_eth_dev_adjust_nb_rx_tx_desc _ a b p := ((0, (a, b)), p);
  rte_eth_rx_queue_setup _ _ _ _ _ p := (0, p);
  rte_eth_tx_queue_setup _ _ _ _ _ p := (0, p);
  rte_eth_dev_start q p := (0, on_run (union {[q]}) p);
  rte_eth_dev_stop q := on_run (fun r => r ∖ {[q]});
  rte_eth_macaddr_get _ p := ([2; 0; 0; 0; 0; 1], p);
  rte_eth_link_get_nowait _ p := (Some (s_link p <=? 0, 10000), on_link (s_link p - 1) p);
  rte_eth_dev_set_link_up _ p := (- ENOTSUP, p);
  rte_eth_stats_get _ p := p;
  rte_delay_us_block n := on_clock n |}.

#[export] Instance ports_eal : EalSys ports := {|
  rte_eal_init a p := let '(rc, e) := @rte_eal_init _ DPDKEal.Sim.eal_sys a (s_eal p) in (rc, with_eal e p);
  pthread_getaffinity p := (Some (DPDKEal.Sim.cpus (s_eal p)), p);
  pthread_setaffinity c p := with_eal (@pthread_setaffinity _ DPDKEal.Sim.eal_sys c (s_eal p)) p |}.

#[export] Instance ports_lib : DpdkLib ports := {|
  rte_eth_rx_burst _ _ _ p := ([], p); rte_eth_tx_burst _ _ _ p := (0, p); rte_pktmbuf_alloc _ p := (0, p); rte_pktmbuf_free _ p := p;
  rte_mbuf_refcnt_set _ _ p := p; rte_mbuf_refcnt_read _ _ := 0; rte_mbuf_refcnt_update _ _ p := p; mtod m := m; data _ _ := [];
  set_data _ _ p := p; pkt_len _ _ := 0; set_lens _ _ _ p := p |}.

#[local] Obligation Tactic := idtac.
#[export] Program Instance ports_laws : PortLaws ports := {| running := s_run; pools := s_pools; number := number_of |}.
Solve Obligations with intros; by split.
Next Obligation. intros n p. cbn. split; [done|]. split; [done|]. by intros q [= <-]. Qed.
Next Obligation.
  intros n k a d s p. cbn. case_decide as Hd; [split; [done|by left]|]. split; [done|]. right. split; [lia|by split].
Qed.
Next Obligation. intros a p. cbn. destruct (0 <? _); by split. Qed.

#[export] Program Instance ports_eal_laws : EalLaws ports := {| started p := Z.of_nat (length (DPDKEal.Sim.starts (s_eal p))); affinity p := DPDKEal.Sim.cpus (s_eal p) |}.
Solve Obligations with done.
Next Obligation. intros args p. pose proof (@init_law _ DPDKEal.Sim.eal_sys DPDKEal.Sim.eal_laws args (s_eal p)) as Hl. cbn in *. by destruct (0 <? _). Qed.
Next Obligation. intros p. split; [done|]. by intros s [= <-]. Qed.

#[export] Program Instance ports_clock : PortClock ports := {| clock := s_clock |}.
Solve Obligations with done.
End Sim.
Import Sim.

Definition ex_config : config := mk_config RxTx 0 256 256 32 8191 2048.
Definition ex_ports : ports := mk_ports {[7]} {[pool_name 7]} 0 3 (DPDKEal.Sim.mk_machine 0 [] {[3]}).
Definition ex_process : Process := mk_process (mk_eal [] [] false) [].
Definition ex_calls : list call :=
  [SetDevargs "txqs_min_inline=0"; SetTxInlineReuse true; Init' true true false false; Init' true true false false; Shutdown; Init' true true false false].

Lemma ex_base : unique (p_eal ex_process) /\ forall q, q ∈ running ex_ports -> pool_name q ∈ pools ex_ports.
Proof. split; [split; constructor|]. intros q Hq. cbn in *. apply elem_of_singleton in Hq as ->. by apply elem_of_singleton. Qed.

Lemma ex_run : fst (do_calls (F := pmachine) ex_config ex_calls ((construct ex_config "enp59s0f1" 3 "mlx5_core", ex_process), (ex_ports, sim_port "", sim_idle))) = Done [true; true; true; false; true; false].
Proof. vm_compute. reflexivity. Qed.


Definition ex_start : (Dpdk * Process) * (ports * pmachine * sim_machine) := ((construct ex_config "enp59s0f1" 3 "mlx5_core", ex_process), (ex_ports, sim_port "", sim_idle)).
Definition ex_up : (Dpdk * Process) * (ports * pmachine * sim_machine) := snd (init ex_config true true false false ex_start).

Lemma ex_up_ok : init ex_config true true false false ex_start = (Done true, ex_up).
Proof. vm_compute. reflexivity. Qed.

Lemma ex_inv : Inv (running ex_ports) {[(kFd, 7)]} {[desc 2]} ex_start.
Proof. split; try done; [exact (proj1 ex_base)|exact (proj2 ex_base)]. Qed.

Lemma dpdk_reinit_refused_witness : exists s2 s3, shutdown ex_config ex_up = (Done tt, s2) /\ init ex_config false true false false s2 = (Done false, s3) /\ m_started (port (the_obj s3)) = false.
Proof. exact (dpdk_reinit_refused ex_config _ _ _ true true false false false true false false ex_start ex_up ex_inv ex_up_ok). Defined.

Lemma dpdk_waitLink_bounded_witness : exists p' k, waitLink ((construct ex_config "enp59s0f1" 3 "mlx5_core", ex_process), (ex_ports, tt, tt)) =
    (Done true, ((construct ex_config "enp59s0f1" 3 "mlx5_core", ex_process), (p', tt, tt))) /\ 0 <= k <= 200 /\ clock p' = clock ex_ports + 100000 * k.
Proof.
  destruct (dpdk_waitLink_bounded (construct ex_config "enp59s0f1" 3 "mlx5_core") ex_process ex_ports tt tt) as (p' & k & E & Hk & Hc & _).
  exists p', k. split; [exact E|]. by split.
Defined.
