(* ===== verification/NicTuner.v ===== *)
(** * The NIC tuner (src/backends/common/NicTuner.hpp, NicTuner.cpp)

    What the constructor does to the machine, over the file interface and the calls of
    [TunerSys], the read-back of [setCoalescingZero], and the destructor.  The theorems: all of it ends and
    leaves at most the one socket the object names; the answer of the read-back is the state
    of the NIC; the interrupts are split between the core and the others. *)

From Stdlib Require Import Ascii.
From S2P Require Import Prelude CStrings Files.
Open Scope string_scope.
Open Scope Z_scope.

Inductive NicTunerMode := Off | NfsSafe | Full.
#[global] Instance NicTunerMode_eq_dec : EqDecision NicTunerMode.
Proof. solve_decision. Defined.
Inductive policy := SCHED_FIFO | SCHED_RR.
Inductive offload := GRO | GSO | TSO.

(** [ethtool_coalesce]: the fields the code looks at, and the others. *)
Record ethtool_coalesce := mk_coalesce {
  use_adaptive_rx_coalesce : Z; use_adaptive_tx_coalesce : Z; rx_coalesce_usecs : Z; tx_coalesce_usecs : Z; other_fields : list Z }.

Class TunerSys (W : Type) := {
  socket_dgram : W -> Z * W;
  ethtool_get_offload : Z -> string -> offload -> W -> option Z * W;
  ethtool_set_offload : Z -> string -> offload -> Z -> W -> bool * W;
  ethtool_get_coalesce : Z -> string -> W -> option ethtool_coalesce * W;
  ethtool_set_coalesce : Z -> string -> ethtool_coalesce -> W -> bool * W;
  sched_setaffinity : Z -> gset Z -> W -> Z * W;
  sched_setscheduler : Z -> policy -> Z -> W -> Z * W;
  nprocs : W -> Z;
}.

(** ** Text *)

(** [snprintf] into a buffer of [n] characters. *)
Definition fit (n : nat) (s : string) : string := String.substring 0 (n - 1) s.

Definition starts_with_digit (s : string) : bool := match s with String c _ => match digit c with Some _ => true | None => false end | "" => false end.

(** The characters of a buffer up to its NUL. *)
Fixpoint c_string (s : string) : string :=
  match s with
  | "" => ""
  | String c s => if Ascii.eqb c "000" then "" else String c (c_string s)
  end.

Fixpoint strip_newline (s : string) : string :=
  match s with
  | "" => ""
  | String c "" => if Ascii.eqb c "010" then "" else s
  | String c s => String c (strip_newline s)
  end.

(** [strstr(line, iface) != nullptr] *)
Fixpoint contains (sub s : string) : bool :=
  String.prefix sub s || match s with "" => false | String _ s => contains sub s end.

(** What follows the last [)], if there is one. *)
Fixpoint after_paren (s : string) : option string :=
  match s with
  | "" => None
  | String c s =>
      match after_paren s with
      | Some r => Some r
      | None => if Ascii.eqb c ")" then Some s else None
      end
  end.

(** [sscanf(s, "%*c %d", &ppid) == 1] *)
Definition scan_ppid (s : string) : option Z :=
  match s with
  | "" => None
  | String _ s => match strtol10 s with Some (v, _) => Some (sint 32 v) | None => None end
  end.

Section Operations.
Context {W : Type} {FS : FileSys W} {TS : TunerSys W} (fuel : nat).

Definition writeFile (path value : string) : M W bool :=
  fd ← lift (open_fd O_WRONLY_TRUNC path);
  if fd <? 0 then mret false else
  n ← lift (write_fd fd value);
  modify (close_fd fd) ;;
  mret (0 <? n).

Definition writeInt (path : string) (value : Z) : M W bool := writeFile path (fit 32 (dec value)).

Definition readFile (path : string) : M W string :=
  fd ← lift (open_fd O_RDONLY path);
  if fd <? 0 then mret "" else
  r ← lift (read_fd fd 255);
  modify (close_fd fd) ;;
  mret (match r with Some s => c_string (strip_newline s) | None => "" end).

(** [while (auto* entry = readdir(dir)) ...]; the body may end the loop with an answer. *)
Fixpoint each_entry {A} (n : nat) (d : Z) (body : string -> M W (option A)) : M W (option A) :=
  match n with
  | O => raise NoFuel
  | S n =>
      e ← lift (readdir d);
      match e with
      | None => mret None
      | Some name => r ← body name; match r with Some a => mret (Some a) | None => each_entry n d body end
      end
  end.

Definition over_directory {A} (path : string) (body : string -> M W (option A)) : M W (option A) :=
  d ← lift (opendir path);
  if d =? 0 then mret None else
  r ← each_entry fuel d body;
  modify (closedir d) ;;
  mret r.

Definition findPidByComm (name : string) : M W Z :=
  r ← over_directory "/proc" (fun e =>
    if negb (starts_with_digit e) then mret None else
    comm ← readFile (fit 64 ("/proc/" ++ e ++ "/comm"));
    mret (if String.eqb comm name then Some (atoi e) else None));
  mret (default (-1) r).

(** [while (fgets(line, sizeof(line), f))] *)
Fixpoint read_irqs (n : nat) (f : Z) (iface : string) (irqs : list Z) : M W (list Z) :=
  match n with
  | O => raise NoFuel
  | S n =>
      l ← lift (fgets f 511);
      match l with
      | None => mret irqs
      | Some line => read_irqs n f iface (if contains iface line && (0 <? atoi line) then (irqs ++ [atoi line])%list else irqs)
      end
  end.

Definition findNicIrqs (iface : string) : M W (list Z) :=
  f ← lift (fopen "/proc/interrupts");
  if f =? 0 then mret [] else
  irqs ← read_irqs fuel f iface [];
  modify (fclose f) ;;
  mret irqs.

(** The parent of the process whose /proc entry is [e]. *)
Definition read_ppid (e : string) : M W (option Z) :=
  stat ← readFile (fit 64 ("/proc/" ++ e ++ "/stat"));
  match after_paren stat with
  | None => mret None
  | Some "" => raise Undef
  | Some (String _ s) => mret (scan_ppid s)
  end.

Definition findSshdMasterPid : M W Z :=
  r ← over_directory "/proc" (fun e =>
    if negb (starts_with_digit e) then mret None else
    if atoi e <=? 1 then mret None else
    comm ← readFile (fit 64 ("/proc/" ++ e ++ "/comm"));
    if negb (String.eqb comm "sshd") then mret None else
    ppid ← read_ppid e;
    mret (match ppid with Some p => if p =? 1 then Some (atoi e) else None | None => None end));
  mret (default (-1) r).

Definition cpuListExcluding (nproc core : Z) : string :=
  foldl (fun result i => if i =? core then result else (if String.eqb result "" then "" else result ++ ",") ++ dec i) "" (seqZ 0 nproc).

Definition migrateKernelThreads : M W unit :=
  _ ← over_directory "/proc" (fun e =>
    if negb (starts_with_digit e) then mret None else
    if atoi e <=? 2 then mret None else
    ppid ← read_ppid (dec (atoi e));
    (match ppid with Some p => if p =? 2 then _ ← lift (sched_setaffinity (atoi e) {[0]}); mret tt else mret tt | None => mret tt end) ;;
    mret (None : option unit));
  mret tt.

Definition starts_with_dot (s : string) : bool := match s with String c _ => Ascii.eqb c "." | "" => false end.

Definition migrateWorkqueues : M W unit :=
  _ ← over_directory "/sys/devices/virtual/workqueue" (fun e =>
    if starts_with_dot e then mret None else
    _ ← writeFile (fit 256 ("/sys/devices/virtual/workqueue/" ++ e ++ "/cpumask")) "1";
    mret (None : option unit));
  mret tt.

Definition disable (fd : Z) (interface : string) (x : offload) : M W unit :=
  v ← lift (ethtool_get_offload fd interface x);
  match v with
  | Some v => if v =? 0 then mret tt else _ ← lift (ethtool_set_offload fd interface x 0); mret tt
  | None => mret tt
  end.

Definition irq_path (irq : Z) : string := fit 128 ("/proc/irq/" ++ dec irq ++ "/smp_affinity_list").

(** NIC interrupts to the core, all others off it. *)
Definition pin_irqs (interface : string) (cpuCore : Z) : M W unit :=
  nicIrqs ← findNicIrqs interface;
  for_each nicIrqs (fun irq => _ ← writeFile (irq_path irq) (fit 8 (dec cpuCore)); mret tt) ;;
  n ← gets nprocs;
  let mask := cpuListExcluding n cpuCore in
  _ ← over_directory "/proc/irq" (fun e =>
    if negb (starts_with_digit e) then mret None else
    if (atoi e =? 0) || bool_decide (atoi e ∈ nicIrqs) then mret None else
    _ ← writeFile (irq_path (atoi e)) mask;
    mret (None : option unit));
  mret tt.

Definition boost_ksoftirqd (cpuCore : Z) : M W unit :=
  kpid ← findPidByComm (fit 32 ("ksoftirqd/" ++ dec cpuCore));
  if 0 <? kpid then _ ← lift (sched_setscheduler kpid SCHED_FIFO 50); mret tt else mret tt.

Definition boost_sshd : M W unit :=
  pid ← findSshdMasterPid;
  if 0 <? pid then _ ← lift (sched_setscheduler pid SCHED_RR 1); mret tt else mret tt.

(** The constructor; the answer is [m_ethtoolFd]. *)
Definition nicTuner (interface : string) (cpuCore : Z) (mode : NicTunerMode) : M W Z :=
  match mode with
  | Off => mret (-1)
  | _ =>
      _ ← lift (system "systemctl stop irqbalance 2>/dev/null");
      migrateKernelThreads ;;
      migrateWorkqueues ;;
      fd ← lift socket_dgram;
      _ ← writeFile (fit 128 ("/sys/devices/system/cpu/cpu" ++ dec cpuCore ++ "/cpufreq/scaling_governor")) "performance";
      _ ← writeFile "/proc/sys/net/core/busy_poll" "50";
      _ ← writeFile "/proc/sys/net/core/busy_read" "50";
      _ ← writeFile "/proc/sys/vm/stat_interval" "120";
      (if fd <? 0 then mret tt else disable fd interface GRO ;; disable fd interface GSO ;; disable fd interface TSO) ;;
      _ ← writeInt "/proc/sys/kernel/sched_rt_runtime_us" (-1);
      boost_ksoftirqd cpuCore ;;
      _ ← lift (system (fit 64 ("tuna --cpus=" ++ dec cpuCore ++ " --isolate 2>/dev/null")));
      _ ← writeInt "/proc/sys/kernel/watchdog" 0;
      pin_irqs interface cpuCore ;;
      (match mode with NfsSafe => boost_sshd | _ => mret tt end) ;;
      mret fd
  end.

Definition nicTuner_dtor (m_ethtoolFd : Z) : M W unit := if m_ethtoolFd <? 0 then mret tt else modify (close_fd m_ethtoolFd).

Definition coalescing_off (c : ethtool_coalesce) : bool :=
  (use_adaptive_rx_coalesce c =? 0) && (use_adaptive_tx_coalesce c =? 0) && (rx_coalesce_usecs c =? 0) && (tx_coalesce_usecs c =? 0).

Definition setCoalescingZero (interface : string) : M W bool :=
  fd ← lift socket_dgram;
  if fd <? 0 then mret false else
  ec ← lift (ethtool_get_coalesce fd interface);
  (match ec with
   | Some ec => _ ← lift (ethtool_set_coalesce fd interface (mk_coalesce 0 0 0 0 (other_fields ec))); mret tt
   | None => mret tt
   end) ;;
  rb ← lift (ethtool_get_coalesce fd interface);
  modify (close_fd fd) ;;
  mret (match rb with Some rb => coalescing_off rb | None => false end).
End Operations.

(** ** What the machine shows

    The entries still to come of each open directory and the lines of each open stream; what
    was written where; which files there are; the entries of /proc/irq, the lines of
    /proc/interrupts as [fgets] cuts them, and the number of cores. *)
Record view := mk_view {
  n_streams : gmap Z (list string); n_lines : gmap Z (list string); n_targets : gmap Z string; n_log : list (string * string);
  n_files : gset string; n_irqs : list string; n_interrupts : list string; n_cpus : Z }.

Definition v_stream (d : Z) (l : list string) (v : view) := mk_view (<[d := l]> (n_streams v)) (n_lines v) (n_targets v) (n_log v) (n_files v) (n_irqs v) (n_interrupts v) (n_cpus v).
Definition v_lines (f : Z) (l : list string) (v : view) := mk_view (n_streams v) (<[f := l]> (n_lines v)) (n_targets v) (n_log v) (n_files v) (n_irqs v) (n_interrupts v) (n_cpus v).
Definition v_target (fd : Z) (p : string) (v : view) := mk_view (n_streams v) (n_lines v) (<[fd := p]> (n_targets v)) (n_log v) (n_files v) (n_irqs v) (n_interrupts v) (n_cpus v).
Definition v_wrote (p s : string) (v : view) := mk_view (n_streams v) (n_lines v) (n_targets v) (n_log v ++ [(p, s)])%list (n_files v) (n_irqs v) (n_interrupts v) (n_cpus v).

(** [depth]: more than any directory or file has entries or lines.  The status of a process
    never ends at the parenthesis that closes its name. *)
Class TunerLaws (depth : nat) (W : Type) `{FileLaws W, TunerSys W} := {
  look : W -> view;
  open_look m p w : let '(fd, w') := open_fd m p w in
    if decide (p ∈ n_files (look w)) then 0 <= fd /\ look w' = v_target fd p (look w) else fd < 0 /\ look w' = look w;
  read_look fd n w : look (snd (read_fd fd n w)) = look w;
  write_look fd s w : look (snd (write_fd fd s w)) = v_wrote (default "" (n_targets (look w) !! fd)) s (look w);
  close_look fd w : look (close_fd fd w) = look w;
  opendir_look p w : let '(d, w') := opendir p w in
    if d =? 0 then look w' = look w else exists l, (length l < depth)%nat /\ (p = "/proc/irq" -> l = n_irqs (look w)) /\ look w' = v_stream d l (look w);
  readdir_look d w : let '(e, w') := readdir d w in
    match n_streams (look w) !! d with
    | Some (x :: l) => e = Some x /\ look w' = v_stream d l (look w)
    | _ => e = None /\ look w' = look w
    end;
  closedir_look d w : look (closedir d w) = look w;
  fopen_look p w : let '(f, w') := fopen p w in
    if f =? 0 then look w' = look w else exists l, (length l < depth)%nat /\ (p = "/proc/interrupts" -> l = n_interrupts (look w)) /\ look w' = v_lines f l (look w);
  fgets_look f n w : let '(e, w') := fgets f n w in
    match n_lines (look w) !! f with
    | Some (x :: l) => e = Some x /\ look w' = v_lines f l (look w)
    | _ => e = None /\ look w' = look w
    end;
  fclose_look f w : look (fclose f w) = look w;
  system_look c w : look (snd (system c w)) = look w;
  socket_look w : look (snd (socket_dgram w)) = look w /\ opened kFd (fst (socket_dgram w)) (0 <=? fst (socket_dgram w)) (handles w) (handles (snd (socket_dgram w)));
  get_offload_look fd i x w : let w' := snd (ethtool_get_offload fd i x w) in look w' = look w /\ handles w' = handles w;
  set_offload_look fd i x v w : let w' := snd (ethtool_set_offload fd i x v w) in look w' = look w /\ handles w' = handles w;
  affinity_look p s w : let w' := snd (sched_setaffinity p s w) in look w' = look w /\ handles w' = handles w;
  scheduler_look p q n w : let w' := snd (sched_setscheduler p q n w) in look w' = look w /\ handles w' = handles w;
  nprocs_look w : nprocs w = n_cpus (look w);
  stat_law e w : let '(fd, w') := open_fd O_RDONLY (fit 64 ("/proc/" ++ e ++ "/stat")) w in
    forall s, fst (read_fd fd 255 w') = Some s -> after_paren (c_string (strip_newline s)) <> Some "";
}.

(** ** The list of the other cores *)

Fixpoint joined (l : list string) : string := match l with [] => "" | [s] => s | s :: l => s ++ "," ++ joined l end.

Lemma string_app_assoc (a b c : string) : (a ++ b) ++ c = a ++ b ++ c.
Proof. induction a as [|x a IH]; [done|]. change (String x ((a ++ b) ++ c) = String x (a ++ b ++ c)). by rewrite IH. Qed.

Lemma dec_nonempty x : 0 <= x -> dec x <> "".
Proof. intros Hx. by destruct (dec_first x Hx) as (d & s & _ & ->). Qed.

Lemma joined_snoc l s : l <> [] -> joined (l ++ [s]) = joined l ++ "," ++ s.
Proof.
  induction l as [|a l IH]; [done|]. intros _. destruct l as [|b l]; [done|]. change (joined ((a :: b :: l) ++ [s])) with (a ++ "," ++ joined ((b :: l) ++ [s])).
  rewrite IH by done. change (joined (a :: b :: l)) with (a ++ "," ++ joined (b :: l)). by rewrite !string_app_assoc.
Qed.

Lemma joined_nonempty l : Forall (fun s => s <> "") l -> l <> [] -> joined l <> "".
Proof. intros Hl Hn. destruct Hl as [|s l Hs _]; [done|]. destruct s; [done|]. by destruct l. Qed.

(** Every core but the one, in order. *)
Lemma cpuList_spec n core : cpuListExcluding n core = joined (dec <$> filter (fun i => i <> core) (seqZ 0 n)).
Proof.
  unfold cpuListExcluding. destruct (Z_lt_le_dec n 0) as [Hn|Hn]; [rewrite seqZ_nil by lia; done|].
  rewrite <- (Z2Nat.id n) by done. induction (Z.to_nat n) as [|k IH]; [done|]. rewrite Nat2Z.inj_succ, <- Z.add_1_r.
  rewrite seqZ_app by lia. rewrite foldl_app, IH, list.filter_app, fmap_app, Z.add_0_l. change (seqZ (Z.of_nat k) 1) with [0 + Z.of_nat k]. rewrite Z.add_0_l. cbn [foldl].
  destruct (Z.eqb_spec (Z.of_nat k) core) as [He|He].
  - rewrite filter_cons_False by auto. cbn. by rewrite app_nil_r.
  - rewrite filter_cons_True by done. rewrite filter_nil. cbn [fmap list_fmap].
    destruct (decide ((dec <$> filter (fun i => i <> core) (seqZ 0 (Z.of_nat k))) = [])) as [->|Hne]; [done|].
    rewrite joined_snoc by done. destruct (String.eqb_spec (joined (dec <$> filter (fun i => i <> core) (seqZ 0 (Z.of_nat k)))) "") as [Hj|Hj].
    + exfalso. eapply joined_nonempty; [|exact Hne|exact Hj]. apply list.Forall_forall. intros x Hx. apply list_elem_of_fmap in Hx as (i & -> & Hi).
      apply list_elem_of_filter in Hi as [_ Hi]. apply elem_of_seqZ in Hi. apply dec_nonempty. lia.
    + by rewrite string_app_assoc.
Qed.

Lemma opened_close (k h : Z) (r r' : gset (Z * Z)) : opened k h true r r' -> r' ∖ {[(k, h)]} = r.
Proof. intros [Hn ->]. set_solver. Qed.

Section Runs.
Context {W : Type} {FS : FileSys W} {FL : FileLaws W} {TS : TunerSys W} (depth fuel : nat) {TL : TunerLaws depth W} (enough : (depth <= fuel)%nat).

Definition open_view (w : W) := (n_streams (look w), n_lines (look w)).
Definition still (w w' : W) : Prop :=
  handles w' = handles w /\ n_files (look w') = n_files (look w) /\ n_irqs (look w') = n_irqs (look w) /\ n_interrupts (look w') = n_interrupts (look w) /\
  n_cpus (look w') = n_cpus (look w).

Lemma still_trans w1 w2 w3 : still w1 w2 -> still w2 w3 -> still w1 w3.
Proof. unfold still. intros (-> & -> & -> & -> & ->) (? & ? & ? & ? & ?). done. Qed.

(** What the paths [l] that exist get written. *)
Definition written (w : W) (l : list (string * string)) : list (string * string) := filter (fun x => x.1 ∈ n_files (look w)) l.

Lemma written_still w w' l : still w w' -> written w' l = written w l.
Proof. intros (_ & He & _). unfold written. by rewrite He. Qed.

Lemma written_app w l1 l2 : written w (l1 ++ l2) = (written w l1 ++ written w l2)%list.
Proof. apply list.filter_app. Qed.

(** [m] ends, closes what it opens, and writes [l]; inside a loop over a directory ([calm])
    it leaves the open streams alone. *)
Definition wrote {A} (m : M W A) (l : list (string * string)) (P : A -> Prop) (w : W) : Prop :=
  exists a w', m w = (Done a, w') /\ still w w' /\ P a /\ n_log (look w') = (n_log (look w) ++ written w l)%list.
Definition steady {A} (m : M W A) (w : W) : Prop := exists a w', m w = (Done a, w') /\ still w w'.
Definition calm {A} (m : M W A) : Prop := forall w, exists a w', m w = (Done a, w') /\ still w w' /\ open_view w' = open_view w.

Lemma calm_ret {A} (a : A) : calm (mret a).
Proof. intros w. by exists a, w. Qed.

Lemma calm_bind {A B} (m : M W A) (f : A -> M W B) : calm m -> (forall a, calm (f a)) -> calm (m ≫= f).
Proof.
  intros Hm Hf w. destruct (Hm w) as (a & w1 & E1 & H1 & O1). destruct (Hf a w1) as (b & w2 & E2 & H2 & O2). exists b, w2.
  rewrite (run_bind _ _ _ _ _ E1). split; [done|]. split; [by eapply still_trans|congruence].
Qed.

Lemma calm_if {A} (b : bool) (m n : M W A) : calm m -> calm n -> calm (if b then m else n).
Proof. by destruct b. Qed.

Lemma calm_lift {A} (f : W -> A * W) : (forall w, let w' := snd (f w) in look w' = look w /\ handles w' = handles w) -> calm (lift f).
Proof. intros Hf w. specialize (Hf w). unfold lift. destruct (f w) as [a w']. destruct Hf as [Hl Hh]. exists a, w'. unfold still, open_view. cbn in *. by rewrite Hl, Hh. Qed.

Lemma calm_steady {A} (m : M W A) w : calm m -> steady m w.
Proof. intros Hm. destruct (Hm w) as (a & w' & E & Hs & _). by exists a, w'. Qed.

Lemma steady_bind {A B} (m : M W A) (f : A -> M W B) w : steady m w -> (forall a w', steady (f a) w') -> steady (m ≫= f) w.
Proof.
  intros (a & w1 & E1 & H1) Hf. destruct (Hf a w1) as (b & w2 & E2 & H2). exists b, w2. rewrite (run_bind _ _ _ _ _ E1). split; [done|by eapply still_trans].
Qed.

(** ** Files *)

Lemma writeFile_run p s w : wrote (writeFile p s) [(p, s)] (fun _ => True) w /\ calm (writeFile p s).
Proof.
  assert (forall w, exists ok w', writeFile p s w = (Done ok, w') /\ still w w' /\ open_view w' = open_view w /\ n_log (look w') = (n_log (look w) ++ written w [(p, s)])%list) as H.
  { intros w0. unfold writeFile, mbind, M_bind. unfold lift at 1. pose proof (open_look O_WRONLY_TRUNC p w0) as Hl. pose proof (open_law O_WRONLY_TRUNC p w0) as Ho.
    destruct (open_fd O_WRONLY_TRUNC p w0) as [fd w1]. cbn [fst snd] in *. unfold written. cbn [list_filter filter fst]. case_decide as Hin.
    - destruct Hl as [Hfd Hl]. rewrite (proj2 (Z.ltb_ge _ _)) by done. unfold lift. pose proof (write_look fd s w1) as Hw. pose proof (write_law fd s w1) as Hw2.
      destruct (write_fd fd s w1) as [n w2]. cbn [fst snd] in *. unfold modify. cbn [fst snd]. eexists _, _. split; [done|].
      rewrite (proj2 (Z.leb_le _ _)) in Ho by done. apply opened_close in Ho. unfold still, open_view. rewrite close_look, close_law, Hw, Hl, Hw2, Ho. cbn. rewrite lookup_insert_eq. done.
    - destruct Hl as [Hfd Hl]. rewrite (proj2 (Z.ltb_lt _ _)) by done. rewrite (proj2 (Z.leb_gt _ _)) in Ho by done. cbn in Ho.
      eexists _, w1. split; [done|]. unfold still, open_view. rewrite Hl, Ho, app_nil_r. done. }
  split; [destruct (H w) as (ok & w' & E & Hs & _ & Hlog); by exists ok, w'|]. intros w0. destruct (H w0) as (ok & w' & E & Hs & Ho & _). by exists ok, w'.
Qed.

Lemma writeFile_calm p s : calm (writeFile p s).
Proof. intros w. apply (writeFile_run p s w). Qed.

Lemma readFile_run p w : exists s w', readFile p w = (Done s, w') /\ still w w' /\ open_view w' = open_view w /\
  (s = "" \/ exists r, (let '(fd, w1) := open_fd O_RDONLY p w in fst (read_fd fd 255 w1)) = Some r /\ s = c_string (strip_newline r)).
Proof.
  unfold readFile, mbind, M_bind. unfold lift at 1. pose proof (open_look O_RDONLY p w) as Hl. pose proof (open_law O_RDONLY p w) as Ho.
  destruct (open_fd O_RDONLY p w) as [fd w1]. cbn [fst snd] in *. case_decide as Hin; destruct Hl as [Hfd Hl].
  - rewrite (proj2 (Z.ltb_ge _ _)) by done. unfold lift. pose proof (read_look fd 255 w1) as Hw. pose proof (read_law fd 255 w1) as Hw2.
    destruct (read_fd fd 255 w1) as [r w2]. cbn [fst snd] in *. unfold modify. cbn [fst snd]. eexists _, _. split; [done|].
    rewrite (proj2 (Z.leb_le _ _)) in Ho by done. apply opened_close in Ho. unfold still, open_view. rewrite close_look, close_law, Hw, Hl, Hw2, Ho. cbn.
    do 2 (split; [done|]). destruct r as [r|]; [right; by exists r|by left].
  - rewrite (proj2 (Z.ltb_lt _ _)) by done. rewrite (proj2 (Z.leb_gt _ _)) in Ho by done. cbn in Ho.
    exists "", w1. split; [done|]. unfold still, open_view. rewrite Hl, Ho. do 2 (split; [done|]). by left.
Qed.

Lemma readFile_calm p : calm (readFile p).
Proof. intros w. destruct (readFile_run p w) as (s & w' & E & Hs & Ho & _). by exists s, w'. Qed.

Lemma read_ppid_calm e : calm (read_ppid e).
Proof.
  intros w. unfold read_ppid. destruct (readFile_run (fit 64 ("/proc/" ++ e ++ "/stat")) w) as (s & w' & E & Hs & Ho & Hr). rewrite (run_bind _ _ _ _ _ E).
  assert (after_paren s <> Some "") as Hne.
  { destruct Hr as [->|(r & Hr & ->)]; [done|]. pose proof (stat_law e w) as Hl. destruct (open_fd O_RDONLY _ w) as [fd w1]. by apply Hl. }
  destruct (after_paren s) as [[|c t]|]; [done| |]; by eexists _, w'.
Qed.

(** ** Directories *)

Lemma each_entry_steady {A} n d (body : string -> M W (option A)) l w :
  (forall e, calm (body e)) -> n_streams (look w) !! d = Some l -> (length l < n)%nat -> steady (each_entry n d body) w.
Proof.
  intros Hb. revert l w; induction n as [|n IH]; intros l w Hl Hn; [lia|]. cbn [each_entry]. unfold steady, mbind at 1, M_bind at 1, lift.
  pose proof (readdir_look d w) as Hr. pose proof (readdir_law d w) as [Hh _]. destruct (readdir d w) as [e w1]. cbn [fst snd] in *. rewrite Hl in Hr.
  destruct l as [|x l]; destruct Hr as [-> Hr].
  - exists None, w1. split; [done|]. unfold still. by rewrite Hr, Hh.
  - assert (still w w1) as Hs1 by (unfold still; by rewrite Hr, Hh). destruct (Hb x w1) as (r & w2 & E2 & H2 & O2). rewrite (run_bind _ _ _ _ _ E2).
    assert (still w w2) as Hs2 by (by eapply still_trans). destruct r as [a|]; [by exists (Some a), w2|].
    injection O2 as O2 _. destruct (IH l w2) as (r & w3 & E3 & H3); [rewrite O2, Hr; cbn; by rewrite lookup_insert_eq|cbn in Hn; lia|].
    exists r, w3. split; [done|by eapply still_trans].
Qed.

Lemma directory_steady {A} p (body : string -> M W (option A)) w : (forall e, calm (body e)) -> steady (over_directory fuel p body) w.
Proof.
  intros Hb. unfold over_directory, steady, mbind, M_bind. unfold lift. pose proof (opendir_look p w) as Hl. pose proof (opendir_law p w) as Ho.
  destruct (opendir p w) as [d w1]. cbn [fst snd] in *. destruct (d =? 0); cbn [negb] in Ho.
  - exists None, w1. split; [done|]. unfold still. cbn in Ho. by rewrite Hl, Ho.
  - destruct Hl as (l & Hlen & _ & Hl). destruct (each_entry_steady fuel d body l w1 Hb) as (r & w2 & E & Hs); [rewrite Hl; cbn; by rewrite lookup_insert_eq|lia|].
    rewrite E. unfold modify. eexists _, _. split; [done|]. apply opened_close in Ho. destruct Hs as (Hh & Hf & Hi & Ht & Hc). unfold still.
    rewrite closedir_look, closedir_law, Hh, Hf, Hi, Ht, Hc, Ho, Hl. done.
Qed.

(** ** The interrupts *)

(** The positive numbers of the lines that contain the name. *)
Definition nic_irqs (iface : string) (lines : list string) : list Z := filter (fun i => 0 < i) (atoi <$> filter (fun l => contains iface l = true) lines).

Lemma read_irqs_run iface f n : forall l acc w, n_lines (look w) !! f = Some l -> (length l < n)%nat ->
  exists w', read_irqs n f iface acc w = (Done (acc ++ nic_irqs iface l)%list, w') /\ still w w' /\ n_log (look w') = n_log (look w).
Proof.
  induction n as [|n IH]; intros l acc w Hl Hn; [lia|]. cbn [read_irqs]. unfold mbind, M_bind, lift.
  pose proof (fgets_look f 511 w) as Hr. pose proof (fgets_law f 511 w) as Hh. destruct (fgets f 511 w) as [e w1]. cbn [fst snd] in *. rewrite Hl in Hr.
  destruct l as [|x l]; destruct Hr as [-> Hr].
  - exists w1. unfold still, nic_irqs. cbn. rewrite Hr, Hh, app_nil_r. done.
  - destruct (IH l (if contains iface x && (0 <? atoi x) then acc ++ [atoi x] else acc)%list w1) as (w2 & E & Hs & Hlog); [rewrite Hr; cbn; by rewrite lookup_insert_eq|cbn in Hn; lia|].
    exists w2. split; [|split; [|by rewrite Hlog, Hr]].
    + rewrite E. do 2 f_equal. unfold nic_irqs. destruct (contains iface x) eqn:Ec; cbn [andb].
      * rewrite (filter_cons_True (fun l => contains iface l = true)) by done. cbn [fmap list_fmap]. destruct (Z.ltb_spec 0 (atoi x)).
        -- rewrite filter_cons_True by done. by rewrite <- app_assoc.
        -- by rewrite filter_cons_False by lia.
      * by rewrite (filter_cons_False (fun l => contains iface l = true)) by congruence.
    + eapply still_trans; [|exact Hs]. unfold still. by rewrite Hr, Hh.
Qed.

Lemma findNicIrqs_run iface w : exists irqs w', findNicIrqs fuel iface w = (Done irqs, w') /\ still w w' /\ n_log (look w') = n_log (look w) /\
  (irqs = [] \/ irqs = nic_irqs iface (n_interrupts (look w))).
Proof.
  unfold findNicIrqs, mbind, M_bind. unfold lift at 1. pose proof (fopen_look "/proc/interrupts" w) as Hl. pose proof (fopen_law "/proc/interrupts" w) as Ho.
  destruct (fopen "/proc/interrupts" w) as [f w1]. cbn [fst snd] in *. destruct (f =? 0); cbn [negb] in Ho.
  - cbn in Ho. exists [], w1. unfold still. rewrite Hl, Ho. do 3 (split; [done|]). by left.
  - destruct Hl as (l & Hlen & Hlines & Hl). specialize (Hlines eq_refl). destruct (read_irqs_run iface f fuel l [] w1) as (w2 & E & (Hh & Hf & Hi & Ht & Hc) & Hlog); [rewrite Hl; cbn; by rewrite lookup_insert_eq|lia|].
    rewrite E. unfold modify. eexists _, _. split; [done|]. apply opened_close in Ho. unfold still. rewrite fclose_look, fclose_law, Hh, Hf, Hi, Ht, Hc, Ho, Hlog, Hl. cbn.
    do 2 (split; [done|]). right. by rewrite Hlines.
Qed.

(** A loop whose body writes [g e] for the entry [e] and goes on. *)
Definition writes_each (body : string -> M W (option unit)) (g : string -> list (string * string)) : Prop :=
  forall e w, exists w', body e w = (Done None, w') /\ still w w' /\ open_view w' = open_view w /\ n_log (look w') = (n_log (look w) ++ written w (g e))%list.

Lemma each_entry_writes d body g n : writes_each body g -> forall l w, n_streams (look w) !! d = Some l -> (length l < n)%nat ->
  exists w', each_entry n d body w = (Done None, w') /\ still w w' /\ n_log (look w') = (n_log (look w) ++ written w (l ≫= g))%list.
Proof.
  intros Hb. induction n as [|n IH]; intros l w Hl Hn; [lia|]. cbn [each_entry]. unfold mbind at 1, M_bind at 1, lift.
  pose proof (readdir_look d w) as Hr. pose proof (readdir_law d w) as [Hh _]. destruct (readdir d w) as [e w1]. cbn [fst snd] in *. rewrite Hl in Hr.
  destruct l as [|x l]; destruct Hr as [-> Hr].
  - exists w1. unfold still. cbn. rewrite Hr, Hh, app_nil_r. done.
  - assert (still w w1) as Hs1 by (unfold still; by rewrite Hr, Hh). destruct (Hb x w1) as (w2 & E2 & H2 & O2 & L2). rewrite (run_bind _ _ _ _ _ E2).
    injection O2 as O2 _. destruct (IH l w2) as (w3 & E3 & H3 & L3); [rewrite O2, Hr; cbn; by rewrite lookup_insert_eq|cbn in Hn; lia|].
    exists w3. split; [done|]. pose proof (still_trans _ _ _ Hs1 H2) as Hs2. split; [by eapply still_trans|].
    rewrite L3, L2, Hr, (written_still _ _ _ Hs2), (written_still _ _ _ Hs1). rewrite bind_cons, written_app. by rewrite app_assoc.
Qed.

Lemma directory_writes p body g w : writes_each body g -> exists l w', over_directory fuel p body w = (Done None, w') /\ still w w' /\
  (l = [] \/ (p = "/proc/irq" -> l = n_irqs (look w))) /\ n_log (look w') = (n_log (look w) ++ written w (l ≫= g))%list.
Proof.
  intros Hb. unfold over_directory, mbind, M_bind. unfold lift. pose proof (opendir_look p w) as Hl. pose proof (opendir_law p w) as Ho.
  destruct (opendir p w) as [d w1]. cbn [fst snd] in *. destruct (d =? 0); cbn [negb] in Ho.
  - exists [], w1. cbn in Ho. unfold still. cbn. rewrite Hl, Ho, app_nil_r. do 2 (split; [done|]). split; [by left|done].
  - destruct Hl as (l & Hlen & Hirq & Hl). destruct (each_entry_writes d body g fuel Hb l w1) as (w2 & E & (Hh & Hf & Hi & Ht & Hc) & Hlog); [rewrite Hl; cbn; by rewrite lookup_insert_eq|lia|].
    rewrite E. unfold modify. exists l. eexists. split; [done|]. apply opened_close in Ho. unfold still. rewrite closedir_look, closedir_law, Hh, Hf, Hi, Ht, Hc, Ho, Hlog.
    unfold written. rewrite Hl. cbn. split; [done|]. split; [by right|done].
Qed.

Lemma writes_all (l : list Z) (g : Z -> string * string) w : exists w', for_each l (fun i => _ ← writeFile (g i).1 (g i).2; mret tt) w = (Done tt, w') /\ still w w' /\
  n_log (look w') = (n_log (look w) ++ written w (g <$> l))%list.
Proof.
  revert w; induction l as [|i l IH]; intros w; cbn [for_each]; [exists w; cbn; by rewrite app_nil_r|].
  destruct (proj1 (writeFile_run (g i).1 (g i).2 w)) as (ok & w1 & E & Hs & _ & Hlog). rewrite bind_assoc, (run_bind _ _ _ _ _ E), bind_ret_l.
  destruct (IH w1) as (w2 & E2 & Hs2 & Hlog2). exists w2. split; [done|]. split; [by eapply still_trans|].
  assert (written w (g <$> i :: l) = written w [((g i).1, (g i).2)] ++ written w (g <$> l))%list as -> by (rewrite <- written_app, <- surjective_pairing; done).
  by rewrite Hlog2, Hlog, (written_still _ _ _ Hs), app_assoc.
Qed.

(** The numbered entries of /proc/irq but 0 and those of the NIC. *)
Definition other_irqs (entries : list string) (nic : list Z) : list Z :=
  filter (fun i => i <> 0 /\ i ∉ nic) (atoi <$> filter (fun e => starts_with_digit e = true) entries).

Lemma pin_run iface core w : exists nic entries w', pin_irqs fuel iface core w = (Done tt, w') /\ still w w' /\
  (nic = [] \/ nic = nic_irqs iface (n_interrupts (look w))) /\ (entries = [] \/ entries = n_irqs (look w)) /\
  n_log (look w') = (n_log (look w) ++ written w (((fun i => (irq_path i, fit 8 (dec core))) <$> nic) ++
    ((fun i => (irq_path i, joined (dec <$> filter (fun i => i <> core) (seqZ 0 (n_cpus (look w)))))) <$> other_irqs entries nic)))%list.
Proof.
  destruct (findNicIrqs_run iface w) as (nic & w1 & E1 & H1 & L1 & Hnic). unfold pin_irqs. rewrite (run_bind _ _ _ _ _ E1).
  destruct (writes_all nic (fun i => (irq_path i, fit 8 (dec core))) w1) as (w2 & E2 & H2 & L2). cbn [fst snd] in E2. rewrite (run_bind _ _ _ _ _ E2), run_gets. cbn zeta.
  pose proof (still_trans _ _ _ H1 H2) as H12. pose proof H12 as (_ & _ & Hi & _ & Hc). rewrite nprocs_look, cpuList_spec, Hc.
  set (mask := joined _). set (g := fun e => if starts_with_digit e then if (atoi e =? 0) || bool_decide (atoi e ∈ nic) then [] else [(irq_path (atoi e), mask)] else []).
  destruct (directory_writes "/proc/irq" (fun e => if negb (starts_with_digit e) then mret None else if (atoi e =? 0) || bool_decide (atoi e ∈ nic) then mret None else _ ← writeFile (irq_path (atoi e)) mask; mret (None : option unit)) g w2)
    as (l & w3 & E3 & H3 & Hl & L3).
  { intros e w0. unfold g. destruct (starts_with_digit e); cbn [negb]; [|exists w0; cbn; by rewrite app_nil_r]. destruct (_ || _); [exists w0; cbn; by rewrite app_nil_r|].
    destruct (writeFile_run (irq_path (atoi e)) mask w0) as [(ok & w4 & E4 & H4 & _ & L4) Hcalm]. destruct (Hcalm w0) as (ok' & w4' & E4' & _ & O4). rewrite E4 in E4'. injection E4' as <- <-.
    exists w4. by rewrite (run_bind _ _ _ _ _ E4). }
  rewrite (run_bind _ _ _ _ _ E3). exists nic, l, w3. split; [done|]. split; [by eapply still_trans|]. split; [done|]. split.
  { destruct Hl as [|Hl]; [by left|right]. rewrite Hl by done. exact Hi. }
  rewrite L3, L2, L1, (written_still _ _ _ H12), (written_still _ _ _ H1), <- app_assoc, <- written_app. do 3 f_equal.
  clear. unfold other_irqs, g. induction l as [|e l IH]; [done|]. cbn. rewrite IH. destruct (starts_with_digit e) eqn:Ed.
  - rewrite decide_True by done. cbn [fmap list_fmap]. destruct (Z.eqb_spec (atoi e) 0); cbn [orb].
    + by rewrite filter_cons_False by tauto.
    + case_bool_decide; [by rewrite filter_cons_False by tauto|by rewrite filter_cons_True by tauto].
  - by rewrite decide_False by done.
Qed.

(** ** The constructor *)

Lemma writeInt_calm p v : calm (writeInt p v).
Proof. apply writeFile_calm. Qed.

Lemma system_calm c : calm (lift (system c)).
Proof. apply calm_lift. intros w. cbn. by rewrite system_look, system_law. Qed.

Lemma disable_calm fd i x : calm (disable fd i x).
Proof.
  unfold disable. apply calm_bind; [apply calm_lift; intros w; apply get_offload_look|]. intros [v|]; [|apply calm_ret]. apply calm_if; [apply calm_ret|].
  apply calm_bind; [apply calm_lift; intros w; apply set_offload_look|intros; apply calm_ret].
Qed.

Lemma scheduler_calm p q n : calm (_ ← lift (sched_setscheduler p q n); mret tt).
Proof. apply calm_bind; [apply calm_lift; intros w; apply scheduler_look|intros; apply calm_ret]. Qed.

Lemma findPidByComm_steady name w : steady (findPidByComm fuel name) w.
Proof.
  unfold findPidByComm. apply steady_bind; [|intros; apply calm_steady, calm_ret]. apply directory_steady. intros e.
  apply calm_if; [apply calm_ret|]. apply calm_bind; [apply readFile_calm|intros; apply calm_ret].
Qed.

Lemma findSshdMasterPid_steady w : steady (findSshdMasterPid fuel) w.
Proof.
  unfold findSshdMasterPid. apply steady_bind; [|intros; apply calm_steady, calm_ret]. apply directory_steady. intros e.
  do 2 (apply calm_if; [apply calm_ret|]). apply calm_bind; [apply readFile_calm|intros comm]. apply calm_if; [apply calm_ret|].
  apply calm_bind; [apply read_ppid_calm|intros; apply calm_ret].
Qed.

Lemma migrateKernelThreads_steady w : steady (migrateKernelThreads fuel) w.
Proof.
  unfold migrateKernelThreads. apply steady_bind; [|intros; apply calm_steady, calm_ret]. apply directory_steady. intros e.
  do 2 (apply calm_if; [apply calm_ret|]). apply calm_bind; [apply read_ppid_calm|intros ppid]. apply calm_bind; [|intros; apply calm_ret].
  destruct ppid as [p|]; [|apply calm_ret]. apply calm_if; [|apply calm_ret].
  apply calm_bind; [apply calm_lift; intros w0; apply affinity_look|intros; apply calm_ret].
Qed.

Lemma migrateWorkqueues_steady w : steady (migrateWorkqueues fuel) w.
Proof.
  unfold migrateWorkqueues. apply steady_bind; [|intros; apply calm_steady, calm_ret]. apply directory_steady. intros e.
  apply calm_if; [apply calm_ret|]. apply calm_bind; [apply writeFile_calm|intros; apply calm_ret].
Qed.

Lemma boost_steady (m : M W Z) q n w : (forall w, steady m w) -> steady (pid ← m; if 0 <? pid then _ ← lift (sched_setscheduler pid q n); mret tt else mret tt) w.
Proof. intros Hm. apply steady_bind; [apply Hm|]. intros pid w'. apply calm_steady, calm_if; [apply scheduler_calm|apply calm_ret]. Qed.

Lemma pin_steady i c w : steady (pin_irqs fuel i c) w.
Proof. destruct (pin_run i c w) as (nic & entries & w' & E & Hs & _). by exists tt, w'. Qed.

Lemma boost_ksoftirqd_steady c w : steady (boost_ksoftirqd fuel c) w.
Proof. apply boost_steady. intros. apply findPidByComm_steady. Qed.

Lemma boost_sshd_steady w : steady (boost_sshd fuel) w.
Proof. apply boost_steady. intros. apply findSshdMasterPid_steady. Qed.

Lemma offloads_calm fd i : calm (if fd <? 0 then mret tt else disable fd i GRO ;; disable fd i GSO ;; disable fd i TSO).
Proof. apply calm_if; [apply calm_ret|]. do 2 (apply calm_bind; [apply disable_calm|intros _]). apply disable_calm. Qed.

(** Answers [fd], with the same things open. *)
Definition lands (fd : Z) (m : M W Z) (w : W) : Prop := exists w', m w = (Done fd, w') /\ still w w'.

Lemma lands_bind {A} fd (m : M W A) (f : A -> M W Z) w : steady m w -> (forall a w', lands fd (f a) w') -> lands fd (m ≫= f) w.
Proof.
  intros (a & w1 & E1 & H1) Hf. destruct (Hf a w1) as (w2 & E2 & H2). exists w2. rewrite (run_bind _ _ _ _ _ E1). split; [done|by eapply still_trans].
Qed.

Lemma lands_ret fd w : lands fd (mret fd) w.
Proof. by exists w. Qed.

(** Answers a new descriptor, the only new thing open. *)
Definition takes (r : gset (Z * Z)) (m : M W Z) (w : W) : Prop :=
  exists fd w', m w = (Done fd, w') /\ opened kFd fd (0 <=? fd) r (handles w').

Lemma takes_bind {A} r (m : M W A) f w : handles w = r -> steady m w -> (forall a w', handles w' = r -> takes r (f a) w') -> takes r (m ≫= f) w.
Proof.
  intros Hr (a & w1 & E1 & H1) Hf. destruct (Hf a w1) as (fd & w2 & E2 & H2); [destruct H1; congruence|]. exists fd, w2. by rewrite (run_bind _ _ _ _ _ E1).
Qed.

Lemma takes_socket r f w : handles w = r -> (forall fd w', lands fd (f fd) w') -> takes r (lift socket_dgram ≫= f) w.
Proof.
  intros <- Hf. unfold takes, mbind, M_bind, lift. destruct (socket_look w) as [_ Ho]. destruct (socket_dgram w) as [fd w1]. cbn [fst snd] in Ho.
  destruct (Hf fd w1) as (w2 & E & Hs). exists fd, w2. split; [done|]. destruct Hs as [-> _]. exact Ho.
Qed.

Create HintDb tuner discriminated.
#[local] Hint Resolve calm_steady writeFile_calm writeInt_calm offloads_calm system_calm pin_steady boost_ksoftirqd_steady boost_sshd_steady
  migrateKernelThreads_steady migrateWorkqueues_steady calm_ret : tuner.

Lemma nicTuner_takes i c mode w : mode <> Off -> takes (handles w) (nicTuner fuel i c mode) w.
Proof.
  intros Hm. destruct mode; [done| |].
  all: do 3 (apply takes_bind; [done|by auto with tuner|intros _ ? ?]).
  all: apply takes_socket; [done|intros fd ?].
  all: repeat (apply lands_bind; [by auto with tuner|intros _ ?]); apply lands_ret.
Qed.
End Runs.



(** The constructor always ends: Off touches nothing, the other modes leave exactly the
    socket the object names open, if there is one, and the destructor closes it. *)
Theorem nictuner_balanced {W} {FS : FileSys W} {FL : FileLaws W} {TS : TunerSys W} depth fuel {TL : TunerLaws depth W} iface core mode (w : W) :
  (depth <= fuel)%nat ->
  exists fd w', nicTuner fuel iface core mode w = (Done fd, w') /\
    (mode = Off -> fd = -1 /\ w' = w) /\ opened kFd fd (0 <=? fd) (handles w) (handles w') /\
    exists w'', nicTuner_dtor fd w' = (Done tt, w'') /\ handles w'' = handles w.
Proof.
  intros Hf. assert (exists fd w', nicTuner fuel iface core mode w = (Done fd, w') /\ (mode = Off -> fd = -1 /\ w' = w) /\ opened kFd fd (0 <=? fd) (handles w) (handles w')) as (fd & w' & E & Hoff & Ho).
  { destruct (decide (mode = Off)) as [->|Hm]; [by exists (-1), w|]. destruct (nicTuner_takes depth fuel Hf iface core mode w Hm) as (fd & w' & E & Ho). by exists fd, w'. }
  exists fd, w'. do 3 (split; [done|]). unfold nicTuner_dtor, modify. destruct (Z.ltb_spec fd 0) as [Hn|Hn].
  - exists w'. split; [done|]. by rewrite (proj2 (Z.leb_gt _ _)) in Ho by done.
  - eexists. split; [done|]. rewrite close_law. rewrite (proj2 (Z.leb_le _ _)) in Ho by done. by apply opened_close in Ho.
Qed.

(** ** Interrupt coalescing

    What the NIC has, if the driver reports it; [stores]: what it makes of a setting it takes. *)
Class CoalesceLaws (W : Type) `{FileLaws W, TunerSys W} := {
  nic_coalesce : W -> string -> option ethtool_coalesce;
  stores : ethtool_coalesce -> ethtool_coalesce;
  socket_coalesce w : nic_coalesce (snd (socket_dgram w)) = nic_coalesce w /\ opened kFd (fst (socket_dgram w)) (0 <=? fst (socket_dgram w)) (handles w) (handles (snd (socket_dgram w)));
  close_coalesce fd w : nic_coalesce (close_fd fd w) = nic_coalesce w;
  get_coalesce fd i w : let '(c, w') := ethtool_get_coalesce fd i w in c = nic_coalesce w i /\ nic_coalesce w' = nic_coalesce w /\ handles w' = handles w;
  set_coalesce fd i c w : let '(ok, w') := ethtool_set_coalesce fd i c w in
    handles w' = handles w /\ (forall j, j <> i -> nic_coalesce w' j = nic_coalesce w j) /\
    nic_coalesce w' i = if ok then Some (stores c) else nic_coalesce w i;
}.

Section Coalescing.
Context {W : Type} {FS : FileSys W} {FL : FileLaws W} {TS : TunerSys W} {CL : CoalesceLaws W}.

(** Nothing changed, or the four fields of the one NIC were set to zero. *)
Definition zeroed (i : string) (w w' : W) : Prop :=
  (nic_coalesce w' i = nic_coalesce w i \/ exists c, nic_coalesce w i = Some c /\ nic_coalesce w' i = Some (stores (mk_coalesce 0 0 0 0 (other_fields c)))) /\
  (forall j, j <> i -> nic_coalesce w' j = nic_coalesce w j).

Lemma zero_run fd i w : exists w', (ec ← lift (ethtool_get_coalesce fd i);
    match ec with Some ec => _ ← lift (ethtool_set_coalesce fd i (mk_coalesce 0 0 0 0 (other_fields ec))); mret tt | None => mret tt end) w = (Done tt, w') /\
  handles w' = handles w /\ zeroed i w w'.
Proof.
  unfold mbind, M_bind, lift. pose proof (get_coalesce fd i w) as Hg. destruct (ethtool_get_coalesce fd i w) as [ec w1]. destruct Hg as (-> & Hg & Hh).
  unfold zeroed. destruct (nic_coalesce w i) as [ec|] eqn:Ew; [|exists w1; rewrite Hg, Hh, Ew; auto].
  pose proof (set_coalesce fd i (mk_coalesce 0 0 0 0 (other_fields ec)) w1) as Ht. destruct (ethtool_set_coalesce _ _ _ w1) as [ok w2]. destruct Ht as (Hh2 & Hj & Hi).
  exists w2. split; [done|]. rewrite Hh2, Hh. rewrite Hg in Hj, Hi. rewrite Ew in Hi. split; [done|]. split; [|done]. destruct ok; [right; by exists ec|by left].
Qed.

Lemma readback_run fd i w : exists w', (rb ← lift (ethtool_get_coalesce fd i); modify (close_fd fd) ;; mret (match rb with Some rb => coalescing_off rb | None => false end)) w =
    (Done (default false (coalescing_off <$> nic_coalesce w' i)), w') /\
  handles w' = handles w ∖ {[(kFd, fd)]} /\ nic_coalesce w' = nic_coalesce w.
Proof.
  unfold mbind, M_bind, lift, modify. pose proof (get_coalesce fd i w) as Hg. destruct (ethtool_get_coalesce fd i w) as [c w1]. destruct Hg as (-> & Hg & Hh).
  eexists. rewrite close_coalesce, close_law, Hg, Hh. split; [|done]. by destruct (nic_coalesce w i).
Qed.
End Coalescing.

(** The coalescing of the NIC is set and read back: the answer is yes exactly when
    the NIC, after it all, reports adaptive moderation off and no delays; the NIC has what it
    had, or what it makes of the old setting with these four fields zero; no other NIC
    changes, and the socket is closed. *)
Theorem coalescing_verified {W} {FS : FileSys W} {FL : FileLaws W} {TS : TunerSys W} {CL : CoalesceLaws W} iface (w : W) :
  exists ok w', setCoalescingZero iface w = (Done ok, w') /\ handles w' = handles w /\
    ok = (0 <=? fst (socket_dgram w)) && default false (coalescing_off <$> nic_coalesce w' iface) /\
    (nic_coalesce w' iface = nic_coalesce w iface \/
     exists c, nic_coalesce w iface = Some c /\ nic_coalesce w' iface = Some (stores (mk_coalesce 0 0 0 0 (other_fields c)))) /\
    (forall j, j <> iface -> nic_coalesce w' j = nic_coalesce w j).
Proof.
  unfold setCoalescingZero. unfold mbind at 1, M_bind at 1. unfold lift at 1. destruct (socket_coalesce w) as [Hs Ho]. destruct (socket_dgram w) as [fd w1]. cbn [fst snd] in *.
  destruct (Z.ltb_spec fd 0) as [Hfd|Hfd].
  { rewrite (proj2 (Z.leb_gt _ _)) in Ho |- * by done. exists false, w1. rewrite Hs. split_and!; [done|done|done|by left|done]. }
  rewrite (proj2 (Z.leb_le _ _)) in Ho |- * by done. apply opened_close in Ho.
  destruct (zero_run fd iface w1) as (w2 & E2 & H2 & Hz & Hj). destruct (readback_run fd iface w2) as (w3 & E3 & H3 & Hc). rewrite Hs in Hz, Hj.
  exists (default false (coalescing_off <$> nic_coalesce w3 iface)), w3. rewrite H3, H2, Ho, Hc. split; [|auto].
  rewrite <- Hc, <- E3. by rewrite (run_bind_in _ _ _ _ _ _ E2).
Qed.

(** ** A simulated machine: four cores, the interrupts 0, 9, 16 and 17, of which the last
    two are those of eth1. *)
Module Sim.

Record nmachine := mk_nm {
  nm_open : gset (Z * Z); nm_streams : gmap Z (list string); nm_lines : gmap Z (list string); nm_targets : gmap Z string; nm_log : list (string * string);
  nm_sockets : bool; nm_coalesce : gmap string ethtool_coalesce }.

Definition contents : gmap string string := list_to_map
  [("/proc/12/comm", "ksoftirqd/2" ++ String "010" ""); ("/proc/12/stat", "12 (ksoftirqd/2) S 2 0");
   ("/proc/42/comm", "sshd" ++ String "010" ""); ("/proc/42/stat", "42 (sshd) S 1 42");
   ("/sys/devices/virtual/workqueue/writeback/cpumask", "f"); ("/proc/sys/vm/stat_interval", "1");
   ("/proc/irq/9/smp_affinity_list", "0-3"); ("/proc/irq/16/smp_affinity_list", "0-3"); ("/proc/irq/17/smp_affinity_list", "0-3")].

Definition irq_entries : list string := ["."; ".."; "0"; "9"; "16"; "17"; "default_smp_affinity"].
Definition listing : gmap string (list string) := list_to_map
  [("/proc", ["."; "1"; "12"; "42"; "self"]); ("/proc/irq", irq_entries); ("/sys/devices/virtual/workqueue", ["."; ".."; "writeback"])].
Definition interrupts : list string :=
  ["           CPU0       CPU1"; "   9:          0          0   acpi"; "  16:         12          0   eth1-rx-0"; "  17:          0          4   eth1-tx-0"].

Definition nm_take (k : Z) (w : nmachine) : Z * nmachine :=
  (fresh_handle (nm_open w), mk_nm ({[(k, fresh_handle (nm_open w))]} ∪ nm_open w) (nm_streams w) (nm_lines w) (nm_targets w) (nm_log w) (nm_sockets w) (nm_coalesce w)).
Definition nm_drop (k h : Z) (w : nmachine) : nmachine :=
  mk_nm (nm_open w ∖ {[(k, h)]}) (nm_streams w) (nm_lines w) (nm_targets w) (nm_log w) (nm_sockets w) (nm_coalesce w).
Definition nm_stream (d : Z) (l : list string) (w : nmachine) : nmachine :=
  mk_nm (nm_open w) (<[d := l]> (nm_streams w)) (nm_lines w) (nm_targets w) (nm_log w) (nm_sockets w) (nm_coalesce w).
Definition nm_line (f : Z) (l : list string) (w : nmachine) : nmachine :=
  mk_nm (nm_open w) (nm_streams w) (<[f := l]> (nm_lines w)) (nm_targets w) (nm_log w) (nm_sockets w) (nm_coalesce w).
Definition nm_target (f : Z) (p : string) (w : nmachine) : nmachine :=
  mk_nm (nm_open w) (nm_streams w) (nm_lines w) (<[f := p]> (nm_targets w)) (nm_log w) (nm_sockets w) (nm_coalesce w).
Definition nm_wrote (p v : string) (w : nmachine) : nmachine :=
  mk_nm (nm_open w) (nm_streams w) (nm_lines w) (nm_targets w) (nm_log w ++ [(p, v)])%list (nm_sockets w) (nm_coalesce w).
Definition nm_set (i : string) (c : ethtool_coalesce) (w : nmachine) : nmachine :=
  mk_nm (nm_open w) (nm_streams w) (nm_lines w) (nm_targets w) (nm_log w) (nm_sockets w) (<[i := c]> (nm_coalesce w)).

(** What an open directory has still to give. *)
Definition nm_left (d : Z) (w : nmachine) : list string := default [] (take 8 <$> nm_streams w !! d).

#[export] Instance sim_FileSys : FileSys nmachine := {|
  readlink p n w := (None, w); access p w := (false, w);
  fopen p w := if String.eqb p "/proc/interrupts" then let '(f, w) := nm_take kStream w in (f, nm_line f interrupts w) else (0, w);
  fgets f n w := match nm_lines w !! f with Some (x :: l) => (Some x, nm_line f l w) | _ => (None, w) end;
  fclose f w := nm_drop kStream f w;
  open_fd m p w := if decide (p ∈ dom contents) then let '(f, w) := nm_take kFd w in (f, nm_target f p w) else (-1, w);
  read_fd f n w := (nm_targets w !! f ≫= fun p => contents !! p, w);
  write_fd f v w := (Z.of_nat (String.length v), nm_wrote (default "" (nm_targets w !! f)) v w);
  close_fd f w := nm_drop kFd f w;
  opendir p w := match listing !! p with Some l => let '(d, w) := nm_take kDirectory w in (d, nm_stream d l w) | None => (0, w) end;
  readdir d w := match nm_left d w with x :: l => (Some x, nm_stream d l w) | [] => (None, w) end;
  closedir d w := nm_drop kDirectory d w;
  system c w := (0, w);
|}.

#[export] Instance sim_TunerSys : TunerSys nmachine := {|
  socket_dgram w := if nm_sockets w then nm_take kFd w else (-1, w);
  ethtool_get_offload fd i x w := (Some 1, w); ethtool_set_offload fd i x v w := (true, w);
  ethtool_get_coalesce fd i w := (nm_coalesce w !! i, w);
  ethtool_set_coalesce fd i c w := (true, nm_set i c w);
  sched_setaffinity p m w := (0, w); sched_setscheduler p q n w := (0, w); nprocs w := 4;
|}.

Lemma nm_left_short d w : (length (nm_left d w) <= 8)%nat.
Proof. unfold nm_left. destruct (nm_streams w !! d) as [l|]; [|cbn; lia]. change (length (take 8 l) <= 8)%nat. rewrite length_take. lia. Qed.

Lemma nm_left_stream d l w : (length l <= 8)%nat -> nm_left d (nm_stream d l w) = l.
Proof. intros Hl. unfold nm_left, nm_stream. cbn [nm_streams]. rewrite lookup_insert_eq. cbn. by rewrite take_ge. Qed.

Lemma nm_took k w : opened k (fresh_handle (nm_open w)) true (nm_open w) ({[(k, fresh_handle (nm_open w))]} ∪ nm_open w).
Proof. by destruct (fresh_handle_spec k (nm_open w)). Qed.

Lemma fresh_ok r : (fresh_handle r =? 0) = false /\ (0 <=? fresh_handle r) = true.
Proof. destruct (fresh_handle_spec 0 r). split; [apply Z.eqb_neq|apply Z.leb_le]; lia. Qed.

#[local] Obligation Tactic := idtac.
#[export] Program Instance sim_FileLaws : FileLaws nmachine := {| handles := nm_open; entries_left d w := length (nm_left d w); max_entries := 8%nat |}.
Next Obligation. apply nm_left_short. Qed.
Next Obligation. done. Qed.
Next Obligation. done. Qed.
Next Obligation.
  intros p w. cbn -[fresh_handle]. destruct (String.eqb p _); cbn -[fresh_handle]; [|done]. rewrite (proj1 (fresh_ok _)). apply nm_took.
Qed.
Next Obligation. intros f n w. cbn. by destruct (nm_lines w !! f) as [[]|]. Qed.
Next Obligation. done. Qed.
Next Obligation.
  intros m p w. cbn -[fresh_handle contents]. case_decide; cbn -[fresh_handle]; [|done]. rewrite (proj2 (fresh_ok _)). apply nm_took.
Qed.
Next Obligation. done. Qed.
Next Obligation. done. Qed.
Next Obligation. done. Qed.
Next Obligation.
  intros p w. cbn -[fresh_handle listing]. destruct (listing !! p); cbn -[fresh_handle]; [|done]. rewrite (proj1 (fresh_ok _)). apply nm_took.
Qed.
Next Obligation.
  intros d w. cbn -[nm_left]. pose proof (nm_left_short d w) as Hs. destruct (nm_left d w) as [|x l]; [done|]. split; [done|]. intros _. cbn [snd length] in *. rewrite nm_left_stream by lia. lia.
Qed.
Next Obligation. done. Qed.
Next Obligation. done. Qed.

Lemma listing_short : map_Forall (fun _ (l : list string) => (length l <= 8)%nat) listing.
Proof. by refine (bool_decide_unpack _ _); vm_compute. Qed.

Lemma stats_close : map_Forall (fun _ s => after_paren (c_string (strip_newline s)) <> Some "") contents.
Proof. by refine (bool_decide_unpack _ _); vm_compute. Qed.

Definition nm_look (w : nmachine) : view :=
  mk_view (take 8 <$> nm_streams w) (nm_lines w) (nm_targets w) (nm_log w) (dom contents) irq_entries interrupts 4.

Lemma look_stream d l w : (length l <= 8)%nat -> nm_look (nm_stream d l w) = v_stream d l (nm_look w).
Proof. intros Hl. unfold nm_look, v_stream, nm_stream. cbn -[fmap]. by rewrite fmap_insert, take_ge by lia. Qed.

#[export] Program Instance sim_TunerLaws : TunerLaws 9 nmachine := {| look := nm_look |}.
Next Obligation.
  intros m p w. cbn -[fresh_handle contents]. case_decide; cbn -[fresh_handle contents]; [|done].
  split; [|done]. destruct (fresh_handle_spec 0 (nm_open w)). lia.
Qed.
Next Obligation. done. Qed.
Next Obligation. done. Qed.
Next Obligation. done. Qed.
Next Obligation.
  intros p w. cbn -[fresh_handle listing look_stream]. destruct (listing !! p) as [l|] eqn:E; cbn -[fresh_handle]; [|done]. rewrite (proj1 (fresh_ok _)).
  pose proof (listing_short p l E) as Hl. exists l. split; [cbn in Hl; lia|]. split; [intros ->; by injection E as <-|exact (look_stream _ l (snd (nm_take kDirectory w)) Hl)].
Qed.
Next Obligation.
  intros d w. cbn -[nm_left]. pose proof (nm_left_short d w) as Hs. unfold nm_look at 1. cbn [n_streams]. rewrite lookup_fmap.
  unfold nm_left in *. destruct (take 8 <$> nm_streams w !! d) as [[|x l]|] eqn:E; cbn in Hs |- *; [done| |done]. split; [done|]. apply look_stream. lia.
Qed.
Next Obligation. done. Qed.
Next Obligation.
  intros p w. cbn -[fresh_handle]. destruct (String.eqb_spec p "/proc/interrupts"); cbn -[fresh_handle]; [|done]. rewrite (proj1 (fresh_ok _)).
  exists interrupts. split; [cbn; lia|]. by split.
Qed.
Next Obligation. intros f n w. cbn. by destruct (nm_lines w !! f) as [[]|]. Qed.
Next Obligation. done. Qed.
Next Obligation. done. Qed.
Next Obligation.
  intros w. cbn -[fresh_handle]. destruct (nm_sockets w); cbn -[fresh_handle]; [|done]. rewrite (proj2 (fresh_ok _)). split; [done|apply nm_took].
Qed.
Next Obligation. done. Qed.
Next Obligation. done. Qed.
Next Obligation. done. Qed.
Next Obligation. done. Qed.
Next Obligation. done. Qed.
Next Obligation.
  intros e w. destruct (open_fd O_RDONLY _ w) as [fd w']. cbn [read_fd sim_FileSys fst]. intros s Hs. destruct (nm_targets w' !! fd) as [p|]; [|done]. by apply (stats_close p).
Qed.

#[export] Program Instance sim_CoalesceLaws : CoalesceLaws nmachine := {| nic_coalesce w i := nm_coalesce w !! i; stores c := c |}.
Next Obligation.
  intros w. cbn -[fresh_handle]. destruct (nm_sockets w); cbn -[fresh_handle]; [|done]. rewrite (proj2 (fresh_ok _)). split; [done|apply nm_took].
Qed.
Next Obligation. done. Qed.
Next Obligation. done. Qed.
Next Obligation. intros fd i c w. cbn. split; [done|]. split; [intros j Hj; by rewrite lookup_insert_ne by auto|by rewrite lookup_insert_eq]. Qed.

Definition sim_start : nmachine := mk_nm {[(kFd, 3)]} ∅ ∅ ∅ [] true {[ "eth1" := mk_coalesce 1 1 50 50 [7] ]}.
End Sim.
Import Sim.

(** The interrupts of eth1 go to core 2, the other one of a device to the rest. *)
Example irq_run : n_log (look (snd (pin_irqs 9 "eth1" 2 sim_start))) =
  [("/proc/irq/16/smp_affinity_list", "2"); ("/proc/irq/17/smp_affinity_list", "2"); ("/proc/irq/9/smp_affinity_list", "0,1,3")].
Proof. by vm_compute. Qed.

(** [strstr] takes the interrupts of eth10 for those of eth1. *)
Example irq_prefix : nic_irqs "eth1" [" 31:          8          0   eth10-rx-0"] = [31].
Proof. done. Qed.

Example tuner_run : fst (nicTuner 9 "eth1" 2 NfsSafe sim_start) = Done 4 /\
  n_log (look (snd (nicTuner 9 "eth1" 2 NfsSafe sim_start))) =
  [("/sys/devices/virtual/workqueue/writeback/cpumask", "1"); ("/proc/sys/vm/stat_interval", "120");
   ("/proc/irq/16/smp_affinity_list", "2"); ("/proc/irq/17/smp_affinity_list", "2"); ("/proc/irq/9/smp_affinity_list", "0,1,3")].
Proof. by vm_compute. Qed.


Lemma nictuner_balanced_witness : exists fd w', nicTuner 9 "eth1" 2 Full sim_start = (Done fd, w') /\
    (Full = Off -> fd = -1 /\ w' = sim_start) /\ opened kFd fd (0 <=? fd) (handles sim_start) (handles w') /\
    exists w'', nicTuner_dtor fd w' = (Done tt, w'') /\ handles w'' = handles sim_start.
Proof. apply (nictuner_balanced 9 9 "eth1" 2 Full sim_start). lia. Defined.

Lemma coalescing_verified_witness : exists ok w', setCoalescingZero "eth1" sim_start = (Done ok, w') /\ handles w' = handles sim_start /\
    ok = (0 <=? fst (socket_dgram sim_start)) && default false (coalescing_off <$> nic_coalesce w' "eth1") /\
    (nic_coalesce w' "eth1" = nic_coalesce sim_start "eth1" \/
     exists c, nic_coalesce sim_start "eth1" = Some c /\ nic_coalesce w' "eth1" = Some (stores (mk_coalesce 0 0 0 0 (other_fields c)))) /\
    (forall j, j <> "eth1" -> nic_coalesce w' j = nic_coalesce sim_start j).
Proof. apply (coalescing_verified "eth1" sim_start). Defined.
