(* ===== verification/Bench.v ===== *)
(** * The single-process recorder as a whole (src/app/SingleRecorder.hpp, class Bench)

    The three threads of [Bench::run] put together: what the receive thread counts and
    what the histogram holds, in terms of the frames the transmit thread sent and the wire
    let through. *)

From Stdlib Require Import Sorted.
From S2P Require Import Prelude RingConcepts TestConfig App Sim Recorder Hist.
Import AntiReplay RxThread.

(** ** What a transport can put on the wire *)

(** [on_wire s l]: from [s], [l] may be what has left the machine, now or later. *)
Class TxWire (W : Type) `{TxContract W} := {
  on_wire : W -> list bytes -> Prop;
  wire_prefix h sent s l : tx_idle h sent s -> on_wire s l -> l `prefix_of` sent;
}.

(** ** Counting an in-order stream with losses *)

(** A frame the receive thread takes for one of its stream. *)
Definition ours (hdr f : bytes) : Prop := kFrameMinBytes <= Z.of_nat (length f) /\ take 14 f = hdr.
#[export] Instance ours_dec hdr f : Decision (ours hdr f).
Proof. unfold ours. apply _. Defined.

Definition seq_of (f : bytes) : Z := le_decode (rev (slice kOffSeq 4 f)).

(** After [n] frames of the stream, the last of index [i]; losses are counted from the
    index [b]: that of the first frame, or of the one that ended the warm-up. *)
Definition counted (n b i : Z) (st : state) : Prop :=
  0 <= n /\ warmupSeen st = Z.min n kWarmupDiscard /\ recorded st = Z.max 0 (n - kWarmupDiscard) /\ dropped st = 0 /\
  if decide (n = 0) then gate st = AntiReplay.init /\ lost st = 0
  else gate st = {| last := u32 i; have := true |} /\ 0 <= b <= i /\ 0 <= lost st /\
       lost st = (i - b) - (n - (if decide (n < kWarmupDiscard) then 1 else kWarmupDiscard)).

Lemma step_counted hdr n b i st f t j :
  ours hdr f -> seq_of f = u32 j -> counted n b i st -> n < 2 ^ 63 -> 0 <= j < 2 ^ 63 -> (n <> 0 -> i < j < i + 2 ^ 31) ->
  let '(st', s) := step hdr st (f, t) in
  counted (n + 1) (if decide (n = 0 \/ n + 1 = kWarmupDiscard) then j else b) j st' /\
  s = (if decide (n < kWarmupDiscard) then None else Some (u64 (t - le_decode (slice kOffTxStamp 8 f)))).
Proof.
  intros [Hl Hh] Hs (Hn & Hw & Hr & Hd & Hg) Hn63 Hj Hij. unfold step. rewrite decide_False by (intros [?|?]; [lia|done]). fold (seq_of f). rewrite Hs.
  assert (exists l, accept (u32 j) (gate st) (lost st) (dropped st) = (true, {| last := u32 j; have := true |}, l, 0) /\
    l = (if decide (n = 0) then 0 else lost st + (j - i - 1))) as (l & Ha & Hl0).
  { unfold accept. cbn [gate lost dropped set_grace]. rewrite Hd. case_decide as H0.
    - destruct Hg as [-> ->]. cbn [have negb AntiReplay.init]. eexists. split; [done|]. done.
    - destruct Hg as (-> & Hb & Hl1 & Hl2). cbn [have negb last]. specialize (Hij H0).
      rewrite <- sint_wrap, wrap_sub_l, wrap_sub_r, sint_wrap, sint_small by (unfold kWarmupDiscard in *; lia). rewrite decide_False by lia.
      eexists. split; [done|]. rewrite (wrap_small 64 (j - i - 1)) by (unfold in_u; lia).
      apply wrap_small. unfold in_u. unfold kWarmupDiscard in *. case_decide; lia. }
  cbn [gate lost dropped set_grace]. rewrite Ha. cbn [negb]. unfold inWarmup. cbn [warmupSeen set_gate set_grace].
  unfold counted. rewrite Hw. unfold kWarmupDiscard in *. cbn [gate recorded lost dropped warmupSeen count_recorded set_gate set_grace].
  repeat case_decide; try lia; cbn [gate recorded lost dropped warmupSeen count_recorded set_gate set_grace]; split; try done.
  all: split_and!; try done; try lia; try (rewrite wrap_small by (unfold in_u; lia); lia).
Qed.

(** Indices in order, with gaps below 2^31; [i] is the last one before, if [n] is not 0. *)
Fixpoint spaced (n i : Z) (idx : list Z) : Prop :=
  match idx with
  | [] => True
  | j :: idx => 0 <= j < 2 ^ 63 /\ (n <> 0 -> i < j < i + 2 ^ 31) /\ spaced (n + 1) j idx
  end.

Fixpoint latest (i : Z) (idx : list Z) : Z := match idx with [] => i | j :: idx => latest j idx end.

(** From where losses are counted: the first index, then the one that ends the warm-up. *)
Fixpoint base (n b : Z) (idx : list Z) : Z :=
  match idx with
  | [] => b
  | j :: idx => base (n + 1) (if decide (n = 0 \/ n + 1 = kWarmupDiscard) then j else b) idx
  end.

Lemma steps_counted hdr log : forall n b i st idx,
  counted n b i st -> n + Z.of_nat (length idx) < 2 ^ 63 -> spaced n i idx ->
  Forall2 (fun j f => seq_of f = u32 j) idx (filter (ours hdr) log.*1) ->
  let '(st', ss) := steps hdr st log in
  counted (n + Z.of_nat (length idx)) (base n b idx) (latest i idx) st' /\
  Z.of_nat (length ss) = Z.max 0 (n + Z.of_nat (length idx) - kWarmupDiscard) - Z.max 0 (n - kWarmupDiscard).
Proof.
  induction log as [|[f t] log IH]; intros n b i st idx Hc Hn Hs Hf; cbn [fmap list_fmap fst] in Hf.
  { rewrite filter_nil in Hf. inversion Hf; subst. cbn. rewrite Z.add_0_r. split; [done|lia]. }
  cbn [steps]. destruct (decide (ours hdr f)) as [Ho|Ho].
  - rewrite filter_cons_True in Hf by done. inversion Hf as [|j ? idx' ? Hj Hf']; subst. destruct Hs as (Hj63 & Hij & Hs). cbn [length] in Hn.
    pose proof (step_counted hdr n b i st f t j Ho Hj Hc ltac:(lia) Hj63 Hij) as Hst. destruct (step hdr st (f, t)) as [st1 s]. destruct Hst as [Hc1 ->].
    pose proof (IH _ _ _ st1 idx' Hc1 ltac:(lia) Hs Hf') as Hr. destruct (steps hdr st1 log) as [st2 ss]. destruct Hr as [Hc2 Hss].
    replace (n + Z.of_nat (length (j :: idx'))) with (n + 1 + Z.of_nat (length idx')) by (cbn [length]; lia). destruct Hc as (Hn0 & _).
    split; [done|]. rewrite length_app, Nat2Z.inj_add, Hss. destruct (decide (n < kWarmupDiscard)).
    + change (length (option_list None)) with 0%nat. lia.
    + match goal with |- context [length (option_list (Some ?x))] => change (length (option_list (Some x))) with 1%nat end. lia.
  - rewrite filter_cons_False in Hf by done.
    assert (step hdr st (f, t) = (set_grace 0 st, None)) as ->.
    { unfold step. rewrite decide_True; [done|]. unfold ours in Ho. destruct (decide (Z.of_nat (length f) < kFrameMinBytes)); [by left|right]. intros Hh. apply Ho. split; [lia|done]. }
    pose proof (IH n b i (set_grace 0 st) idx Hc Hn Hs Hf) as Hr. by destruct (steps hdr (set_grace 0 st) log).
Qed.

(** ** The wire *)

(** What a list that lost some members keeps, by their positions. *)
Lemma sublist_positions {A} (l k : list A) : l `sublist_of` k ->
  exists idx : list nat, StronglySorted lt idx /\ Forall2 (fun i x => k !! i = Some x) idx l.
Proof.
  assert (forall idx, StronglySorted lt idx -> StronglySorted lt (S <$> idx)) as HS.
  { induction 1 as [|i idx _ IH Hi]; [constructor|]. cbn. constructor; [done|]. apply Forall_fmap. eapply list.Forall_impl; [exact Hi|]. intros; cbn; lia. }
  induction 1 as [|x l k _ (idx & Hs & Hf)|x l k _ (idx & Hs & Hf)].
  - exists []. by split; constructor.
  - exists (0%nat :: (S <$> idx)). split; constructor; auto; [|by apply Forall2_fmap_l]. apply Forall_fmap, list.Forall_forall. intros; cbn; lia.
  - exists (S <$> idx). split; [by auto|]. by apply Forall2_fmap_l.
Qed.

Lemma sublist_prefix {A} (l1 l2 l3 : list A) : l1 `prefix_of` l2 -> l2 `sublist_of` l3 -> l1 `sublist_of` l3.
Proof. intros [k ->] Hs. etrans; [|exact Hs]. by apply sublist_inserts_r. Qed.

Lemma filter_prefix {A} (P : A -> Prop) `{!forall x, Decision (P x)} (l k : list A) : l `prefix_of` k -> filter P l `prefix_of` filter P k.
Proof. intros [r ->]. rewrite list.filter_app. by eexists. Qed.

Lemma stream_seq cfg all i f : TxThread.stream cfg all -> all !! i = Some f -> seq_of f = u32 (Z.of_nat i).
Proof.
  intros Hs Hi. destruct (Hs _ _ Hi) as (_ & _ & He). unfold seq_of. rewrite He, rev_involutive. rewrite le_decode_encode. apply wrap_wrap.
Qed.

Lemma positions_seq cfg all idx fs :
  TxThread.stream cfg all -> Forall2 (fun i f => all !! i = Some f) idx fs -> Forall2 (fun j f => seq_of f = u32 j) (Z.of_nat <$> idx) fs.
Proof. intros Hs Hf. apply Forall2_fmap_l. eapply list.Forall2_impl; [exact Hf|]. intros i f Hi. by eapply stream_seq. Qed.

(** ** The three threads *)

Section Run.
Context {T R Q C H : Type} `{TxWire T} `{RxContract R} `{SpscLaws Q} `{ClockLaws C} `{Hdr H}.
Context (others : Q * bool -> C -> (Q * bool) * C) (others_fine : others_ok others).
Context (producer : Q * bool -> C -> (Q * bool) * C) (producer_fine : producer_ok producer).
Context (cfg : TestConfig) (ht : HistThread).
Abbreviation W := (app T R Q C).

(** [durCyc]; the rate, a [double], is given as the integer it is cast to. *)
Definition durCyc (tscHz durationSec : Z) : Z := u64 (u64 tscHz * durationSec).

(** [Bench::run] up to the last [join]: each thread's run in its view of the world, from
    where it starts to where it ends.  The link between the two ports invents, duplicates
    and reorders no frame of the stream; the threads of the queue have seen the same pushes. *)
Record bench_run (tscHz durationSec : Z) (wt wr wh wt' wr' wh' : W) (sent : Z) (st : state) (h : H) (hrec hdrop : Z) : Prop := {
  b_tx : exists fuel, TxThread.run cfg fuel (durCyc tscHz durationSec) wt = (Done (Some sent), wt');
  b_rx : exists fuel sfuel st0, same_counts st0 RxThread.init /\ run_from others cfg fuel sfuel st0 wr = (Done st, wr');
  b_hist : exists fuel maxCyc hbCyc, Hist.run producer ht fuel maxCyc hbCyc wh = (Done (Some (h, hrec, hdrop)), wh');
  b_link : exists l, on_wire (txd wt') l /\ filter (ours (rx_hdr cfg)) (rx_arrived (rxd wr')) `sublist_of` l;
  b_queue : q_pushed (toHist wh') = q_pushed (toHist wr');
}.

(** Both ports are just brought up, and the queue is new. *)
Record bench_start (wt wr wh : W) : Prop := {
  s_tx : tx_fresh (txd wt);
  s_rx : rx_idle [] (rxd wr);
  s_queue : q_pushed (toHist wr) = [];
  s_hist : popped wh [];
  s_fails : pushFailures wr = 0;
}.

(** C3: The recorder accounts for every frame.  The frames received of the stream are those
    of some of its positions, in order; [k] of them, none is taken for a replay, those after
    the warm-up are all recorded, and [lost] is exactly the number of frames missing since the
    warm-up's end (or the first frame) before the last one received; what was recorded is in
    the queue or counted as an overflow; and unless a latency is the sentinel, the histogram
    holds the decodable samples of the queue, the others are counted as dropped.  Gaps of
    2^31 frames and more are beyond the 32-bit sequence numbers. *)
Theorem bench_accounts tscHz durationSec wt wr wh wt' wr' wh' sent st h hrec hdrop :
  macs_ok cfg -> frameSize cfg <= tx_room -> bench_start wt wr wh ->
  bench_run tscHz durationSec wt wr wh wt' wr' wh' sent st h hrec hdrop ->
  exists all (idx : list nat) ys, TxThread.stream cfg all /\ sent = u32 (Z.of_nat (length all)) /\
    StronglySorted lt idx /\ Forall (fun i => (i < length all)%nat) idx /\
    q_pushed (toHist wr') = ys ++ [kEndSentinel] /\
    (let k := Z.of_nat (length idx) in let pos := Z.of_nat <$> idx in
     Z.of_nat (length all) < 2 ^ 63 -> spaced 0 0 pos ->
       dropped st = 0 /\ warmupSeen st = Z.min k kWarmupDiscard /\ recorded st = Z.max 0 (k - kWarmupDiscard) /\
       (0 < k -> lost st = (latest 0 pos - base 0 0 pos) - (k - (if decide (k < kWarmupDiscard) then 1 else kWarmupDiscard))) /\
       u64 (Z.of_nat (length ys) + pushFailures wr') = recorded st) /\
    (kEndSentinel ∉ ys -> exists maxCyc h0, hdr_init 1 maxCyc 5 = Some h0 /\ h = record_all ht ys h0 /\ u64 (hrec + hdrop) = u64 (Z.of_nat (length ys))).
Proof.
  intros Hm Hroom [Sf Sr Sq Sh Sp] [(ft & Et) (fr & sf & st0 & Hst0 & Er) (fh & mc & hb & Eh) (l & Hw & Hsub) Hq].
  pose proof Hm as (Hm1 & Hm2 & _).
  pose proof (TxThread.tx_thread_run cfg ft (durCyc tscHz durationSec) wt Hm1 Hm2 Hroom Sf) as Ht. rewrite Et in Ht. destruct Ht as (_ & all & Hid & Hstr & Hn).
  pose proof (rx_thread_run others others_fine cfg fr sf st0 wr [] Hm Sr) as Hr. rewrite Er in Hr. destruct Hr as (log & ys & Hri & Hsame & _ & Hp & Hpf).
  rewrite Sq, app_nil_l in Hp. rewrite app_nil_l in Hri.
  assert (filter (ours (rx_hdr cfg)) log.*1 `sublist_of` all) as Hs.
  { eapply sublist_prefix; [apply filter_prefix, (rx_idle_prefix _ _ Hri)|]. etrans; [exact Hsub|].
    eapply sublist_prefix; [exact (wire_prefix _ _ _ _ Hid Hw)|done]. }
  destruct (sublist_positions _ _ Hs) as (idx & Hso & Hf2). exists all, idx, ys. do 3 (split; [done|]).
  split. { apply list.Forall_forall. intros i Hi. apply list_elem_of_lookup_1 in Hi as [m Hi]. destruct (Forall2_lookup_l _ _ _ _ _ Hf2 Hi) as (f & _ & Hf). by eapply lookup_lt_Some. }
  split; [done|]. split.
  - intros k pos Hall Hpos. assert (Z.of_nat (length idx) <= Z.of_nat (length all)) as Hk.
    { apply Forall2_length in Hf2. rewrite Hf2. apply sublist_length in Hs. lia. }
    pose proof (steps_counted (rx_hdr cfg) log 0 0 0 st0 pos) as Hc. unfold pos in Hc. rewrite length_fmap in Hc.
    assert (counted 0 0 0 st0) as Hc0.
    { unfold counted. rewrite decide_True by done. unfold same_counts in Hst0. destruct st0 as [g r lo d gr ws]. injection Hst0 as -> -> -> -> ->. done. }
    specialize (Hc Hc0 ltac:(lia) Hpos (positions_seq _ _ _ _ Hstr Hf2)). destruct (steps (rx_hdr cfg) st0 log) as [st1 ss] eqn:Es.
    rewrite !Z.add_0_l in Hc. fold k in Hc. destruct Hc as [(_ & C2 & C3 & C4 & C5) Hl]. cbn [fst snd] in *. unfold same_counts in Hsame.
    pose proof (f_equal recorded Hsame) as R1. pose proof (f_equal lost Hsame) as R2. pose proof (f_equal dropped Hsame) as R3. pose proof (f_equal warmupSeen Hsame) as R4.
    cbn [recorded lost dropped warmupSeen set_grace] in R1, R2, R3, R4. rewrite R1, R2, R3, R4. do 3 (split; [done|]). split.
    + intros Hk0. rewrite decide_False in C5 by lia. apply C5.
    + rewrite <- wrap_add_r, Hpf, wrap_add_r, Sp. assert (tally_base 0 st0 st = 0) as -> by (unfold tally_base; match goal with |- match ?d with _ => _ end = _ => destruct d end; reflexivity).
      replace (Z.of_nat (length ys) + (0 + (Z.of_nat (length ss) - Z.of_nat (length ys)))) with (Z.of_nat (length ss)) by lia.
      rewrite Hl, C3. unfold kWarmupDiscard. rewrite wrap_small by (unfold in_u; lia). lia.
  - intros Hns. destruct (hdr_init 1 mc 5) as [h0|] eqn:E0; [|unfold Hist.run in Eh; by rewrite E0 in Eh]. exists mc, h0. split; [done|].
    pose proof (hist_run_spec producer producer_fine ht fh mc hb h0 wh ys Sh E0 Hns) as Ht. rewrite Eh in Ht. rewrite Hq in Ht. destruct (Ht Hp) as (Hh & _ & Hd). by split.
Qed.
End Run.

(** ** The wires of the transports

    What the other side may have sent from a state; the frames handed over, where the model of
    the library says when they leave. *)
From S2P Require PacketMmap I210 AFXDP Verbs DPDK EfVi EfViTx.

Section Wires.
Context {E : Type}.
#[local] Obligation Tactic := idtac.

#[export] Program Instance PacketMmap_TxWire (env : PacketMmap.Tx.world E -> PacketMmap.Tx.world E) sys_send fuel env_ok send_ok fs :
  @TxWire _ _ (PacketMmap.Tx.PacketMmapTx_contract env sys_send fuel env_ok send_ok fs) := {|
  on_wire w l := exists w', rtc PacketMmap.Tx.kstep w w' /\ PacketMmap.Tx.taken w' = l |}.
Next Obligation.
  intros env sys_send fuel env_ok send_ok fs h sent w l Hid (w' & Hr & <-).
  destruct (PacketMmap.Tx.ksteps_idle fs h sent w w' Hr Hid) as (U & _ & Hh & _). rewrite <- Hh. by eexists.
Qed.

#[export] Program Instance I210_TxWire N B phys virt (env : I210.Tx.world E -> I210.Tx.world E) HN HN8 HB Hbus Henv :
  @TxWire _ _ (I210.Tx.I210_TxContract N B phys virt env HN HN8 HB Hbus Henv) := {|
  on_wire w l := exists w', rtc (I210.Tx.nstep N B virt) w w' /\ I210.Tx.wire w' = l |}.
Next Obligation.
  intros N B phys virt env HN HN8 HB Hbus Henv h sent w l (C & Hi & _) (w' & Hr & <-).
  destruct (I210.Tx.i210_tx_nsteps_inv N B virt HN8 HB _ _ _ _ Hr Hi) as (Hi' & _). rewrite (I210.Tx.inv_wire _ _ _ _ _ _ Hi'). apply prefix_take.
Qed.

#[export] Program Instance Verbs_TxWire {L} SD SE MF MI room fuel `{Verbs.Tx.SendQueueLaws SD MI L} HSE HSD HSDm Hr HMI Hfuel :
  @TxWire _ _ (Verbs.Tx.Verbs_TxContract SD SE MF MI room fuel HSE HSD HSDm Hr HMI Hfuel) := {|
  on_wire w l := l `prefix_of` (fst <$> Verbs.Tx.v_posted (Verbs.Tx.sview (snd w))) |}.
Next Obligation.
  intros L SD SE MF MI room fuel SQ SL HSE HSD HSDm Hr HMI Hfuel h sent w l ([k ((Hp & _) & _)] & _) Hl. rewrite Hp in Hl.
  assert (fst <$> Verbs.Tx.entries SE sent = sent) as He; [|by rewrite He in Hl]. unfold Verbs.Tx.entries. rewrite fmap_imap.
  clear. induction sent as [|f sent IH] using rev_ind; [done|]. by rewrite imap_app, IH.
Qed.

#[export] Program Instance AFXDP_TxWire {W} N FrameSize `{AFXDP.Tx.XskTxLaws N W} NeedWakeup fuel HN HN31 HFS Hb Hk Hf :
  @TxWire _ _ (AFXDP.Tx.AFXDP_TxContract N FrameSize NeedWakeup fuel HN HN31 HFS Hb Hk Hf) := {|
  on_wire w l := l `prefix_of` AFXDP.Tx.handed (AFXDP.Tx.tview (snd w)) |}.
Next Obligation. by intros W N FrameSize XT XL NeedWakeup fuel HN HN31 HFS Hb Hk Hf h sent w l (U & _ & _ & <- & _). Qed.

#[export] Program Instance EfVi_TxWire {L} c prefix capacity host fuel `{EfVi.EfViLaws c prefix capacity host L} Hg HN HNm HNc HB Y Hlay Hf :
  @TxWire _ _ (EfViTx.Tx.EfVi_TxContract c prefix capacity host fuel Hg HN HNm HNc HB Y Hlay Hf) := {|
  on_wire w l := exists v, rtc (EfVi.nstep c prefix host) (EfVi.eview (snd w)) v /\ EfVi.v_wire v = l |}.
Next Obligation.
  intros L c prefix capacity host fuel EL LL Hg HN HNm HNc HB Y Hlay Hf h sent w l Hid (v & Hr & <-). exact (proj1 (EfViTx.Tx.wire_out c prefix capacity host fuel HN HB Y Hlay Hf h sent w Hid) v Hr).
Qed.

#[export] Program Instance Dpdk_TxWire {L} c room slots inlines patience fuel `{DPDK.DpdkLaws room slots inlines patience L} Hfew Hfit Hr16 Hfuel :
  @TxWire _ _ (DPDK.Send.Dpdk_TxContract c room slots inlines patience fuel Hfew Hfit Hr16 Hfuel) := {|
  on_wire w l := exists v, rtc DPDK.nstep (DPDK.dview (snd w)) v /\ DPDK.v_wire v = l |}.
Next Obligation.
  intros L c room slots inlines patience fuel DL LL Hfew Hfit Hr16 Hfuel h sent w l Hid (v & Hr & <-).
  exact (proj1 (proj1 (DPDK.Send.dpdk_wire_out c room slots inlines patience fuel Hfew Hfit Hr16 Hfuel h sent w Hid) v Hr)).
Qed.
End Wires.

(** ** A run

    Ten frames over the simulated packet-mmap rings, of which the wire lets the third and
    the fifth through. *)

Lemma quiet_loop {T R Q C} `{TxRing T} `{RxRing R} `{Spsc Q} `{Clock C} (others : Q * bool -> C -> (Q * bool) * C) (w : app T R Q C) exp :
  on_rx rx_tryReceive w = (Done [], w) -> load_txDone others w = (Done true, w) ->
  forall n st, 0 <= graceEmpty st -> (0 < n)%nat -> graceEmpty st + Z.of_nat n = kGraceEmptyPolls ->
  RxThread.loop others n exp st w = (Done (set_grace kGraceEmptyPolls st), w).
Proof.
  intros Hr Hd. induction n as [|n IH]; intros st Hst Hn Hg; [lia|]. cbn [RxThread.loop]. rewrite (run_bind _ _ _ _ _ Hr), (run_bind _ _ _ _ _ Hd).
  assert (u32 (graceEmpty st + 1) = graceEmpty st + 1) as He by (apply wrap_small; unfold in_u, kGraceEmptyPolls in *; lia).
  destruct n as [|n]; cbn [graceEmpty set_grace]; rewrite He; (destruct (decide _) as [Hk|Hk]; [|]).
  - replace (graceEmpty st + 1) with kGraceEmptyPolls by lia. done.
  - lia.
  - lia.
  - rewrite IH; [done|cbn; lia..].
Qed.

#[export] Instance sim_TxWire : TxWire sim_tx :=
  PacketMmap_TxWire PacketMmap.Tx.sim_env PacketMmap.Tx.sim_send 3 PacketMmap.Tx.sim_env_ok PacketMmap.Tx.sim_send_ok 64.

Definition ex_sender : outcome (option Z) * sim_app := TxThread.run (sim_cfg 32) 20 20 (sim_start [] 0).
Definition ex_wire : list bytes := PacketMmap.Tx.taken (txd (snd ex_sender)).
Definition ex_arrivals : list bytes := option_list (ex_wire !! 2%nat) ++ option_list (ex_wire !! 4%nat).
Definition ex_exp : Z * Z := default (0, 0) (exp_hdr (sim_cfg 32)).

(** A frame of the stream within the warm-up. *)
Lemma warm_loop {T R Q C} `{TxRing T} `{RxRing R} `{Spsc Q} `{Clock C} (others : Q * bool -> C -> (Q * bool) * C) (w w1 w2 w3 : app T R Q C) exp st f t1 sq t0 g l d st' n :
  on_rx rx_tryReceive w = (Done f, w1) -> f <> [] -> now w1 = (Done t1, w2) -> kFrameMinBytes <= Z.of_nat (length f) ->
  header_matches exp f = Some true -> loadU 4 kOffSeq f = Some sq -> loadU 8 kOffTxStamp f = Some t0 -> on_rx rx_release w2 = (Done tt, w3) ->
  accept (ntohl sq) (gate st) (lost st) (dropped st) = (true, g, l, d) -> inWarmup (set_gate g l d (set_grace 0 st)) = (true, st', false) ->
  RxThread.loop others (S n) exp st w = RxThread.loop others n exp st' w3.
Proof.
  intros Hr Hf Hn Hl Hh Hs Ht Hrel Ha Hw. cbn [RxThread.loop]. rewrite (run_bind _ _ _ _ _ Hr). destruct f as [|b f]; [done|].
  rewrite (run_bind _ _ _ _ _ Hn). rewrite decide_False by lia. rewrite Hh, Hs, Ht. cbn [some_or_undef]. rewrite bind_ret_l. cbv beta. cbn [negb]. do 2 (rewrite bind_ret_l; cbv beta). rewrite (run_bind _ _ _ _ _ Hrel).
  cbn [gate lost dropped set_grace]. rewrite Ha. cbn [negb]. rewrite Hw. by rewrite bind_ret_l.
Qed.

Definition ex_w0 : sim_app := sim_start ex_arrivals 100.
Definition ex_after (w : sim_app) : sim_app := snd (on_rx rx_release (snd (now (snd (on_rx rx_tryReceive w))))).
Definition ex_frame (i : nat) : bytes := default [] (ex_arrivals !! i).
Definition ex_state (seq lost n : Z) : state :=
  {| gate := {| last := seq; have := true |}; recorded := 0; lost := lost; dropped := 0; graceEmpty := 0; warmupSeen := n |}.

Lemma ex_first n : RxThread.loop alone (S n) ex_exp RxThread.init ex_w0 = RxThread.loop alone n ex_exp (ex_state 2 0 1) (ex_after ex_w0).
Proof.
  apply (warm_loop alone ex_w0 (snd (on_rx rx_tryReceive ex_w0)) (snd (now (snd (on_rx rx_tryReceive ex_w0)))) (ex_after ex_w0) ex_exp RxThread.init
    (ex_frame 0) 100 (htonl 2) 6 {| last := 2; have := true |} 0 0); try (vm_compute; reflexivity); by vm_compute.
Qed.

Lemma ex_second n : RxThread.loop alone (S n) ex_exp (ex_state 2 0 1) (ex_after ex_w0) = RxThread.loop alone n ex_exp (ex_state 4 1 2) (ex_after (ex_after ex_w0)).
Proof.
  set (w := ex_after ex_w0).
  apply (warm_loop alone w (snd (on_rx rx_tryReceive w)) (snd (now (snd (on_rx rx_tryReceive w)))) (ex_after w) ex_exp (ex_state 2 0 1)
    (ex_frame 1) 101 (htonl 4) 10 {| last := 4; have := true |} 1 0); try (vm_compute; reflexivity); by vm_compute.
Qed.

Lemma ex_quiet : on_rx rx_tryReceive (ex_after (ex_after ex_w0)) = (Done [], ex_after (ex_after ex_w0)) /\
  load_txDone alone (ex_after (ex_after ex_w0)) = (Done true, ex_after (ex_after ex_w0)).
Proof. by vm_compute. Qed.

Definition ex_end : sim_app := snd (push_sentinel alone 1 (ex_after (ex_after ex_w0))).

Lemma ex_received : exists fuel, run_from alone (sim_cfg 32) fuel 1 RxThread.init ex_w0 = (Done (set_grace kGraceEmptyPolls (ex_state 4 1 2)), ex_end).
Proof.
  assert (exists n, Z.of_nat n = kGraceEmptyPolls) as [n Hn] by (exists (Z.to_nat kGraceEmptyPolls); by apply Z2Nat.id).
  exists (S (S n)). unfold run_from. assert (exp_hdr (sim_cfg 32) = Some ex_exp) as -> by (vm_compute; reflexivity).
  cbn [some_or_undef]. rewrite bind_ret_l. cbv beta. destruct ex_quiet as [Hr Hd].
  assert (RxThread.loop alone (S (S n)) ex_exp RxThread.init ex_w0 = (Done (set_grace kGraceEmptyPolls (ex_state 4 1 2)), ex_after (ex_after ex_w0))) as El.
  { rewrite ex_first, ex_second. apply (quiet_loop alone _ _ Hr Hd n (ex_state 4 1 2)); [done|unfold kGraceEmptyPolls in Hn; lia|exact Hn]. }
  rewrite (run_bind _ _ _ _ _ El). assert (push_sentinel alone 1 (ex_after (ex_after ex_w0)) = (Done tt, ex_end)) as Ep by (vm_compute; reflexivity).
  by rewrite (run_bind _ _ _ _ _ Ep).
Qed.

Definition ex_queue : sim_app := set_shared {| lq_cap := 4; lq_items := [kEndSentinel]; lq_popped := [] |} true (sim_start [] 0).
Definition ex_hist : outcome (option (list Z * Z * Z)) * sim_app := Hist.run (H := list Z) alone sim_hist 5 100 100 ex_queue.

Lemma ex_producer : producer_ok (C := sim_clock) (alone (Q := list_queue)).
Proof. intros q d c. exists []. by rewrite !app_nil_r. Qed.

Lemma bench_ex_run : bench_run alone alone (sim_cfg 32) sim_hist 20 1 (sim_start [] 0) ex_w0 ex_queue (snd ex_sender) ex_end (snd ex_hist) 10
  (set_grace kGraceEmptyPolls (ex_state 4 1 2)) ([] : list Z) 0 0.
Proof.
  split.
  - exists 20%nat. vm_compute. reflexivity.
  - destruct ex_received as [fuel E]. exists fuel, 1%nat, RxThread.init. by split.
  - exists 5%nat, 100, 100. vm_compute. reflexivity.
  - exists ex_wire. split; [exists (txd (snd ex_sender)); split; [apply rtc_refl|unfold ex_wire; reflexivity]|].
    assert (filter (ours (rx_hdr (sim_cfg 32))) (rx_arrived (rxd ex_end)) = ex_arrivals) as -> by (vm_compute; reflexivity).
    unfold ex_arrivals. generalize ex_wire. intros [|a [|b [|c [|d [|e l]]]]]; cbn;
      repeat first [apply sublist_nil_l | apply sublist_skip | apply sublist_cons].
  - vm_compute. reflexivity.
Qed.

(** Two of ten frames are received, both in the warm-up, and the one between them is lost. *)
Lemma bench_accounts_witness : exists all (idx : list nat) ys, TxThread.stream (sim_cfg 32) all /\ 10 = u32 (Z.of_nat (length all)) /\
    StronglySorted lt idx /\ Forall (fun i => (i < length all)%nat) idx /\ q_pushed (toHist ex_end) = ys ++ [kEndSentinel].
Proof.
  assert (macs_ok (sim_cfg 32)) as Hm by (split_and!; try reflexivity; by_decision).
  assert (frameSize (sim_cfg 32) <= tx_room (W := sim_tx)) as Hroom by (vm_compute; discriminate).
  assert (bench_start (sim_start [] 0) ex_w0 ex_queue) as Hs by (split; [exact sim_tx_fresh|apply sim_rx_idle|reflexivity|reflexivity|reflexivity]).
  destruct (bench_accounts (H := list Z) alone alone_ok alone ex_producer (sim_cfg 32) sim_hist 20 1 _ _ _ _ _ _ _ _ _ _ _ Hm Hroom Hs bench_ex_run)
    as (all & idx & ys & A1 & A2 & A3 & A4 & A5 & _).
  exists all, idx, ys. by split_and!.
Defined.
