(* ===== verification/Runtime.v ===== *)
(** * The threads' environment (src/app/RuntimeSetup.hpp, SingleRecorder.hpp, src/backends/common/Profiling.hpp)

    Locked memory, the stop request on SIGINT, the watchdog, and the cores and policies of
    the threads, over the calls of [ThreadSys]; and the cycle statistics. *)

From S2P Require Import Prelude TestConfig.
From stdpp Require Import gmap.
Open Scope Z_scope.

Inductive sched_policy := SCHED_OTHER | SCHED_FIFO | SCHED_RR.

Record attr := mk_attr { a_cores : gset Z; a_policy : sched_policy; a_prio : Z }.

(** Threads are named by the caller; [thread] gives the new one, [None] for std::system_error. *)
Class ThreadSys (W : Type) := {
  mlockall : W -> Z * W;
  signal_stop : W -> W;
  getenv : string -> W -> option string;
  sleep_ms : Z -> W -> W;
  thread : Z -> W -> option Z * W;
  setaffinity : Z -> gset Z -> W -> Z * W;
  setscheduler : Z -> sched_policy -> Z -> W -> Z * W;
  stop_requested : W -> bool;
  request_stop : W -> W;
}.

Definition CPU_SETSIZE : Z := 1024.

(** [CPU_ZERO] and [CPU_SET]: a number outside the set is ignored. *)
Definition cpu_set (core : Z) : gset Z := if (0 <=? core) && (core <? CPU_SETSIZE) then {[core]} else ∅.

Section Operations.
Context {W : Type} {TS : ThreadSys W}.

Definition pinToCore (me core : Z) : M W unit := _ ← lift (setaffinity me (cpu_set core)); mret tt.
Definition setSchedOther (me : Z) : M W unit := _ ← lift (setscheduler me SCHED_OTHER 0); mret tt.

(** The body of the watchdog's thread. *)
Definition watchdog (me timeoutSec : Z) : M W unit :=
  pinToCore me 0 ;;
  setSchedOther me ;;
  modify (sleep_ms (1000 * timeoutSec)) ;;
  stop ← gets stop_requested;
  if (stop : bool) then mret tt else modify request_stop.

Definition spawn (me : Z) : M W Z :=
  t ← lift (thread me);
  match t with Some t => mret t | None => raise (Throw "std::system_error") end.

Definition spawnWatchdog (me : Z) : M W unit := _ ← spawn me; mret tt.

(** The constructor of [RuntimeSetup]. *)
Definition runtimeSetup (me cpuCore watchdogSec : Z) : M W unit :=
  _ ← lift mlockall;
  modify signal_stop ;;
  (if 0 <? watchdogSec then spawnWatchdog me else mret tt) ;;
  modify (sleep_ms 10) ;;
  bypass ← gets (getenv "ABTRDA3_RT_BYPASS");
  match bypass with
  | Some _ => mret tt
  | None => pinToCore me cpuCore ;; setSchedOther me
  end.

Definition pinThread (me core : Z) (policy : sched_policy) (prio : Z) : M W unit :=
  _ ← lift (setaffinity me (cpu_set core));
  _ ← lift (setscheduler me policy prio);
  mret tt.

(** What [Bench::run] starts: the histogram's thread, the receiver and the sender, each with
    its first action. *)
Definition bench_threads (me : Z) (cfg : TestConfig) : M W (Z * Z * Z) :=
  hist ← spawn me; pinThread hist (recRecorderCore cfg) SCHED_OTHER 0 ;;
  rx ← spawn me; pinThread rx (recRxCore cfg) SCHED_OTHER 0 ;;
  tx ← spawn me; pinThread tx (recHotPathCore cfg) SCHED_OTHER 0 ;;
  mret (hist, rx, tx).
End Operations.

(** What the calls do to the threads; while one sleeps the others run.  [online]: the cores
    there are. *)
Class ThreadLaws (W : Type) `{ThreadSys W} := {
  attrs : W -> gmap Z attr;
  clock : W -> Z;
  online : gset Z;
  mlockall_law w : let w' := snd (mlockall w) in attrs w' = attrs w /\ stop_requested w' = stop_requested w /\ clock w' = clock w;
  signal_law w : attrs (signal_stop w) = attrs w /\ stop_requested (signal_stop w) = stop_requested w /\ clock (signal_stop w) = clock w;
  sleep_law ms me w : attrs (sleep_ms ms w) !! me = attrs w !! me /\ (stop_requested w = true -> stop_requested (sleep_ms ms w) = true) /\ clock w + ms <= clock (sleep_ms ms w);
  sleep_dom ms w : dom (attrs (sleep_ms ms w)) = dom (attrs w);
  thread_law me w : let '(t, w') := thread me w in stop_requested w' = stop_requested w /\ clock w' = clock w /\
    match t with Some t => t ∉ dom (attrs w) /\ exists a, attrs w !! me = Some a /\ attrs w' = <[t := a]> (attrs w) | None => attrs w' = attrs w end;
  affinity_law me s w : let '(r, w') := setaffinity me s w in stop_requested w' = stop_requested w /\ clock w' = clock w /\
    if decide (r = 0) then exists a, attrs w !! me = Some a /\ attrs w' = <[me := mk_attr (s ∩ online) (a_policy a) (a_prio a)]> (attrs w) else attrs w' = attrs w;
  affinity_grants me s w : is_Some (attrs w !! me) -> s ∩ online <> ∅ -> fst (setaffinity me s w) = 0;
  scheduler_law me q n w : let '(r, w') := setscheduler me q n w in stop_requested w' = stop_requested w /\ clock w' = clock w /\
    if decide (r = 0) then exists a, attrs w !! me = Some a /\ attrs w' = <[me := mk_attr (a_cores a) q n]> (attrs w) else attrs w' = attrs w;
  getenv_law n w : getenv n (sleep_ms 10 w) = getenv n w /\ getenv n (signal_stop w) = getenv n w /\ getenv n (snd (mlockall w)) = getenv n w /\
    forall me, getenv n (snd (thread me w)) = getenv n w;
  request_law w : attrs (request_stop w) = attrs w /\ stop_requested (request_stop w) = true /\ clock (request_stop w) = clock w;
}.

Section Properties.
Context {W : Type} {TS : ThreadSys W} {TL : ThreadLaws W}.

(** The cores a thread has after it asked for one: that core, if it is there. *)
Definition pinned (core : Z) (a a' : attr) : Prop :=
  (a_cores a' = a_cores a \/ a_cores a' = cpu_set core ∩ online) /\ (cpu_set core ∩ online <> ∅ -> a_cores a' = cpu_set core ∩ online).

(** [m] ends, changes no thread but [me], and leaves stop request and clock alone. *)
Definition adjusts (me : Z) (R : attr -> attr -> Prop) (m : M W unit) : Prop := forall w a, attrs w !! me = Some a ->
  exists w' a', m w = (Done tt, w') /\ stop_requested w' = stop_requested w /\ clock w' = clock w /\ attrs w' = <[me := a']> (attrs w) /\ R a a'.

Lemma affinity_adjusts me core : adjusts me (pinned core) (_ ← lift (setaffinity me (cpu_set core)); mret tt).
Proof.
  intros w a Ha. unfold mbind, M_bind, lift. pose proof (affinity_law me (cpu_set core) w) as Hl. pose proof (affinity_grants me (cpu_set core) w ltac:(by eexists)) as Hg.
  destruct (setaffinity me (cpu_set core) w) as [r w']. destruct Hl as (Hs & Hc & Hl). cbn [fst] in Hg. destruct (decide (r = 0)) as [Hr|Hr].
  - destruct Hl as (a0 & Ha0 & Hl). rewrite Ha in Ha0. injection Ha0 as <-. eexists w', _. do 4 (split; [done|]). split; [by right|done].
  - exists w', a. do 3 (split; [done|]). rewrite Hl, insert_id by done. split; [done|]. split; [by left|]. intros Hne. by destruct Hr, Hg.
Qed.

Lemma scheduler_adjusts me q n : adjusts me (fun a a' => a_cores a' = a_cores a) (_ ← lift (setscheduler me q n); mret tt).
Proof.
  intros w a Ha. unfold mbind, M_bind, lift. pose proof (scheduler_law me q n w) as Hl. destruct (setscheduler me q n w) as [r w']. destruct Hl as (Hs & Hc & Hl).
  destruct (decide (r = 0)) as [Hr|Hr].
  - destruct Hl as (a0 & Ha0 & Hl). rewrite Ha in Ha0. injection Ha0 as <-. eexists w', _. by do 4 (split; [done|]).
  - exists w', a. do 3 (split; [done|]). by rewrite Hl, insert_id.
Qed.

Lemma adjusts_seq me R m n : adjusts me R m -> adjusts me (fun a a' => a_cores a' = a_cores a) n -> (forall a a' a'', R a a' -> a_cores a'' = a_cores a' -> R a a'') -> adjusts me R (m ;; n).
Proof.
  intros Hm Hn HR w a Ha. destruct (Hm w a Ha) as (w1 & a1 & E1 & S1 & C1 & A1 & R1). rewrite (run_bind _ _ _ _ _ E1).
  destruct (Hn w1 a1) as (w2 & a2 & E2 & S2 & C2 & A2 & R2); [rewrite A1; apply lookup_insert_eq|].
  exists w2, a2. rewrite S2, C2, A2, A1, insert_insert_eq. split_and!; try done. by eapply HR.
Qed.

Lemma pinned_cores core a a' a'' : pinned core a a' -> a_cores a'' = a_cores a' -> pinned core a a''.
Proof. unfold pinned. by intros H ->. Qed.

Lemma place_adjusts me core : adjusts me (pinned core) (pinToCore me core ;; setSchedOther me).
Proof. apply adjusts_seq; [apply affinity_adjusts|apply scheduler_adjusts|apply pinned_cores]. Qed.

Lemma pinThread_adjusts me core q n : adjusts me (pinned core) (pinThread me core q n).
Proof.
  intros w a Ha. destruct (adjusts_seq me _ _ _ (affinity_adjusts me core) (scheduler_adjusts me q n) (pinned_cores core) w a Ha) as (w' & a' & E & H).
  exists w', a'. split; [|exact H]. rewrite <- E. unfold pinThread, mbind, M_bind, lift. destruct (setaffinity me (cpu_set core) w) as [r w1]. cbn. by destruct (setscheduler me q n w1).
Qed.

Lemma pinned_online core a a' : 0 <= core < CPU_SETSIZE -> core ∈ online -> pinned core a a' -> a_cores a' = {[core]}.
Proof.
  intros Hc Ho [_ Hp]. assert (cpu_set core ∩ online = {[core]}) as He.
  { unfold cpu_set. rewrite (proj2 (Z.leb_le _ _)), (proj2 (Z.ltb_lt _ _)) by lia. set_solver. }
  rewrite He in Hp. apply Hp. set_solver.
Qed.

(** The watchdog always ends with the stop requested; if it was not before, then only after
    the timeout. *)
Theorem watchdog_stops me timeoutSec (w : W) a : attrs w !! me = Some a ->
  exists w', watchdog me timeoutSec w = (Done tt, w') /\ stop_requested w' = true /\ clock w + 1000 * timeoutSec <= clock w'.
Proof.
  intros Ha. unfold watchdog. destruct (place_adjusts me 0 w a Ha) as (w1 & a1 & E1 & S1 & C1 & _).
  assert (forall (k : M W unit), (pinToCore me 0 ;; setSchedOther me ;; k) w = k w1) as Hk by (intros k; rewrite <- bind_assoc; by rewrite (run_bind _ _ _ _ _ E1)).
  rewrite Hk, run_modify, run_gets. destruct (sleep_law (1000 * timeoutSec) me w1) as (_ & Hs & Hc). rewrite C1 in Hc.
  destruct (stop_requested (sleep_ms _ w1)) eqn:E; [by exists (sleep_ms (1000 * timeoutSec) w1)|]. eexists. split; [done|]. destruct (request_law (sleep_ms (1000 * timeoutSec) w1)) as (_ & -> & ->). done.
Qed.

Lemma spawn_run me (w : W) : match spawn me w with
  | (Done t, w') => t ∉ dom (attrs w) /\ exists a, attrs w !! me = Some a /\ attrs w' = <[t := a]> (attrs w) /\ stop_requested w' = stop_requested w
  | (Throw _, w') => attrs w' = attrs w
  | _ => False
  end.
Proof.
  unfold spawn, mbind, M_bind, lift. pose proof (thread_law me w) as Hl. destruct (thread me w) as [[t|] w']; destruct Hl as (Hs & _ & Hl); [|done].
  destruct Hl as [Hn (a & Ha & Hl)]. split; [done|]. by exists a.
Qed.

(** The set-up ends, or throws for want of a watchdog thread, having pinned nothing.  The
    calling thread has the core it asked for, if there is that core and pinning was not
    bypassed; a new thread, of the cores the caller had before, exists exactly when the
    watchdog has a timeout; a stop request is never taken back. *)
Theorem runtime_setup_spec me cpuCore watchdogSec (w : W) a : attrs w !! me = Some a ->
  match runtimeSetup me cpuCore watchdogSec w with
  | (Done tt, w') => exists a', attrs w' !! me = Some a' /\
      (if getenv "ABTRDA3_RT_BYPASS" w then a' = a else pinned cpuCore a a') /\
      (stop_requested w = true -> stop_requested w' = true) /\
      (if 0 <? watchdogSec then exists t, t ∉ dom (attrs w) /\ dom (attrs w') = {[t]} ∪ dom (attrs w) else dom (attrs w') = dom (attrs w))
  | (Throw _, w') => 0 < watchdogSec /\ attrs w' = attrs w
  | _ => False
  end.
Proof.
  intros Ha. unfold runtimeSetup. unfold mbind at 1, M_bind at 1, lift at 1. destruct (mlockall_law w) as (A1 & S1 & _). destruct (getenv_law "ABTRDA3_RT_BYPASS" w) as (_ & _ & G1 & _).
  destruct (mlockall w) as [r w1]. cbn [snd] in *. rewrite run_modify. destruct (signal_law w1) as (A2 & S2 & _). destruct (getenv_law "ABTRDA3_RT_BYPASS" w1) as (_ & G2 & _).
  set (w2 := signal_stop w1) in *.
  assert (forall (wd : M W unit) (P : W -> Prop), (match wd w2 with (Done tt, w3) => P w3 /\ attrs w3 !! me = Some a /\ stop_requested w3 = stop_requested w2 /\ getenv "ABTRDA3_RT_BYPASS" w3 = getenv "ABTRDA3_RT_BYPASS" w2
      | (Throw _, w3) => 0 < watchdogSec /\ attrs w3 = attrs w | _ => False end) ->
    (forall w3 w', P w3 -> dom (attrs w') = dom (attrs w3) -> if 0 <? watchdogSec then exists t, t ∉ dom (attrs w) /\ dom (attrs w') = {[t]} ∪ dom (attrs w) else dom (attrs w') = dom (attrs w)) ->
    match (wd ;; modify (sleep_ms 10) ;; bypass ← gets (getenv "ABTRDA3_RT_BYPASS"); match bypass with Some _ => mret tt | None => pinToCore me cpuCore ;; setSchedOther me end) w2 with
    | (Done tt, w') => exists a', attrs w' !! me = Some a' /\ (if getenv "ABTRDA3_RT_BYPASS" w then a' = a else pinned cpuCore a a') /\
        (stop_requested w = true -> stop_requested w' = true) /\
        (if 0 <? watchdogSec then exists t, t ∉ dom (attrs w) /\ dom (attrs w') = {[t]} ∪ dom (attrs w) else dom (attrs w') = dom (attrs w))
    | (Throw _, w') => 0 < watchdogSec /\ attrs w' = attrs w
    | _ => False end) as Hrest.
  { intros wd P Hwd HP. unfold mbind at 1, M_bind at 1. destruct (wd w2) as [[[]| | | |] w3]; try done. destruct Hwd as (H3 & A3 & S3 & G3).
    rewrite run_modify, run_gets. destruct (sleep_law 10 me w3) as (A4 & S4 & _). pose proof (sleep_dom 10 w3) as D4. destruct (getenv_law "ABTRDA3_RT_BYPASS" w3) as (G4 & _).
    rewrite G4, G3, G2, G1. set (w4 := sleep_ms 10 w3) in *. rewrite A3 in A4.
    destruct (getenv _ w) as [b|].
    - exists a. do 2 (split; [done|]). split; [intros Hst; apply S4; by rewrite S3, S2, S1|]. by apply (HP w3).
    - destruct (place_adjusts me cpuCore w4 a A4) as (w5 & a5 & E5 & S5 & _ & A5 & R5). rewrite E5. exists a5. rewrite A5, lookup_insert_eq. split; [done|]. split; [done|].
      split; [intros Hst; rewrite S5; apply S4; by rewrite S3, S2, S1|]. rewrite <- A5. apply (HP w3); [done|]. rewrite A5, dom_insert_L, <- D4. apply elem_of_dom_2 in A4. set_solver. }
  destruct (0 <? watchdogSec) eqn:Hsec.
  - apply (Hrest _ (fun w3 => exists t, t ∉ dom (attrs w) /\ dom (attrs w3) = {[t]} ∪ dom (attrs w))).
    + unfold spawnWatchdog, spawn, mbind, M_bind, lift. pose proof (thread_law me w2) as Ht. pose proof (proj2 (proj2 (proj2 (getenv_law "ABTRDA3_RT_BYPASS" w2))) me) as G3.
      destruct (thread me w2) as [[t|] w3]; destruct Ht as (S3 & _ & Ht); cbn in *; [|apply Z.ltb_lt in Hsec; by rewrite Ht, A2, A1].
      destruct Ht as (Hn & a0 & Ha0 & A3). rewrite A2, A1 in Hn, Ha0, A3. rewrite Ha in Ha0. injection Ha0 as <-. split_and!; try done.
      * exists t. split; [done|]. by rewrite A3, dom_insert_L.
      * rewrite A3, lookup_insert_ne; [done|]. intros ->. apply Hn. by eapply elem_of_dom_2.
    + intros w3 w' (t & Hn & Hd) ->. by exists t.
  - apply (Hrest (mret tt) (fun w3 => dom (attrs w3) = dom (attrs w))).
    + cbn. by rewrite A2, A1.
    + intros w3 w' <- ->. done.
Qed.

Lemma bind_unfold {A B} (m : M W A) (k : A -> M W B) w : (m ≫= k) w = let '(o, w') := m w in match o with Done a => k a w' | o => (recast o, w') end.
Proof. reflexivity. Qed.

(** One thread of the recorder, started and placed. *)
Definition start_on (me core : Z) : M W Z := t ← spawn me; pinThread t core SCHED_OTHER 0 ;; mret t.

(** It is new, and differs from its creator in nothing but
    what it asked for. *)
Lemma placed_run me core (w : W) a : attrs w !! me = Some a ->
  match start_on me core w with
  | (Done t, w') => exists a', t ∉ dom (attrs w) /\ attrs w' = <[t := a']> (attrs w) /\ pinned core a a' /\ stop_requested w' = stop_requested w
  | (Throw _, w') => attrs w' = attrs w
  | _ => False
  end.
Proof.
  intros Ha. pose proof (spawn_run me w) as Hs. unfold start_on, mbind at 1, M_bind at 1. destruct (spawn me w) as [[t| | | |] w1]; try done.
  destruct Hs as (Hn & a0 & Ha0 & A1 & S1). rewrite Ha in Ha0. injection Ha0 as <-.
  destruct (pinThread_adjusts t core SCHED_OTHER 0 w1 a) as (w2 & a' & E & S2 & _ & A2 & R); [rewrite A1; apply lookup_insert_eq|].
  rewrite (run_bind _ _ _ _ _ E). exists a'. rewrite A2, A1, insert_insert_eq, S2, S1. by split_and!.
Qed.

Lemma placed_bind {A} me core (w : W) (k : Z -> M W A) :
  (t ← spawn me; pinThread t core SCHED_OTHER 0 ;; k t) w = (t ← start_on me core; k t) w.
Proof.
  unfold start_on, mbind, M_bind. destruct (spawn me w) as [[t| | | |] w1]; try done. by destruct (pinThread t core SCHED_OTHER 0 w1) as [[[]| | | |] w2].
Qed.

(** C39: The recorder's threads do not disturb each other: three new threads are started, or
    the start throws; every other thread, the caller included, keeps its cores; and
    each of the three runs on the core configured for it and on no other, if there is that core.
    (The dispatcher refuses a configuration whose three cores are not distinct.) *)
Theorem bench_threads_isolated me cfg (w : W) a : attrs w !! me = Some a ->
  match bench_threads me cfg w with
  | (Done (hist, rx, tx), w') =>
      NoDup [hist; rx; tx] /\ Forall (fun t => t ∉ dom (attrs w)) [hist; rx; tx] /\
      attrs w ⊆ attrs w' /\ dom (attrs w') = {[hist; rx; tx]} ∪ dom (attrs w) /\
      Forall2 (fun t core => 0 <= core < CPU_SETSIZE -> core ∈ online -> a_cores <$> attrs w' !! t = Some {[core]})
        [hist; rx; tx] [recRecorderCore cfg; recRxCore cfg; recHotPathCore cfg]
  | (Throw _, w') => attrs w ⊆ attrs w'
  | _ => False
  end.
Proof.
  intros Ha. assert (forall (X : gmap Z attr) t b, t ∉ dom X -> X ⊆ <[t := b]> X) as Hin by (intros X t b Ht; by apply insert_subseteq, not_elem_of_dom).
  unfold bench_threads. rewrite placed_bind, bind_unfold. pose proof (placed_run me (recRecorderCore cfg) w a Ha) as H1.
  destruct (start_on me (recRecorderCore cfg) w) as [[h| | | |] w1]; try done; [|cbn; by rewrite H1]. destruct H1 as (a1 & N1 & A1 & P1 & _).
  assert (attrs w1 !! me = Some a) as Ha1 by (rewrite A1; eapply lookup_weaken; [exact Ha|by apply Hin]).
  rewrite placed_bind, bind_unfold. pose proof (placed_run me (recRxCore cfg) w1 a Ha1) as H2.
  destruct (start_on me (recRxCore cfg) w1) as [[r| | | |] w2]; try done; [|cbn; rewrite H2, A1; by apply Hin]. destruct H2 as (a2 & N2 & A2 & P2 & _).
  assert (attrs w2 !! me = Some a) as Ha2 by (rewrite A2; eapply lookup_weaken; [exact Ha1|by apply Hin]).
  rewrite placed_bind, bind_unfold. pose proof (placed_run me (recHotPathCore cfg) w2 a Ha2) as H3.
  assert (attrs w ⊆ attrs w2) as Hsub by (rewrite A2; etrans; [|by apply Hin]; rewrite A1; by apply Hin).
  destruct (start_on me (recHotPathCore cfg) w2) as [[t| | | |] w3]; try done; [|cbn; by rewrite H3]. destruct H3 as (a3 & N3 & A3 & P3 & _). cbn.
  rewrite A2, A1, !dom_insert_L in N3. rewrite A1, dom_insert_L in N2.
  split_and!.
  - repeat constructor; set_solver.
  - repeat constructor; set_solver.
  - rewrite A3. etrans; [exact Hsub|]. apply Hin. rewrite A2, A1, !dom_insert_L. set_solver.
  - rewrite A3, A2, A1, !dom_insert_L. set_solver.
  - rewrite A3, A2, A1. repeat constructor; intros Hc Ho.
    + rewrite !lookup_insert_ne, lookup_insert_eq by set_solver. cbn. by erewrite pinned_online.
    + rewrite lookup_insert_ne, lookup_insert_eq by set_solver. cbn. by erewrite pinned_online.
    + rewrite lookup_insert_eq. cbn. by erewrite pinned_online.
Qed.
End Properties.

(** ** The cycle statistics (namespace prof) *)

Module Profiling.
Record CycleStats := { count : Z; sum : Z; min : Z; max : Z }.

Definition fresh : CycleStats := {| count := 0; sum := 0; min := 2 ^ 64 - 1; max := 0 |}.

Definition record (cyc : Z) (s : CycleStats) : CycleStats :=
  {| count := u64 (count s + 1); sum := u64 (sum s + cyc);
     min := if cyc <? min s then cyc else min s; max := if max s <? cyc then cyc else max s |}.

Definition record_all (xs : list Z) (s : CycleStats) : CycleStats := fold_left (fun s cyc => record cyc s) xs s.

Definition total (xs : list Z) : Z := foldr Z.add 0 xs.

Lemma total_bound xs : Forall (in_u 64) xs -> 0 <= total xs.
Proof. induction 1 as [|x xs [Hx _] _ IH]; unfold total in *; cbn; lia. Qed.

Lemma record_all_run xs : forall s, Forall (in_u 64) xs -> in_u 64 (count s) -> in_u 64 (sum s) ->
  let s' := record_all xs s in
  count s' = u64 (count s + Z.of_nat (length xs)) /\ sum s' = u64 (sum s + total xs) /\
  min s' = foldr Z.min (min s) xs /\ max s' = foldr Z.max (max s) xs.
Proof.
  induction xs as [|x xs IH]; intros s Hx Hc Hs; cbn [record_all fold_left length total foldr].
  { rewrite !Z.add_0_r, !wrap_small by done. done. }
  apply list.Forall_cons in Hx as [Hx Hxs]. destruct (IH (record x s) Hxs) as (C & S & Mi & Ma); [apply wrap_range; lia..|].
  unfold record_all in *. rewrite C, S, Mi, Ma. cbn [record count sum min max]. rewrite !wrap_add_l. unfold total.
  assert (forall (f : Z -> Z -> Z), (forall a b c, f a (f b c) = f b (f a c)) -> forall a b, foldr f (f a b) xs = f a (foldr f b xs)) as Hf.
  { intros f Hcomm a b. clear -Hcomm. induction xs as [|y ys IH]; cbn; [done|]. by rewrite IH, Hcomm. }
  rewrite <- (Hf Z.min), <- (Hf Z.max) by (intros; lia). split_and!; [f_equal; lia..| |]; f_equal; case_match; lia.
Qed.

Lemma foldr_choice (f : Z -> Z -> Z) : (forall a b, f a b = a \/ f a b = b) -> forall xs b, foldr f b xs = b \/ foldr f b xs ∈ xs.
Proof.
  intros Hf xs b. induction xs as [|x xs IH]; cbn; [by left|]. destruct (Hf x (foldr f b xs)) as [-> | ->]; [right; by left|].
  destruct IH as [-> |?]; [by left|right; by right].
Qed.

(** What a report shows is exact as long as the cycles add up to less than 2^64: the number
    of samples, their sum, the least and the greatest of them; with no sample, which the
    report says instead, nothing else is looked at. *)
Theorem cyclestats_exact xs : Forall (in_u 64) xs -> total xs < 2 ^ 64 -> Z.of_nat (length xs) < 2 ^ 64 ->
  let s := record_all xs fresh in
  count s = Z.of_nat (length xs) /\ sum s = total xs /\
  (xs <> [] -> min s ∈ xs /\ max s ∈ xs /\ Forall (fun x => min s <= x <= max s) xs).
Proof.
  intros Hx Ht Hl. pose proof (total_bound xs Hx) as Hb. destruct (record_all_run xs fresh Hx) as (C & S & Mi & Ma); [done..|].
  cbn zeta. rewrite C, S, Mi, Ma. cbn [fresh count sum min max]. rewrite !Z.add_0_l, !wrap_small by (unfold in_u; lia). do 2 (split; [done|]). clear -Hx.
  pose proof (foldr_choice Z.min ltac:(intros; lia) xs) as Hmi. pose proof (foldr_choice Z.max ltac:(intros; lia) xs) as Hma.
  assert (Forall (fun x => foldr Z.min (2 ^ 64 - 1) xs <= x <= foldr Z.max 0 xs) xs) as Hr.
  { clear. induction xs as [|x xs IH]; constructor; cbn [foldr]; [lia|]. eapply list.Forall_impl; [exact IH|]. cbn. lia. }
  intros Hne. destruct xs as [|x xs]; [done|]. pose proof (proj1 (list.Forall_forall _ _) Hr x ltac:(by left)) as Hx0. pose proof (proj1 (list.Forall_forall _ _) Hx x ltac:(by left)) as Hu. unfold in_u in Hu.
  split_and!; [| |done].
  - destruct (Hmi (2 ^ 64 - 1)) as [E|?]; [|done]. rewrite E in *. replace (2 ^ 64 - 1) with x by lia. by left.
  - destruct (Hma 0) as [E|?]; [|done]. rewrite E in *. replace 0 with x by lia. by left.
Qed.
End Profiling.

(** ** A simulated machine

    Eight cores; calls that ask for what there is succeed. *)

Record machine := mk_machine { m_attrs : gmap Z attr; m_clock : Z; m_stop : bool; m_env : list (string * string) }.

Definition sim_cores : gset Z := {[0; 1; 2; 3; 4; 5; 6; 7]}.
Definition set_attrs (x : gmap Z attr) (w : machine) : machine := mk_machine x (m_clock w) (m_stop w) (m_env w).

#[export] Instance sim_ThreadSys : ThreadSys machine := {|
  mlockall w := (0, w);
  signal_stop w := w;
  getenv n w := p ← list_find (fun e => e.1 = n) (m_env w); Some p.2.2;
  sleep_ms ms w := mk_machine (m_attrs w) (m_clock w + Z.max 0 ms) (m_stop w) (m_env w);
  thread me w := match m_attrs w !! me with
    | Some a => let t := fresh (dom (m_attrs w)) in (Some t, set_attrs (<[t := a]> (m_attrs w)) w)
    | None => (None, w)
    end;
  setaffinity me s w := match m_attrs w !! me with
    | Some a => if decide (s ∩ sim_cores = ∅) then (22, w) else (0, set_attrs (<[me := mk_attr (s ∩ sim_cores) (a_policy a) (a_prio a)]> (m_attrs w)) w)
    | None => (3, w)
    end;
  setscheduler me q n w := match m_attrs w !! me with
    | Some a => (0, set_attrs (<[me := mk_attr (a_cores a) q n]> (m_attrs w)) w)
    | None => (3, w)
    end;
  stop_requested := m_stop;
  request_stop w := mk_machine (m_attrs w) (m_clock w) true (m_env w);
|}.

#[local] Obligation Tactic := idtac.

#[export] Program Instance sim_ThreadLaws : ThreadLaws machine := {|
  attrs := m_attrs; clock := m_clock; online := sim_cores;
|}.
Next Obligation. done. Qed.
Next Obligation. done. Qed.
Next Obligation. intros ms me w. cbn. split_and!; [done|done|lia]. Qed.
Next Obligation. done. Qed.
Next Obligation.
  intros me w. cbn. destruct (m_attrs w !! me) as [a|]; [|done]. cbn. do 2 (split; [done|]). split; [apply is_fresh|by exists a].
Qed.
Next Obligation.
  intros me s w. cbn. destruct (m_attrs w !! me) as [a|]; [|done]. case_decide; [done|]. cbn. do 2 (split; [done|]). by exists a.
Qed.
Next Obligation.
  intros me s w [a Ha] Hs. cbn. cbn in Ha. rewrite Ha. by rewrite decide_False.
Qed.
Next Obligation.
  intros me q n w. cbn. destruct (m_attrs w !! me) as [a|]; [|done]. cbn. do 2 (split; [done|]). by exists a.
Qed.
Next Obligation. intros n w. cbn. do 3 (split; [done|]). intros me. by destruct (m_attrs w !! me). Qed.
Next Obligation. done. Qed.

(** The main thread, on all cores. *)
Definition sim_machine : machine := mk_machine {[1 := mk_attr sim_cores SCHED_OTHER 0]} 0 false [].

Lemma watchdog_stops_witness : exists w', watchdog 1 15 sim_machine = (Done tt, w') /\ stop_requested w' = true /\ 0 + 1000 * 15 <= clock w'.
Proof. exact (watchdog_stops 1 15 sim_machine (mk_attr sim_cores SCHED_OTHER 0) eq_refl). Defined.

Lemma runtime_setup_spec_witness : exists w' a', runtimeSetup 1 2 0 sim_machine = (Done tt, w') /\ attrs w' !! 1 = Some a' /\ a_cores a' = {[2]} /\ dom (attrs w') = dom (attrs sim_machine).
Proof.
  pose proof (runtime_setup_spec 1 2 0 sim_machine (mk_attr sim_cores SCHED_OTHER 0) eq_refl) as H. cbn [sim_machine] in H.
  destruct (runtimeSetup 1 2 0 sim_machine) as [[[]|m| | |] w']; [|by destruct H as [? _]|done..].
  destruct H as (a' & H1 & H2 & _ & H3). exists w', a'. split; [done|]. split; [done|]. split; [|exact H3].
  eapply pinned_online; [| |exact H2]; [by_decision|]. cbn. unfold sim_cores. set_solver.
Defined.

Lemma sim_bench_threads : exists ts w', bench_threads 1 (sim_cfg 64) sim_machine = (Done ts, w').
Proof.
  assert (match fst (bench_threads 1 (sim_cfg 64) sim_machine) with Done _ => true | _ => false end = true) as H by (vm_compute; reflexivity).
  destruct (bench_threads 1 (sim_cfg 64) sim_machine) as [[ts|m| | |] w']; try done. by exists ts, w'.
Qed.

(** The histogram's thread on core 4, the receiver on core 3, the sender on core 2. *)
Lemma bench_threads_isolated_witness : exists hist rx tx w', bench_threads 1 (sim_cfg 64) sim_machine = (Done (hist, rx, tx), w') /\
  NoDup [hist; rx; tx] /\ a_cores <$> attrs w' !! hist = Some {[4]} /\ a_cores <$> attrs w' !! rx = Some {[3]} /\ a_cores <$> attrs w' !! tx = Some {[2]}.
Proof.
  pose proof (bench_threads_isolated 1 (sim_cfg 64) sim_machine (mk_attr sim_cores SCHED_OTHER 0) eq_refl) as H.
  destruct sim_bench_threads as ([[h r] t] & w' & E). rewrite E in H. destruct H as (Hn & _ & _ & _ & Hc). exists h, r, t, w'.
  inversion_clear Hc as [|? ? ? ? H1 Hc']. inversion_clear Hc' as [|? ? ? ? H2 Hc'']. inversion_clear Hc'' as [|? ? ? ? H3 _].
  split_and!; [done|done|apply H1|apply H2|apply H3]; first [by_decision|set_solver].
Defined.

Lemma cyclestats_exact_witness : let s := Profiling.record_all [300; 120; 250] Profiling.fresh in
  Profiling.count s = 3 /\ Profiling.sum s = 670 /\ Profiling.min s ∈ [300; 120; 250].
Proof.
  destruct (Profiling.cyclestats_exact [300; 120; 250]) as (H1 & H2 & H3 & _); [by_decision|reflexivity|reflexivity|done|]. by split_and!.
Defined.
