(* ===== verification/Objects.v ===== *)
(** * The objects the dispatcher builds (app/TransportTraits.hpp and the classes under backends/)

    The static assertions of the transports' classes with the arguments the traits give them,
    and that these meet what the theorems on the rings assume of sizes: no transport runs
    outside the domain it is proved for. *)

From S2P Require Import Prelude TestConfig SocketOps Dispatch.
From S2P Require AFXDP AFXDPSetup Verbs VerbsSetup I210 I210Setup DPDK EfVi.
Open Scope Z_scope.
Open Scope bool_scope.
#[local] Existing Instance AFXDP.AFXDPMode_eq_dec.

(** ** Static assertions *)

Definition AFXDP_asserts (mode : AFXDP.AFXDPMode) (NumRxFrames NumTxFrames FrameSize : Z) : bool :=
  (bool_decide (mode = AFXDP.TxOnly) || ((8 <=? NumRxFrames) && pow2_test NumRxFrames)) &&
  (bool_decide (mode = AFXDP.RxOnly) || ((8 <=? NumTxFrames) && pow2_test NumTxFrames)) &&
  ((FrameSize =? 2048) || (FrameSize =? 4096)) &&
  (negb (AFXDPSetup.HAS_TX mode) || pow2_test (AFXDPSetup.TX_POOL_FRAMES mode NumTxFrames)).

Definition I210_asserts (mode : I210Setup.DriverMode) (NumRxDesc NumTxDesc BuffSize : Z) : bool :=
  (match mode with I210Setup.TxOnly => true | _ => (8 <=? NumRxDesc) && pow2_test NumRxDesc end) &&
  (match mode with I210Setup.RxOnly => true | _ => (8 <=? NumTxDesc) && pow2_test NumTxDesc end) &&
  ((BuffSize =? 256) || (BuffSize =? 512) || (BuffSize =? 1024) || (BuffSize =? 2048)).

Definition Verbs_asserts (SqDepth SignalEvery : Z) : bool := pow2_test SignalEvery && (SignalEvery * 4 <=? SqDepth).

Definition DPDK_asserts (c : DPDK.config) : bool := (1 <=? DPDK.BurstSize c) && (DPDK.BurstSize c <? DPDK.NumMbufs c).

Definition kCtpioUserThresholdBits : Z := 12.

(** The least batch is a constant of the library. *)
Definition EfVi_asserts (EF_VI_EVENT_POLL_MIN_EVS : Z) (c : EfVi.config) : bool :=
  pow2_test (EfVi.NbTxBufs c) && pow2_test (EfVi.NbRxBufs c) && (EfVi.NbRxBufs c mod 8 =? 0) && (64 <=? EfVi.BufSize c) &&
  (EF_VI_EVENT_POLL_MIN_EVS <=? EfVi.kEvPollBatch) &&
  (negb (EfVi.kX2522Plus c) || (EfVi.HwTimestamps c && EfVi.UseCtpio c)) &&
  (negb (EfVi.kX2522Plus c) || (EfVi.CtThreshold c <? 2 ^ kCtpioUserThresholdBits)).

(** The two on the i40e policy. *)
Definition i40e_asserts : bool := negb (kI40eNoItr && kI40eItrProbe) && (kI40eNoItr || kI40eAlsoClearItr || kI40eItrProbe).

(** ** What they are worth

    They give the rings' theorems their sizes, except that zero passes the test for a power
    of two where no minimum is asserted (ef_vi's buffers, verbs' signal period). *)

Lemma AFXDP_asserts_tx mode nrx ntx fsz : AFXDP_asserts mode nrx ntx fsz = true -> mode <> AFXDP.RxOnly ->
  is_pow2 (AFXDPSetup.TX_POOL_FRAMES mode ntx) /\ 8 <= AFXDPSetup.TX_POOL_FRAMES mode ntx /\ 0 < fsz <= 4096.
Proof.
  unfold AFXDP_asserts, AFXDPSetup.TX_POOL_FRAMES, AFXDPSetup.HAS_TX. intros H Hm. rewrite (bool_decide_eq_false_2 (mode = AFXDP.RxOnly)) in * by done. cbn [negb orb] in *.
  rewrite !andb_true_iff, !orb_true_iff, !Z.eqb_eq in H. destruct H as (((_ & H1 & H2) & H3) & _). apply Z.leb_le in H1.
  split; [apply pow2_test_sound; [lia|done]|]. lia.
Qed.

Lemma I210_asserts_tx mode nrx ntx b : I210_asserts mode nrx ntx b = true -> mode <> I210Setup.RxOnly -> is_pow2 ntx /\ 8 <= ntx /\ 0 < b < 2 ^ 16.
Proof.
  unfold I210_asserts. rewrite !andb_true_iff, !orb_true_iff, !Z.eqb_eq. intros [[_ H] Hb] Hm.
  assert (8 <= ntx /\ pow2_test ntx = true) as [H8 Hp] by (destruct mode; rewrite ?andb_true_iff, ?Z.leb_le in H; done).
  split; [apply pow2_test_sound; [lia|done]|]. lia.
Qed.

Lemma Verbs_asserts_sq SD SE : Verbs_asserts SD SE = true -> 0 < SE -> is_pow2 SE /\ SE * 4 <= SD.
Proof. unfold Verbs_asserts. rewrite andb_true_iff, Z.leb_le. intros [H1 H2] Hp. split; [by apply pow2_test_sound|done]. Qed.

(** Zero slips through. *)
Example Verbs_asserts_zero : Verbs_asserts 256 0 = true.
Proof. reflexivity. Qed.

Lemma EfVi_asserts_rings m c : EfVi_asserts m c = true -> 0 < EfVi.NbTxBufs c -> 0 < EfVi.NbRxBufs c ->
  is_pow2 (EfVi.NbTxBufs c) /\ is_pow2 (EfVi.NbRxBufs c) /\ 8 <= EfVi.NbRxBufs c /\ 64 <= EfVi.BufSize c /\
  (EfVi.kX2522Plus c = true -> EfVi.HwTimestamps c = true /\ EfVi.UseCtpio c = true /\ EfVi.CtThreshold c < 2 ^ kCtpioUserThresholdBits).
Proof.
  unfold EfVi_asserts. rewrite !andb_true_iff, !orb_true_iff, !andb_true_iff, Z.eqb_eq, !Z.leb_le, Z.ltb_lt. intros ((((((H1 & H2) & H3) & H4) & _) & H5) & H6) Ht Hr.
  split; [by apply pow2_test_sound|]. split; [by apply pow2_test_sound|]. split; [apply Z.mod_divide in H3 as [k Hk]; lia|]. split; [done|].
  intros Hx. rewrite Hx in *. destruct H5 as [?|[? ?]]; [done|]. by destruct H6.
Qed.

(** ** The objects *)

Definition xdp_mode (m : Mode) : AFXDP.AFXDPMode := match m with TxOnly => AFXDP.TxOnly | RxOnly => AFXDP.RxOnly | RxTx => AFXDP.RxTx end.

(** The template's arguments, where the traits leave the default. *)
Definition afxdp_NumRxFrames : Z := 2048.
Definition afxdp_NumTxFrames : Z := 2048.
Definition afxdp_FrameSize : Z := 4096.
Definition i210_NumRxDesc : Z := 256.
Definition i210_NumTxDesc : Z := 256.
Definition i210_BuffSize : Z := 2048.
Definition verbs_SqDepth : Z := 256.
Definition verbs_RqDepth : Z := 8192.
Definition verbs_SignalEvery : Z := 64.
Definition verbs_MaxInline : Z := 128.
Definition verbs_MaxFrame : Z := 2048.

Definition dpdk_config (RTE_MBUF_DEFAULT_DATAROOM : Z) (m : Mode) : DPDK.config :=
  DPDK.mk_config (match m with TxOnly => DPDK.TxOnly | RxOnly => DPDK.RxOnly | RxTx => DPDK.RxTx end) 0 256 256 32 8191 RTE_MBUF_DEFAULT_DATAROOM.

Definition efvi_config (m : Mode) (nbRxBufs nbTxBufs bufSize ctThreshold : Z) (useCtpio hwTs : bool) (tuning : EfViTuning) : EfVi.config :=
  EfVi.mk_config (match m with TxOnly => EfVi.TxOnly | RxOnly => EfVi.RxOnly | RxTx => EfVi.RxTx end)
    nbRxBufs nbTxBufs bufSize ctThreshold useCtpio hwTs (match tuning with X2522Plus => true | Generic => false end).

(** The class compiles with its arguments, and these are in the domain of the theorems on its
    rings: [PacketMmap] (second version of the ring headers), [AFXDP], [DPDK], [Verbs],
    [EfViRx], [EfViPlus] and [I210]. *)
Definition in_domain (dataroom min_evs : Z) (n : Nic) : Prop :=
  match n with
  | PacketMmapNic rc => packetVersion rc = TPACKET_V2
  | AfxdpNic m _ _ _ => let m := xdp_mode m in
      AFXDP_asserts m afxdp_NumRxFrames afxdp_NumTxFrames afxdp_FrameSize = true /\
      (m <> AFXDP.RxOnly -> is_pow2 (AFXDPSetup.TX_POOL_FRAMES m afxdp_NumTxFrames) /\ AFXDPSetup.TX_POOL_FRAMES m afxdp_NumTxFrames <= 2 ^ 31) /\
      AFXDPSetup.RX_POOL_FRAMES m afxdp_NumRxFrames <= AFXDPSetup.FILL_SIZE afxdp_NumRxFrames /\ 0 < afxdp_FrameSize <= 4096
  | DpdkNic m _ _ _ => let c := dpdk_config dataroom m in
      DPDK_asserts c = true /\ 1 <= DPDK.BurstSize c < 2 ^ 16 /\ DPDK.NbTxDesc c + 2 <= DPDK.REFCNT_LOW /\ 0 <= DPDK.MaxFrame c < 2 ^ 16
  | VerbsNic m _ =>
      Verbs_asserts verbs_SqDepth verbs_SignalEvery = true /\ is_pow2 verbs_SignalEvery /\ verbs_SqDepth < 2 ^ 16 /\
      is_pow2 verbs_RqDepth /\ verbs_RqDepth < 2 ^ 16 /\ 0 < verbs_MaxInline <= verbs_MaxFrame /\ verbs_MaxFrame < 2 ^ 16
  | EfViNic m r b s t ct ts tu _ => let c := efvi_config m r b s t ct ts tu in
      EfVi_asserts min_evs c = true /\ is_pow2 (EfVi.NbTxBufs c) /\ is_pow2 (EfVi.NbRxBufs c) /\ EfVi.NbTxBufs c < 2 ^ 16 /\
      8 <= EfVi.NbRxBufs c < 2 ^ 16 /\ 64 <= EfVi.BufSize c < 2 ^ 32 /\ EfVi.kX2522Plus c = true
  | I210Nic _ _ _ =>
      I210_asserts I210Setup.RxTx i210_NumRxDesc i210_NumTxDesc i210_BuffSize = true /\
      is_pow2 i210_NumRxDesc /\ is_pow2 i210_NumTxDesc /\ 8 <= i210_NumRxDesc < 2 ^ 16 /\ 8 <= i210_NumTxDesc < 2 ^ 16 /\ 0 < i210_BuffSize < 2 ^ 16
  end.

(** Every object the traits of a transport make. *)
Definition objects (t : Transport) (cfg : TestConfig) (role : RoleConfig) : list Nic :=
  [makeTx t cfg role; makeRx t cfg role; makeSingleTx t cfg role; makeSingleRx t cfg role] ++ option_list (makeRxTx t cfg role).

(** Whatever transport, configuration and role, every object the traits construct is one its
    class accepts and its rings are proved for. *)
Theorem dispatch_objects_in_domain t cfg role dataroom min_evs : 0 <= dataroom < 2 ^ 16 -> min_evs <= EfVi.kEvPollBatch ->
  Forall (in_domain dataroom min_evs) (objects t cfg role).
Proof.
  intros Hd Hm. assert (forall n, pow2_test n = true -> 0 < n -> is_pow2 n) as Hp by (intros; by apply pow2_test_sound).
  assert (forall m s, in_domain dataroom min_evs (AfxdpNic m s (TestConfig.interface role) (xdpQueueId role))) as HX.
  { intros [] s; (split; [reflexivity|]); (split; [intros; first [done|split; [by apply Hp|done]]|done]). }
  assert (forall m d, in_domain dataroom min_evs (DpdkNic m (TestConfig.interface role) d (driver role))) as HD by (intros [] d; split_and!; try done; cbn; lia).
  assert (forall m, in_domain dataroom min_evs (VerbsNic m (TestConfig.interface role))) as HV by (intros m; split_and!; try done; by apply Hp).
  assert (forall m, in_domain dataroom min_evs (EtherFabricTraits.object m (TestConfig.interface role))) as HE.
  { intros m. split; [|split_and!; try done; by apply Hp]. unfold EfVi_asserts. rewrite (proj2 (Z.leb_le min_evs _)) by done. by destruct m. }
  assert (in_domain dataroom min_evs (I210Traits.makeRxTx role)) as HI by (split_and!; try done; by apply Hp).
  unfold objects. destruct t; rewrite list.Forall_app; (split; [repeat (apply list.Forall_cons_2; [|])|]); try apply list.Forall_nil_2;
    first [apply HX|apply HD|apply HV|apply HE|apply HI|reflexivity|apply list.Forall_singleton; first [apply HX|apply HD|apply HV|apply HE|apply HI]].
Qed.

Theorem i40e_policy_stated : i40e_asserts = true.
Proof. reflexivity. Qed.
