(* ===== verification/Main.v ===== *)
(** * The program (src/test/main.cpp)

    The command line, and [main]: configuration, tuners, run-time set-up and dispatch put
    together, over one world in which each of them has its calls.  What a run prints about
    itself is left out. *)

From S2P Require Import Prelude CStrings Files TestConfig Dispatch Runtime.
From S2P Require NicTuner.
Open Scope string_scope.
Open Scope Z_scope.

(** ** The command line *)

Record CliArgs := mk_cli { configPath : string; runMode : RunMode; useServerRole : bool; countOverride : Z; valid : bool }.

Definition cli_init : CliArgs := mk_cli "abtrda3_test.toml" Server false (-1) false.

Definition set_path (p : string) (a : CliArgs) : CliArgs := mk_cli p (runMode a) (useServerRole a) (countOverride a) (valid a).
Definition set_mode (m : RunMode) (server : bool) (a : CliArgs) : CliArgs := mk_cli (configPath a) m server (countOverride a) true.
Definition set_count (n : Z) (a : CliArgs) : CliArgs := mk_cli (configPath a) (runMode a) (useServerRole a) n (valid a).

Definition atoll (s : string) : Z := strtol10_value s.

(** The loop over the arguments; [valid] stands for [haveMode] as well. *)
Fixpoint parse_from (a : CliArgs) (args : list string) : CliArgs :=
  match args with
  | [] => a
  | arg :: rest =>
      let plain := parse_from
        (if String.eqb arg "--server" then set_mode Server true a
         else if String.eqb arg "--client" then set_mode Client false a
         else if String.eqb arg "--txgen" then set_mode TxGen false a
         else if String.eqb arg "--rxsink" then set_mode RxSink true a
         else if String.eqb arg "--single" then set_mode SingleRecorder false a
         else a) rest in
      match rest with
      | value :: rest' =>
          if String.eqb arg "--config" then parse_from (set_path value a) rest'
          else if String.eqb arg "--count" then parse_from (set_count (atoll value) a) rest'
          else plain
      | [] => plain
      end
  end.

Definition parseCli (argv : list string) : CliArgs := parse_from cli_init (tail argv).

(** ** [main] *)

Definition tuner_mode (m : NicTunerMode) : NicTuner.NicTunerMode :=
  match m with Off => NicTuner.Off | NfsSafe => NicTuner.NfsSafe | Full => NicTuner.Full end.

Section Main.
Context {W T : Type} {FS : FileSys W} {TS : NicTuner.TunerSys W} {HS : ThreadSys W} {TM : Toml T}.
Context (parse_file : string -> W -> option T * W) (do : forall A, call A -> M W A) (b : Build) (me : Z) (fuel : nat).

(** [try ... catch (const std::exception&)] *)
Definition catch {A} (m : M W A) : M W (option A) := fun w =>
  match m w with
  | (Done a, w') => (Done (Some a), w')
  | (Throw _, w') => (Done None, w')
  | (o, w') => (recast o, w')
  end.

(** No answer for a file that does not parse, or a configuration that is refused. *)
Definition try_load (path : string) : M W (option TestConfig) :=
  tbl ← lift (parse_file path);
  match tbl with None => mret None | Some tbl => catch (loadConfig tbl) end.

(** [std::optional<NicTuner>]: empty, or the socket of the tuner. *)
Definition emplace (cfg : TestConfig) (interface : string) (core : Z) : M W (option Z) :=
  if decide (nicTunerMode cfg = Off) then mret None else
  fd ← NicTuner.nicTuner fuel interface core (tuner_mode (nicTunerMode cfg)); mret (Some fd).
Definition reset (t : option Z) : M W unit := match t with Some fd => NicTuner.nicTuner_dtor fd | None => mret tt end.

Definition run_single (cfg : TestConfig) : M W Z :=
  txTuner ← emplace cfg (TestConfig.interface (client cfg)) (recHotPathCore cfg);
  rxTuner ← emplace cfg (TestConfig.interface (server cfg)) (recRecorderCore cfg);
  runtimeSetup me (recHotPathCore cfg) 0 ;;
  code ← runSingleRecorder do b cfg;
  reset rxTuner ;; reset txTuner ;; mret code.

Definition run_role (cfg : TestConfig) (args : CliArgs) : M W Z :=
  let role := if useServerRole args then server cfg else client cfg in
  let count := if 0 <=? countOverride args then u32 (countOverride args) else clientCount cfg in
  tuner ← emplace cfg (TestConfig.interface role) (cpuCore role);
  runtimeSetup me (cpuCore role) (watchdogSec cfg) ;;
  code ← runTransport do b cfg role (runMode args) count;
  reset tuner ;; mret code.

Definition main (argv : list string) : M W Z :=
  if Z.of_nat (length argv) <? 2 then mret 1 else
  let args := parseCli argv in
  if negb (valid args) then mret 1 else
  cfg ← try_load (configPath args);
  match cfg with
  | None => mret 1
  | Some cfg => if decide (runMode args = SingleRecorder) then run_single cfg else run_role cfg args
  end.
End Main.

(** ** Properties: the command line *)

(** An option as it is meant, how it is written, and what it does. *)
Inductive cli_option := OMode (m : RunMode) | OConfig (path : string) | OCount (n : Z) | OOther (s : string).

Definition flag (m : RunMode) : string :=
  match m with Server => "--server" | Client => "--client" | TxGen => "--txgen" | RxSink => "--rxsink" | SingleRecorder => "--single" end.
Definition server_side (m : RunMode) : bool := match m with Server | RxSink => true | _ => false end.

Definition render (o : cli_option) : list string :=
  match o with OMode m => [flag m] | OConfig p => ["--config"; p] | OCount n => ["--count"; dec n] | OOther s => [s] end.

Definition option_ok (o : cli_option) : Prop :=
  match o with
  | OCount n => 0 <= n < 2 ^ 63
  | OOther s => s ∉ ["--config"; "--count"; "--server"; "--client"; "--txgen"; "--rxsink"; "--single"]
  | _ => True
  end.

Definition apply_option (a : CliArgs) (o : cli_option) : CliArgs :=
  match o with OMode m => set_mode m (server_side m) a | OConfig p => set_path p a | OCount n => set_count n a | OOther _ => a end.

Lemma atoll_dec n : 0 <= n < 2 ^ 63 -> atoll (dec n) = n.
Proof.
  intros Hn. unfold atoll, strtol10_value. assert (dec n = dec n ++ "") as -> by (generalize (dec n); intros s; induction s as [|c s IH]; [done|exact (f_equal (String c) IH)]).
  by rewrite strtol10_dec.
Qed.

Lemma parse_other s : option_ok (OOther s) -> forall a rest, parse_from a (s :: rest) = parse_from a rest.
Proof.
  cbn [option_ok]. intros Hs a rest. rewrite !not_elem_of_cons in Hs. destruct Hs as (H1 & H2 & H3 & H4 & H5 & H6 & H7 & _).
  cbn [parse_from]. rewrite !(proj2 (String.eqb_neq s _)) by done. by destruct rest.
Qed.

(** C40: Every command line made of the documented options, in any order, with anything
    unknown between them, is understood as meant: the last mode, configuration file and count
    given, and valid exactly if there is a mode. *)
Theorem cli_roundtrip argv0 opts : Forall option_ok opts ->
  let a := parseCli (argv0 :: concat (render <$> opts)) in
  a = foldl apply_option cli_init opts /\ (valid a = true <-> exists m, OMode m ∈ opts).
Proof.
  intros Ho. unfold parseCli. cbn [tail].
  assert (forall a, parse_from a (concat (render <$> opts)) = foldl apply_option a opts) as Hp.
  { induction Ho as [|o opts Hok _ IH]; intros a; [done|]. cbn [fmap list_fmap concat foldl]. destruct o as [m|p|n|s]; cbn [render app].
    - rewrite <- IH. cbn [parse_from]. destruct m; by destruct (concat _).
    - by rewrite <- IH.
    - rewrite <- IH. cbn [parse_from String.eqb]. cbn. by rewrite atoll_dec.
    - rewrite parse_other by done. apply IH. }
  rewrite Hp. split; [done|]. clear Hp Ho.
  assert (forall a, valid (foldl apply_option a opts) = true <-> valid a = true \/ exists m, OMode m ∈ opts) as Hv.
  { induction opts as [|o opts IH]; intros a; cbn [foldl].
    - split; [by left|]. intros [?|(m & Hm)]; [done|by apply not_elem_of_nil in Hm].
    - rewrite IH. setoid_rewrite elem_of_cons. destruct o as [m|p|n|s]; cbn; split; try (intros [?|(x & ?)]; [by left|right; exists x; by right]);
        try (intros [?|(x & [?|?])]; [by left|done|right; by exists x]).
      + intros _. right. exists m. by left.
      + intros _. by left. }
  rewrite Hv. split; [by intros [?|?]|by right].
Qed.

Lemma cli_roundtrip_witness : parseCli ["abtrda3_test"; "--client"; "-v"; "--count"; "500"; "--config"; "rig.toml"] = mk_cli "rig.toml" Client false 500 true.
Proof.
  destruct (cli_roundtrip "abtrda3_test" [OMode Client; OOther "-v"; OCount 500; OConfig "rig.toml"]) as [H _].
  - repeat constructor; try done. by_decision.
  - exact H.
Defined.

(** ** Properties: the whole run *)

(** What is not the tuners' own leaves the open files alone, and answers or throws. *)
Class Apart (W : Type) `{FileLaws W, ThreadSys W} {T} (parse_file : string -> W -> option T * W) (do : forall A, call A -> M W A) := {
  parse_apart p w : handles (snd (parse_file p w)) = handles w;
  do_apart A c w : match do A c w with (Done _, w') | (Throw _, w') => handles w' = handles w | _ => False end;
  mlockall_apart w : handles (snd (mlockall w)) = handles w;
  signal_apart w : handles (signal_stop w) = handles w;
  sleep_apart ms w : handles (sleep_ms ms w) = handles w;
  thread_apart t w : handles (snd (thread t w)) = handles w;
  affinity_apart t s w : handles (snd (setaffinity t s w)) = handles w;
  scheduler_apart t q n w : handles (snd (setscheduler t q n w)) = handles w;
}.

Section Balance.
Context {W T : Type} {FS : FileSys W} {FL : FileLaws W} {TS : NicTuner.TunerSys W} {HS : ThreadSys W} {TM : Toml T}.
Context (parse_file : string -> W -> option T * W) (do : forall A, call A -> M W A) {AP : Apart W parse_file do}.
Context (depth fuel : nat) {TL : NicTuner.TunerLaws depth W} (enough : (depth <= fuel)%nat) (b : Build) (me : Z).

(** [m] ends, with a value or an exception, and opens and closes nothing for good. *)
Definition tidy {A} (m : M W A) : Prop := forall w, match m w with (Done _, w') | (Throw _, w') => handles w' = handles w | _ => False end.

Lemma tidy_ret {A} (a : A) : tidy (mret a).
Proof. done. Qed.
Lemma tidy_raise {A} (e : string) : tidy (raise (A := A) (Throw e)).
Proof. done. Qed.
Lemma tidy_do {A} (c : call A) : tidy (do A c).
Proof. intros w. apply do_apart. Qed.
Lemma tidy_lift {A} (f : W -> A * W) : (forall w, handles (snd (f w)) = handles w) -> tidy (lift f).
Proof. intros Hf w. specialize (Hf w). unfold lift. by destruct (f w). Qed.
Lemma tidy_modify (f : W -> W) : (forall w, handles (f w) = handles w) -> tidy (modify f).
Proof. intros Hf w. apply Hf. Qed.
Lemma tidy_bind {A B} (m : M W A) (f : A -> M W B) : tidy m -> (forall a, tidy (f a)) -> tidy (m ≫= f).
Proof. intros Hm Hf w. rewrite bind_unfold. specialize (Hm w). destruct (m w) as [[a| | | |] w']; try done. specialize (Hf a w'). by rewrite Hm in Hf. Qed.
Lemma tidy_catch {A} (m : M W A) : tidy m -> tidy (catch m).
Proof. intros Hm w. specialize (Hm w). unfold catch. by destruct (m w) as [[a| | | |] w']. Qed.

Ltac tidy_step :=
  first
    [ apply tidy_ret | apply tidy_raise | apply tidy_do
    | apply tidy_bind; [|intros ?] | apply tidy_catch
    | apply tidy_lift; intros ?; first [apply parse_apart|apply mlockall_apart|apply thread_apart|apply affinity_apart|apply scheduler_apart]
    | apply tidy_modify; intros ?; first [apply signal_apart|apply sleep_apart]
    | match goal with |- tidy (match ?x with _ => _ end) => destruct x end
    | done ].

Lemma load_tidy path : tidy (try_load parse_file path).
Proof. unfold try_load, loadConfig, loadRole, parseMac. repeat tidy_step. Qed.

Lemma setup_tidy core sec : tidy (runtimeSetup me core sec).
Proof. unfold runtimeSetup, spawnWatchdog, spawn, pinToCore, setSchedOther. repeat tidy_step. Qed.

Lemma policy_tidy bdf i tag : tidy (i40eApplyWritebackPolicy do bdf i tag).
Proof. unfold i40eApplyWritebackPolicy, when. repeat tidy_step. Qed.

Lemma pre_tidy n r : tidy (dpdkPreInit do n r).
Proof. unfold dpdkPreInit, when. repeat tidy_step. Qed.

Lemma fixes_keep bdf r : tidy (dpdkPostInitFixes do bdf r).
Proof. unfold dpdkPostInitFixes, when. repeat first [apply policy_tidy|tidy_step]. Qed.

Lemma traits_init_tidy t n cfg r : tidy (traits_init do t n cfg r).
Proof. destruct t; cbn [traits_init]; unfold afxdp_init, dpdk_init, nic_init, when; repeat first [apply policy_tidy|apply pre_tidy|apply fixes_keep|tidy_step]. Qed.

Lemma preflight_tidy t cfg r : tidy (preflight do t cfg r).
Proof. unfold preflight, i210_preflight. repeat tidy_step. Qed.

Lemma runTransport_tidy cfg r mode count : tidy (runTransport do b cfg r mode count).
Proof.
  unfold runTransport, withTransport, runModes, run_one, bringUp, withAux, dispatchMode, scoped. cbv zeta.
  repeat first [apply preflight_tidy|apply traits_init_tidy|tidy_step].
Qed.

Lemma single_tidy cfg : tidy (runSingleRecorder do b cfg).
Proof.
  unfold runSingleRecorder, withTransport, runSingleFor, base_withSinglePair, dpdk_withSinglePair, driveSingleRecorder, scoped. cbv zeta.
  repeat first [apply preflight_tidy|apply traits_init_tidy|apply pre_tidy|apply fixes_keep|tidy_step].
Qed.

Lemma emplace_run cfg i core w : exists t w', emplace fuel cfg i core w = (Done t, w') /\
  (t = None -> handles w' = handles w) /\ forall w1, handles w1 = handles w' -> exists w2, reset t w1 = (Done tt, w2) /\ handles w2 = handles w.
Proof.
  unfold emplace. case_decide as Hoff; [exists None, w; split; [done|]; split; [done|]; intros w1 H1; by exists w1|].
  destruct (NicTuner.nictuner_balanced depth fuel i core (tuner_mode (nicTunerMode cfg)) w enough) as (fd & w' & E & _ & Ho & _).
  exists (Some fd), w'. rewrite (run_bind _ _ _ _ _ E). split; [done|]. split; [done|]. intros w1 H1. cbn [reset]. unfold NicTuner.nicTuner_dtor, modify.
  destruct (Z.ltb_spec fd 0) as [Hn|Hn].
  - exists w1. split; [done|]. rewrite (proj2 (Z.leb_gt _ _)) in Ho by done. by rewrite H1.
  - eexists. split; [done|]. rewrite close_law, H1. rewrite (proj2 (Z.leb_le _ _)) in Ho by done. by apply NicTuner.opened_close in Ho.
Qed.

(** A program that ends or throws, having left the open files as they were. *)
Definition settles {A} (w0 : W) (r : outcome A * W) : Prop :=
  match r with (Done _, w') => handles w' = handles w0 | (Throw _, _) => True | _ => False end.

Lemma settles_tidy {A B} w0 (m : M W A) (f : A -> M W B) w :
  tidy m -> (forall a w', handles w' = handles w -> settles w0 (f a w')) -> settles w0 ((m ≫= f) w).
Proof. intros Hm Hf. rewrite bind_unfold. specialize (Hm w). destruct (m w) as [[a| | | |] w']; try done. by apply Hf. Qed.

Lemma settles_scope {A} w0 cfg i core (body : option Z -> M W A) w :
  (forall t w1 w0', (forall w2, handles w2 = handles w1 -> exists w3, reset t w2 = (Done tt, w3) /\ handles w3 = handles w0') -> handles w0' = handles w0 ->
    settles w0 (body t w1)) -> handles w = handles w0 ->
  settles w0 ((t ← emplace fuel cfg i core; body t) w).
Proof.
  intros Hb Hw. destruct (emplace_run cfg i core w) as (t & w' & E & _ & Hr). rewrite (run_bind _ _ _ _ _ E). by apply (Hb t w' w).
Qed.

End Balance.

(** ** The two tuners of the single-process recorder

    The second is given the core of the histogram's thread, and takes the interrupts of the
    first one's NIC for those of the rest of the machine: it moves them off that core to all
    the others, and off the one core the first had pinned them to. *)
Theorem second_tuner_undoes_first {W} {FS : FileSys W} {FL : FileLaws W} {TS : NicTuner.TunerSys W} depth fuel {TL : NicTuner.TunerLaws depth W} i1 c1 i2 c2 (w : W) :
  (depth <= fuel)%nat ->
  exists nic1 nic2 entries first second w', (NicTuner.pin_irqs fuel i1 c1 ;; NicTuner.pin_irqs fuel i2 c2) w = (Done tt, w') /\
    (nic1 = [] \/ nic1 = NicTuner.nic_irqs i1 (NicTuner.n_interrupts (NicTuner.look w))) /\
    (nic2 = [] \/ nic2 = NicTuner.nic_irqs i2 (NicTuner.n_interrupts (NicTuner.look w))) /\
    (entries = [] \/ entries = NicTuner.n_irqs (NicTuner.look w)) /\
    NicTuner.n_log (NicTuner.look w') = (NicTuner.n_log (NicTuner.look w) ++ first ++ second)%list /\
    forall irq, irq ∈ nic1 -> irq ∈ NicTuner.other_irqs entries nic2 -> NicTuner.irq_path irq ∈ NicTuner.n_files (NicTuner.look w) ->
      (NicTuner.irq_path irq, NicTuner.fit 8 (dec c1)) ∈ first /\
      (NicTuner.irq_path irq, NicTuner.joined (dec <$> filter (fun i => i <> c2) (seqZ 0 (NicTuner.n_cpus (NicTuner.look w))))) ∈ second.
Proof.
  intros Hf. destruct (NicTuner.pin_run depth fuel Hf i1 c1 w) as (nic1 & e1 & w1 & E1 & S1 & N1 & _ & L1).
  destruct (NicTuner.pin_run depth fuel Hf i2 c2 w1) as (nic2 & e2 & w2 & E2 & S2 & N2 & I2 & L2).
  pose proof S1 as (_ & Hfiles & Hirqs & Hints & Hcpus). rewrite Hints in N2. rewrite Hirqs in I2. rewrite Hcpus in L2.
  eexists nic1, nic2, e2, _, _, w2. rewrite (run_bind _ _ _ _ _ E1). split; [exact E2|]. do 3 (split; [done|]).
  split; [rewrite L2, L1, <- app_assoc; reflexivity|]. intros irq Hn Ho Hfile. rewrite (NicTuner.written_still _ _ _ _ S1). split; apply list_elem_of_filter; (split; [exact Hfile|]); apply elem_of_app.
  - left. apply list_elem_of_fmap. by exists irq.
  - right. apply list_elem_of_fmap. by exists irq.
Qed.

(** ** A simulated run

    The tuner's machine, whose threads do nothing and whose calls all succeed. *)
Import NicTuner.Sim.

Example two_tuners : NicTuner.n_log (NicTuner.look (snd ((NicTuner.pin_irqs 9 "eth1" 2 ;; NicTuner.pin_irqs 9 "acpi" 3) sim_start))) =
  [("/proc/irq/16/smp_affinity_list", "2"); ("/proc/irq/17/smp_affinity_list", "2"); ("/proc/irq/9/smp_affinity_list", "0,1,3");
   ("/proc/irq/9/smp_affinity_list", "3"); ("/proc/irq/16/smp_affinity_list", "0,1,2"); ("/proc/irq/17/smp_affinity_list", "0,1,2")].
Proof. by vm_compute. Qed.

Lemma second_tuner_undoes_first_witness : exists (nic1 nic2 : list Z) (entries : list string) (first second : list (string * string)) w',
    (NicTuner.pin_irqs 9 "eth1" 2 ;; NicTuner.pin_irqs 9 "acpi" 3) sim_start = (Done tt, w') /\
    NicTuner.n_log (NicTuner.look w') = (first ++ second)%list /\
    forall irq, irq ∈ nic1 -> irq ∈ NicTuner.other_irqs entries nic2 -> NicTuner.irq_path irq ∈ NicTuner.n_files (NicTuner.look sim_start) ->
      (NicTuner.irq_path irq, NicTuner.fit 8 (dec 2)) ∈ first /\ (NicTuner.irq_path irq, "0,1,2") ∈ second.
Proof.
  destruct (second_tuner_undoes_first 9 9 "eth1" 2 "acpi" 3 sim_start ltac:(lia)) as (nic1 & nic2 & es & l1 & l2 & w' & E & _ & _ & _ & L & H).
  exists nic1, nic2, es, l1, l2, w'. split; [exact E|]. split; [exact L|exact H].
Defined.

#[export] Instance quiet_ThreadSys : ThreadSys nmachine := {|
  mlockall w := (0, w); signal_stop w := w; getenv n w := None; sleep_ms ms w := w; thread t w := (Some 2, w);
  setaffinity t s w := (0, w); setscheduler t q n w := (0, w); stop_requested w := false; request_stop w := w;
|}.

#[export] Instance two_macs : Toml unit := {|
  toml_string _ sec key := if String.eqb key "mac" then Some "02:00:00:00:00:01" else if String.eqb key "interface" then Some "eth1" else None;
  toml_int _ _ _ := None; toml_unsigned _ _ _ := None; toml_bool _ _ _ := None;
|}.

Definition sim_parse (path : string) (w : nmachine) : option unit * nmachine := (if String.eqb path "rig.toml" then Some tt else None, w).

Definition sim_answer {A} (c : call A) : A :=
  match c with
  | EnsureHugepages _ | BoundToI40e _ | AfxdpInit _ _ _ | DpdkPrepare _ _ _ | DpdkInit _ _ _ _ _ | DpdkWaitLink _ | NicInit _ => true
  | ResolveBdf _ => "0000:01:00.0"
  | Construct _ | Destroy _ | RunApp _ | PrintErr _ | Banner _ | ReportItr _ _ _ | I40eClearItr _ _ | I40eSetNoItr _ _ | I40eItrProbe _ _ _ _
  | IgcDisableEee _ _ | SetCoalescingZero _ | DpdkSetLinkSpeeds1G _ | DpdkSetSymmetricQueues _ | DpdkSetDevargs _ _ | DpdkSetTxInlineReuse _
  | DpdkSetNbRxDesc _ _ => tt
  end.
Definition sim_do (A : Type) (c : call A) : M nmachine A := mret (sim_answer c).

#[export] Instance sim_Apart : Apart nmachine sim_parse sim_do.
Proof. by split. Qed.

Definition sim_build : Build := {| HAVE_DPDK := false; HAVE_VERBS := false; HAVE_EFVI := false; HAVE_I210 := false |}.
Definition sim_main (argv : list string) : outcome Z * nmachine := main sim_parse sim_do sim_build 1 9 argv sim_start.

Example main_client : fst (sim_main ["abtrda3_test"; "--client"; "--config"; "rig.toml"]) = Done 0.
Proof. by vm_compute. Qed.
Example main_single : fst (sim_main ["abtrda3_test"; "--single"; "--config"; "rig.toml"]) = Done 0.
Proof. by vm_compute. Qed.
Example main_no_config : fst (sim_main ["abtrda3_test"; "--client"]) = Done 1.
Proof. by vm_compute. Qed.

